(** * MP4 demuxer (src/demux/mp4-demuxer.js): a shallow embedding

    The development follows the source file function by function: the
    byte readers, the static probe, the leaf-box parsers for the sample
    tables, the sample-to-chunk resolver [_samDetails], the timing
    resolver [_timeDetials], [_parseMvhd], [_parseMdhd], [_parseStsd] with
    its AVC decoder configuration record, and the NAL framer
    [_parseAVCVideoData].  Definitions come first, properties after them.

    Conventions.
    - An [ArrayBuffer] is a [list byte]; typed-array and [DataView] reads
      are partial, as in JavaScript: an element read out of range is
      [undefined], a [DataView] read out of range throws [RangeError].
    - Unsigned 32-bit fields read from the file are [Z].  Counters and
      sums of such fields stay far below 2^53 and are therefore exact in
      JavaScript's doubles; they are [Z] or [nat] here.
    - Where the source divides, numbers are IEEE binary64 values
      ([PrimFloat.float]), the number type of JavaScript itself.
    - A thrown exception is the [Throw] case of [result]; the stateful
      functions keep the demuxer state reached when it was thrown.
    - Log lines and callback calls are appended to a trace; the four
      callbacks are taken to be bound, as the owner of a demuxer does
      before feeding it.
    - [le] is [this._littleEndian]; every multi-byte read passes [!le] as
      its little-endian flag, so reads are big-endian where [le] is
      true. *)

From Stdlib Require Import ZArith List Lia Bool String Ascii DecimalString.
From Stdlib Require Import Init.Byte.
From Stdlib Require Import Floats Numbers.Cyclic.Int63.Uint63.
Import ListNotations.
Local Open Scope Z_scope.
Local Open Scope list_scope.

(** ** JavaScript values and exceptions *)

Inductive exn : Type := TypeError | RangeError.

Inductive result (A : Type) : Type :=
| Ok (a : A)
| Throw (e : exn).
Arguments Ok {A} a.
Arguments Throw {A} e.

Definition bind {A B : Type} (m : result A) (k : A -> result B) : result B :=
  match m with
  | Ok a => k a
  | Throw e => Throw e
  end.

Notation "x <- m ;; k" := (bind m (fun x => k))
  (at level 61, m at next level, right associativity).

(** An integer-valued JavaScript number, [NaN], or [undefined]. *)
Inductive jsval : Type :=
| Undefined
| NaN
| Int (z : Z).

(** [a + b] on numbers and [undefined]: [undefined] converts to [NaN],
    and [NaN] is absorbing. *)
Definition js_add (a b : jsval) : jsval :=
  match a, b with
  | Int x, Int y => Int (x + y)
  | _, _ => NaN
  end.

(** ** Bytes and typed arrays *)

Definition byte_val (b : byte) : Z := Z.of_N (Byte.to_N b).

Definition byte_of_Z (z : Z) : byte :=
  match Byte.of_N (Z.to_N z) with
  | Some b => b
  | None => x00
  end.

Definition bytes_of (l : list Z) : list byte := map byte_of_Z l.

(** [array[index]] on a [Uint8Array]: [None] is [undefined]. *)
Definition u8_at (data : list byte) (index : Z) : option Z :=
  if index <? 0 then None
  else option_map byte_val (nth_error data (Z.to_nat index)).

(** ToInt32: wrap into the signed 32-bit range. *)
Definition to_int32 (z : Z) : Z :=
  let m := z mod 2 ^ 32 in
  if m <? 2 ^ 31 then m else m - 2 ^ 32.

(** ToInt32 of an array element: [undefined] becomes 0. *)
Definition elt_int32 (data : list byte) (index : Z) : Z :=
  match u8_at data index with
  | Some b => b
  | None => 0
  end.

Definition js_shl (x n : Z) : Z := to_int32 (Z.shiftl x n).
Definition js_or (a b : Z) : Z := to_int32 (Z.lor a b).

(** [ReadBig32(array, index)] (lines 26-31). *)
Definition ReadBig32 (array : list byte) (index : Z) : Z :=
  js_or (js_or (js_or (js_shl (elt_int32 array index) 24)
                      (js_shl (elt_int32 array (index + 1)) 16))
               (js_shl (elt_int32 array (index + 2)) 8))
        (elt_int32 array (index + 3)).

(** ** The static probe (lines 147-172) *)

Record ProbeData : Type := {
  consumed : Z;
  dataOffset : Z;
  rawDataSize : Z;
  infoOffset : Z;
  hasAudioTrack : bool;
  hasVideoTrack : bool
}.

(** [{match: false}] or [{match: true, ...}]. *)
Inductive ProbeResult : Type :=
| Mismatch
| Match (p : ProbeData).

Definition is_match (r : ProbeResult) : bool :=
  match r with
  | Mismatch => false
  | Match _ => true
  end.

(** [data[i] !== c]: an [undefined] element differs from every number. *)
Definition u8_differs (data : list byte) (i c : Z) : bool :=
  match u8_at data i with
  | Some b => negb (b =? c)
  | None => true
  end.

Definition probe (buffer : list byte) : ProbeResult :=
  let data := buffer in
  let offset1 := ReadBig32 data 0 in
  if u8_differs data 4 0x66 || u8_differs data 5 0x74 ||
     u8_differs data 6 0x79 || u8_differs data 7 0x70
  then Mismatch
  else
    let hasAudio := false in
    let hasVideo := true in
    let offset2 := ReadBig32 data offset1 in
    let dataOffset := offset1 + offset2 in
    let size := ReadBig32 data dataOffset in
    Match {| consumed := dataOffset;
             dataOffset := dataOffset;
             rawDataSize := size;
             infoOffset := dataOffset + size;
             hasAudioTrack := hasAudio;
             hasVideoTrack := hasVideo |}.

(** The big-endian unsigned 32-bit integer held by the four bytes at
    [off], when they are all there. *)
Definition u32be_at (data : list byte) (off : Z) : option Z :=
  match u8_at data off, u8_at data (off + 1),
        u8_at data (off + 2), u8_at data (off + 3) with
  | Some b0, Some b1, Some b2, Some b3 =>
      Some (b0 * 2 ^ 24 + b1 * 2 ^ 16 + b2 * 2 ^ 8 + b3)
  | _, _, _, _ => None
  end.

(** A valid box header at [off]: a big-endian size that counts the eight
    bytes of the header itself (and is no 64-bit extended size), followed
    by the four type bytes. *)
Definition box_header (data : list byte) (off size : Z) (t0 t1 t2 t3 : Z) : Prop :=
  u32be_at data off = Some size /\ (8 <= size < 2 ^ 31) /\
  u8_at data (off + 4) = Some t0 /\ u8_at data (off + 5) = Some t1 /\
  u8_at data (off + 6) = Some t2 /\ u8_at data (off + 7) = Some t3.

Definition ftyp_box (data : list byte) (off size : Z) : Prop :=
  box_header data off size 0x66 0x74 0x79 0x70.

Definition moov_box (data : list byte) (off size : Z) : Prop :=
  box_header data off size 0x6d 0x6f 0x6f 0x76.

(** A 16-byte [ftyp] box (major brand isom, minor version 512) followed by
    an empty 8-byte [moov] box. *)
Definition ftyp_moov_buffer : list byte :=
  bytes_of [0; 0; 0; 16; 0x66; 0x74; 0x79; 0x70;
            0x69; 0x73; 0x6f; 0x6d; 0; 0; 2; 0;
            0; 0; 0; 8; 0x6d; 0x6f; 0x6f; 0x76].

(** ** DataView *)

Record DataView : Type := {
  dv_buffer : list byte;
  dv_byteOffset : Z;
  dv_byteLength : Z
}.

(** [new DataView(buffer, byteOffset, byteLength)]: a window that does not
    fit the buffer is a [RangeError]. *)
Definition new_DataView (buffer : list byte) (byteOffset byteLength : Z)
  : result DataView :=
  if (0 <=? byteOffset) && (0 <=? byteLength) &&
     (byteOffset + byteLength <=? Z.of_nat (List.length buffer))
  then Ok {| dv_buffer := buffer;
             dv_byteOffset := byteOffset;
             dv_byteLength := byteLength |}
  else Throw RangeError.

Definition dv_byte (v : DataView) (i : Z) : Z :=
  byte_val (nth (Z.to_nat (dv_byteOffset v + i)) (dv_buffer v) x00).

Definition dv_in_range (v : DataView) (o n : Z) : bool :=
  (0 <=? o) && (o + n <=? dv_byteLength v).

Definition getUint8 (v : DataView) (o : Z) : result Z :=
  if dv_in_range v o 1 then Ok (dv_byte v o) else Throw RangeError.

Definition getUint16 (v : DataView) (o : Z) (littleEndian : bool) : result Z :=
  if dv_in_range v o 2 then
    Ok (if littleEndian
        then dv_byte v o + dv_byte v (o + 1) * 2 ^ 8
        else dv_byte v o * 2 ^ 8 + dv_byte v (o + 1))
  else Throw RangeError.

Definition getUint32 (v : DataView) (o : Z) (littleEndian : bool) : result Z :=
  if dv_in_range v o 4 then
    Ok (if littleEndian
        then dv_byte v o + dv_byte v (o + 1) * 2 ^ 8 +
             dv_byte v (o + 2) * 2 ^ 16 + dv_byte v (o + 3) * 2 ^ 24
        else dv_byte v o * 2 ^ 24 + dv_byte v (o + 1) * 2 ^ 16 +
             dv_byte v (o + 2) * 2 ^ 8 + dv_byte v (o + 3))
  else Throw RangeError.

(** Every full-box parser starts with the same reads (e.g. lines 813-815):
    [version = v.getUint8(8)] and [flag = v.getUint32(8, !le) & 0xFFFFFF].
    Only their [RangeError] is observable. *)
Definition read_version_flag (le : bool) (v : DataView) : result Z :=
  version <- getUint8 v 8 ;;
  _ <- getUint32 v 8 (negb le) ;;
  Ok version.

(** ** Parsed sample tables *)

Module Stsc.
Record entry : Type := { firstChk : Z; samPerChk : Z; samDesIndex : Z }.
Record t : Type := { entryCount : Z; entries : list entry }.
End Stsc.

Module Stsz.
Record t : Type := {
  sampleSize : Z;
  sampleCount : Z;
  samples : list Z;
  total : Z
}.
End Stsz.

Module Stco.
Record t : Type := { entryCount : Z; entries : list Z }.
End Stco.

Module Stts.
Record entry : Type := { samCount : Z; samDelta : Z }.
(** [entryCount] is [None] when the object has no such property. *)
Record t : Type := { entryCount : option Z; entries : list entry }.
End Stts.

Module Elst.
(** [segDuration] and [mediaTime] are set for version 0 only. *)
Record entry : Type := {
  segDuration : option Z;
  mediaTime : option Z;
  mediaRateInt : Z;
  mediaRateFrac : Z
}.
Record t : Type := { entries : list entry }.
End Elst.

(** ** Leaf-box parsers for the sample tables *)

(** [_parseStsc], the loop of lines 793-802. *)
Fixpoint stsc_loop (le : bool) (v : DataView) (n : nat) (offset : Z)
  (entries : list Stsc.entry) : result (list Stsc.entry) :=
  match n with
  | O => Ok entries
  | S n' =>
      firstChk <- getUint32 v offset (negb le) ;;
      samPerChk <- getUint32 v (offset + 4) (negb le) ;;
      samDesIndex <- getUint32 v (offset + 8) (negb le) ;;
      stsc_loop le v n' (offset + 12)
        (entries ++ [{| Stsc.firstChk := firstChk;
                        Stsc.samPerChk := samPerChk;
                        Stsc.samDesIndex := samDesIndex |}])
  end.

(** [_parseStsc] (lines 779-804). *)
Definition _parseStsc (le : bool) (arrayBuffer : list byte)
  (dataOffset dataSize : Z) : result Stsc.t :=
  v <- new_DataView arrayBuffer dataOffset dataSize ;;
  _ <- read_version_flag le v ;;
  entryCount <- getUint32 v 12 (negb le) ;;
  entries <- stsc_loop le v (Z.to_nat entryCount) 16 [] ;;
  Ok {| Stsc.entryCount := entryCount; Stsc.entries := entries |}.

(** [_parseStsz], the loop of lines 823-828: the size is read twice, once
    into [filesize] and once into [samples]. *)
Fixpoint stsz_loop (le : bool) (v : DataView) (n : nat) (offset : Z)
  (filesize : Z) (samples : list Z) : result (Z * list Z) :=
  match n with
  | O => Ok (filesize, samples)
  | S n' =>
      sampleSize <- getUint32 v offset (negb le) ;;
      pushed <- getUint32 v offset (negb le) ;;
      stsz_loop le v n' (offset + 4) (filesize + sampleSize) (samples ++ [pushed])
  end.

(** [_parseStsz] (lines 806-831). *)
Definition _parseStsz (le : bool) (arrayBuffer : list byte)
  (dataOffset dataSize : Z) : result Stsz.t :=
  v <- new_DataView arrayBuffer dataOffset dataSize ;;
  _ <- read_version_flag le v ;;
  sampleSize <- getUint32 v 12 (negb le) ;;
  sampleCount <- getUint32 v 16 (negb le) ;;
  r <- stsz_loop le v (Z.to_nat sampleCount) 20 0 [] ;;
  Ok {| Stsz.sampleSize := sampleSize;
        Stsz.sampleCount := sampleCount;
        Stsz.samples := snd r;
        Stsz.total := fst r |}.

(** [_parseStco], the loop of lines 847-850. *)
Fixpoint stco_loop (le : bool) (v : DataView) (n : nat) (offset : Z)
  (entries : list Z) : result (list Z) :=
  match n with
  | O => Ok entries
  | S n' =>
      e <- getUint32 v offset (negb le) ;;
      stco_loop le v n' (offset + 4) (entries ++ [e])
  end.

(** [_parseStco] (lines 833-852). *)
Definition _parseStco (le : bool) (arrayBuffer : list byte)
  (dataOffset dataSize : Z) : result Stco.t :=
  v <- new_DataView arrayBuffer dataOffset dataSize ;;
  _ <- read_version_flag le v ;;
  entryCount <- getUint32 v 12 (negb le) ;;
  entries <- stco_loop le v (Z.to_nat entryCount) 16 [] ;;
  Ok {| Stco.entryCount := entryCount; Stco.entries := entries |}.

(** [_parseStts], the loop of lines 867-874. *)
Fixpoint stts_loop (le : bool) (v : DataView) (n : nat) (offset : Z)
  (entries : list Stts.entry) : result (list Stts.entry) :=
  match n with
  | O => Ok entries
  | S n' =>
      samCount <- getUint32 v offset (negb le) ;;
      samDelta <- getUint32 v (offset + 4) (negb le) ;;
      stts_loop le v n' (offset + 8)
        (entries ++ [{| Stts.samCount := samCount; Stts.samDelta := samDelta |}])
  end.

(** [_parseStts] (lines 854-876).  The count is kept in the local
    [entrytsunt] only: the returned object has [entries] and no
    [entryCount]. *)
Definition _parseStts (le : bool) (arrayBuffer : list byte)
  (dataOffset dataSize : Z) : result Stts.t :=
  v <- new_DataView arrayBuffer dataOffset dataSize ;;
  _ <- read_version_flag le v ;;
  entrytsunt <- getUint32 v 12 (negb le) ;;
  entries <- stts_loop le v (Z.to_nat entrytsunt) 16 [] ;;
  Ok {| Stts.entryCount := None; Stts.entries := entries |}.

(** [_parseElst], the loop of lines 555-567. *)
Fixpoint elst_loop (le : bool) (v : DataView) (version : Z) (n : nat)
  (offset : Z) (entries : list Elst.entry) : result (list Elst.entry) :=
  match n with
  | O => Ok entries
  | S n' =>
      if version =? 0 then
        segDuration <- getUint32 v offset (negb le) ;;
        mediaTime <- getUint32 v (offset + 4) (negb le) ;;
        mediaRateInt <- getUint16 v (offset + 8) (negb le) ;;
        mediaRateFrac <- getUint16 v (offset + 8 + 2) (negb le) ;;
        elst_loop le v version n' (offset + 12)
          (entries ++ [{| Elst.segDuration := Some segDuration;
                          Elst.mediaTime := Some mediaTime;
                          Elst.mediaRateInt := mediaRateInt;
                          Elst.mediaRateFrac := mediaRateFrac |}])
      else
        mediaRateInt <- getUint16 v offset (negb le) ;;
        mediaRateFrac <- getUint16 v (offset + 2) (negb le) ;;
        elst_loop le v version n' (offset + 4)
          (entries ++ [{| Elst.segDuration := None;
                          Elst.mediaTime := None;
                          Elst.mediaRateInt := mediaRateInt;
                          Elst.mediaRateFrac := mediaRateFrac |}])
  end.

(** [_parseElst] (lines 542-569). *)
Definition _parseElst (le : bool) (arrayBuffer : list byte)
  (dataOffset dataSize : Z) : result Elst.t :=
  v <- new_DataView arrayBuffer dataOffset dataSize ;;
  version <- read_version_flag le v ;;
  entryCount <- getUint32 v 12 (negb le) ;;
  entries <- elst_loop le v version (Z.to_nat entryCount) 16 [] ;;
  Ok {| Elst.entries := entries |}.

(** ** The sample-to-chunk resolver (lines 402-443) *)

(** A JavaScript array that may have holes: [None] is an empty slot. *)
Definition jsarray (A : Type) : Type := list (option A).

(** [new Array(n)]: [n] empty slots; a length that is not an unsigned
    32-bit integer is a [RangeError]. *)
Definition new_Array {A : Type} (n : Z) : result (jsarray A) :=
  if (0 <=? n) && (n <? 2 ^ 32) then Ok (repeat None (Z.to_nat n))
  else Throw RangeError.

Fixpoint set_nth {A : Type} (n : nat) (x : A) (arr : jsarray A) : jsarray A :=
  match n, arr with
  | O, [] => [Some x]
  | O, _ :: t => Some x :: t
  | S n', [] => None :: set_nth n' x []
  | S n', h :: t => h :: set_nth n' x t
  end.

(** [arr[j] = x]: a write past the end grows the array, leaving holes; a
    write at a negative [j] sets a property that is not an element, so the
    elements and the length are unchanged. *)
Definition array_set {A : Type} (arr : jsarray A) (j : Z) (x : A) : jsarray A :=
  if j <? 0 then arr else set_nth (Z.to_nat j) x arr.

(** [arr[i]] on a dense array; [undefined] out of range. *)
Definition array_get (arr : list Z) (i : nat) : jsval :=
  match nth_error arr i with
  | Some z => Int z
  | None => Undefined
  end.

Record ChkEntry : Type := { samCount : Z; sdi : Z }.

(** One record of the flat table.  [dts], [cts] and [pts] are absent
    until [_timeDetials] assigns them. *)
Record SamEntry : Type := {
  chkIndex : nat;
  indexInChk : nat;
  offset : jsval;
  size : jsval;
  dts : option float;
  cts : option float;
  pts : option float
}.

(** Lines 411-416: [chkEntris[j] = chkEntry] for [cnt] consecutive [j]. *)
Fixpoint fill_range (e : Stsc.entry) (j : Z) (cnt : nat)
  (chkEntris : jsarray ChkEntry) : jsarray ChkEntry :=
  match cnt with
  | O => chkEntris
  | S cnt' =>
      fill_range e (j + 1) cnt'
        (array_set chkEntris j
           {| samCount := Stsc.samPerChk e; sdi := Stsc.samDesIndex e |})
  end.

(** Lines 409-418, for [i = n - 1] down to [0]. *)
Fixpoint fill_loop (stsc : Stsc.t) (n : nat) (chkEntris : jsarray ChkEntry)
  (lastChkCount : Z) : result (jsarray ChkEntry) :=
  match n with
  | O => Ok chkEntris
  | S i =>
      match nth_error (Stsc.entries stsc) i with
      | None => Throw TypeError
      | Some e =>
          let beginChkCount := Stsc.firstChk e in
          fill_loop stsc i
            (fill_range e (beginChkCount - 1)
               (Z.to_nat (lastChkCount - beginChkCount)) chkEntris)
            beginChkCount
      end
  end.

(** Lines 425-436: the samples of chunk [k]. *)
Fixpoint walk_samples (stsz : Stsz.t) (n : nat) (k indexInChk : nat)
  (samOffset : jsval) (sampleIndex : nat) (sam2chk : list SamEntry)
  : nat * list SamEntry :=
  match n with
  | O => (sampleIndex, sam2chk)
  | S n' =>
      let stscSamEntry :=
        {| chkIndex := k;
           indexInChk := indexInChk;
           offset := samOffset;
           size := array_get (Stsz.samples stsz) sampleIndex;
           dts := None; cts := None; pts := None |} in
      walk_samples stsz n' k (S indexInChk)
        (js_add samOffset (size stscSamEntry))
        (S sampleIndex) (sam2chk ++ [stscSamEntry])
  end.

(** Lines 420-437: [chks] is the part of [chkEntris] from index [k] on.
    Writing [firstSamIndex] into an empty slot is a [TypeError]. *)
Fixpoint walk_chunks (stsz : Stsz.t) (stco : Stco.t)
  (chks : jsarray ChkEntry) (k : nat) (sampleIndex : nat)
  (sam2chk : list SamEntry) : result (nat * list SamEntry) :=
  match chks with
  | [] => Ok (sampleIndex, sam2chk)
  | None :: _ => Throw TypeError
  | Some ce :: rest =>
      let samOffset := array_get (Stco.entries stco) k in
      let r := walk_samples stsz (Z.to_nat (samCount ce)) k 0 samOffset
                 sampleIndex sam2chk in
      walk_chunks stsz stco rest (S k) (fst r) (snd r)
  end.

Definition wrong_sample_count : string :=
  "Map samples to chunk!! Wrong sample count!!".

(** The per-chunk table built by lines 403-418. *)
Definition chunk_table (stsc : Stsc.t) (stco : Stco.t)
  : result (jsarray ChkEntry) :=
  let count := Stco.entryCount stco in
  chkEntris <- new_Array count ;;
  fill_loop stsc (Z.to_nat (Stsc.entryCount stsc)) chkEntris (count + 1).

(** [_samDetails]: the table, or [undefined] ([None]) after a warning;
    the second component is what was logged with [Log.w]. *)
Definition _samDetails (stsc : Stsc.t) (stsz : Stsz.t) (stco : Stco.t)
  : result (option (list SamEntry) * list string) :=
  chkEntris <- chunk_table stsc stco ;;
  r <- walk_chunks stsz stco chkEntris 0 0 [] ;;
  let sampleIndex := fst r in
  let sam2chk := snd r in
  if Nat.eqb sampleIndex (List.length sam2chk) then Ok (Some sam2chk, [])
  else Ok (None, [wrong_sample_count]).

(** The tables of boundary scenario 4. *)
Definition stsc_scenario4 : Stsc.t :=
  {| Stsc.entryCount := 2;
     Stsc.entries :=
       [ {| Stsc.firstChk := 1; Stsc.samPerChk := 2; Stsc.samDesIndex := 1 |};
         {| Stsc.firstChk := 3; Stsc.samPerChk := 1; Stsc.samDesIndex := 1 |} ] |}.

Definition stco_scenario4 : Stco.t :=
  {| Stco.entryCount := 4; Stco.entries := [100; 300; 500; 600] |}.

Definition stsz_scenario4 : Stsz.t :=
  {| Stsz.sampleSize := 0; Stsz.sampleCount := 5;
     Stsz.samples := [50; 50; 50; 50; 50]; Stsz.total := 250 |}.

(** ** The timing resolver (lines 445-463) *)

(** An integer as a binary64 number (exact below 2^53 in magnitude, as
    every field and counter here is). *)
Definition num_of_Z (z : Z) : float :=
  if z <? 0 then PrimFloat.opp (PrimFloat.of_uint63 (Uint63.of_Z (- z)))
  else PrimFloat.of_uint63 (Uint63.of_Z z).

(** ToNumber: [undefined] converts to [NaN]. *)
Definition to_number (v : jsval) : float :=
  match v with
  | Undefined => PrimFloat.nan
  | NaN => PrimFloat.nan
  | Int z => num_of_Z z
  end.

(** A property that may be absent, read as a value. *)
Definition prop (o : option Z) : jsval :=
  match o with
  | Some z => Int z
  | None => Undefined
  end.

Fixpoint list_set {A : Type} (l : list A) (n : nat) (x : A) : list A :=
  match l, n with
  | [], _ => []
  | _ :: t, O => x :: t
  | h :: t, S n' => h :: list_set t n' x
  end.

(** [Object.assign(e, {dts, cts: 0, pts: dts})]. *)
Definition with_time (e : SamEntry) (d : float) : SamEntry :=
  {| chkIndex := chkIndex e;
     indexInChk := indexInChk e;
     offset := offset e;
     size := size e;
     dts := Some d;
     cts := Some (num_of_Z 0);
     pts := Some d |}.

(** Line 459: [sam[sampleIndex] = Object.assign(sam[sampleIndex], timeEntry)].
    Indexing [undefined], or assigning onto an [undefined] target, is a
    [TypeError]. *)
Definition assign_time (sam : option (list SamEntry)) (sampleIndex : nat)
  (d : float) : result (option (list SamEntry)) :=
  match sam with
  | None => Throw TypeError
  | Some l =>
      match nth_error l sampleIndex with
      | None => Throw TypeError
      | Some e => Ok (Some (list_set l sampleIndex (with_time e d)))
      end
  end.

(** Lines 451-461 for one [stts] entry; [shift] is
    [startTime / mvhdts * mdhdts]. *)
Fixpoint time_samples (e : Stts.entry) (shift : float) (n : nat) (j : Z)
  (dtsSum : float) (sampleIndex : nat) (sam : option (list SamEntry))
  : result (float * nat * option (list SamEntry)) :=
  match n with
  | O => Ok (dtsSum, sampleIndex, sam)
  | S n' =>
      let d := PrimFloat.sub
                 (PrimFloat.add dtsSum
                    (PrimFloat.mul (num_of_Z (Stts.samDelta e)) (num_of_Z j)))
                 shift in
      let dtsSum' :=
        if j =? Stts.samCount e - 1
        then PrimFloat.add dtsSum
               (PrimFloat.mul (num_of_Z (Stts.samDelta e)) (num_of_Z (j + 1)))
        else dtsSum in
      sam' <- assign_time sam sampleIndex d ;;
      time_samples e shift n' (j + 1) dtsSum' (S sampleIndex) sam'
  end.

(** Lines 450-462 for [n] further entries from index [i]. *)
Fixpoint time_entries (stts : Stts.t) (shift : float) (n : nat) (i : nat)
  (dtsSum : float) (sampleIndex : nat) (sam : option (list SamEntry))
  : result (option (list SamEntry)) :=
  match n with
  | O => Ok sam
  | S n' =>
      match nth_error (Stts.entries stts) i with
      | None => Throw TypeError
      | Some e =>
          r <- time_samples e shift (Z.to_nat (Stts.samCount e)) 0
                 dtsSum sampleIndex sam ;;
          time_entries stts shift n' (S i) (fst (fst r)) (snd (fst r)) (snd r)
      end
  end.

(** [i < stts.entryCount]: false for every [i] when the property is
    absent, since [i < undefined] is false. *)
Definition loop_bound (entryCount : option Z) : nat :=
  match entryCount with
  | Some c => Z.to_nat c
  | None => O
  end.

(** [_timeDetials(sam, mvhdts, mdhdts, stts, elst)]; [elst = None] is
    [null].  The function mutates [sam]; the model returns it. *)
Definition _timeDetials (sam : option (list SamEntry)) (mvhdts mdhdts : jsval)
  (stts : Stts.t) (elst : option Elst.t) : result (option (list SamEntry)) :=
  startTime <-
    match elst with
    | None => Ok (Int 0)
    | Some el =>
        match nth_error (Elst.entries el) 0 with
        | None => Throw TypeError
        | Some e0 => Ok (prop (Elst.mediaTime e0))
        end
    end ;;
  let shift :=
    PrimFloat.mul (PrimFloat.div (to_number startTime) (to_number mvhdts))
                  (to_number mdhdts) in
  time_entries stts shift (loop_bound (Stts.entryCount stts)) 0
    (num_of_Z 0) 0 sam.

(** ** The demuxer object *)

(** What [SPSParser.parseSPS] (sps-parser.js, an external module) returns,
    as far as this file reads it. *)
Module SPS.
Record size : Type := { width : Z; height : Z }.
Record rate : Type := { fixed : bool; fps : float; fps_num : Z; fps_den : Z }.
Record config : Type := {
  profile_string : string;
  level_string : string;
  bit_depth : Z;
  chroma_format : Z;
  chroma_format_string : string;
  frame_rate : rate;
  sar_ratio : size;
  codec_size : size;
  present_size : size
}.
End SPS.

(** The video metadata object ([this._videoMetadata]).  Every property is
    absent ([None]) until some parser assigns it.  [of_config] stands for
    the properties copied from the SPS configuration at lines 688-697
    (codecWidth, codecHeight, presentWidth, presentHeight, profile, level,
    bitDepth, chromaFormat, sarRatio); [type] is the constant 'video'.
    [timescale_mvhd] is read at line 708; no line of the source assigns
    it. *)
Module Meta.
Record t : Type := {
  id : option Z;
  timescale : option Z;
  duration : option Z;
  timescale_mdhd : option Z;
  duration_mdhd : option Z;
  timescale_mvhd : option Z;
  avcc : option (list byte);
  of_config : option SPS.config;
  frameRate : option SPS.rate;
  refSampleDuration : option float;
  codec : option string
}.
Definition empty : t :=
  {| id := None; timescale := None; duration := None;
     timescale_mdhd := None; duration_mdhd := None; timescale_mvhd := None;
     avcc := None; of_config := None; frameRate := None;
     refSampleDuration := None; codec := None |}.
End Meta.

(** The part of [MediaInfo] (core/media-info.js, an external class) that
    [_parseMvhd] and [_parseStsd] touch.  [of_config] stands for width,
    height, profile, level, chromaFormat, sarNum and sarDen
    (lines 722-729). *)
Module MediaInfo.
Record t : Type := {
  hasAudio : bool;
  hasVideo : bool;
  of_config : option SPS.config;
  fps : option float;
  videoCodec : option string;
  audioCodec : option string;
  mimeType : option string
}.
End MediaInfo.

(** A [Uint8Array] on the input buffer, as the window it shows. *)
Module Uint8Array.
Record t : Type := { byteOffset : Z; byteLength : Z }.
End Uint8Array.

(** A unit [{type, data}]. *)
Module NalUnit.
Record t : Type := { type : Z; data : Uint8Array.t }.
End NalUnit.

Module AvcSample.
Record t : Type := {
  units : list NalUnit.t;
  length : Z;
  isKeyframe : bool;
  dts : jsval;
  cts : Z;
  pts : jsval
}.
End AvcSample.

Module Track.
Record t : Type := { id : Z; samples : list AvcSample.t; length : Z }.
End Track.

(** [DemuxErrors] (errnevent.js, an external module); this file reports
    [FORMAT_ERROR] only. *)
Inductive DemuxErrors : Type := FORMAT_ERROR.

(** What the demuxer sends out: log lines and the four callbacks, which
    are taken to be bound.  [onDataAvailable] records the [length] of the
    audio and of the video track it is called with. *)
Inductive Event : Type :=
| Log_w (msg : string)
| Log_v (msg : string)
| onError (kind : DemuxErrors) (info : string)
| onMediaInfo (mi : MediaInfo.t)
| onTrackMetadata (type : string) (meta : Meta.t)
| onDataAvailable (audioLength videoLength : Z).

Record Demuxer : Type := {
  _hasAudio : bool;
  _hasVideo : bool;
  _hasVideoFlagOverrided : bool;
  _audioInitialMetadataDispatched : bool;
  _videoInitialMetadataDispatched : bool;
  _dispatch : bool;
  _mediaInfo : MediaInfo.t;
  _videoMetadata : option Meta.t;
  _naluLengthSize : Z;
  _referenceFrameRate : SPS.rate;
  _videoTrack : Track.t;
  _audioTrack : Track.t;
  elst : option Elst.t;
  stsc : option Stsc.t;
  stsz : option Stsz.t;
  stco : option Stco.t;
  stts : option Stts.t;
  trace : list Event
}.

Definition set_hasVideo (x : bool) (d : Demuxer) : Demuxer :=
  {| _hasAudio := _hasAudio d;
     _hasVideo := x;
     _hasVideoFlagOverrided := _hasVideoFlagOverrided d;
     _audioInitialMetadataDispatched := _audioInitialMetadataDispatched d;
     _videoInitialMetadataDispatched := _videoInitialMetadataDispatched d;
     _dispatch := _dispatch d;
     _mediaInfo := _mediaInfo d;
     _videoMetadata := _videoMetadata d;
     _naluLengthSize := _naluLengthSize d;
     _referenceFrameRate := _referenceFrameRate d;
     _videoTrack := _videoTrack d;
     _audioTrack := _audioTrack d;
     elst := elst d;
     stsc := stsc d;
     stsz := stsz d;
     stco := stco d;
     stts := stts d;
     trace := trace d |}.

Definition set_videoInitialMetadataDispatched (x : bool) (d : Demuxer) : Demuxer :=
  {| _hasAudio := _hasAudio d;
     _hasVideo := _hasVideo d;
     _hasVideoFlagOverrided := _hasVideoFlagOverrided d;
     _audioInitialMetadataDispatched := _audioInitialMetadataDispatched d;
     _videoInitialMetadataDispatched := x;
     _dispatch := _dispatch d;
     _mediaInfo := _mediaInfo d;
     _videoMetadata := _videoMetadata d;
     _naluLengthSize := _naluLengthSize d;
     _referenceFrameRate := _referenceFrameRate d;
     _videoTrack := _videoTrack d;
     _audioTrack := _audioTrack d;
     elst := elst d;
     stsc := stsc d;
     stsz := stsz d;
     stco := stco d;
     stts := stts d;
     trace := trace d |}.

Definition set_dispatch (x : bool) (d : Demuxer) : Demuxer :=
  {| _hasAudio := _hasAudio d;
     _hasVideo := _hasVideo d;
     _hasVideoFlagOverrided := _hasVideoFlagOverrided d;
     _audioInitialMetadataDispatched := _audioInitialMetadataDispatched d;
     _videoInitialMetadataDispatched := _videoInitialMetadataDispatched d;
     _dispatch := x;
     _mediaInfo := _mediaInfo d;
     _videoMetadata := _videoMetadata d;
     _naluLengthSize := _naluLengthSize d;
     _referenceFrameRate := _referenceFrameRate d;
     _videoTrack := _videoTrack d;
     _audioTrack := _audioTrack d;
     elst := elst d;
     stsc := stsc d;
     stsz := stsz d;
     stco := stco d;
     stts := stts d;
     trace := trace d |}.

Definition set_mediaInfo (x : MediaInfo.t) (d : Demuxer) : Demuxer :=
  {| _hasAudio := _hasAudio d;
     _hasVideo := _hasVideo d;
     _hasVideoFlagOverrided := _hasVideoFlagOverrided d;
     _audioInitialMetadataDispatched := _audioInitialMetadataDispatched d;
     _videoInitialMetadataDispatched := _videoInitialMetadataDispatched d;
     _dispatch := _dispatch d;
     _mediaInfo := x;
     _videoMetadata := _videoMetadata d;
     _naluLengthSize := _naluLengthSize d;
     _referenceFrameRate := _referenceFrameRate d;
     _videoTrack := _videoTrack d;
     _audioTrack := _audioTrack d;
     elst := elst d;
     stsc := stsc d;
     stsz := stsz d;
     stco := stco d;
     stts := stts d;
     trace := trace d |}.

Definition set_videoMetadata (x : option Meta.t) (d : Demuxer) : Demuxer :=
  {| _hasAudio := _hasAudio d;
     _hasVideo := _hasVideo d;
     _hasVideoFlagOverrided := _hasVideoFlagOverrided d;
     _audioInitialMetadataDispatched := _audioInitialMetadataDispatched d;
     _videoInitialMetadataDispatched := _videoInitialMetadataDispatched d;
     _dispatch := _dispatch d;
     _mediaInfo := _mediaInfo d;
     _videoMetadata := x;
     _naluLengthSize := _naluLengthSize d;
     _referenceFrameRate := _referenceFrameRate d;
     _videoTrack := _videoTrack d;
     _audioTrack := _audioTrack d;
     elst := elst d;
     stsc := stsc d;
     stsz := stsz d;
     stco := stco d;
     stts := stts d;
     trace := trace d |}.

Definition set_naluLengthSize (x : Z) (d : Demuxer) : Demuxer :=
  {| _hasAudio := _hasAudio d;
     _hasVideo := _hasVideo d;
     _hasVideoFlagOverrided := _hasVideoFlagOverrided d;
     _audioInitialMetadataDispatched := _audioInitialMetadataDispatched d;
     _videoInitialMetadataDispatched := _videoInitialMetadataDispatched d;
     _dispatch := _dispatch d;
     _mediaInfo := _mediaInfo d;
     _videoMetadata := _videoMetadata d;
     _naluLengthSize := x;
     _referenceFrameRate := _referenceFrameRate d;
     _videoTrack := _videoTrack d;
     _audioTrack := _audioTrack d;
     elst := elst d;
     stsc := stsc d;
     stsz := stsz d;
     stco := stco d;
     stts := stts d;
     trace := trace d |}.

Definition set_videoTrack (x : Track.t) (d : Demuxer) : Demuxer :=
  {| _hasAudio := _hasAudio d;
     _hasVideo := _hasVideo d;
     _hasVideoFlagOverrided := _hasVideoFlagOverrided d;
     _audioInitialMetadataDispatched := _audioInitialMetadataDispatched d;
     _videoInitialMetadataDispatched := _videoInitialMetadataDispatched d;
     _dispatch := _dispatch d;
     _mediaInfo := _mediaInfo d;
     _videoMetadata := _videoMetadata d;
     _naluLengthSize := _naluLengthSize d;
     _referenceFrameRate := _referenceFrameRate d;
     _videoTrack := x;
     _audioTrack := _audioTrack d;
     elst := elst d;
     stsc := stsc d;
     stsz := stsz d;
     stco := stco d;
     stts := stts d;
     trace := trace d |}.

Definition set_trace (x : list Event) (d : Demuxer) : Demuxer :=
  {| _hasAudio := _hasAudio d;
     _hasVideo := _hasVideo d;
     _hasVideoFlagOverrided := _hasVideoFlagOverrided d;
     _audioInitialMetadataDispatched := _audioInitialMetadataDispatched d;
     _videoInitialMetadataDispatched := _videoInitialMetadataDispatched d;
     _dispatch := _dispatch d;
     _mediaInfo := _mediaInfo d;
     _videoMetadata := _videoMetadata d;
     _naluLengthSize := _naluLengthSize d;
     _referenceFrameRate := _referenceFrameRate d;
     _videoTrack := _videoTrack d;
     _audioTrack := _audioTrack d;
     elst := elst d;
     stsc := stsc d;
     stsz := stsz d;
     stco := stco d;
     stts := stts d;
     trace := x |}.

(** State and exceptions: an exception leaves the state as it was when it
    was thrown. *)
Definition M (A : Type) : Type := Demuxer -> result A * Demuxer.

Definition ret {A : Type} (a : A) : M A := fun d => (Ok a, d).

Definition mbind {A B : Type} (m : M A) (k : A -> M B) : M B :=
  fun d =>
    match m d with
    | (Ok a, d') => k a d'
    | (Throw e, d') => (Throw e, d')
    end.

Notation "x <-- m ;; k" := (mbind m (fun x => k))
  (at level 61, m at next level, right associativity).

Definition lift {A : Type} (r : result A) : M A := fun d => (r, d).
Definition get : M Demuxer := fun d => (Ok d, d).
Definition modify (f : Demuxer -> Demuxer) : M unit := fun d => (Ok tt, f d).
Definition emit (e : Event) : M unit :=
  modify (fun d => set_trace (trace d ++ [e]) d).

(** [meta.p = x] for the local alias [meta] of [this._videoMetadata];
    [meta] being [null] is a [TypeError]. *)
Definition meta_update (f : Meta.t -> Meta.t) : M unit :=
  fun d =>
    match _videoMetadata d with
    | None => (Throw TypeError, d)
    | Some m => (Ok tt, set_videoMetadata (Some (f m)) d)
    end.

(** Property assignments on the metadata and media-info objects. *)
Definition meta_set_timescale (x : Z) (m : Meta.t) : Meta.t :=
  {| Meta.id := Meta.id m;
     Meta.timescale := Some x;
     Meta.duration := Meta.duration m;
     Meta.timescale_mdhd := Meta.timescale_mdhd m;
     Meta.duration_mdhd := Meta.duration_mdhd m;
     Meta.timescale_mvhd := Meta.timescale_mvhd m;
     Meta.avcc := Meta.avcc m;
     Meta.of_config := Meta.of_config m;
     Meta.frameRate := Meta.frameRate m;
     Meta.refSampleDuration := Meta.refSampleDuration m;
     Meta.codec := Meta.codec m |}.

Definition meta_set_duration (x : Z) (m : Meta.t) : Meta.t :=
  {| Meta.id := Meta.id m;
     Meta.timescale := Meta.timescale m;
     Meta.duration := Some x;
     Meta.timescale_mdhd := Meta.timescale_mdhd m;
     Meta.duration_mdhd := Meta.duration_mdhd m;
     Meta.timescale_mvhd := Meta.timescale_mvhd m;
     Meta.avcc := Meta.avcc m;
     Meta.of_config := Meta.of_config m;
     Meta.frameRate := Meta.frameRate m;
     Meta.refSampleDuration := Meta.refSampleDuration m;
     Meta.codec := Meta.codec m |}.

Definition meta_set_timescale_mdhd (x : Z) (m : Meta.t) : Meta.t :=
  {| Meta.id := Meta.id m;
     Meta.timescale := Meta.timescale m;
     Meta.duration := Meta.duration m;
     Meta.timescale_mdhd := Some x;
     Meta.duration_mdhd := Meta.duration_mdhd m;
     Meta.timescale_mvhd := Meta.timescale_mvhd m;
     Meta.avcc := Meta.avcc m;
     Meta.of_config := Meta.of_config m;
     Meta.frameRate := Meta.frameRate m;
     Meta.refSampleDuration := Meta.refSampleDuration m;
     Meta.codec := Meta.codec m |}.

Definition meta_set_duration_mdhd (x : Z) (m : Meta.t) : Meta.t :=
  {| Meta.id := Meta.id m;
     Meta.timescale := Meta.timescale m;
     Meta.duration := Meta.duration m;
     Meta.timescale_mdhd := Meta.timescale_mdhd m;
     Meta.duration_mdhd := Some x;
     Meta.timescale_mvhd := Meta.timescale_mvhd m;
     Meta.avcc := Meta.avcc m;
     Meta.of_config := Meta.of_config m;
     Meta.frameRate := Meta.frameRate m;
     Meta.refSampleDuration := Meta.refSampleDuration m;
     Meta.codec := Meta.codec m |}.

Definition meta_set_avcc (x : list byte) (m : Meta.t) : Meta.t :=
  {| Meta.id := Meta.id m;
     Meta.timescale := Meta.timescale m;
     Meta.duration := Meta.duration m;
     Meta.timescale_mdhd := Meta.timescale_mdhd m;
     Meta.duration_mdhd := Meta.duration_mdhd m;
     Meta.timescale_mvhd := Meta.timescale_mvhd m;
     Meta.avcc := Some x;
     Meta.of_config := Meta.of_config m;
     Meta.frameRate := Meta.frameRate m;
     Meta.refSampleDuration := Meta.refSampleDuration m;
     Meta.codec := Meta.codec m |}.

Definition meta_set_of_config (x : SPS.config) (m : Meta.t) : Meta.t :=
  {| Meta.id := Meta.id m;
     Meta.timescale := Meta.timescale m;
     Meta.duration := Meta.duration m;
     Meta.timescale_mdhd := Meta.timescale_mdhd m;
     Meta.duration_mdhd := Meta.duration_mdhd m;
     Meta.timescale_mvhd := Meta.timescale_mvhd m;
     Meta.avcc := Meta.avcc m;
     Meta.of_config := Some x;
     Meta.frameRate := Meta.frameRate m;
     Meta.refSampleDuration := Meta.refSampleDuration m;
     Meta.codec := Meta.codec m |}.

Definition meta_set_frameRate (x : SPS.rate) (m : Meta.t) : Meta.t :=
  {| Meta.id := Meta.id m;
     Meta.timescale := Meta.timescale m;
     Meta.duration := Meta.duration m;
     Meta.timescale_mdhd := Meta.timescale_mdhd m;
     Meta.duration_mdhd := Meta.duration_mdhd m;
     Meta.timescale_mvhd := Meta.timescale_mvhd m;
     Meta.avcc := Meta.avcc m;
     Meta.of_config := Meta.of_config m;
     Meta.frameRate := Some x;
     Meta.refSampleDuration := Meta.refSampleDuration m;
     Meta.codec := Meta.codec m |}.

Definition meta_set_refSampleDuration (x : float) (m : Meta.t) : Meta.t :=
  {| Meta.id := Meta.id m;
     Meta.timescale := Meta.timescale m;
     Meta.duration := Meta.duration m;
     Meta.timescale_mdhd := Meta.timescale_mdhd m;
     Meta.duration_mdhd := Meta.duration_mdhd m;
     Meta.timescale_mvhd := Meta.timescale_mvhd m;
     Meta.avcc := Meta.avcc m;
     Meta.of_config := Meta.of_config m;
     Meta.frameRate := Meta.frameRate m;
     Meta.refSampleDuration := Some x;
     Meta.codec := Meta.codec m |}.

Definition meta_set_codec (x : string) (m : Meta.t) : Meta.t :=
  {| Meta.id := Meta.id m;
     Meta.timescale := Meta.timescale m;
     Meta.duration := Meta.duration m;
     Meta.timescale_mdhd := Meta.timescale_mdhd m;
     Meta.duration_mdhd := Meta.duration_mdhd m;
     Meta.timescale_mvhd := Meta.timescale_mvhd m;
     Meta.avcc := Meta.avcc m;
     Meta.of_config := Meta.of_config m;
     Meta.frameRate := Meta.frameRate m;
     Meta.refSampleDuration := Meta.refSampleDuration m;
     Meta.codec := Some x |}.

Definition mi_set_hasVideo (x : bool) (mi : MediaInfo.t) : MediaInfo.t :=
  {| MediaInfo.hasAudio := MediaInfo.hasAudio mi;
     MediaInfo.hasVideo := x;
     MediaInfo.of_config := MediaInfo.of_config mi;
     MediaInfo.fps := MediaInfo.fps mi;
     MediaInfo.videoCodec := MediaInfo.videoCodec mi;
     MediaInfo.audioCodec := MediaInfo.audioCodec mi;
     MediaInfo.mimeType := MediaInfo.mimeType mi |}.

Definition mi_set_of_config (x : SPS.config) (mi : MediaInfo.t) : MediaInfo.t :=
  {| MediaInfo.hasAudio := MediaInfo.hasAudio mi;
     MediaInfo.hasVideo := MediaInfo.hasVideo mi;
     MediaInfo.of_config := Some x;
     MediaInfo.fps := MediaInfo.fps mi;
     MediaInfo.videoCodec := MediaInfo.videoCodec mi;
     MediaInfo.audioCodec := MediaInfo.audioCodec mi;
     MediaInfo.mimeType := MediaInfo.mimeType mi |}.

Definition mi_set_fps (x : float) (mi : MediaInfo.t) : MediaInfo.t :=
  {| MediaInfo.hasAudio := MediaInfo.hasAudio mi;
     MediaInfo.hasVideo := MediaInfo.hasVideo mi;
     MediaInfo.of_config := MediaInfo.of_config mi;
     MediaInfo.fps := Some x;
     MediaInfo.videoCodec := MediaInfo.videoCodec mi;
     MediaInfo.audioCodec := MediaInfo.audioCodec mi;
     MediaInfo.mimeType := MediaInfo.mimeType mi |}.

Definition mi_set_videoCodec (x : string) (mi : MediaInfo.t) : MediaInfo.t :=
  {| MediaInfo.hasAudio := MediaInfo.hasAudio mi;
     MediaInfo.hasVideo := MediaInfo.hasVideo mi;
     MediaInfo.of_config := MediaInfo.of_config mi;
     MediaInfo.fps := MediaInfo.fps mi;
     MediaInfo.videoCodec := Some x;
     MediaInfo.audioCodec := MediaInfo.audioCodec mi;
     MediaInfo.mimeType := MediaInfo.mimeType mi |}.

Definition mi_set_mimeType (x : string) (mi : MediaInfo.t) : MediaInfo.t :=
  {| MediaInfo.hasAudio := MediaInfo.hasAudio mi;
     MediaInfo.hasVideo := MediaInfo.hasVideo mi;
     MediaInfo.of_config := MediaInfo.of_config mi;
     MediaInfo.fps := MediaInfo.fps mi;
     MediaInfo.videoCodec := MediaInfo.videoCodec mi;
     MediaInfo.audioCodec := MediaInfo.audioCodec mi;
     MediaInfo.mimeType := Some x |}.

Definition mi_update (f : MediaInfo.t -> MediaInfo.t) : M unit :=
  modify (fun d => set_mediaInfo (f (_mediaInfo d)) d).

(** [_isInitialMetadataDispatched] (lines 253-264). *)
Definition _isInitialMetadataDispatched (d : Demuxer) : bool :=
  if _hasAudio d && _hasVideo d then
    _audioInitialMetadataDispatched d && _videoInitialMetadataDispatched d
  else if _hasAudio d && negb (_hasVideo d) then
    _audioInitialMetadataDispatched d
  else if negb (_hasAudio d) && _hasVideo d then
    _videoInitialMetadataDispatched d
  else false.

(** ** mvhd and mdhd (lines 484-514 and 571-596) *)

Definition _parseMvhd (le : bool) (arrayBuffer : list byte)
  (dataOffset dataSize : Z) : M unit :=
  v <-- lift (new_DataView arrayBuffer dataOffset dataSize) ;;
  d <-- get ;;
  match _videoMetadata d with
  | None =>
      _ <-- (if negb (_hasVideo d) && negb (_hasVideoFlagOverrided d)
             then modify (fun d => set_mediaInfo (mi_set_hasVideo true (_mediaInfo d))
                                     (set_hasVideo true d))
             else ret tt) ;;
      _ <-- modify (set_videoMetadata
                      (Some {| Meta.id := Some (Track.id (_videoTrack d));
                               Meta.timescale := None;
                               Meta.duration := None;
                               Meta.timescale_mdhd := None;
                               Meta.duration_mdhd := None;
                               Meta.timescale_mvhd := None;
                               Meta.avcc := None;
                               Meta.of_config := None;
                               Meta.frameRate := None;
                               Meta.refSampleDuration := None;
                               Meta.codec := None |})) ;;
      timescale <-- lift (getUint32 v 20 (negb le)) ;;
      _ <-- meta_update (meta_set_timescale timescale) ;;
      duration <-- lift (getUint32 v 24 (negb le)) ;;
      meta_update (meta_set_duration duration)
  | Some meta =>
      match Meta.avcc meta with
      | Some _ => emit (Log_w "Found another AVCDecoderConfigurationRecord!")
      | None => ret tt
      end
  end.

Definition _parseMdhd (le : bool) (arrayBuffer : list byte)
  (dataOffset dataSize : Z) : M unit :=
  v <-- lift (new_DataView arrayBuffer dataOffset dataSize) ;;
  version <-- lift (read_version_flag le v) ;;
  if version =? 0 then
    timescale_mdhd <-- lift (getUint32 v 20 (negb le)) ;;
    _ <-- meta_update (meta_set_timescale_mdhd timescale_mdhd) ;;
    duration_mdhd <-- lift (getUint32 v 24 (negb le)) ;;
    meta_update (meta_set_duration_mdhd duration_mdhd)
  else ret tt.

(** ** parseChunks, lines 383-384: the two resolvers on the parsed
    tables.  A table that is still [null], or a [null] metadata object,
    is a [TypeError] at its first property read; for [stsz] that read is
    the first sample of the walk, so a [null] [stsz] is harmless exactly
    when the walk produces no sample. *)
Definition no_stsz : Stsz.t :=
  {| Stsz.sampleSize := 0; Stsz.sampleCount := 0;
     Stsz.samples := []; Stsz.total := 0 |}.

Definition resolve_samples (d : Demuxer)
  : result (option (list SamEntry) * list string) :=
  match stsc d, stco d with
  | Some stsc_, Some stco_ =>
      match stsz d with
      | Some stsz_ => _samDetails stsc_ stsz_ stco_
      | None =>
          r <- _samDetails stsc_ no_stsz stco_ ;;
          match fst r with
          | Some (_ :: _) => Throw TypeError
          | _ => Ok r
          end
      end
  | _, _ => Throw TypeError
  end.

Definition resolve_tables : M (option (list SamEntry)) :=
  d <-- get ;;
  r <-- lift (resolve_samples d) ;;
  _ <-- modify (fun d => set_trace (trace d ++ map Log_w (snd r)) d) ;;
  let sam2chk := fst r in
  match _videoMetadata d with
  | None => lift (Throw TypeError)
  | Some meta =>
      match stts d with
      | None => lift (Throw TypeError)
      | Some stts_ =>
          lift (_timeDetials sam2chk
                  (prop (Meta.timescale_mdhd meta))
                  (prop (Meta.timescale meta))
                  stts_ (elst d))
      end
  end.

(** ** stsd and the AVC decoder configuration record (lines 598-777) *)

(** [buf.toString('ascii')]: the high bit of every byte is cleared. *)
Definition ascii_of_byte (b : byte) : ascii :=
  ascii_of_N (N.land (Byte.to_N b) 127).

(** [new Uint8Array(buffer, byteOffset, length)], as the bytes it shows. *)
Definition new_Uint8Array (buffer : list byte) (byteOffset len : Z)
  : result (list byte) :=
  if (0 <=? byteOffset) && (0 <=? len) &&
     (byteOffset + len <=? Z.of_nat (List.length buffer))
  then Ok (firstn (Z.to_nat len) (skipn (Z.to_nat byteOffset) buffer))
  else Throw RangeError.

(** [new Buffer(buffer, byteOffset, length).toString('ascii')]. *)
Definition buffer_ascii (buffer : list byte) (byteOffset len : Z)
  : result string :=
  bytes <- new_Uint8Array buffer byteOffset len ;;
  Ok (string_of_list_ascii (map ascii_of_byte bytes)).

(** [ReadBoxName(dataview, offset)] (lines 33-36): [offset] counts from
    the start of the underlying buffer. *)
Definition ReadBoxName (v : DataView) (offset : Z) : result string :=
  buffer_ascii (dv_buffer v) offset 4.

Definition decimal (z : Z) : string :=
  DecimalString.NilZero.string_of_int (Z.to_int z).

Definition hex_digit (n : Z) : string :=
  String (ascii_of_N (Z.to_N (if n <? 10 then 48 + n else 87 + n))) EmptyString.

(** [b.toString(16)], left-padded with '0' to two digits, for a byte. *)
Definition hex2 (b : Z) : string :=
  (hex_digit (b / 16) ++ hex_digit (b mod 16))%string.

(** Lines 710-718: 'avc1.' followed by the bytes 1..3 of the SPS in hex;
    a missing byte is [undefined], whose [toString] is a [TypeError]. *)
Fixpoint codec_hex (codecArray : list byte) (n j : nat) (codecString : string)
  : result string :=
  match n with
  | O => Ok codecString
  | S n' =>
      match nth_error codecArray j with
      | None => Throw TypeError
      | Some b => codec_hex codecArray n' (S j)
                    (codecString ++ hex2 (byte_val b))%string
      end
  end.

Definition codec_string (sps : list byte) : result string :=
  codec_hex (firstn 3 (skipn 1 sps)) 3 0 "avc1.".

Definition dquote : string := String (ascii_of_nat 34) EmptyString.

Module Avc1.
Record t : Type := {
  size : Z;
  dataRefIndex : Z;
  width : Z;
  height : Z;
  frameCount : Z;
  strlen : Z;
  compreName : string;
  depth : Z
}.
End Avc1.

Record StsdDetail : Type := { avc1 : Avc1.t }.

Definition invalid_avcC : string :=
  "MP4: Invalid AVCDecoderConfigurationRecord".

Definition strange_nalu_length (n : Z) : string :=
  ("MP4: Strange NaluLengthSizeMinusOne: " ++ decimal n)%string.

(** Everything below takes the two external functions as arguments:
    [parseSPS] is [SPSParser.parseSPS] and [isComplete] is
    [MediaInfo.prototype.isComplete]. *)

(** Lines 688-741: what the first SPS does to the metadata and the media
    info. *)
Definition first_sps (isComplete : MediaInfo.t -> bool) (sps : list byte)
  (config : SPS.config) : M unit :=
  _ <-- meta_update (meta_set_of_config config) ;;
  _ <-- meta_update (meta_set_frameRate (SPS.frame_rate config)) ;;
  d <-- get ;;
  _ <-- (if negb (SPS.fixed (SPS.frame_rate config)) ||
            (SPS.fps_num (SPS.frame_rate config) =? 0) ||
            (SPS.fps_den (SPS.frame_rate config) =? 0)
         then meta_update (meta_set_frameRate (_referenceFrameRate d))
         else ret tt) ;;
  d <-- get ;;
  match _videoMetadata d with
  | None => lift (Throw TypeError)
  | Some meta =>
      match Meta.frameRate meta with
      | None => lift (Throw TypeError)
      | Some frameRate =>
          let fps_den := SPS.fps_den frameRate in
          let fps_num := SPS.fps_num frameRate in
          _ <-- meta_update
                  (meta_set_refSampleDuration
                     (PrimFloat.mul
                        (to_number (prop (Meta.timescale_mvhd meta)))
                        (PrimFloat.div (num_of_Z fps_den) (num_of_Z fps_num)))) ;;
          codecString <-- lift (codec_string sps) ;;
          _ <-- meta_update (meta_set_codec codecString) ;;
          _ <-- mi_update (fun mi =>
                  mi_set_videoCodec codecString
                    (mi_set_fps (SPS.fps frameRate)
                       (mi_set_of_config config mi))) ;;
          d <-- get ;;
          let mi := _mediaInfo d in
          _ <-- (if MediaInfo.hasAudio mi then
                   match MediaInfo.audioCodec mi with
                   | Some audioCodec =>
                       mi_update (mi_set_mimeType
                         ("video/x-mp4; codecs=" ++ dquote ++ codecString ++
                          "," ++ audioCodec ++ dquote)%string)
                   | None => ret tt
                   end
                 else
                   mi_update (mi_set_mimeType
                     ("video/x-mp4; codecs=" ++ dquote ++ codecString ++
                      dquote)%string)) ;;
          d <-- get ;;
          if isComplete (_mediaInfo d) then emit (onMediaInfo (_mediaInfo d))
          else ret tt
      end
  end.

(** Lines 668-742: [n] further parameter sets from index [i]; the result
    is the offset after them. *)
Fixpoint sps_loop (le : bool) (parseSPS : list byte -> SPS.config)
  (isComplete : MediaInfo.t -> bool) (arrayBuffer : list byte) (v : DataView)
  (dataOffset : Z) (n : nat) (i : Z) (offset : Z) : M Z :=
  match n with
  | O => ret offset
  | S n' =>
      len <-- lift (getUint16 v offset (negb le)) ;;
      let offset := offset + 2 in
      if len =? 0 then
        sps_loop le parseSPS isComplete arrayBuffer v dataOffset n' (i + 1) offset
      else
        sps <-- lift (new_Uint8Array arrayBuffer (dataOffset + offset) len) ;;
        let offset := offset + len in
        let config := parseSPS sps in
        if negb (i =? 0) then
          sps_loop le parseSPS isComplete arrayBuffer v dataOffset n' (i + 1) offset
        else
          _ <-- first_sps isComplete sps config ;;
          sps_loop le parseSPS isComplete arrayBuffer v dataOffset n' (i + 1) offset
  end.

(** Lines 752-762. *)
Fixpoint pps_loop (le : bool) (v : DataView) (n : nat) (offset : Z) : M Z :=
  match n with
  | O => ret offset
  | S n' =>
      len <-- lift (getUint16 v offset (negb le)) ;;
      let offset := offset + 2 in
      if len =? 0 then pps_loop le v n' offset
      else pps_loop le v n' (offset + len)
  end.

(** The function returns [undefined] on its early exits and the
    [stsdDetail] object at the end. *)
Definition is_truthy (z : Z) : bool := negb (z =? 0).

(** Lines 660-775: from [numOfSequenceParameterSets] (at offset 115) to
    the end. *)
Definition parameter_sets (le : bool) (parseSPS : list byte -> SPS.config)
  (isComplete : MediaInfo.t -> bool) (arrayBuffer : list byte) (v : DataView)
  (dataOffset : Z) (stsdDetail : StsdDetail) : M (option StsdDetail) :=
  b <-- lift (getUint8 v 115) ;;
  let spsNum := Z.land (Z.land b 0x1f) 0x1f in
  if spsNum =? 0 then
    _ <-- emit (onError FORMAT_ERROR
                  "MP4: Invalid AVCDecoderConfigurationRecord: No SPS") ;;
    ret None
  else
    _ <-- (if spsNum >? 1
           then emit (Log_w ("MP4: Strange AVCDecoderConfigurationRecord: SPS Count = "
                             ++ decimal spsNum)%string)
           else ret tt) ;;
    offset <-- sps_loop le parseSPS isComplete arrayBuffer v dataOffset
                 (Z.to_nat spsNum) 0 116 ;;
    ppsNum <-- lift (getUint8 v offset) ;;
    let offset := offset + 1 in
    if ppsNum =? 0 then
      _ <-- emit (onError FORMAT_ERROR
                    "MP4: Invalid AVCDecoderConfigurationRecord: No PPS") ;;
      ret None
    else
      _ <-- (if ppsNum >? 1
             then emit (Log_w ("MP4: Strange AVCDecoderConfigurationRecord: PPS Count = "
                               ++ decimal ppsNum)%string)
             else ret tt) ;;
      _ <-- pps_loop le v (Z.to_nat ppsNum) offset ;;
      d <-- get ;;
      _ <-- (if _isInitialMetadataDispatched d then
               if _dispatch d &&
                  (is_truthy (Track.length (_audioTrack d)) ||
                   is_truthy (Track.length (_videoTrack d)))
               then emit (onDataAvailable (Track.length (_audioTrack d))
                                          (Track.length (_videoTrack d)))
               else ret tt
             else modify (set_videoInitialMetadataDispatched true)) ;;
      _ <-- modify (set_dispatch false) ;;
      d <-- get ;;
      match _videoMetadata d with
      | None => lift (Throw TypeError)
      | Some meta =>
          _ <-- emit (onTrackMetadata "video" meta) ;;
          ret (Some stsdDetail)
      end.

(** Lines 644-658: the four header bytes of the record at offsets
    110..113, the two checks, and on success the rest of the record. *)
Definition avcC_record (le : bool) (parseSPS : list byte -> SPS.config)
  (isComplete : MediaInfo.t -> bool) (arrayBuffer : list byte) (v : DataView)
  (dataOffset : Z) (stsdDetail : StsdDetail) : M (option StsdDetail) :=
  confVer <-- lift (getUint8 v 110) ;;
  avcProfile <-- lift (getUint8 v 111) ;;
  profileCompatibility <-- lift (getUint8 v 112) ;;
  avcLevel <-- lift (getUint8 v 113) ;;
  if negb (confVer =? 1) || (avcProfile =? 0) then
    _ <-- emit (onError FORMAT_ERROR invalid_avcC) ;;
    ret None
  else
    b <-- lift (getUint8 v 114) ;;
    _ <-- modify (set_naluLengthSize (Z.land (Z.land b 3) 3 + 1)) ;;
    d <-- get ;;
    if negb (_naluLengthSize d =? 3) && negb (_naluLengthSize d =? 4) then
      _ <-- emit (onError FORMAT_ERROR
                    (strange_nalu_length (_naluLengthSize d - 1))) ;;
      ret None
    else
      parameter_sets le parseSPS isComplete arrayBuffer v dataOffset stsdDetail.

(** [_parseStsd]. *)
Definition _parseStsd (le : bool) (parseSPS : list byte -> SPS.config)
  (isComplete : MediaInfo.t -> bool) (arrayBuffer : list byte)
  (dataOffset dataSize : Z) : M (option StsdDetail) :=
  v <-- lift (new_DataView arrayBuffer dataOffset dataSize) ;;
  _ <-- lift (ReadBoxName v (dataOffset + 4)) ;;
  _ <-- lift (read_version_flag le v) ;;
  entryCount <-- lift (getUint32 v 12 (negb le)) ;;
  box_n <-- lift (ReadBoxName v (dataOffset + 16 + 4)) ;;
  if negb (String.eqb box_n "avc1") then
    _ <-- emit (Log_w "Input file is not codec with h264!") ;;
    ret None
  else
    size <-- lift (getUint32 v 16 (negb le)) ;;
    dataRefIndex <-- lift (getUint16 v 30 (negb le)) ;;
    width <-- lift (getUint16 v 48 (negb le)) ;;
    height <-- lift (getUint16 v 50 (negb le)) ;;
    frameCount <-- lift (getUint16 v 64 (negb le)) ;;
    strlen <-- lift (getUint8 v 66) ;;
    compreName <-- lift (buffer_ascii (dv_buffer v) (dataOffset + 66 + 1) strlen) ;;
    depth <-- lift (getUint16 v 98 (negb le)) ;;
    avcC_size <-- lift (getUint32 v 102 (negb le)) ;;
    avcCData <-- lift (new_Uint8Array arrayBuffer (dataOffset + 102) avcC_size) ;;
    _ <-- emit (Log_v "Copied AVCDecoderConfigurationRecord!") ;;
    _ <-- meta_update (meta_set_avcc avcCData) ;;
    avcC_record le parseSPS isComplete arrayBuffer v dataOffset
      {| avc1 := {| Avc1.size := size;
                    Avc1.dataRefIndex := dataRefIndex;
                    Avc1.width := width;
                    Avc1.height := height;
                    Avc1.frameCount := frameCount;
                    Avc1.strlen := strlen;
                    Avc1.compreName := compreName;
                    Avc1.depth := depth |} |}.

(** ** The NAL framer (lines 977-1031) *)

(** How the loop of lines 986-1013 is left. *)
Inductive nal_exit : Type :=
| Nal_return
    (** line 998, after the NaluSize > DataSize warning *)
| Nal_break (offset : Z) (units : list NalUnit.t) (length : Z) (keyframe : bool)
    (** line 989, after the data-not-enough warning *)
| Nal_end (units : list NalUnit.t) (length : Z) (keyframe : bool).
    (** the loop condition [offset < dataSize] is false *)

(** The loop; [None] when [fuel] iterations were not enough. *)
Fixpoint nal_loop (le : bool) (arrayBuffer : list byte) (v : DataView)
  (dataOffset dataSize lengthSize : Z) (fuel : nat) (offset : Z)
  (keyframe : bool) (units : list NalUnit.t) (length : Z)
  : option (result nal_exit) :=
  match fuel with
  | O => None
  | S fuel' =>
      if offset <? dataSize then
        if offset + 4 >=? dataSize then
          Some (Ok (Nal_break offset units length keyframe))
        else
          match getUint32 v offset (negb le) with
          | Throw e => Some (Throw e)
          | Ok naluSize =>
              let naluSize :=
                if lengthSize =? 3 then Z.shiftr naluSize 8 else naluSize in
              if naluSize >? dataSize - lengthSize then Some (Ok Nal_return)
              else
                match getUint8 v (offset + lengthSize) with
                | Throw e => Some (Throw e)
                | Ok b =>
                    let unitType := Z.land b 0x1F in
                    let keyframe := if unitType =? 5 then true else keyframe in
                    match new_Uint8Array arrayBuffer (dataOffset + offset)
                            (lengthSize + naluSize) with
                    | Throw e => Some (Throw e)
                    | Ok _ =>
                        let unit :=
                          {| NalUnit.type := unitType;
                             NalUnit.data :=
                               {| Uint8Array.byteOffset := dataOffset + offset;
                                  Uint8Array.byteLength :=
                                    lengthSize + naluSize |} |} in
                        nal_loop le arrayBuffer v dataOffset dataSize lengthSize
                          fuel' (offset + lengthSize + naluSize) keyframe
                          (units ++ [unit])
                          (length + Uint8Array.byteLength (NalUnit.data unit))
                    end
                end
          end
      else Some (Ok (Nal_end units length keyframe))
  end.

(** ToString of an interpolated value. *)
Definition show (x : jsval) : string :=
  match x with
  | Undefined => "undefined"
  | NaN => "NaN"
  | Int z => decimal z
  end.

Definition malformed_nalu (dts : jsval) (offset dataSize : Z) : string :=
  ("Malformed Nalu near timestamp " ++ show dts ++ ", offset = " ++
   decimal offset ++ ", dataSize = " ++ decimal dataSize)%string.

Definition malformed_nalus (dts : jsval) : string :=
  ("Malformed Nalus near timestamp " ++ show dts ++
   ", NaluSize > DataSize!")%string.

(** Lines 1015-1030. *)
Definition append_sample (units : list NalUnit.t) (length : Z) (keyframe : bool)
  (dts : jsval) (d : Demuxer) : Demuxer :=
  match units with
  | [] => d
  | _ :: _ =>
      let track := _videoTrack d in
      let avcSample :=
        {| AvcSample.units := units;
           AvcSample.length := length;
           AvcSample.isKeyframe := keyframe;
           AvcSample.dts := dts;
           AvcSample.cts := 0;
           AvcSample.pts := dts |} in
      set_videoTrack
        {| Track.id := Track.id track;
           Track.samples := Track.samples track ++ [avcSample];
           Track.length := Track.length track + length |} d
  end.

Definition log_w (msg : string) (d : Demuxer) : Demuxer :=
  set_trace (trace d ++ [Log_w msg]) d.

(** [_parseAVCVideoData]; [None] only if the loop does not end within
    [dataSize + 1] iterations. *)
Definition _parseAVCVideoData (le : bool) (arrayBuffer : list byte)
  (dataOffset dataSize : Z) (dts : jsval) (d : Demuxer)
  : option (result unit * Demuxer) :=
  match new_DataView arrayBuffer dataOffset dataSize with
  | Throw e => Some (Throw e, d)
  | Ok v =>
      match nal_loop le arrayBuffer v dataOffset dataSize (_naluLengthSize d)
              (S (Z.to_nat dataSize)) 0 false [] 0 with
      | None => None
      | Some (Throw e) => Some (Throw e, d)
      | Some (Ok Nal_return) => Some (Ok tt, log_w (malformed_nalus dts) d)
      | Some (Ok (Nal_break offset units length keyframe)) =>
          Some (Ok tt,
                append_sample units length keyframe dts
                  (log_w (malformed_nalu dts offset dataSize) d))
      | Some (Ok (Nal_end units length keyframe)) =>
          Some (Ok tt, append_sample units length keyframe dts d)
      end
  end.

(** ** The constructor (lines 40-123).  The hexadecimal literal is the
    binary64 value of 23.976. *)

Definition new_MP4Demuxer (probeData : ProbeData) : Demuxer :=
  {| _hasAudio := hasAudioTrack probeData;
     _hasVideo := hasVideoTrack probeData;
     _hasVideoFlagOverrided := false;
     _audioInitialMetadataDispatched := false;
     _videoInitialMetadataDispatched := false;
     _dispatch := false;
     _mediaInfo :=
       {| MediaInfo.hasAudio := hasAudioTrack probeData;
          MediaInfo.hasVideo := hasVideoTrack probeData;
          MediaInfo.of_config := None;
          MediaInfo.fps := None;
          MediaInfo.videoCodec := None;
          MediaInfo.audioCodec := None;
          MediaInfo.mimeType := None |};
     _videoMetadata := None;
     _naluLengthSize := 4;
     _referenceFrameRate :=
       {| SPS.fixed := true; SPS.fps := 0x1.7f9db22d0e56p+4%float;
          SPS.fps_num := 23976; SPS.fps_den := 1000 |};
     _videoTrack := {| Track.id := 1; Track.samples := []; Track.length := 0 |};
     _audioTrack := {| Track.id := 2; Track.samples := []; Track.length := 0 |};
     elst := None; stsc := None; stsz := None; stco := None; stts := None;
     trace := [] |}.

(** ** Concrete inputs used below *)





Definition sizes_of (r : result (option (list SamEntry) * list string))
  : option (list jsval) :=
  match r with
  | Ok (Some t, _) => Some (map size t)
  | _ => None
  end.

Definition offsets_of (r : result (option (list SamEntry) * list string))
  : option (list jsval) :=
  match r with
  | Ok (Some t, _) => Some (map offset t)
  | _ => None
  end.

(** ** The resolver's result in closed form *)

Definition samples_in (ce : ChkEntry) : nat := Z.to_nat (samCount ce).

(** The index of the first sample of chunk [k]: the samples of the
    chunks before it. *)
Definition first_sample (chks : list ChkEntry) (k : nat) : nat :=
  list_sum (map samples_in (firstn k chks)).

(** The offset cursor after [l] samples of a chunk whose first sample has
    index [g] and whose chunk offset is [start]. *)
Definition cursor (stsz : Stsz.t) (start : jsval) (g l : nat) : jsval :=
  fold_left js_add (map (array_get (Stsz.samples stsz)) (seq g l)) start.

(** The record expected for sample [l] of chunk [k]. *)
Definition expected_record (stsz : Stsz.t) (stco : Stco.t)
  (chks : list ChkEntry) (k l : nat) : SamEntry :=
  {| chkIndex := k;
     indexInChk := l;
     offset := cursor stsz (array_get (Stco.entries stco) k)
                 (first_sample chks k) l;
     size := array_get (Stsz.samples stsz) (first_sample chks k + l);
     dts := None; cts := None; pts := None |}.

(** The expansion of [stsc] in the specification's words: entry i applies
    from firstChunk[i] up to firstChunk[i+1]-1, or up to the last chunk;
    [count] is the number of chunks. *)
Fixpoint spec_expand_stsc (entries : list Stsc.entry) (count : Z)
  : list ChkEntry :=
  match entries with
  | [] => []
  | e :: rest =>
      let next := match rest with
                  | [] => count + 1
                  | e' :: _ => Stsc.firstChk e'
                  end in
      repeat {| samCount := Stsc.samPerChk e; sdi := Stsc.samDesIndex e |}
             (Z.to_nat (next - Stsc.firstChk e))
      ++ spec_expand_stsc rest count
  end.

(** The number of samples the expanded [stsc] implies. *)
Definition spec_implied_samples (entries : list Stsc.entry) (count : Z) : Z :=
  fold_right Z.add 0 (map samCount (spec_expand_stsc entries count)).

(** [stsc] entries strictly ascending by firstChunk, none past the last
    chunk. *)
Fixpoint stsc_ascending (prev : Z) (entries : list Stsc.entry) (count : Z)
  : Prop :=
  match entries with
  | [] => True
  | e :: rest =>
      prev < Stsc.firstChk e /\ Stsc.firstChk e <= count /\
      stsc_ascending (Stsc.firstChk e) rest count
  end.

(** The entries cover the chunks 1..count: the first entry starts at chunk
    1 and the entries ascend. *)
Definition stsc_covers (entries : list Stsc.entry) (count : Z) : Prop :=
  match entries with
  | [] => count = 0
  | e :: rest =>
      Stsc.firstChk e = 1 /\ 1 <= count /\ stsc_ascending 1 rest count
  end.

(** A valid sample-table triple: the counts are those of the arrays (as
    the parsers leave them), fields are unsigned, the entries cover the
    chunks of [stco], and the expansion implies [sampleCount] samples. *)
Record valid_tables (stsc : Stsc.t) (stsz : Stsz.t) (stco : Stco.t) : Prop := {
  stsc_count : Stsc.entryCount stsc = Z.of_nat (List.length (Stsc.entries stsc));
  stsz_count : Stsz.sampleCount stsz = Z.of_nat (List.length (Stsz.samples stsz));
  stco_count : 0 <= Stco.entryCount stco < 2 ^ 32;
  stsc_unsigned : Forall (fun e => 0 <= Stsc.samPerChk e) (Stsc.entries stsc);
  stsc_cover : stsc_covers (Stsc.entries stsc) (Stco.entryCount stco);
  stsc_implies :
    spec_implied_samples (Stsc.entries stsc) (Stco.entryCount stco) =
    Stsz.sampleCount stsz
}.

(** Scenario 4 with chunk 4 absent from [stco]. *)
Definition stco_three_chunks : Stco.t :=
  {| Stco.entryCount := 3; Stco.entries := [100; 300; 500] |}.

(** The samples of one chunk, and of a list of chunks, as lists: what
    [walk_samples] and [walk_chunks] append. *)
Fixpoint chunk_records (stsz : Stsz.t) (n k l : nat) (samOffset : jsval)
  (g : nat) : list SamEntry :=
  match n with
  | O => []
  | S n' =>
      {| chkIndex := k;
         indexInChk := l;
         offset := samOffset;
         size := array_get (Stsz.samples stsz) g;
         dts := None; cts := None; pts := None |}
      :: chunk_records stsz n' k (S l)
           (js_add samOffset (array_get (Stsz.samples stsz) g)) (S g)
  end.

Fixpoint table_of (stsz : Stsz.t) (stco : Stco.t) (chks : list ChkEntry)
  (k g : nat) : list SamEntry :=
  match chks with
  | [] => []
  | ce :: rest =>
      chunk_records stsz (samples_in ce) k 0 (array_get (Stco.entries stco) k) g
      ++ table_of stsz stco rest (S k) (g + samples_in ce)
  end.

(** The chunk at which the entries [post] start, or one past the last
    chunk when there are none: the value of [lastChkCount] once [post] has
    been processed. *)
Definition next_first (post : list Stsc.entry) (count : Z) : Z :=
  match post with
  | [] => count + 1
  | e :: _ => Stsc.firstChk e
  end.

Definition chk_of (e : Stsc.entry) : ChkEntry :=
  {| samCount := Stsc.samPerChk e; sdi := Stsc.samDesIndex e |}.

(** Boundary scenarios 3 and 5: one chunk at offset 2048 holding one
    sample of 1024 bytes; one stts run of one sample with delta 3000; an
    edit list whose first entry has mediaTime 9000; mvhd timescale 1000
    and mdhd timescale 90000. *)
Definition stsc_scenario3 : Stsc.t :=
  {| Stsc.entryCount := 1;
     Stsc.entries :=
       [ {| Stsc.firstChk := 1; Stsc.samPerChk := 1; Stsc.samDesIndex := 1 |} ] |}.

Definition stsz_scenario3 : Stsz.t :=
  {| Stsz.sampleSize := 0; Stsz.sampleCount := 1;
     Stsz.samples := [1024]; Stsz.total := 1024 |}.

Definition stco_scenario3 : Stco.t :=
  {| Stco.entryCount := 1; Stco.entries := [2048] |}.

(** The stts box of the scenario (24 bytes): one entry {1, 3000}. *)
Definition stts_box : list byte :=
  bytes_of [0; 0; 0; 24; 0x73; 0x74; 0x74; 0x73;
            0; 0; 0; 0;
            0; 0; 0; 1;
            0; 0; 0; 1;
            0; 0; 0x0b; 0xb8].

(** The same table as an object that does carry [entryCount]. *)
Definition stts_with_entryCount : Stts.t :=
  {| Stts.entryCount := Some 1;
     Stts.entries := [ {| Stts.samCount := 1; Stts.samDelta := 3000 |} ] |}.

Definition elst_scenario5 : Elst.t :=
  {| Elst.entries :=
       [ {| Elst.segDuration := Some 0;
            Elst.mediaTime := Some 9000;
            Elst.mediaRateInt := 1;
            Elst.mediaRateFrac := 0 |} ] |}.

(** An mvhd box cut after its duration field (28 bytes): timescale 1000,
    duration 5000. *)
Definition mvhd_box : list byte :=
  bytes_of [0; 0; 0; 28; 0x6d; 0x76; 0x68; 0x64;
            0; 0; 0; 0;
            0; 0; 0; 0;
            0; 0; 0; 0;
            0; 0; 0x03; 0xe8;
            0; 0; 0x13; 0x88].

(** An mdhd box (32 bytes): timescale 90000, duration 450000. *)
Definition mdhd_box : list byte :=
  bytes_of [0; 0; 0; 32; 0x6d; 0x64; 0x68; 0x64;
            0; 0; 0; 0;
            0; 0; 0; 0;
            0; 0; 0; 0;
            0; 1; 0x5f; 0x90;
            0; 6; 0xdd; 0xd0;
            0x55; 0xc4; 0; 0].

(** A demuxer after the probe of [ftyp_moov_buffer]. *)
Definition fresh_demuxer : Demuxer :=
  new_MP4Demuxer
    {| consumed := 24; dataOffset := 24; rawDataSize := 0; infoOffset := 24;
       hasAudioTrack := false; hasVideoTrack := true |}.

(** The demuxer once [mvhd_box] and [mdhd_box] have been parsed. *)
Definition demuxer_with_timescales : Demuxer :=
  snd (mbind (_parseMvhd true mvhd_box 0 28)
             (fun _ => _parseMdhd true mdhd_box 0 32) fresh_demuxer).

(** [this.stsc = ...], ..., [this.elst = ...] as parseChunks assigns them
    (lines 344-371). *)
Definition with_tables (stsc_ : Stsc.t) (stsz_ : Stsz.t) (stco_ : Stco.t)
  (stts_ : Stts.t) (elst_ : option Elst.t) (d : Demuxer) : Demuxer :=
  {| _hasAudio := _hasAudio d;
     _hasVideo := _hasVideo d;
     _hasVideoFlagOverrided := _hasVideoFlagOverrided d;
     _audioInitialMetadataDispatched := _audioInitialMetadataDispatched d;
     _videoInitialMetadataDispatched := _videoInitialMetadataDispatched d;
     _dispatch := _dispatch d;
     _mediaInfo := _mediaInfo d;
     _videoMetadata := _videoMetadata d;
     _naluLengthSize := _naluLengthSize d;
     _referenceFrameRate := _referenceFrameRate d;
     _videoTrack := _videoTrack d;
     _audioTrack := _audioTrack d;
     elst := elst_;
     stsc := Some stsc_;
     stsz := Some stsz_;
     stco := Some stco_;
     stts := Some stts_;
     trace := trace d |}.

(** The [dts] of the first record of a resolved table: [None] when there
    is no such record, [Some None] when the record has no [dts]. *)
Definition first_dts (r : result (option (list SamEntry))) : option (option float) :=
  match r with
  | Ok (Some (e :: _)) => Some (dts e)
  | _ => None
  end.

(** An stsd box (127 bytes) holding one avc1 sample entry, 1280x720, whose
    avcC record starts at offset 110 with the given configurationVersion,
    AVCProfileIndication and lengthSizeMinusOne byte, and carries one
    4-byte SPS and one 2-byte PPS. *)
Definition stsd_box_with (confVer avcProfile lengthByte : Z) : list byte :=
  bytes_of
    ([0; 0; 0; 127; 0x73; 0x74; 0x73; 0x64;     (* size, 'stsd' *)
      0; 0; 0; 0;                               (* version, flags *)
      0; 0; 0; 1;                               (* entryCount *)
      0; 0; 0; 111; 0x61; 0x76; 0x63; 0x31]     (* size, 'avc1' *)
     ++ repeat 0 6                              (* reserved *)
     ++ [0; 1]                                  (* dataReferenceIndex *)
     ++ repeat 0 16                             (* pre-defined *)
     ++ [0x05; 0x00; 0x02; 0xd0]                (* width, height *)
     ++ [0; 0x48; 0; 0; 0; 0x48; 0; 0]          (* resolutions *)
     ++ repeat 0 4                              (* reserved *)
     ++ [0; 1]                                  (* frameCount *)
     ++ repeat 0 32                             (* compressor name *)
     ++ [0; 0x18; 0xff; 0xff]                   (* depth, pre-defined *)
     ++ [0; 0; 0; 25; 0x61; 0x76; 0x63; 0x43]   (* size, 'avcC' *)
     ++ [confVer; avcProfile; 0; 0x1f; lengthByte]
     ++ [0xe1; 0; 4; 0x67; 0x64; 0x00; 0x1f]    (* one SPS *)
     ++ [1; 0; 2; 0x68; 0xee]).                 (* one PPS *)

Definition stsd_box : list byte := stsd_box_with 1 0x64 0xff.

(** A stand-in for the external SPS parser: a fixed 25/1 frame rate. *)
Definition sps_config_25fps : SPS.config :=
  {| SPS.profile_string := "High";
     SPS.level_string := "3.1";
     SPS.bit_depth := 8;
     SPS.chroma_format := 420;
     SPS.chroma_format_string := "4:2:0";
     SPS.frame_rate :=
       {| SPS.fixed := true; SPS.fps := 25%float;
          SPS.fps_num := 25; SPS.fps_den := 1 |};
     SPS.sar_ratio := {| SPS.width := 1; SPS.height := 1 |};
     SPS.codec_size := {| SPS.width := 1280; SPS.height := 720 |};
     SPS.present_size := {| SPS.width := 1280; SPS.height := 720 |} |}.

Definition parseSPS_25fps (sps : list byte) : SPS.config := sps_config_25fps.

(** Modelled from the spec: [MediaInfo.prototype.isComplete]
    (core/media-info.js is not among the sources).  The record is
    complete when width, height, fps and codec are all set and, if audio
    exists, its codec is present as well. *)
Definition isComplete_per_spec (mi : MediaInfo.t) : bool :=
  match MediaInfo.of_config mi, MediaInfo.fps mi, MediaInfo.videoCodec mi with
  | Some _, Some _, Some _ =>
      if MediaInfo.hasAudio mi
      then match MediaInfo.audioCodec mi with Some _ => true | None => false end
      else true
  | _, _, _ => false
  end.

(** The demuxer after [mvhd_box], then the given stsd box. *)
Definition after_mvhd_and_stsd (box : list byte) : result (option StsdDetail) * Demuxer :=
  mbind (_parseMvhd true mvhd_box 0 28)
        (fun _ => _parseStsd true parseSPS_25fps isComplete_per_spec box 0 127)
        fresh_demuxer.

(** The events a run added to the trace it started from. *)
Definition new_events (before after : Demuxer) : list Event :=
  skipn (List.length (trace before)) (trace after).

(** The errors that the part of [_parseStsd] after the two header checks
    can report. *)
Definition later_event (e : Event) : Prop :=
  match e with
  | onError _ info =>
      info = "MP4: Invalid AVCDecoderConfigurationRecord: No SPS"%string \/
      info = "MP4: Invalid AVCDecoderConfigurationRecord: No PPS"%string
  | _ => True
  end.

(** A step that only appends such events to the trace and leaves
    [_naluLengthSize] alone. *)
Definition quiet {A : Type} (m : M A) : Prop :=
  forall d,
    exists new,
      trace (snd (m d)) = trace d ++ new /\
      Forall later_event new /\
      _naluLengthSize (snd (m d)) = _naluLengthSize d.

(** The view and the sample-entry record that [_parseStsd] has built when
    it reaches the avcC record of an stsd box at offset 0. *)
Definition stsd_view (box : list byte) : DataView :=
  {| dv_buffer := box; dv_byteOffset := 0; dv_byteLength := 127 |}.

Definition stsd_detail : StsdDetail :=
  {| avc1 := {| Avc1.size := 111;
                Avc1.dataRefIndex := 1;
                Avc1.width := 1280;
                Avc1.height := 720;
                Avc1.frameCount := 1;
                Avc1.strlen := 0;
                Avc1.compreName := "";
                Avc1.depth := 24 |} |}.

(** A box whose lengthSizeMinusOne byte is 0xfd: low two bits 01. *)
Definition stsd_box_short_length : list byte := stsd_box_with 1 0x64 0xfd.

(** ** The NAL units of a sample, as the framer steps over them *)

(** Lines 992-995: the size a unit declares in its length prefix. *)
Definition declared_size (le : bool) (v : DataView) (lengthSize offset : Z)
  : result Z :=
  naluSize <- getUint32 v offset (negb le) ;;
  Ok (if lengthSize =? 3 then Z.shiftr naluSize 8 else naluSize).

(** [nal_reached ... o]: the loop arrives at offset [o], having accepted
    every unit before it. *)
Inductive nal_reached (le : bool) (arrayBuffer : list byte) (v : DataView)
  (dataOffset dataSize lengthSize : Z) : Z -> Prop :=
| reached_first : nal_reached le arrayBuffer v dataOffset dataSize lengthSize 0
| reached_next (o naluSize b : Z) (data : list byte) :
    nal_reached le arrayBuffer v dataOffset dataSize lengthSize o ->
    o + 4 < dataSize ->
    declared_size le v lengthSize o = Ok naluSize ->
    naluSize <= dataSize - lengthSize ->
    getUint8 v (o + lengthSize) = Ok b ->
    new_Uint8Array arrayBuffer (dataOffset + o) (lengthSize + naluSize) = Ok data ->
    nal_reached le arrayBuffer v dataOffset dataSize lengthSize
      (o + lengthSize + naluSize).

(** A 20-byte sample followed by the 10 bytes of the next one.  Its
    first unit declares 6 bytes (offsets 0..9).  Its second unit, at
    offset 10, declares 16 bytes although only 6 bytes of the sample
    remain after its length prefix. *)
Definition overlong_second_nal : list byte :=
  bytes_of [0; 0; 0; 6; 0x41; 1; 2; 3; 4; 5;
            0; 0; 0; 16; 0x41; 1; 2; 3; 4; 5;
            0; 0; 0; 6; 0x41; 1; 2; 3; 4; 5].

(** A 20-byte sample whose first unit declares 17 bytes, one more than
    the 16 that follow its length prefix. *)
Definition overlong_first_nal : list byte :=
  bytes_of [0; 0; 0; 17; 0x41; 1; 2; 3; 4; 5;
            6; 7; 8; 9; 10; 11; 12; 13; 14; 15].

(** A sample of one unit of type 5 (first payload byte 0x65), and one of
    two units of type 1 (0x41). *)
Definition idr_sample : list byte :=
  bytes_of [0; 0; 0; 2; 0x65; 0x88].

Definition non_idr_sample : list byte :=
  bytes_of [0; 0; 0; 2; 0x41; 0x9a; 0; 0; 0; 3; 0x41; 0x9b; 0x9c].

(** A 20-byte sample (followed by 10 more bytes) whose second unit, at
    offset 10, declares 17 bytes: more than the 16 bytes of the sample
    less the length prefix. *)
Definition oversized_second_nal : list byte :=
  bytes_of [0; 0; 0; 6; 0x41; 1; 2; 3; 4; 5;
            0; 0; 0; 17; 0x41; 1; 2; 3; 4; 5;
            0; 0; 0; 6; 0x41; 1; 2; 3; 4; 5].

(** The units and the keyframe flag with which the loop is left, when it
    is not left by the [return] of line 998. *)
Definition exit_sample (e : nal_exit) : option (list NalUnit.t * bool) :=
  match e with
  | Nal_return => None
  | Nal_break _ us _ kf => Some (us, kf)
  | Nal_end us _ kf => Some (us, kf)
  end.

(** ** The timing resolver's result in closed form *)

Definition run_length (e : Stts.entry) : nat := Z.to_nat (Stts.samCount e).

(** The index of the first sample of run [i]. *)
Definition run_first (entries : list Stts.entry) (i : nat) : nat :=
  list_sum (map run_length (firstn i entries)).

(** The cumulative time at which run [i] starts, as line 455 accumulates
    it from [dtsSum]: a run of at least one sample adds
    samDelta * samCount. *)
Fixpoint run_start (entries : list Stts.entry) (i : nat) (dtsSum : float)
  : float :=
  match i, entries with
  | S i', e :: rest =>
      run_start rest i'
        (if 0 <? Stts.samCount e
         then PrimFloat.add dtsSum
                (PrimFloat.mul (num_of_Z (Stts.samDelta e))
                               (num_of_Z (Stts.samCount e)))
         else dtsSum)
  | _, _ => dtsSum
  end.

(** The [dts] expected for sample [j] of a run that starts at time [T]. *)
Definition expected_dts (T : float) (e : Stts.entry) (j : nat) (shift : float)
  : float :=
  PrimFloat.sub
    (PrimFloat.add T
       (PrimFloat.mul (num_of_Z (Stts.samDelta e)) (num_of_Z (Z.of_nat j))))
    shift.

(** [startTime / mvhdts * mdhdts] for the parameters of [_timeDetials]. *)
Definition edit_shift (elst_ : option Elst.t) (mvhdts mdhdts : jsval)
  : float :=
  let startTime :=
    match elst_ with
    | None => Int 0
    | Some el =>
        match nth_error (Elst.entries el) 0 with
        | Some e0 => prop (Elst.mediaTime e0)
        | None => Undefined
        end
    end in
  PrimFloat.mul (PrimFloat.div (to_number startTime) (to_number mvhdts))
                (to_number mdhdts).

(** ** Further concrete inputs *)

(** An stsc box (40 bytes) with the two entries {1, 2, 1} and {3, 1, 1}. *)
Definition stsc_box : list byte :=
  bytes_of [0; 0; 0; 40; 0x73; 0x74; 0x73; 0x63;
            0; 0; 0; 0;
            0; 0; 0; 2;
            0; 0; 0; 1;  0; 0; 0; 2;  0; 0; 0; 1;
            0; 0; 0; 3;  0; 0; 0; 1;  0; 0; 0; 1].

(** An stco box (28 bytes) with the three chunk offsets 100, 300, 500. *)
Definition stco_box : list byte :=
  bytes_of [0; 0; 0; 28; 0x73; 0x74; 0x63; 0x6f;
            0; 0; 0; 0;
            0; 0; 0; 3;
            0; 0; 0; 100;  0; 0; 1; 44;  0; 0; 1; 244].

(** An stsz box (40 bytes) with five sizes of 50 bytes. *)
Definition stsz_box : list byte :=
  bytes_of [0; 0; 0; 40; 0x73; 0x74; 0x73; 0x7a;
            0; 0; 0; 0;
            0; 0; 0; 0;
            0; 0; 0; 5;
            0; 0; 0; 50;  0; 0; 0; 50;  0; 0; 0; 50;  0; 0; 0; 50;  0; 0; 0; 50].

(** An elst box of the given version (28 bytes) with one entry. *)
Definition elst_box (version : Z) : list byte :=
  bytes_of [0; 0; 0; 28; 0x65; 0x6c; 0x73; 0x74;
            version; 0; 0; 0;
            0; 0; 0; 1;
            0; 0; 0x13; 0x88;  0; 0; 0x23; 0x28;  0; 1; 0; 0].

(** A record of the flat table that holds numbers only. *)
Definition numeric (e : SamEntry) : Prop :=
  exists o s, offset e = Int o /\ size e = Int s.

(** Two records of the flat table that differ at most in their times. *)
Definition same_layout (e e' : SamEntry) : Prop :=
  chkIndex e' = chkIndex e /\ indexInChk e' = indexInChk e /\
  offset e' = offset e /\ size e' = size e.

(** An stsc table whose only entry starts at chunk 2. *)
Definition stsc_from_chunk_2 : Stsc.t :=
  {| Stsc.entryCount := 1;
     Stsc.entries :=
       [ {| Stsc.firstChk := 2; Stsc.samPerChk := 1; Stsc.samDesIndex := 1 |} ] |}.

(** Two runs: two samples 3000 apart, then one sample of 1500. *)
Definition stts_two_runs : Stts.t :=
  {| Stts.entryCount := Some 2;
     Stts.entries := [ {| Stts.samCount := 2; Stts.samDelta := 3000 |};
                       {| Stts.samCount := 1; Stts.samDelta := 1500 |} ] |}.

(** A flat table of three records, as the resolver leaves them. *)
Definition three_records : list SamEntry :=
  [ {| chkIndex := 0; indexInChk := 0; offset := Int 100; size := Int 50;
       dts := None; cts := None; pts := None |};
    {| chkIndex := 0; indexInChk := 1; offset := Int 150; size := Int 50;
       dts := None; cts := None; pts := None |};
    {| chkIndex := 1; indexInChk := 0; offset := Int 300; size := Int 50;
       dts := None; cts := None; pts := None |} ].

(** What [_parseElst] returns for [elst_box 1]. *)
Definition elst_rate_only : Elst.t :=
  {| Elst.entries :=
       [ {| Elst.segDuration := None;
            Elst.mediaTime := None;
            Elst.mediaRateInt := 0;
            Elst.mediaRateFrac := 5000 |} ] |}.

(** ** tkhd (lines 516-540) *)

(** [_parseTkhd]: whether the track id of the box is the id of the video
    metadata.  The id is read at offset 20 for version 0 and at offset 28
    for version 1; for any other version it is taken to be 0.  The
    metadata object is read last: [meta.id] on [null] is a [TypeError]. *)
Definition _parseTkhd (le : bool) (arrayBuffer : list byte)
  (dataOffset dataSize : Z) : M bool :=
  d <-- get ;;
  let meta := _videoMetadata d in
  v <-- lift (new_DataView arrayBuffer dataOffset dataSize) ;;
  version <-- lift (read_version_flag le v) ;;
  trackId <-- (if version =? 0 then lift (getUint32 v 20 (negb le))
               else if version =? 1 then lift (getUint32 v 28 (negb le))
               else ret 0) ;;
  match meta with
  | None => lift (Throw TypeError)
  | Some m =>
      ret (match Meta.id m with
           | Some id => trackId =? id
           | None => false
           end)
  end.

(** ** ftyp (lines 465-482) *)

Module Ftyp.
Record t : Type := {
  majorBrand : string;
  minorVersion : Z;
  compatBrands : list string
}.
End Ftyp.

(** The loop of lines 476-479; [None] when [fuel] iterations were not
    enough. *)
Fixpoint ftyp_loop (v : DataView) (dataOffset dataSize : Z) (fuel : nat)
  (offset : Z) (compatBrands : list string) : option (result (list string)) :=
  match fuel with
  | O => None
  | S fuel' =>
      if offset + 4 <? dataSize then
        match ReadBoxName v (dataOffset + offset) with
        | Throw e => Some (Throw e)
        | Ok brand =>
            ftyp_loop v dataOffset dataSize fuel' (offset + 4)
              (compatBrands ++ [brand])
        end
      else Some (Ok compatBrands)
  end.

(** [_parseFtyp]; [None] only if the loop does not end within
    [dataSize + 1] iterations. *)
Definition _parseFtyp (le : bool) (arrayBuffer : list byte)
  (dataOffset dataSize : Z) : option (result Ftyp.t) :=
  match new_DataView arrayBuffer dataOffset dataSize with
  | Throw e => Some (Throw e)
  | Ok v =>
      match ReadBoxName v (dataOffset + 8) with
      | Throw e => Some (Throw e)
      | Ok majorBrand =>
          match getUint32 v 12 (negb le) with
          | Throw e => Some (Throw e)
          | Ok minorVersion =>
              match ftyp_loop v dataOffset dataSize (S (Z.to_nat dataSize))
                      16 [] with
              | None => None
              | Some (Throw e) => Some (Throw e)
              | Some (Ok compatBrands) =>
                  Some (Ok {| Ftyp.majorBrand := majorBrand;
                              Ftyp.minorVersion := minorVersion;
                              Ftyp.compatBrands := compatBrands |})
              end
          end
      end
  end.

(** An ftyp box (24 bytes): major brand isom, minor version 512, and the
    two compatible brands isom and avc1. *)
Definition ftyp_two_brands : list byte :=
  bytes_of [0; 0; 0; 24; 0x66; 0x74; 0x79; 0x70;
            0x69; 0x73; 0x6f; 0x6d;  0; 0; 2; 0;
            0x69; 0x73; 0x6f; 0x6d;  0x61; 0x76; 0x63; 0x31].

(** A tkhd box of version 0 cut after its track id (24 bytes). *)
Definition tkhd_box (trackId : Z) : list byte :=
  bytes_of [0; 0; 0; 24; 0x74; 0x6b; 0x68; 0x64;
            0; 0; 0; 7;
            0; 0; 0; 0;  0; 0; 0; 0;
            0; 0; 0; trackId].

(** ** What the box parsers leave alone *)

(** [m] leads from every state to a state related to it by [R]. *)
Definition keeps (R : Demuxer -> Demuxer -> Prop) {A : Type} (m : M A) : Prop :=
  forall d, R d (snd (m d)).

Definition is_data (e : Event) : bool :=
  match e with
  | onDataAvailable _ _ => true
  | _ => false
  end.

(** [this._audioTrack.length || this._videoTrack.length] is falsy. *)
Definition tracks_empty (d : Demuxer) : bool :=
  negb (is_truthy (Track.length (_audioTrack d)) ||
        is_truthy (Track.length (_videoTrack d))).

(** From [d] to [d']: the tracks, the audio flags, the override flag, the
    reference frame rate and the parsed tables are the same; a video flag
    that was set is still set; the trace has only grown, and if both
    tracks were empty it has not grown by an [onDataAvailable]. *)
Definition parser_frame (d d' : Demuxer) : Prop :=
  _videoTrack d' = _videoTrack d /\
  _audioTrack d' = _audioTrack d /\
  _hasAudio d' = _hasAudio d /\
  _audioInitialMetadataDispatched d' = _audioInitialMetadataDispatched d /\
  _hasVideoFlagOverrided d' = _hasVideoFlagOverrided d /\
  _referenceFrameRate d' = _referenceFrameRate d /\
  elst d' = elst d /\ stsc d' = stsc d /\ stsz d' = stsz d /\
  stco d' = stco d /\ stts d' = stts d /\
  (_hasVideo d = true -> _hasVideo d' = true) /\
  (_videoInitialMetadataDispatched d = true ->
   _videoInitialMetadataDispatched d' = true) /\
  exists new,
    trace d' = trace d ++ new /\
    (tracks_empty d = true -> forallb (fun e => negb (is_data e)) new = true).

(** [mvhd_box] with the version byte set to 1. *)
Definition mvhd_box_version_1 : list byte :=
  bytes_of [0; 0; 0; 28; 0x6d; 0x76; 0x68; 0x64;
            1; 0; 0; 0;
            0; 0; 0; 0;
            0; 0; 0; 0;
            0; 0; 0x03; 0xe8;
            0; 0; 0x13; 0x88].

(** [mdhd_box] with the version byte set to 1. *)
Definition mdhd_box_version_1 : list byte :=
  bytes_of [0; 0; 0; 32; 0x6d; 0x64; 0x68; 0x64;
            1; 0; 0; 0;
            0; 0; 0; 0;
            0; 0; 0; 0;
            0; 1; 0x5f; 0x90;
            0; 6; 0xdd; 0xd0;
            0x55; 0xc4; 0; 0].

(** An stsd box (24 bytes, cut after the type of its first entry) whose
    sample entry is hev1, not avc1. *)
Definition stsd_box_hev1 : list byte :=
  bytes_of [0; 0; 0; 24; 0x73; 0x74; 0x73; 0x64;
            0; 0; 0; 0;
            0; 0; 0; 1;
            0; 0; 0; 8; 0x68; 0x65; 0x76; 0x31].

(** ** The length prefix and the units of a sample *)

(** The NAL length size is one of the four sizes that two bits encode. *)
Definition nalu_ok (d : Demuxer) : Prop := 1 <= _naluLengthSize d <= 4.

Definition keeps_nalu (d d' : Demuxer) : Prop := nalu_ok d -> nalu_ok d'.




(** ** parseChunks (lines 267-400) *)

(** [this.elst = ...], ..., [this.stts = ...]. *)
Definition set_elst (x : option Elst.t) (d : Demuxer) : Demuxer :=
  {| _hasAudio := _hasAudio d;
     _hasVideo := _hasVideo d;
     _hasVideoFlagOverrided := _hasVideoFlagOverrided d;
     _audioInitialMetadataDispatched := _audioInitialMetadataDispatched d;
     _videoInitialMetadataDispatched := _videoInitialMetadataDispatched d;
     _dispatch := _dispatch d;
     _mediaInfo := _mediaInfo d;
     _videoMetadata := _videoMetadata d;
     _naluLengthSize := _naluLengthSize d;
     _referenceFrameRate := _referenceFrameRate d;
     _videoTrack := _videoTrack d;
     _audioTrack := _audioTrack d;
     elst := x;
     stsc := stsc d;
     stsz := stsz d;
     stco := stco d;
     stts := stts d;
     trace := trace d |}.

Definition set_stsc (x : option Stsc.t) (d : Demuxer) : Demuxer :=
  {| _hasAudio := _hasAudio d;
     _hasVideo := _hasVideo d;
     _hasVideoFlagOverrided := _hasVideoFlagOverrided d;
     _audioInitialMetadataDispatched := _audioInitialMetadataDispatched d;
     _videoInitialMetadataDispatched := _videoInitialMetadataDispatched d;
     _dispatch := _dispatch d;
     _mediaInfo := _mediaInfo d;
     _videoMetadata := _videoMetadata d;
     _naluLengthSize := _naluLengthSize d;
     _referenceFrameRate := _referenceFrameRate d;
     _videoTrack := _videoTrack d;
     _audioTrack := _audioTrack d;
     elst := elst d;
     stsc := x;
     stsz := stsz d;
     stco := stco d;
     stts := stts d;
     trace := trace d |}.

Definition set_stsz (x : option Stsz.t) (d : Demuxer) : Demuxer :=
  {| _hasAudio := _hasAudio d;
     _hasVideo := _hasVideo d;
     _hasVideoFlagOverrided := _hasVideoFlagOverrided d;
     _audioInitialMetadataDispatched := _audioInitialMetadataDispatched d;
     _videoInitialMetadataDispatched := _videoInitialMetadataDispatched d;
     _dispatch := _dispatch d;
     _mediaInfo := _mediaInfo d;
     _videoMetadata := _videoMetadata d;
     _naluLengthSize := _naluLengthSize d;
     _referenceFrameRate := _referenceFrameRate d;
     _videoTrack := _videoTrack d;
     _audioTrack := _audioTrack d;
     elst := elst d;
     stsc := stsc d;
     stsz := x;
     stco := stco d;
     stts := stts d;
     trace := trace d |}.

Definition set_stco (x : option Stco.t) (d : Demuxer) : Demuxer :=
  {| _hasAudio := _hasAudio d;
     _hasVideo := _hasVideo d;
     _hasVideoFlagOverrided := _hasVideoFlagOverrided d;
     _audioInitialMetadataDispatched := _audioInitialMetadataDispatched d;
     _videoInitialMetadataDispatched := _videoInitialMetadataDispatched d;
     _dispatch := _dispatch d;
     _mediaInfo := _mediaInfo d;
     _videoMetadata := _videoMetadata d;
     _naluLengthSize := _naluLengthSize d;
     _referenceFrameRate := _referenceFrameRate d;
     _videoTrack := _videoTrack d;
     _audioTrack := _audioTrack d;
     elst := elst d;
     stsc := stsc d;
     stsz := stsz d;
     stco := x;
     stts := stts d;
     trace := trace d |}.

Definition set_stts (x : option Stts.t) (d : Demuxer) : Demuxer :=
  {| _hasAudio := _hasAudio d;
     _hasVideo := _hasVideo d;
     _hasVideoFlagOverrided := _hasVideoFlagOverrided d;
     _audioInitialMetadataDispatched := _audioInitialMetadataDispatched d;
     _videoInitialMetadataDispatched := _videoInitialMetadataDispatched d;
     _dispatch := _dispatch d;
     _mediaInfo := _mediaInfo d;
     _videoMetadata := _videoMetadata d;
     _naluLengthSize := _naluLengthSize d;
     _referenceFrameRate := _referenceFrameRate d;
     _videoTrack := _videoTrack d;
     _audioTrack := _audioTrack d;
     elst := elst d;
     stsc := stsc d;
     stsz := stsz d;
     stco := stco d;
     stts := x;
     trace := trace d |}.

(** The rest of the object.  [Session] adds to [Demuxer] the properties
    that only parseChunks and [_parseScriptData] use. *)

(** [null], [undefined], or an object. *)
Inductive jsobj (A : Type) : Type :=
| Null
| Undef
| Obj (a : A).
Arguments Null {A}.
Arguments Undef {A}.
Arguments Obj {A} a.

(** [scriptData.onMetaData]: the own properties of the ftyp detail that
    [Object.assign] copies (none when ftyp is [null]), and the three that
    [_parseScriptData] adds. *)
Module OnMetaData.
Record t : Type := {
  brands : option Ftyp.t;
  width : option Z;
  height : option Z;
  videodatarate : option float
}.
End OnMetaData.

(** The properties of the media info that [_parseScriptData] assigns;
    [None] is the [null] of a new [MediaInfo].  Lines 914 and 918 assign
    the same [width] and [height] properties as lines 722-723, whose
    values are those of [MediaInfo.of_config]: of two writes the later
    counts, and within a call of parseChunks that is the write recorded
    here, which follows the box loop. *)
Module MediaInfoRest.
Record t : Type := {
  width : option Z;
  height : option Z;
  duration : option jsval;
  videoDataRate : option float;
  hasKeyframesIndex : option bool;
  metadata : option OnMetaData.t
}.
Definition empty : t :=
  {| width := None; height := None; duration := None;
     videoDataRate := None; hasKeyframesIndex := None; metadata := None |}.
End MediaInfoRest.

Record Session : Type := {
  demuxer : Demuxer;
  ftyp : option Ftyp.t;
  stsd : jsobj StsdDetail;
  _firstParse : bool;
  _infoOffset : Z;
  _metadata : option OnMetaData.t;
  _duration : jsval;
  mediaInfo_rest : MediaInfoRest.t
}.

Definition set_demuxer (x : Demuxer) (s : Session) : Session :=
  {| demuxer := x; ftyp := ftyp s; stsd := stsd s;
     _firstParse := _firstParse s; _infoOffset := _infoOffset s;
     _metadata := _metadata s; _duration := _duration s;
     mediaInfo_rest := mediaInfo_rest s |}.

Definition set_ftyp (x : option Ftyp.t) (s : Session) : Session :=
  {| demuxer := demuxer s; ftyp := x; stsd := stsd s;
     _firstParse := _firstParse s; _infoOffset := _infoOffset s;
     _metadata := _metadata s; _duration := _duration s;
     mediaInfo_rest := mediaInfo_rest s |}.

Definition set_stsd (x : jsobj StsdDetail) (s : Session) : Session :=
  {| demuxer := demuxer s; ftyp := ftyp s; stsd := x;
     _firstParse := _firstParse s; _infoOffset := _infoOffset s;
     _metadata := _metadata s; _duration := _duration s;
     mediaInfo_rest := mediaInfo_rest s |}.

Definition set_firstParse (x : bool) (s : Session) : Session :=
  {| demuxer := demuxer s; ftyp := ftyp s; stsd := stsd s;
     _firstParse := x; _infoOffset := _infoOffset s;
     _metadata := _metadata s; _duration := _duration s;
     mediaInfo_rest := mediaInfo_rest s |}.

Definition set_metadata (x : option OnMetaData.t) (s : Session) : Session :=
  {| demuxer := demuxer s; ftyp := ftyp s; stsd := stsd s;
     _firstParse := _firstParse s; _infoOffset := _infoOffset s;
     _metadata := x; _duration := _duration s;
     mediaInfo_rest := mediaInfo_rest s |}.

Definition set_duration (x : jsval) (s : Session) : Session :=
  {| demuxer := demuxer s; ftyp := ftyp s; stsd := stsd s;
     _firstParse := _firstParse s; _infoOffset := _infoOffset s;
     _metadata := _metadata s; _duration := x;
     mediaInfo_rest := mediaInfo_rest s |}.

Definition set_mediaInfo_rest (x : MediaInfoRest.t) (s : Session) : Session :=
  {| demuxer := demuxer s; ftyp := ftyp s; stsd := stsd s;
     _firstParse := _firstParse s; _infoOffset := _infoOffset s;
     _metadata := _metadata s; _duration := _duration s;
     mediaInfo_rest := x |}.

(** The constructor, for the whole object. *)
Definition new_Session (probeData : ProbeData) : Session :=
  {| demuxer := new_MP4Demuxer probeData;
     ftyp := None;
     stsd := Null;
     _firstParse := true;
     _infoOffset := infoOffset probeData;
     _metadata := None;
     _duration := Int 0;
     mediaInfo_rest := MediaInfoRest.empty |}.

(** State, exceptions, and loops that may not end: [None] when the fuel
    given to a loop was not enough. *)
Definition P (A : Type) : Type := Session -> option (result A * Session).

Definition pret {A : Type} (a : A) : P A := fun s => Some (Ok a, s).

Definition pbind {A B : Type} (m : P A) (k : A -> P B) : P B :=
  fun s =>
    match m s with
    | Some (Ok a, s') => k a s'
    | Some (Throw e, s') => Some (Throw e, s')
    | None => None
    end.

Notation "x <~~ m ;; k" := (pbind m (fun x => k))
  (at level 61, m at next level, right associativity).

Definition out_of_fuel {A : Type} : P A := fun _ => None.

(** A pure step, a step on the demuxer, and a step with a loop inside. *)
Definition pres {A : Type} (r : result A) : P A := fun s => Some (r, s).

Definition plift {A : Type} (m : M A) : P A :=
  fun s => Some (fst (m (demuxer s)), set_demuxer (snd (m (demuxer s))) s).

Definition popt {A : Type} (r : option (result A)) : P A :=
  fun s => option_map (fun x => (x, s)) r.

Definition pstep (f : Demuxer -> option (result unit * Demuxer)) : P unit :=
  fun s =>
    option_map (fun p => (fst p, set_demuxer (snd p) s)) (f (demuxer s)).

Definition pget : P Session := fun s => Some (Ok s, s).
Definition pmodify (f : Session -> Session) : P unit := fun s => Some (Ok tt, f s).

(** ToIndex of an offset argument: [undefined] and [NaN] count as 0 (a
    negative index is refused by the reader itself). *)
Definition to_index (x : jsval) : Z :=
  match x with
  | Int z => z
  | _ => 0
  end.

(** [probeData.infoOffset]: the mismatch object has no such property. *)
Definition probe_infoOffset (r : ProbeResult) : jsval :=
  match r with
  | Match p => Int (infoOffset p)
  | Mismatch => Undefined
  end.

(** [a !== b] for a number [b]. *)
Definition js_differs (a : jsval) (b : Z) : bool :=
  match a with
  | Int z => negb (z =? b)
  | _ => true
  end.

(** *** The sample loop (lines 388-390) *)

(** The loop of [_parseAVCVideoData] when [dataOffset] is not a number:
    [dataOffset + offset] is [NaN], and a typed array made at a [NaN]
    offset starts at 0. *)
Fixpoint nal_loop_nan (le : bool) (arrayBuffer : list byte) (v : DataView)
  (dataSize lengthSize : Z) (fuel : nat) (offset : Z)
  (keyframe : bool) (units : list NalUnit.t) (length : Z)
  : option (result nal_exit) :=
  match fuel with
  | O => None
  | S fuel' =>
      if offset <? dataSize then
        if offset + 4 >=? dataSize then
          Some (Ok (Nal_break offset units length keyframe))
        else
          match getUint32 v offset (negb le) with
          | Throw e => Some (Throw e)
          | Ok naluSize =>
              let naluSize :=
                if lengthSize =? 3 then Z.shiftr naluSize 8 else naluSize in
              if naluSize >? dataSize - lengthSize then Some (Ok Nal_return)
              else
                match getUint8 v (offset + lengthSize) with
                | Throw e => Some (Throw e)
                | Ok b =>
                    let unitType := Z.land b 0x1F in
                    let keyframe := if unitType =? 5 then true else keyframe in
                    match new_Uint8Array arrayBuffer 0 (lengthSize + naluSize) with
                    | Throw e => Some (Throw e)
                    | Ok _ =>
                        let unit :=
                          {| NalUnit.type := unitType;
                             NalUnit.data :=
                               {| Uint8Array.byteOffset := 0;
                                  Uint8Array.byteLength :=
                                    lengthSize + naluSize |} |} in
                        nal_loop_nan le arrayBuffer v dataSize lengthSize
                          fuel' (offset + lengthSize + naluSize) keyframe
                          (units ++ [unit])
                          (length + Uint8Array.byteLength (NalUnit.data unit))
                    end
                end
          end
      else Some (Ok (Nal_end units length keyframe))
  end.

(** [_parseAVCVideoData] on the arguments that parseChunks passes, which
    may be [undefined] or [NaN].  A [DataView] made at such an offset
    starts at 0; made with an [undefined] length it extends to the end of
    the buffer, and with a [NaN] length it is empty.  When [dataSize] is
    not a number, [offset < dataSize] is false at once and no unit is
    read. *)
Definition _parseAVCVideoData_js (le : bool) (arrayBuffer : list byte)
  (dataOffset dataSize : jsval) (dts : jsval) (d : Demuxer)
  : option (result unit * Demuxer) :=
  match dataOffset, dataSize with
  | Int o, Int n => _parseAVCVideoData le arrayBuffer o n dts d
  | _, Int n =>
      match new_DataView arrayBuffer 0 n with
      | Throw e => Some (Throw e, d)
      | Ok v =>
          match nal_loop_nan le arrayBuffer v n (_naluLengthSize d)
                  (S (Z.to_nat n)) 0 false [] 0 with
          | None => None
          | Some (Throw e) => Some (Throw e, d)
          | Some (Ok Nal_return) => Some (Ok tt, log_w (malformed_nalus dts) d)
          | Some (Ok (Nal_break offset units length keyframe)) =>
              Some (Ok tt,
                    append_sample units length keyframe dts
                      (log_w (malformed_nalu dts offset n) d))
          | Some (Ok (Nal_end units length keyframe)) =>
              Some (Ok tt, append_sample units length keyframe dts d)
          end
      end
  | _, Undefined =>
      match new_DataView arrayBuffer (to_index dataOffset)
              (Z.of_nat (List.length arrayBuffer) - to_index dataOffset) with
      | Throw e => Some (Throw e, d)
      | Ok _ => Some (Ok tt, d)
      end
  | _, NaN =>
      match new_DataView arrayBuffer (to_index dataOffset) 0 with
      | Throw e => Some (Throw e, d)
      | Ok _ => Some (Ok tt, d)
      end
  end.

(** Lines 388-390: one call per record of the table, with the record's
    offset and size; the fourth argument, [sam2chk.dts], is a property
    that the array does not have. *)
Fixpoint parse_samples (le : bool) (chunk : list byte) (sam2chk : list SamEntry)
  : P unit :=
  match sam2chk with
  | [] => pret tt
  | e :: rest =>
      _ <~~ pstep (_parseAVCVideoData_js le chunk (offset e) (size e) Undefined) ;;
      parse_samples le chunk rest
  end.

(** *** [_parseScriptData] (lines 879-958) *)

(** [isComplete] is [MediaInfo.prototype.isComplete], here on the two
    parts of the media info. *)

(** Assignments to [onMetaData], which is also [this._metadata.onMetaData]. *)
Definition on_update (f : OnMetaData.t -> OnMetaData.t) : P unit :=
  fun s =>
    match _metadata s with
    | None => Some (Throw TypeError, s)
    | Some o => Some (Ok tt, set_metadata (Some (f o)) s)
    end.

Definition on_set_width (x : Z) (o : OnMetaData.t) : OnMetaData.t :=
  {| OnMetaData.brands := OnMetaData.brands o;
     OnMetaData.width := Some x;
     OnMetaData.height := OnMetaData.height o;
     OnMetaData.videodatarate := OnMetaData.videodatarate o |}.

Definition on_set_height (x : Z) (o : OnMetaData.t) : OnMetaData.t :=
  {| OnMetaData.brands := OnMetaData.brands o;
     OnMetaData.width := OnMetaData.width o;
     OnMetaData.height := Some x;
     OnMetaData.videodatarate := OnMetaData.videodatarate o |}.

Definition on_set_videodatarate (x : float) (o : OnMetaData.t) : OnMetaData.t :=
  {| OnMetaData.brands := OnMetaData.brands o;
     OnMetaData.width := OnMetaData.width o;
     OnMetaData.height := OnMetaData.height o;
     OnMetaData.videodatarate := Some x |}.

Definition rest_update (f : MediaInfoRest.t -> MediaInfoRest.t) : P unit :=
  pmodify (fun s => set_mediaInfo_rest (f (mediaInfo_rest s)) s).

Definition rest_set_width (x : Z) (r : MediaInfoRest.t) : MediaInfoRest.t :=
  {| MediaInfoRest.width := Some x;
     MediaInfoRest.height := MediaInfoRest.height r;
     MediaInfoRest.duration := MediaInfoRest.duration r;
     MediaInfoRest.videoDataRate := MediaInfoRest.videoDataRate r;
     MediaInfoRest.hasKeyframesIndex := MediaInfoRest.hasKeyframesIndex r;
     MediaInfoRest.metadata := MediaInfoRest.metadata r |}.

Definition rest_set_height (x : Z) (r : MediaInfoRest.t) : MediaInfoRest.t :=
  {| MediaInfoRest.width := MediaInfoRest.width r;
     MediaInfoRest.height := Some x;
     MediaInfoRest.duration := MediaInfoRest.duration r;
     MediaInfoRest.videoDataRate := MediaInfoRest.videoDataRate r;
     MediaInfoRest.hasKeyframesIndex := MediaInfoRest.hasKeyframesIndex r;
     MediaInfoRest.metadata := MediaInfoRest.metadata r |}.

Definition rest_set_duration (x : jsval) (r : MediaInfoRest.t) : MediaInfoRest.t :=
  {| MediaInfoRest.width := MediaInfoRest.width r;
     MediaInfoRest.height := MediaInfoRest.height r;
     MediaInfoRest.duration := Some x;
     MediaInfoRest.videoDataRate := MediaInfoRest.videoDataRate r;
     MediaInfoRest.hasKeyframesIndex := MediaInfoRest.hasKeyframesIndex r;
     MediaInfoRest.metadata := MediaInfoRest.metadata r |}.

Definition rest_set_videoDataRate (x : float) (r : MediaInfoRest.t)
  : MediaInfoRest.t :=
  {| MediaInfoRest.width := MediaInfoRest.width r;
     MediaInfoRest.height := MediaInfoRest.height r;
     MediaInfoRest.duration := MediaInfoRest.duration r;
     MediaInfoRest.videoDataRate := Some x;
     MediaInfoRest.hasKeyframesIndex := MediaInfoRest.hasKeyframesIndex r;
     MediaInfoRest.metadata := MediaInfoRest.metadata r |}.

Definition rest_set_hasKeyframesIndex (x : bool) (r : MediaInfoRest.t)
  : MediaInfoRest.t :=
  {| MediaInfoRest.width := MediaInfoRest.width r;
     MediaInfoRest.height := MediaInfoRest.height r;
     MediaInfoRest.duration := MediaInfoRest.duration r;
     MediaInfoRest.videoDataRate := MediaInfoRest.videoDataRate r;
     MediaInfoRest.hasKeyframesIndex := Some x;
     MediaInfoRest.metadata := MediaInfoRest.metadata r |}.

Definition rest_set_metadata (x : option OnMetaData.t) (r : MediaInfoRest.t)
  : MediaInfoRest.t :=
  {| MediaInfoRest.width := MediaInfoRest.width r;
     MediaInfoRest.height := MediaInfoRest.height r;
     MediaInfoRest.duration := MediaInfoRest.duration r;
     MediaInfoRest.videoDataRate := MediaInfoRest.videoDataRate r;
     MediaInfoRest.hasKeyframesIndex := MediaInfoRest.hasKeyframesIndex r;
     MediaInfoRest.metadata := x |}.

(** [_parseScriptData(this.ftyp, this.stsd)].  [scriptData.onMetaData] is
    always an object, so the test of line 883 fails; it has no hasVideo
    and no framerate property, so the tests of lines 899 and 933 fail as
    well.  [this.duration] and [this.timescale] of line 925 are
    properties that the object does not have. *)
Definition _parseScriptData
  (isComplete : MediaInfo.t -> MediaInfoRest.t -> bool) : P unit :=
  s <~~ pget ;;
  let onMetaData :=
    {| OnMetaData.brands := ftyp s;
       OnMetaData.width := None;
       OnMetaData.height := None;
       OnMetaData.videodatarate := None |} in
  _ <~~ match _metadata s with
        | Some _ => plift (emit (Log_w "Found another onMetaData tag!"))
        | None => pret tt
        end ;;
  _ <~~ pmodify (set_metadata (Some onMetaData)) ;;
  match stsd s with
  | Null => pres (Throw TypeError)
  | Undef => pres (Throw TypeError)
  | Obj stsd_ =>
      _ <~~ on_update (on_set_width (Avc1.width (avc1 stsd_))) ;;
      _ <~~ rest_update (rest_set_width (Avc1.width (avc1 stsd_))) ;;
      _ <~~ on_update (on_set_height (Avc1.height (avc1 stsd_))) ;;
      _ <~~ rest_update (rest_set_height (Avc1.height (avc1 stsd_))) ;;
      match _videoMetadata (demuxer s) with
      | None => pres (Throw TypeError)
      | Some meta =>
          let duration := prop (Meta.duration meta) in
          _ <~~ pmodify (set_duration duration) ;;
          _ <~~ rest_update (rest_set_duration duration) ;;
          match stsz (demuxer s) with
          | None => pres (Throw TypeError)
          | Some stsz_ =>
              let videodatarate :=
                PrimFloat.mul
                  (PrimFloat.div (num_of_Z (Stsz.total stsz_))
                                 (to_number Undefined))
                  (to_number Undefined) in
              _ <~~ on_update (on_set_videodatarate videodatarate) ;;
              _ <~~ rest_update (rest_set_videoDataRate videodatarate) ;;
              _ <~~ rest_update (rest_set_hasKeyframesIndex false) ;;
              _ <~~ plift (modify (set_dispatch false)) ;;
              s <~~ pget ;;
              _ <~~ rest_update (rest_set_metadata (_metadata s)) ;;
              _ <~~ plift (emit (Log_v "Parsed onMetaData")) ;;
              s <~~ pget ;;
              if isComplete (_mediaInfo (demuxer s)) (mediaInfo_rest s)
              then plift (emit (onMediaInfo (_mediaInfo (demuxer s))))
              else pret tt
          end
      end
  end.

(** *** The box loops (lines 309-381) *)

Definition is_box (box_n name : string) : bool := String.eqb box_n name.

(** The loop labelled readTrak (lines 319-377), from [offset]; the
    result is the offset at which it is left, by its condition or by the
    [break readTrak] of line 334. *)
Fixpoint readTrak (le : bool) (parseSPS : list byte -> SPS.config)
  (isComplete : MediaInfo.t -> MediaInfoRest.t -> bool)
  (chunk : list byte) (v : DataView) (fuel : nat) (offset : Z) : P Z :=
  match fuel with
  | O => out_of_fuel
  | S fuel' =>
      if offset <? Z.of_nat (List.length chunk) then
        dataSize <~~ pres (getUint32 v offset (negb le)) ;;
        box_n <~~ pres (ReadBoxName v (offset + 4)) ;;
        if is_box box_n "mdia" || is_box box_n "minf" || is_box box_n "stbl" then
          readTrak le parseSPS isComplete chunk v fuel' (offset + 8)
        else if is_box box_n "tkhd" then
          isVideoTrak <~~ plift (_parseTkhd le chunk offset dataSize) ;;
          if negb isVideoTrak then
            _ <~~ plift (emit (Log_w "Meet audio trak or other!")) ;;
            pret offset
          else readTrak le parseSPS isComplete chunk v fuel' (offset + dataSize)
        else if is_box box_n "edts" then
          let offset := offset + 8 in
          dataSize <~~ pres (getUint32 v offset (negb le)) ;;
          box_n <~~ pres (ReadBoxName v (offset + 4)) ;;
          _ <~~ (if is_box box_n "elst" then
                   e <~~ pres (_parseElst le chunk offset dataSize) ;;
                   plift (modify (set_elst (Some e)))
                 else pret tt) ;;
          readTrak le parseSPS isComplete chunk v fuel' (offset + dataSize)
        else if is_box box_n "mdhd" then
          _ <~~ plift (_parseMdhd le chunk offset dataSize) ;;
          readTrak le parseSPS isComplete chunk v fuel' (offset + dataSize)
        else if is_box box_n "stsd" then
          s <~~ pget ;;
          r <~~ plift (_parseStsd le parseSPS
                         (fun mi => isComplete mi (mediaInfo_rest s))
                         chunk offset dataSize) ;;
          _ <~~ pmodify (set_stsd (match r with
                                   | Some detail => Obj detail
                                   | None => Undef
                                   end)) ;;
          readTrak le parseSPS isComplete chunk v fuel' (offset + dataSize)
        else if is_box box_n "stsc" then
          t <~~ pres (_parseStsc le chunk offset dataSize) ;;
          _ <~~ plift (modify (set_stsc (Some t))) ;;
          readTrak le parseSPS isComplete chunk v fuel' (offset + dataSize)
        else if is_box box_n "stsz" then
          t <~~ pres (_parseStsz le chunk offset dataSize) ;;
          _ <~~ plift (modify (set_stsz (Some t))) ;;
          readTrak le parseSPS isComplete chunk v fuel' (offset + dataSize)
        else if is_box box_n "stco" then
          t <~~ pres (_parseStco le chunk offset dataSize) ;;
          _ <~~ plift (modify (set_stco (Some t))) ;;
          readTrak le parseSPS isComplete chunk v fuel' (offset + dataSize)
        else if is_box box_n "stts" then
          t <~~ pres (_parseStts le chunk offset dataSize) ;;
          _ <~~ plift (modify (set_stts (Some t))) ;;
          readTrak le parseSPS isComplete chunk v fuel' (offset + dataSize)
        else
          readTrak le parseSPS isComplete chunk v fuel' (offset + dataSize)
      else pret offset
  end.

(** The loop of lines 309-381, from [offset]; the result is the offset
    at which it ends. *)
Fixpoint read_boxes (le : bool) (parseSPS : list byte -> SPS.config)
  (isComplete : MediaInfo.t -> MediaInfoRest.t -> bool)
  (chunk : list byte) (v : DataView) (fuel : nat) (offset : Z) : P Z :=
  match fuel with
  | O => out_of_fuel
  | S fuel' =>
      if offset <? Z.of_nat (List.length chunk) then
        _ <~~ plift (modify (set_dispatch true)) ;;
        dataSize <~~ pres (getUint32 v offset (negb le)) ;;
        box_n <~~ pres (ReadBoxName v (offset + 4)) ;;
        if is_box box_n "mvhd" then
          _ <~~ plift (_parseMvhd le chunk offset dataSize) ;;
          read_boxes le parseSPS isComplete chunk v fuel' (offset + dataSize)
        else if is_box box_n "trak" then
          offset <~~ readTrak le parseSPS isComplete chunk v fuel' (offset + 8) ;;
          read_boxes le parseSPS isComplete chunk v fuel' offset
        else
          read_boxes le parseSPS isComplete chunk v fuel' (offset + dataSize)
      else pret offset
  end.

(** *** parseChunks *)

(** Lines 393-397. *)
Definition flush_tracks : M unit :=
  d <-- get ;;
  if _isInitialMetadataDispatched d then
    if _dispatch d &&
       (is_truthy (Track.length (_audioTrack d)) ||
        is_truthy (Track.length (_videoTrack d)))
    then emit (onDataAvailable (Track.length (_audioTrack d))
                               (Track.length (_videoTrack d)))
    else ret tt
  else ret tt.

(** [new DataView(chunk, 0)]: the whole chunk. *)
Definition view_of (chunk : list byte) : DataView :=
  {| dv_buffer := chunk;
     dv_byteOffset := 0;
     dv_byteLength := Z.of_nat (List.length chunk) |}.

(** Lines 294-381, entered with the offset that lines 272-292 have
    computed, which is [undefined] when the probe of line 287 did not
    match.  A read at an [undefined] offset is a read at 0, and
    [undefined + 4] is [NaN], at which [ReadBoxName] reads at 0 as well;
    a loop whose offset is not a number does not run.  The result is the
    offset after the loop. *)
Definition open_boxes (le : bool) (parseSPS : list byte -> SPS.config)
  (isComplete : MediaInfo.t -> MediaInfoRest.t -> bool) (fuel : nat)
  (chunk : list byte) (byteStart : Z) (offset : jsval) : P jsval :=
  let v := view_of chunk in
  s <~~ pget ;;
  _ <~~ (if _firstParse s then
           _ <~~ pmodify (set_firstParse false) ;;
           if js_differs (js_add (Int byteStart) offset) (_infoOffset s)
           then plift (emit (Log_w "First time parsing but chunk byteStart invalid!"))
           else pret tt
         else pret tt) ;;
  _ <~~ pres (getUint32 v (to_index offset) (negb le)) ;;
  box_n <~~ pres (ReadBoxName v (to_index (js_add offset (Int 4)))) ;;
  let offset := if is_box box_n "moov" then js_add offset (Int 8) else offset in
  match offset with
  | Int o =>
      o' <~~ read_boxes le parseSPS isComplete chunk v fuel o ;;
      pret (Int o')
  | _ => pret offset
  end.

(** Lines 383-399: the tables are resolved, the metadata published, and
    every sample of the table framed; the result is [offset]. *)
Definition deliver (le : bool)
  (isComplete : MediaInfo.t -> MediaInfoRest.t -> bool)
  (chunk : list byte) (offset : jsval) : P jsval :=
  sam2chk <~~ plift resolve_tables ;;
  _ <~~ _parseScriptData isComplete ;;
  match sam2chk with
  | None => pres (Throw TypeError)
  | Some table =>
      _ <~~ parse_samples le chunk table ;;
      _ <~~ plift flush_tracks ;;
      pret offset
  end.

(** [parseChunks(chunk, byteStart)]; [fuel] bounds the iterations of
    each box loop.  The third step is lines 285-292: [None] stands for
    the [return 0] of line 290. *)
Definition parseChunks (le : bool) (parseSPS : list byte -> SPS.config)
  (isComplete : MediaInfo.t -> MediaInfoRest.t -> bool) (fuel : nat)
  (chunk : list byte) (byteStart : Z) : P jsval :=
  let byteLength := Z.of_nat (List.length chunk) in
  let v := view_of chunk in
  box_n <~~ pres (ReadBoxName v (0 + 4)) ;;
  offset <~~ (if is_box box_n "ftyp" then
                dataSize <~~ pres (getUint32 v 0 (negb le)) ;;
                detail <~~ popt (_parseFtyp le chunk 0 dataSize) ;;
                _ <~~ pmodify (set_ftyp (Some detail)) ;;
                pret (0 + dataSize)
              else pret 0) ;;
  offset <~~ (if byteStart =? 0 then
                if byteLength >? 36 then pret (Some (probe_infoOffset (probe chunk)))
                else pret None
              else pret (Some (Int offset))) ;;
  match offset with
  | None => pret (Int 0)
  | Some offset =>
      offset <~~ open_boxes le parseSPS isComplete fuel chunk byteStart offset ;;
      deliver le isComplete chunk offset
  end.

(** ** What a call of parseChunks leaves alone *)

(** [m], when it ends, has led to a state whose demuxer is related by
    [R] to the one it started from. *)
Definition pkeeps (R : Demuxer -> Demuxer -> Prop) {A : Type} (m : P A) : Prop :=
  forall s r s', m s = Some (r, s') -> R (demuxer s) (demuxer s').

(** [m], when it returns, has led to a state whose demuxer satisfies
    [Post]. *)
Definition ends_in (Post : Demuxer -> Prop) {A : Type} (m : P A) : Prop :=
  forall s a s', m s = Some (Ok a, s') -> Post (demuxer s').

(** The trace has grown, and not by an [onDataAvailable]. *)
Definition no_data_since (d d' : Demuxer) : Prop :=
  exists new,
    trace d' = trace d ++ new /\
    forallb (fun e => negb (is_data e)) new = true.

(** The box loops: the tracks are as they were, and if both were empty
    the trace has not grown by an [onDataAvailable]. *)
Definition walk_frame (d d' : Demuxer) : Prop :=
  _videoTrack d' = _videoTrack d /\
  _audioTrack d' = _audioTrack d /\
  exists new,
    trace d' = trace d ++ new /\
    (tracks_empty d = true -> forallb (fun e => negb (is_data e)) new = true).

(** The sample loop: [_dispatch] is as it was, and the trace has not
    grown by an [onDataAvailable]. *)
Definition sample_frame (d d' : Demuxer) : Prop :=
  _dispatch d' = _dispatch d /\ no_data_since d d'.

(** A chunk for a second call (364 bytes): a moov box with its mvhd and
    one video trak, whose tables describe one sample of 9 bytes that
    lies in the mdat box at the end of the same chunk, at offset 355:
    one IDR unit behind a 4-byte length. *)
Definition moov_chunk : list byte :=
  bytes_of [0; 0; 1; 91; 0x6d; 0x6f; 0x6f; 0x76]
  ++ mvhd_box
  ++ bytes_of [0; 0; 1; 55; 0x74; 0x72; 0x61; 0x6b]
  ++ tkhd_box 1
  ++ bytes_of [0; 0; 1; 23; 0x6d; 0x64; 0x69; 0x61]
  ++ mdhd_box
  ++ bytes_of [0; 0; 0; 239; 0x6d; 0x69; 0x6e; 0x66]
  ++ bytes_of [0; 0; 0; 231; 0x73; 0x74; 0x62; 0x6c]
  ++ stsd_box
  ++ stts_box
  ++ bytes_of [0; 0; 0; 28; 0x73; 0x74; 0x73; 0x63;
               0; 0; 0; 0;
               0; 0; 0; 1;
               0; 0; 0; 1;  0; 0; 0; 1;  0; 0; 0; 1]
  ++ bytes_of [0; 0; 0; 24; 0x73; 0x74; 0x73; 0x7a;
               0; 0; 0; 0;
               0; 0; 0; 0;
               0; 0; 0; 1;
               0; 0; 0; 9]
  ++ bytes_of [0; 0; 0; 20; 0x73; 0x74; 0x63; 0x6f;
               0; 0; 0; 0;
               0; 0; 0; 1;
               0; 0; 1; 99]
  ++ bytes_of [0; 0; 0; 17; 0x6d; 0x64; 0x61; 0x74;
               0; 0; 0; 5; 0x65; 1; 2; 3; 4].

(** The probe result of a file whose moov box starts at offset 24. *)
Definition probe_at_24 : ProbeData :=
  {| consumed := 24; dataOffset := 24; rawDataSize := 347; infoOffset := 24;
     hasAudioTrack := false; hasVideoTrack := true |}.

(** A chunk that starts with a box of size 0 and type free. *)
Definition free_box_size_0 : list byte :=
  bytes_of [0; 0; 0; 0; 0x66; 0x72; 0x65; 0x65].

(** A 9-byte sample whose first unit declares 1 byte (offsets 0..4) and
    whose second unit starts at offset 5, in the last four bytes of the
    sample; the four bytes there read as a size of 9. *)
Definition unit_in_last_four_bytes : list byte :=
  bytes_of [0; 0; 0; 1; 0x41; 0; 0; 0; 9].

(** * Properties *)

(** ** The static probe *)

Lemma probe_match_inv (buffer : list byte) (p : ProbeData) :
  probe buffer = Match p ->
  p = {| consumed := ReadBig32 buffer 0 + ReadBig32 buffer (ReadBig32 buffer 0);
         dataOffset := ReadBig32 buffer 0 + ReadBig32 buffer (ReadBig32 buffer 0);
         rawDataSize :=
           ReadBig32 buffer
             (ReadBig32 buffer 0 + ReadBig32 buffer (ReadBig32 buffer 0));
         infoOffset :=
           ReadBig32 buffer 0 + ReadBig32 buffer (ReadBig32 buffer 0) +
           ReadBig32 buffer
             (ReadBig32 buffer 0 + ReadBig32 buffer (ReadBig32 buffer 0));
         hasAudioTrack := false;
         hasVideoTrack := true |}.
Proof.
  unfold probe.
  destruct (u8_differs buffer 4 102 || u8_differs buffer 5 116 ||
            u8_differs buffer 6 121 || u8_differs buffer 7 112).
  - discriminate.
  - intros H. injection H as <-. reflexivity.
Qed.

Lemma u8_differs_same (data : list byte) (i c : Z) :
  u8_at data i = Some c -> u8_differs data i c = false.
Proof.
  unfold u8_differs. intros ->. now rewrite Z.eqb_refl.
Qed.

(** *** [ReadBig32] on four bytes that are present *)

Lemma to_int32_small (z : Z) : 0 <= z < 2 ^ 31 -> to_int32 z = z.
Proof.
  intros H. unfold to_int32. rewrite Z.mod_small by lia.
  destruct (z <? 2 ^ 31) eqn:E; [reflexivity |].
  apply Z.ltb_ge in E. lia.
Qed.

Lemma land_shifted (x k y : Z) :
  0 <= k -> 0 <= y < 2 ^ k -> Z.land (x * 2 ^ k) y = 0.
Proof.
  intros Hk Hy. apply Z.bits_inj'. intros n Hn.
  rewrite Z.land_spec, Z.bits_0, <- Z.shiftl_mul_pow2 by exact Hk.
  destruct (Z.lt_ge_cases n k) as [Hlt | Hge].
  - now rewrite Z.shiftl_spec_low.
  - rewrite andb_false_iff. right.
    destruct (Z.eq_dec y 0) as [-> | Hy0]; [apply Z.bits_0 |].
    apply Z.bits_above_log2; [lia |].
    apply Z.lt_le_trans with k; [| exact Hge].
    apply Z.log2_lt_pow2; lia.
Qed.

Lemma lor_shifted (x k y : Z) :
  0 <= k -> 0 <= y < 2 ^ k -> Z.lor (x * 2 ^ k) y = x * 2 ^ k + y.
Proof.
  intros Hk Hy. pose proof (Z.add_lor_land (x * 2 ^ k) y) as H.
  rewrite (land_shifted x k y Hk Hy) in H. lia.
Qed.

Lemma u8_at_bounds (data : list byte) (i b : Z) :
  u8_at data i = Some b -> 0 <= b < 256.
Proof.
  unfold u8_at. destruct (i <? 0); [discriminate |].
  destruct (nth_error data (Z.to_nat i)) as [x |]; [| discriminate].
  intros H. injection H as <-. unfold byte_val.
  pose proof (Byte.to_N_bounded x). lia.
Qed.

(** When the bytes are there and the value is below 2^31, [ReadBig32]
    reads the big-endian integer. *)
Lemma ReadBig32_u32be (data : list byte) (off size : Z) :
  u32be_at data off = Some size -> size < 2 ^ 31 ->
  ReadBig32 data off = size.
Proof.
  unfold u32be_at, ReadBig32, elt_int32.
  destruct (u8_at data off) as [b0 |] eqn:H0; [| discriminate].
  destruct (u8_at data (off + 1)) as [b1 |] eqn:H1; [| discriminate].
  destruct (u8_at data (off + 2)) as [b2 |] eqn:H2; [| discriminate].
  destruct (u8_at data (off + 3)) as [b3 |] eqn:H3; [| discriminate].
  apply u8_at_bounds in H0, H1, H2, H3.
  intros H Hlt. injection H as <-.
  unfold js_shl, js_or. rewrite !Z.shiftl_mul_pow2 by lia.
  change (2 ^ 24) with 16777216 in *. change (2 ^ 16) with 65536 in *.
  change (2 ^ 8) with 256 in *. change (2 ^ 31) with 2147483648 in *.
  change (Z.pow_pos 2 24) with 16777216 in *.
  change (Z.pow_pos 2 16) with 65536 in *.
  change (Z.pow_pos 2 8) with 256 in *.
  rewrite (to_int32_small (b0 * 16777216)) by (change (2 ^ 31) with 2147483648; lia).
  rewrite (to_int32_small (b1 * 65536)) by (change (2 ^ 31) with 2147483648; lia).
  rewrite (to_int32_small (b2 * 256)) by (change (2 ^ 31) with 2147483648; lia).
  change 16777216 with (2 ^ 24) at 1.
  rewrite (lor_shifted b0 24 (b1 * 65536)) by (change (2 ^ 24) with 16777216; lia).
  change (2 ^ 24) with 16777216.
  rewrite (to_int32_small (b0 * 16777216 + b1 * 65536))
    by (change (2 ^ 31) with 2147483648; lia).
  replace (b0 * 16777216 + b1 * 65536) with ((b0 * 256 + b1) * 2 ^ 16)
    by (change (2 ^ 16) with 65536; lia).
  rewrite (lor_shifted _ 16 (b2 * 256)) by (change (2 ^ 16) with 65536; lia).
  change (2 ^ 16) with 65536.
  rewrite (to_int32_small ((b0 * 256 + b1) * 65536 + b2 * 256))
    by (change (2 ^ 31) with 2147483648; lia).
  replace ((b0 * 256 + b1) * 65536 + b2 * 256)
    with ((b0 * 65536 + b1 * 256 + b2) * 2 ^ 8)
    by (change (2 ^ 8) with 256; lia).
  rewrite (lor_shifted _ 8 b3) by (change (2 ^ 8) with 256; lia).
  change (2 ^ 8) with 256.
  rewrite to_int32_small by (change (2 ^ 31) with 2147483648; lia).
  lia.
Qed.

Lemma probe_ftyp (buffer : list byte) (s : Z) :
  ftyp_box buffer 0 s -> exists p, probe buffer = Match p.
Proof.
  intros (_ & _ & H4 & H5 & H6 & H7).
  change (0 + 4) with 4 in H4. change (0 + 5) with 5 in H5.
  change (0 + 6) with 6 in H6. change (0 + 7) with 7 in H7.
  unfold probe.
  rewrite (u8_differs_same _ _ _ H4), (u8_differs_same _ _ _ H5),
    (u8_differs_same _ _ _ H6), (u8_differs_same _ _ _ H7).
  cbn [orb]. eexists. reflexivity.
Qed.

(** C10: whenever the probe matches, the record it returns says that
    there is no audio track and that there is a video track, whatever
    the buffer holds. *)
Theorem probe_track_flags (buffer : list byte) (p : ProbeData) :
  probe buffer = Match p ->
  hasAudioTrack p = false /\ hasVideoTrack p = true.
Proof.
  intros H. rewrite (probe_match_inv _ _ H). split; reflexivity.
Qed.

Lemma probe_track_flags_witness :
  exists p, probe ftyp_moov_buffer = Match p /\
            hasAudioTrack p = false /\ hasVideoTrack p = true.
Proof.
  eexists. split.
  - vm_compute. reflexivity.
  - apply (probe_track_flags ftyp_moov_buffer). vm_compute. reflexivity.
Defined.

Lemma ftyp_moov_buffer_boxes :
  ftyp_box ftyp_moov_buffer 0 16 /\ moov_box ftyp_moov_buffer 16 8.
Proof.
  split; (split; [vm_compute; reflexivity |]);
    (split; [change (2 ^ 31) with 2147483648; lia |]);
    repeat split; vm_compute; reflexivity.
Defined.

(** C4 as stated fails: on a 16-byte ftyp box followed by an 8-byte moov
    box the probe matches, and its dataOffset is 24, not the size of the
    ftyp box. *)
Lemma probe_dataOffset_is_not_ftyp_size :
  ftyp_box ftyp_moov_buffer 0 16 /\ moov_box ftyp_moov_buffer 16 8 /\
  exists p, probe ftyp_moov_buffer = Match p /\
            dataOffset p = 24 /\ dataOffset p <> 16.
Proof.
  split; [apply ftyp_moov_buffer_boxes |].
  split; [apply ftyp_moov_buffer_boxes |].
  eexists. split; [vm_compute; reflexivity |].
  split; [reflexivity | discriminate].
Qed.

(** C4, amended: on a buffer that begins with a valid ftyp box of size
    [s1] followed by a moov box of size [s2], the probe matches and its
    dataOffset is [s1 + s2], the first byte past the box that follows
    ftyp (so it is never the size of ftyp); rawDataSize is the size field
    found there and infoOffset is their sum. *)
Theorem probe_dataOffset_past_second_box (buffer : list byte) (s1 s2 : Z) :
  ftyp_box buffer 0 s1 ->
  moov_box buffer s1 s2 ->
  exists p, probe buffer = Match p /\
            dataOffset p = s1 + s2 /\
            dataOffset p <> s1 /\
            rawDataSize p = ReadBig32 buffer (s1 + s2) /\
            infoOffset p = dataOffset p + rawDataSize p.
Proof.
  intros Hf Hm.
  destruct (probe_ftyp _ _ Hf) as [p Hp].
  exists p. split; [exact Hp |].
  rewrite (probe_match_inv _ _ Hp). cbn.
  destruct Hf as (Hs1 & Hb1 & _). destruct Hm as (Hs2 & Hb2 & _).
  rewrite (ReadBig32_u32be _ _ _ Hs1) by lia.
  rewrite (ReadBig32_u32be _ _ _ Hs2) by lia.
  repeat split; try reflexivity. lia.
Qed.

Lemma probe_dataOffset_past_second_box_witness :
  exists p, probe ftyp_moov_buffer = Match p /\
            dataOffset p = 16 + 8 /\
            dataOffset p <> 16 /\
            rawDataSize p = ReadBig32 ftyp_moov_buffer (16 + 8) /\
            infoOffset p = dataOffset p + rawDataSize p.
Proof.
  apply (probe_dataOffset_past_second_box ftyp_moov_buffer 16 8);
    apply ftyp_moov_buffer_boxes.
Defined.

(** ** The sample-to-chunk resolver *)

Lemma list_sum_cons (x : nat) (l : list nat) :
  list_sum (x :: l) = (x + list_sum l)%nat.
Proof. reflexivity. Qed.

Section Resolver.

Variable stsz : Stsz.t.
Variable stco : Stco.t.

Lemma walk_samples_eq (n : nat) :
  forall k l off g acc,
    walk_samples stsz n k l off g acc =
    ((g + n)%nat, acc ++ chunk_records stsz n k l off g).
Proof.
  induction n as [| n IH]; intros k l off g acc; cbn [walk_samples chunk_records].
  - now rewrite Nat.add_0_r, app_nil_r.
  - rewrite IH. cbn [size]. rewrite <- app_assoc. cbn [app].
    f_equal. lia.
Qed.

Lemma chunk_records_length (n : nat) :
  forall k l off g, List.length (chunk_records stsz n k l off g) = n.
Proof.
  induction n as [| n IH]; intros; cbn; [reflexivity | now rewrite IH].
Qed.

Lemma table_of_length (chks : list ChkEntry) :
  forall k g,
    List.length (table_of stsz stco chks k g) = list_sum (map samples_in chks).
Proof.
  induction chks as [| ce rest IH]; intros k g; cbn [table_of map]; rewrite ?list_sum_cons.
  - reflexivity.
  - now rewrite length_app, chunk_records_length, IH.
Qed.

(** A successful walk met no empty slot, and appended [table_of]. *)
Lemma walk_chunks_ok (arr : jsarray ChkEntry) :
  forall k g acc r,
    walk_chunks stsz stco arr k g acc = Ok r ->
    exists chks,
      arr = map Some chks /\
      r = ((g + list_sum (map samples_in chks))%nat,
           acc ++ table_of stsz stco chks k g).
Proof.
  induction arr as [| [ce |] rest IH]; intros k g acc r H; cbn [walk_chunks] in H.
  - injection H as <-. exists []. cbn. now rewrite Nat.add_0_r, app_nil_r.
  - rewrite walk_samples_eq in H. cbn [fst snd] in H.
    apply IH in H as (chks & -> & ->).
    exists (ce :: chks). split; [reflexivity |].
    cbn [table_of map]; rewrite ?list_sum_cons. rewrite <- app_assoc.
    unfold samples_in. f_equal. lia.
  - discriminate.
Qed.

Lemma walk_chunks_dense (chks : list ChkEntry) :
  forall k g acc,
    walk_chunks stsz stco (map Some chks) k g acc =
    Ok ((g + list_sum (map samples_in chks))%nat,
        acc ++ table_of stsz stco chks k g).
Proof.
  induction chks as [| ce rest IH]; intros k g acc; cbn [walk_chunks map].
  - now rewrite Nat.add_0_r, app_nil_r.
  - rewrite walk_samples_eq. cbn [fst snd]. rewrite IH.
    cbn [table_of map]; rewrite ?list_sum_cons. rewrite <- app_assoc.
    unfold samples_in. do 2 f_equal. lia.
Qed.

Lemma chunk_records_nth (n : nat) :
  forall k l off g i,
    (i < n)%nat ->
    nth_error (chunk_records stsz n k l off g) i =
    Some {| chkIndex := k;
            indexInChk := (l + i)%nat;
            offset := cursor stsz off g i;
            size := array_get (Stsz.samples stsz) (g + i);
            dts := None; cts := None; pts := None |}.
Proof.
  induction n as [| n IH]; intros k l off g i Hi; [lia |].
  destruct i as [| i]; cbn [chunk_records nth_error].
  - unfold cursor. cbn. now rewrite !Nat.add_0_r.
  - rewrite IH by lia. unfold cursor. cbn [seq map fold_left].
    replace (S l + i)%nat with (l + S i)%nat by lia.
    replace (S g + i)%nat with (g + S i)%nat by lia. reflexivity.
Qed.

Lemma table_of_nth (chks : list ChkEntry) :
  forall k0 g0 k ce l,
    nth_error chks k = Some ce ->
    (l < samples_in ce)%nat ->
    nth_error (table_of stsz stco chks k0 g0) (first_sample chks k + l) =
    Some {| chkIndex := (k0 + k)%nat;
            indexInChk := l;
            offset := cursor stsz (array_get (Stco.entries stco) (k0 + k))
                        (g0 + first_sample chks k) l;
            size := array_get (Stsz.samples stsz)
                      (g0 + first_sample chks k + l);
            dts := None; cts := None; pts := None |}.
Proof.
  induction chks as [| c rest IH]; intros k0 g0 k ce l Hk Hl.
  - destruct k; discriminate.
  - destruct k as [| k]; cbn [table_of].
    + injection Hk as ->. unfold first_sample. cbn [firstn map].
      change (list_sum []) with O. rewrite Nat.add_0_l.
      rewrite nth_error_app1 by (rewrite chunk_records_length; lia).
      rewrite chunk_records_nth by exact Hl.
      now rewrite !Nat.add_0_r.
    + cbn [nth_error] in Hk.
      unfold first_sample. cbn [firstn map]; rewrite ?list_sum_cons.
      fold (first_sample rest k).
      replace (samples_in c + first_sample rest k + l)%nat
        with (List.length (chunk_records stsz (samples_in c) k0 0
                             (array_get (Stco.entries stco) k0) g0)
              + (first_sample rest k + l))%nat
        by (rewrite chunk_records_length; lia).
      rewrite nth_error_app2 by lia.
      replace (_ + _ - _)%nat with (first_sample rest k + l)%nat by lia.
      rewrite (IH (S k0) (g0 + samples_in c)%nat k ce l Hk Hl).
      replace (S k0 + k)%nat with (k0 + S k)%nat by lia.
      replace (g0 + samples_in c + first_sample rest k)%nat
        with (g0 + (samples_in c + first_sample rest k))%nat by lia.
      reflexivity.
Qed.

Lemma chunk_records_sizes (n : nat) :
  forall k l off g,
    map size (chunk_records stsz n k l off g) =
    map (array_get (Stsz.samples stsz)) (seq g n).
Proof.
  induction n as [| n IH]; intros; cbn [chunk_records map seq];
    [reflexivity | now rewrite IH].
Qed.

Lemma table_of_sizes (chks : list ChkEntry) :
  forall k g,
    map size (table_of stsz stco chks k g) =
    map (array_get (Stsz.samples stsz))
        (seq g (list_sum (map samples_in chks))).
Proof.
  induction chks as [| ce rest IH]; intros k g; cbn [table_of map]; rewrite ?list_sum_cons.
  - reflexivity.
  - now rewrite map_app, chunk_records_sizes, IH, seq_app, map_app.
Qed.

End Resolver.

(** *** The per-chunk table *)

Lemma set_nth_middle {A : Type} (P : list (option A)) (y : option A)
  (R : list (option A)) (x : A) :
  set_nth (List.length P) x (P ++ y :: R) = P ++ Some x :: R.
Proof.
  induction P as [| p P IH]; cbn [List.length app set_nth].
  - reflexivity.
  - now rewrite IH.
Qed.

Lemma fill_range_holes (e : Stsc.entry) (cnt : nat) :
  forall (P X : jsarray ChkEntry) (j : Z),
    j = Z.of_nat (List.length P) ->
    fill_range e j cnt (P ++ repeat None cnt ++ X) =
    P ++ repeat (Some (chk_of e)) cnt ++ X.
Proof.
  induction cnt as [| cnt IH]; intros P X j Hj; cbn [fill_range repeat app].
  - reflexivity.
  - unfold array_set.
    replace (j <? 0) with false by (symmetry; apply Z.ltb_ge; lia).
    replace (Z.to_nat j) with (List.length P) by lia.
    rewrite set_nth_middle.
    change (P ++ Some {| samCount := Stsc.samPerChk e; sdi := Stsc.samDesIndex e |}
              :: repeat None cnt ++ X)
      with (P ++ [Some (chk_of e)] ++ repeat None cnt ++ X).
    rewrite app_assoc, IH by (rewrite length_app; cbn; lia).
    now rewrite <- app_assoc.
Qed.

Lemma ascending_split (pre : list Stsc.entry) :
  forall (e : Stsc.entry) (post : list Stsc.entry) (count p : Z),
    stsc_ascending p (pre ++ e :: post) count ->
    p < Stsc.firstChk e /\ Stsc.firstChk e <= count /\
    stsc_ascending (Stsc.firstChk e) post count.
Proof.
  induction pre as [| a pre IH]; intros e post count p H; cbn in H.
  - exact H.
  - destruct H as (H1 & _ & H3). apply IH in H3. destruct H3 as (H4 & H5 & H6).
    repeat split; [lia | exact H5 | exact H6].
Qed.

Lemma ascending_next (post : list Stsc.entry) (count f : Z) :
  f <= count -> stsc_ascending f post count -> f < next_first post count.
Proof.
  destruct post as [| e post]; cbn; [lia | intros _ (H & _); exact H].
Qed.

Lemma spec_expand_cons (e : Stsc.entry) (post : list Stsc.entry) (count : Z) :
  spec_expand_stsc (e :: post) count =
  repeat (chk_of e) (Z.to_nat (next_first post count - Stsc.firstChk e))
  ++ spec_expand_stsc post count.
Proof. reflexivity. Qed.

(** Once the entries [post] are done, the slots before their first chunk
    are still empty and the later ones hold the expansion of [post]; the
    remaining entries [pre] complete it. *)
Lemma fill_loop_covers (stsc : Stsc.t) (count : Z) (pre : list Stsc.entry) :
  forall post,
    Stsc.entries stsc = pre ++ post ->
    stsc_ascending 0 (pre ++ post) count ->
    fill_loop stsc (List.length pre)
      (repeat None (Z.to_nat (next_first post count - 1))
       ++ map Some (spec_expand_stsc post count))
      (next_first post count)
    = Ok (repeat None (Z.to_nat (next_first (pre ++ post) count - 1))
          ++ map Some (spec_expand_stsc (pre ++ post) count)).
Proof.
  induction pre as [| x pre IH] using rev_ind; intros post Hent Hasc.
  - reflexivity.
  - rewrite <- app_assoc in Hent, Hasc. rewrite <- app_assoc.
    cbn [app] in Hent, Hasc |- *.
    rewrite length_app, Nat.add_1_r. cbn [fill_loop].
    rewrite Hent, nth_error_app2, Nat.sub_diag by lia. cbn [nth_error].
    destruct (ascending_split _ _ _ _ _ Hasc) as (H1 & H2 & H3).
    pose proof (ascending_next _ _ _ H2 H3) as H4.
    rewrite <- (IH (x :: post) Hent Hasc).
    f_equal.
    rewrite spec_expand_cons, map_app, map_repeat.
    change (next_first (x :: post) count) with (Stsc.firstChk x).
    replace (Z.to_nat (next_first post count - 1))
      with (Z.to_nat (Stsc.firstChk x - 1)
            + Z.to_nat (next_first post count - Stsc.firstChk x))%nat by lia.
    rewrite repeat_app, <- app_assoc.
    apply fill_range_holes.
    rewrite repeat_length. lia.
Qed.

Lemma chunk_table_valid (stsc : Stsc.t) (stsz : Stsz.t) (stco : Stco.t) :
  valid_tables stsc stsz stco ->
  chunk_table stsc stco =
  Ok (map Some (spec_expand_stsc (Stsc.entries stsc) (Stco.entryCount stco))).
Proof.
  intros [Hn _ Hc _ Hcov _].
  unfold chunk_table, new_Array.
  replace ((0 <=? Stco.entryCount stco) && (Stco.entryCount stco <? 2 ^ 32))
    with true
    by (symmetry; apply andb_true_iff; split;
        [apply Z.leb_le | apply Z.ltb_lt]; lia).
  cbn [bind]. rewrite Hn, Nat2Z.id.
  pose proof (fill_loop_covers stsc (Stco.entryCount stco)
                (Stsc.entries stsc) []) as H.
  rewrite app_nil_r in H. cbn [next_first spec_expand_stsc map] in H.
  rewrite app_nil_r in H.
  replace (Stco.entryCount stco + 1 - 1) with (Stco.entryCount stco) in H by lia.
  rewrite H; [| reflexivity |].
  - destruct (Stsc.entries stsc) as [| e rest]; cbn in Hcov.
    + now rewrite Hcov.
    + destruct Hcov as (He & _). cbn [next_first]. rewrite He. reflexivity.
  - destruct (Stsc.entries stsc) as [| e rest]; cbn in Hcov |- *.
    + trivial.
    + destruct Hcov as (He & ? & ?). rewrite He.
      split; [lia | split; [lia | assumption]].
Qed.

(** *** What [_samDetails] returns *)

(** The check of line 438 compares two counters that advance together:
    the function never takes its warning branch. *)
Lemma samDetails_inv (stsc : Stsc.t) (stsz : Stsz.t) (stco : Stco.t)
  (r : option (list SamEntry)) (logs : list string) :
  _samDetails stsc stsz stco = Ok (r, logs) ->
  exists chks,
    chunk_table stsc stco = Ok (map Some chks) /\
    r = Some (table_of stsz stco chks 0 0) /\ logs = [].
Proof.
  unfold _samDetails.
  destruct (chunk_table stsc stco) as [arr | e]; cbn [bind]; [| discriminate].
  destruct (walk_chunks stsz stco arr 0 0 []) as [w | e] eqn:Hw;
    cbn [bind]; [| discriminate].
  apply walk_chunks_ok in Hw as (chks & -> & ->).
  cbn [fst snd app].
  rewrite table_of_length, Nat.add_0_l, Nat.eqb_refl.
  intros H. injection H as <- <-. exists chks. repeat split.
Qed.

Lemma samDetails_dense (stsc : Stsc.t) (stsz : Stsz.t) (stco : Stco.t)
  (chks : list ChkEntry) :
  chunk_table stsc stco = Ok (map Some chks) ->
  _samDetails stsc stsz stco = Ok (Some (table_of stsz stco chks 0 0), []).
Proof.
  intros H. unfold _samDetails. rewrite H. cbn [bind].
  rewrite walk_chunks_dense. cbn [bind fst snd app].
  now rewrite table_of_length, Nat.add_0_l, Nat.eqb_refl.
Qed.


Lemma array_get_all (l : list Z) :
  forall pre,
    map (array_get (pre ++ l)) (seq (List.length pre) (List.length l)) =
    map Int l.
Proof.
  induction l as [| z l IH]; intros pre; cbn [List.length seq map].
  - reflexivity.
  - f_equal.
    + unfold array_get. rewrite nth_error_app2, Nat.sub_diag by lia.
      reflexivity.
    + specialize (IH (pre ++ [z])).
      rewrite <- app_assoc, length_app, Nat.add_1_r in IH. exact IH.
Qed.

Lemma samples_in_sum (chks : list ChkEntry) :
  Forall (fun ce => 0 <= samCount ce) chks ->
  Z.of_nat (list_sum (map samples_in chks)) =
  fold_right Z.add 0 (map samCount chks).
Proof.
  induction 1 as [| ce chks Hce _ IH]; cbn [map fold_right].
  - reflexivity.
  - rewrite list_sum_cons, Nat2Z.inj_add, IH. unfold samples_in. lia.
Qed.

Lemma spec_expand_unsigned (entries : list Stsc.entry) (count : Z) :
  Forall (fun e => 0 <= Stsc.samPerChk e) entries ->
  Forall (fun ce => 0 <= samCount ce) (spec_expand_stsc entries count).
Proof.
  induction 1 as [| e rest He _ IH].
  - constructor.
  - rewrite spec_expand_cons. apply Forall_app. split; [| exact IH].
    apply Forall_forall. intros ce Hin. apply repeat_spec in Hin.
    subst ce. exact He.
Qed.

(** C3: for valid sample tables (the expansion of stsc over the
    stco.entryCount chunks implies exactly stsz.sampleCount samples) the
    resolver returns a flat table whose length is stsz.sampleCount, with
    one record per sample in decode order: the g-th record carries the
    size of sample g. *)
Theorem samDetails_length_is_sampleCount (stsc : Stsc.t) (stsz : Stsz.t)
  (stco : Stco.t) :
  valid_tables stsc stsz stco ->
  exists table,
    _samDetails stsc stsz stco = Ok (Some table, []) /\
    Z.of_nat (List.length table) = Stsz.sampleCount stsz /\
    map size table = map Int (Stsz.samples stsz).
Proof.
  intros Hv.
  pose proof (chunk_table_valid _ _ _ Hv) as Hchk.
  destruct Hv as [_ Hz _ Hu _ Himp].
  set (chks := spec_expand_stsc (Stsc.entries stsc) (Stco.entryCount stco)) in *.
  assert (Hsum : Z.of_nat (list_sum (map samples_in chks)) = Stsz.sampleCount stsz).
  { rewrite samples_in_sum by (apply spec_expand_unsigned; exact Hu).
    exact Himp. }
  exists (table_of stsz stco chks 0 0). split; [| split].
  - now apply samDetails_dense.
  - now rewrite table_of_length.
  - rewrite table_of_sizes.
    replace (list_sum (map samples_in chks))
      with (List.length (Stsz.samples stsz)) by lia.
    exact (array_get_all (Stsz.samples stsz) []).
Qed.

Lemma scenario4_three_chunks_valid :
  valid_tables stsc_scenario4 stsz_scenario4 stco_three_chunks.
Proof.
  constructor.
  - reflexivity.
  - reflexivity.
  - cbn. lia.
  - repeat constructor; cbn; lia.
  - cbn. repeat split; lia.
  - reflexivity.
Defined.

Lemma samDetails_length_is_sampleCount_witness :
  exists table,
    _samDetails stsc_scenario4 stsz_scenario4 stco_three_chunks =
      Ok (Some table, []) /\
    Z.of_nat (List.length table) = Stsz.sampleCount stsz_scenario4 /\
    map size table = map Int (Stsz.samples stsz_scenario4).
Proof.
  apply (samDetails_length_is_sampleCount
           stsc_scenario4 stsz_scenario4 stco_three_chunks).
  exact scenario4_three_chunks_valid.
Defined.

(** C1, where the code departs from it: on the tables of scenario 4
    (stsc = [{1,2,1}, {3,1,1}], stco = [100, 300, 500, 600], five sizes
    of 50) the claim expects the offsets [100, 150, 300, 350, 500].  The
    code returns a table of six records, one more than stsz.sampleCount,
    whose offsets are 100, 150, 300, 350, 500 and 600 and whose sixth
    record has no size, and it logs nothing: the comparison of line 438,
    which is there to flag a wrong sample count, lets the sixth record
    pass. *)
Lemma samDetails_scenario4_has_six_records :
  offsets_of (_samDetails stsc_scenario4 stsz_scenario4 stco_scenario4) =
    Some [Int 100; Int 150; Int 300; Int 350; Int 500; Int 600] /\
  offsets_of (_samDetails stsc_scenario4 stsz_scenario4 stco_scenario4) <>
    Some [Int 100; Int 150; Int 300; Int 350; Int 500] /\
  sizes_of (_samDetails stsc_scenario4 stsz_scenario4 stco_scenario4) =
    Some [Int 50; Int 50; Int 50; Int 50; Int 50; Undefined] /\
  exists table,
    _samDetails stsc_scenario4 stsz_scenario4 stco_scenario4 =
      Ok (Some table, []) /\
    Z.of_nat (List.length table) = Stsz.sampleCount stsz_scenario4 + 1.
Proof.
  split; [vm_compute; reflexivity |].
  split; [vm_compute; discriminate |].
  split; [vm_compute; reflexivity |].
  eexists. split; vm_compute; reflexivity.
Qed.

(** Where [_samDetails] returns a table, the walk is the one that the
    spec describes: the records of chunk k follow those of the chunks
    before it, the offset cursor of chunk k starts at stco.entries[k],
    and sample l of the chunk gets fileOffset = cursor and
    size = stsz.samples[g] for its global index g, the cursor advancing
    by that size.  For stsc = [{1,2,1}, {3,1,1}] and
    stsz.samples = [50,50,50,50,50]: with stco = [100, 300, 500, 600]
    the first five records have the offsets [100, 150, 300, 350, 500],
    and with stco = [100, 300, 500] these are the offsets of the whole
    table. *)
Theorem samDetails_walks_chunks :
  (forall stsc stsz stco table logs,
      _samDetails stsc stsz stco = Ok (Some table, logs) ->
      exists chks,
        chunk_table stsc stco = Ok (map Some chks) /\
        List.length table = list_sum (map samples_in chks) /\
        forall k ce l,
          nth_error chks k = Some ce ->
          (l < samples_in ce)%nat ->
          nth_error table (first_sample chks k + l) =
          Some (expected_record stsz stco chks k l)) /\
  (exists table logs,
      _samDetails stsc_scenario4 stsz_scenario4 stco_scenario4 =
        Ok (Some table, logs) /\
      map offset (firstn 5 table) =
        [Int 100; Int 150; Int 300; Int 350; Int 500]) /\
  offsets_of (_samDetails stsc_scenario4 stsz_scenario4 stco_three_chunks) =
    Some [Int 100; Int 150; Int 300; Int 350; Int 500].
Proof.
  split; [| split].
  - intros stsc stsz stco table logs H.
    apply samDetails_inv in H as (chks & Hc & Ht & _).
    injection Ht as ->.
    exists chks. split; [exact Hc |]. split; [apply table_of_length |].
    intros k ce l Hk Hl.
    rewrite (table_of_nth stsz stco chks 0 0 k ce l Hk Hl).
    reflexivity.
  - do 2 eexists. split; vm_compute; reflexivity.
  - vm_compute. reflexivity.
Qed.

Lemma samDetails_walks_chunks_witness :
  exists table logs,
    _samDetails stsc_scenario4 stsz_scenario4 stco_scenario4 =
      Ok (Some table, logs) /\
    exists chks,
      chunk_table stsc_scenario4 stco_scenario4 = Ok (map Some chks) /\
      List.length table = list_sum (map samples_in chks) /\
      forall k ce l,
        nth_error chks k = Some ce ->
        (l < samples_in ce)%nat ->
        nth_error table (first_sample chks k + l) =
        Some (expected_record stsz_scenario4 stco_scenario4 chks k l).
Proof.
  do 2 eexists. split.
  - vm_compute. reflexivity.
  - eapply (proj1 samDetails_walks_chunks). vm_compute. reflexivity.
Defined.

(** ** The stsz parser *)

Lemma getUint32_in_range (v : DataView) (o : Z) (f : bool) (x : Z) :
  getUint32 v o f = Ok x -> 0 <= o /\ o + 4 <= dv_byteLength v.
Proof.
  unfold getUint32, dv_in_range.
  destruct ((0 <=? o) && (o + 4 <=? dv_byteLength v)) eqn:E; [| discriminate].
  intros _. apply andb_true_iff in E as [H1 H2].
  apply Z.leb_le in H1, H2. lia.
Qed.

Lemma new_DataView_length (buf : list byte) (off len : Z) (v : DataView) :
  new_DataView buf off len = Ok v -> dv_byteLength v = len.
Proof.
  unfold new_DataView. destruct (_ && _); [| discriminate].
  intros H. injection H as <-. reflexivity.
Qed.

Lemma stsz_loop_ok (le : bool) (v : DataView) (n : nat) :
  forall off fs acc r,
    stsz_loop le v n off fs acc = Ok r ->
    exists sizes,
      snd r = acc ++ sizes /\ List.length sizes = n /\
      forall i, (i < n)%nat ->
                getUint32 v (off + 4 * Z.of_nat i) (negb le) = Ok (nth i sizes 0).
Proof.
  induction n as [| n IH]; intros off fs acc r H; cbn [stsz_loop] in H.
  - injection H as <-. exists []. cbn [snd]. rewrite app_nil_r.
    repeat split. intros i Hi. lia.
  - destruct (getUint32 v off (negb le)) as [s |] eqn:Hs; cbn [bind] in H;
      [| discriminate].
    apply IH in H as (sizes & Hr & Hlen & Hread).
    exists (s :: sizes). rewrite Hr, <- app_assoc. cbn [app List.length].
    repeat split; [now rewrite Hlen |].
    intros [| i] Hi; cbn [nth].
    + now rewrite Z.mul_0_r, Z.add_0_r.
    + rewrite <- (Hread i) by lia. f_equal. lia.
Qed.




(** ** The timing resolver *)


(** ...whereas its sibling [_parseStco] records the count it read. *)
Lemma parseStco_entryCount (le : bool) (arrayBuffer : list byte)
  (dataOffset dataSize : Z) (r : Stco.t) :
  _parseStco le arrayBuffer dataOffset dataSize = Ok r ->
  exists v, new_DataView arrayBuffer dataOffset dataSize = Ok v /\
            getUint32 v 12 (negb le) = Ok (Stco.entryCount r).
Proof.
  unfold _parseStco.
  destruct (new_DataView _ _ _) as [v |]; cbn [bind]; [| discriminate].
  destruct (read_version_flag le v); cbn [bind]; [| discriminate].
  destruct (getUint32 v 12 (negb le)) as [n |] eqn:Hn; cbn [bind];
    [| discriminate].
  destruct (stco_loop le v (Z.to_nat n) 16 []); cbn [bind]; [| discriminate].
  intros H. injection H as <-. exists v. split; [reflexivity | exact Hn].
Qed.


(** *** The formula, for [_timeDetials] taken by itself *)

Lemma list_set_length {A : Type} (l : list A) :
  forall n x, List.length (list_set l n x) = List.length l.
Proof.
  induction l as [| h t IH]; intros [| n] x; cbn; try reflexivity.
  now rewrite IH.
Qed.

Lemma nth_error_list_set_same {A : Type} (l : list A) :
  forall n x e, nth_error l n = Some e -> nth_error (list_set l n x) n = Some x.
Proof.
  induction l as [| h t IH]; intros [| n] x e H; cbn in *; try discriminate.
  - reflexivity.
  - eapply IH. exact H.
Qed.

Lemma nth_error_list_set_other {A : Type} (l : list A) :
  forall n m x, n <> m -> nth_error (list_set l n x) m = nth_error l m.
Proof.
  induction l as [| h t IH]; intros [| n] [| m] x H; cbn; try reflexivity.
  - contradiction.
  - apply IH. lia.
Qed.

Section Timing.

Variable shift : float.

(** One run of [n] samples whose loop counter starts at [j], ending at
    the run's [samCount]. *)
Lemma time_samples_spec (e : Stts.entry) (n : nat) :
  forall j dtsSum si l r,
    j + Z.of_nat n = Stts.samCount e ->
    time_samples e shift n j dtsSum si (Some l) = Ok r ->
    exists l',
      r = (if (0 <? n)%nat
           then PrimFloat.add dtsSum
                  (PrimFloat.mul (num_of_Z (Stts.samDelta e))
                                 (num_of_Z (Stts.samCount e)))
           else dtsSum,
           (si + n)%nat, Some l') /\
      List.length l' = List.length l /\
      (forall m, (m < si \/ si + n <= m)%nat -> nth_error l' m = nth_error l m) /\
      (forall k, (k < n)%nat ->
         exists e0,
           nth_error l (si + k) = Some e0 /\
           nth_error l' (si + k) =
           Some (with_time e0
                   (PrimFloat.sub
                      (PrimFloat.add dtsSum
                         (PrimFloat.mul (num_of_Z (Stts.samDelta e))
                                        (num_of_Z (j + Z.of_nat k))))
                      shift))).
Proof.
  induction n as [| n IH]; intros j dtsSum si l r Hj H; cbn [time_samples] in H.
  - injection H as <-. exists l. rewrite Nat.add_0_r.
    repeat split. intros k Hk. lia.
  - unfold assign_time in H.
    destruct (nth_error l si) as [e0 |] eqn:He0; cbn [bind] in H;
      [| discriminate].
    set (d := PrimFloat.sub _ shift) in H.
    set (l1 := list_set l si (with_time e0 d)) in H.
    destruct (j =? Stts.samCount e - 1) eqn:Hlast.
    + (* the last sample of the run *)
      apply Z.eqb_eq in Hlast. assert (n = O) by lia. subst n.
      cbn [time_samples] in H. injection H as <-.
      exists l1. cbn [Nat.ltb Nat.leb].
      replace (j + 1) with (Stts.samCount e) by lia.
      split; [do 2 f_equal; lia |].
      split; [apply list_set_length |]. split.
      * intros m Hm. apply nth_error_list_set_other. lia.
      * intros k Hk. assert (k = O) by lia. subst k.
        exists e0. rewrite Nat.add_0_r, Z.add_0_r.
        split; [exact He0 |]. now apply (nth_error_list_set_same l si _ e0).
    + apply Z.eqb_neq in Hlast.
      apply IH in H as (l' & -> & Hlen & Hout & Hin); [| lia].
      exists l'. assert (Hn : (0 < n)%nat) by lia.
      apply Nat.ltb_lt in Hn. rewrite Hn. cbn [Nat.ltb Nat.leb].
      split; [do 2 f_equal; lia |].
      split; [now rewrite Hlen; apply list_set_length |]. split.
      * intros m Hm. rewrite Hout by lia.
        apply nth_error_list_set_other. lia.
      * intros [| k] Hk.
        -- exists e0. rewrite Nat.add_0_r, Z.add_0_r.
           split; [exact He0 |].
           rewrite Hout by lia.
           now apply (nth_error_list_set_same l si _ e0).
        -- destruct (Hin k ltac:(lia)) as (e1 & H1 & H2).
           exists e1.
           replace (si + S k)%nat with (S si + k)%nat by lia.
           unfold l1 in H1.
           rewrite nth_error_list_set_other in H1 by lia.
           split; [exact H1 |]. rewrite H2.
           do 6 f_equal. lia.
Qed.

End Timing.

Lemma skipn_head {A : Type} (l : list A) :
  forall i e rest,
    skipn i l = e :: rest -> nth_error l i = Some e /\ skipn (S i) l = rest.
Proof.
  induction l as [| h t IH]; intros [| i] e rest H; cbn in H; try discriminate.
  - injection H as -> ->. split; reflexivity.
  - apply IH in H as [H1 H2]. split; [exact H1 | exact H2].
Qed.

Lemma skipn_nil_nth {A : Type} (l : list A) :
  forall i, skipn i l = [] -> nth_error l i = None.
Proof.
  induction l as [| h t IH]; intros [| i] H; cbn in *; try reflexivity.
  - discriminate.
  - now apply IH.
Qed.

Section TimingRuns.

Variable stts_ : Stts.t.
Variable shift : float.

Lemma time_entries_spec (n : nat) :
  forall rest i dtsSum si l r,
    skipn i (Stts.entries stts_) = rest ->
    Forall (fun e => 0 <= Stts.samCount e) rest ->
    time_entries stts_ shift n i dtsSum si (Some l) = Ok r ->
    exists l',
      r = Some l' /\
      List.length l' = List.length l /\
      (forall m, (m < si)%nat -> nth_error l' m = nth_error l m) /\
      (forall i' e j,
          (i' < n)%nat ->
          nth_error rest i' = Some e ->
          (j < run_length e)%nat ->
          exists e0,
            nth_error l (si + run_first rest i' + j) = Some e0 /\
            nth_error l' (si + run_first rest i' + j) =
            Some (with_time e0
                    (expected_dts (run_start rest i' dtsSum) e j shift))).
Proof.
  induction n as [| n IH]; intros rest i dtsSum si l r Hrest Hpos H;
    cbn [time_entries] in H.
  - injection H as <-. exists l. repeat split. intros i' e j Hi'. lia.
  - destruct rest as [| e rest'].
    { rewrite (skipn_nil_nth _ _ Hrest) in H. discriminate. }
    destruct (skipn_head _ _ _ _ Hrest) as [He Hrest'].
    rewrite He in H.
    destruct (time_samples e shift (Z.to_nat (Stts.samCount e)) 0 dtsSum si
                (Some l)) as [r1 |] eqn:H1; cbn [bind] in H; [| discriminate].
    apply Forall_cons_iff in Hpos as [Hpe Hpos'].
    apply time_samples_spec in H1 as (l1 & -> & Hlen1 & Hout1 & Hin1); [| lia].
    cbn [fst snd] in H.
    apply (IH rest') in H as (l' & -> & Hlen & Hlow & Hruns);
      [| exact Hrest' | exact Hpos'].
    exists l'. split; [reflexivity |].
    split; [now rewrite Hlen |]. split.
    + intros m Hm. rewrite Hlow by lia. apply Hout1. lia.
    + intros [| i'] e' j Hi' He' Hj.
      * cbn [nth_error] in He'. injection He' as <-.
        unfold run_first. cbn [firstn map]. change (list_sum []) with O.
        rewrite Nat.add_0_r.
        destruct (Hin1 j Hj) as (e0 & Hl & Hl1).
        exists e0. split; [exact Hl |].
        rewrite Hlow by (unfold run_length in Hj; lia).
        rewrite Hl1. reflexivity.
      * cbn [nth_error] in He'.
        destruct (Hruns i' e' j ltac:(lia) He' Hj) as (e0 & Hl1 & Hl').
        exists e0.
        unfold run_first. cbn [firstn map]. rewrite list_sum_cons.
        fold (run_first rest' i').
        replace (si + (run_length e + run_first rest' i') + j)%nat
          with (si + Z.to_nat (Stts.samCount e) + run_first rest' i' + j)%nat
          by (unfold run_length; lia).
        rewrite Hout1 in Hl1 by lia.
        split; [exact Hl1 |]. rewrite Hl'. cbn [run_start].
        replace (0 <? Z.to_nat (Stts.samCount e))%nat
          with (0 <? Stts.samCount e).
        -- reflexivity.
        -- destruct (0 <? Stts.samCount e) eqn:Ez; symmetry.
           ++ apply Nat.ltb_lt. apply Z.ltb_lt in Ez. lia.
           ++ apply Nat.ltb_ge. apply Z.ltb_ge in Ez. lia.
Qed.

End TimingRuns.

(** [_timeDetials] by its own parameters: sample [j] of run [i] gets
    dts = T_i + samDelta_i * j - startTime / mvhdts * mdhdts, pts = dts
    and cts = 0, for the runs that the loop of line 450 visits. *)
Lemma timeDetials_formula (sam sam' : list SamEntry) (mvhdts mdhdts : jsval)
  (stts_ : Stts.t) (elst_ : option Elst.t) :
  Forall (fun e => 0 <= Stts.samCount e) (Stts.entries stts_) ->
  _timeDetials (Some sam) mvhdts mdhdts stts_ elst_ = Ok (Some sam') ->
  forall i e j,
    (i < loop_bound (Stts.entryCount stts_))%nat ->
    nth_error (Stts.entries stts_) i = Some e ->
    (j < run_length e)%nat ->
    exists e0,
      nth_error sam (run_first (Stts.entries stts_) i + j) = Some e0 /\
      nth_error sam' (run_first (Stts.entries stts_) i + j) =
      Some (with_time e0
              (expected_dts
                 (run_start (Stts.entries stts_) i (num_of_Z 0)) e j
                 (edit_shift elst_ mvhdts mdhdts))).
Proof.
  intros Hpos H i e j Hi He Hj. unfold _timeDetials in H.
  assert (Hshift : exists startTime,
             time_entries stts_
               (PrimFloat.mul
                  (PrimFloat.div (to_number startTime) (to_number mvhdts))
                  (to_number mdhdts))
               (loop_bound (Stts.entryCount stts_)) 0 (num_of_Z 0) 0 (Some sam)
               = Ok (Some sam') /\
             PrimFloat.mul
               (PrimFloat.div (to_number startTime) (to_number mvhdts))
               (to_number mdhdts) = edit_shift elst_ mvhdts mdhdts).
  { unfold edit_shift. destruct elst_ as [el |].
    - destruct (nth_error (Elst.entries el) 0) as [e0 |]; cbn [bind] in H;
        [| discriminate].
      eexists. split; [exact H | reflexivity].
    - cbn [bind] in H. eexists. split; [exact H | reflexivity]. }
  destruct Hshift as (startTime & Hrun & <-).
  apply (time_entries_spec stts_ _ _ (Stts.entries stts_)) in Hrun
    as (l' & Hl' & _ & _ & Hruns); [| reflexivity | exact Hpos].
  injection Hl' as <-.
  destruct (Hruns i e j Hi He Hj) as (e0 & H0 & H1).
  exists e0. rewrite !Nat.add_0_l in H0, H1. now split.
Qed.

(** C2 at the inputs of boundary scenario 5 (mediaTime 9000, mdhd
    timescale 90000, mvhd timescale 1000, one stts run {1, 3000}).
    Through parseChunks and [_parseStts] the first sample gets no dts at
    all; on an stts object that carries entryCount, parseChunks' argument
    order makes the dts -100; [_timeDetials] called with the timescales
    in the order of its own parameter names gives the -810000 of the
    claim. *)
Theorem timeDetials_scenario5 :
  (exists stts_,
      _parseStts true stts_box 0 24 = Ok stts_ /\
      first_dts
        (fst (resolve_tables
                (with_tables stsc_scenario3 stsz_scenario3 stco_scenario3
                   stts_ (Some elst_scenario5) demuxer_with_timescales))) =
      Some None) /\
  first_dts
    (fst (resolve_tables
            (with_tables stsc_scenario3 stsz_scenario3 stco_scenario3
               stts_with_entryCount (Some elst_scenario5)
               demuxer_with_timescales))) =
  Some (Some (num_of_Z (-100))) /\
  first_dts
    (r <- _samDetails stsc_scenario3 stsz_scenario3 stco_scenario3 ;;
     _timeDetials (fst r) (Int 1000) (Int 90000) stts_with_entryCount
       (Some elst_scenario5)) =
  Some (Some (num_of_Z (-810000))).
Proof.
  split; [| split].
  - eexists. split; vm_compute; reflexivity.
  - vm_compute. reflexivity.
  - vm_compute. reflexivity.
Qed.

(** ** The AVC decoder configuration record *)

Section Quiet.

Context {A B : Type}.

Lemma quiet_ret (a : A) : quiet (ret a).
Proof. intros d. exists []. cbn. now rewrite app_nil_r. Qed.

Lemma quiet_lift (r : result A) : quiet (lift r).
Proof. intros d. exists []. cbn. now rewrite app_nil_r. Qed.

Lemma quiet_bind (m : M A) (k : A -> M B) :
  quiet m -> (forall a, quiet (k a)) -> quiet (mbind m k).
Proof.
  intros Hm Hk d. unfold mbind.
  destruct (Hm d) as (n1 & T1 & F1 & N1).
  destruct (m d) as [[a | e] d1]; cbn [snd] in *.
  - destruct (Hk a d1) as (n2 & T2 & F2 & N2).
    exists (n1 ++ n2). rewrite T2, T1, N2, N1, app_assoc.
    repeat split. now apply Forall_app.
  - exists n1. now repeat split.
Qed.

End Quiet.

Lemma quiet_get : quiet get.
Proof. intros d. exists []. cbn. now rewrite app_nil_r. Qed.

Lemma quiet_modify (f : Demuxer -> Demuxer) :
  (forall d, trace (f d) = trace d) ->
  (forall d, _naluLengthSize (f d) = _naluLengthSize d) ->
  quiet (modify f).
Proof.
  intros Ht Hn d. exists []. cbn. now rewrite app_nil_r, Ht, Hn.
Qed.

Lemma quiet_emit (e : Event) : later_event e -> quiet (emit e).
Proof.
  intros He d. exists [e]. cbn. repeat split. now constructor.
Qed.

Lemma quiet_meta_update (f : Meta.t -> Meta.t) : quiet (meta_update f).
Proof.
  intros d. exists []. unfold meta_update.
  destruct (_videoMetadata d); cbn; now rewrite app_nil_r.
Qed.

Lemma quiet_mi_update (f : MediaInfo.t -> MediaInfo.t) : quiet (mi_update f).
Proof. apply quiet_modify; reflexivity. Qed.

Ltac quiet_step :=
  first
    [ apply quiet_ret
    | apply quiet_get
    | apply quiet_lift
    | apply quiet_meta_update
    | apply quiet_mi_update
    | apply quiet_emit; exact I
    | apply quiet_emit; cbn; tauto
    | apply quiet_modify; reflexivity
    | apply quiet_bind; [| intros ?]
    | match goal with
      | |- quiet (if ?c then _ else _) => destruct c
      | |- quiet (match ?x with _ => _ end) => destruct x
      end ].

Lemma quiet_first_sps (isComplete : MediaInfo.t -> bool) (sps : list byte)
  (config : SPS.config) : quiet (first_sps isComplete sps config).
Proof. unfold first_sps. repeat quiet_step. Qed.

Lemma quiet_sps_loop (le : bool) (parseSPS : list byte -> SPS.config)
  (isComplete : MediaInfo.t -> bool) (arrayBuffer : list byte) (v : DataView)
  (dataOffset : Z) (n : nat) :
  forall i offset,
    quiet (sps_loop le parseSPS isComplete arrayBuffer v dataOffset n i offset).
Proof.
  induction n as [| n IH]; intros i offset; cbn [sps_loop].
  - apply quiet_ret.
  - apply quiet_bind; [apply quiet_lift | intros len].
    destruct (len =? 0); [apply IH |].
    apply quiet_bind; [apply quiet_lift | intros sps].
    destruct (negb (i =? 0)); [apply IH |].
    apply quiet_bind; [apply quiet_first_sps | intros _; apply IH].
Qed.

Lemma quiet_pps_loop (le : bool) (v : DataView) (n : nat) :
  forall offset, quiet (pps_loop le v n offset).
Proof.
  induction n as [| n IH]; intros offset; cbn [pps_loop].
  - apply quiet_ret.
  - apply quiet_bind; [apply quiet_lift | intros len].
    destruct (len =? 0); apply IH.
Qed.

Lemma quiet_parameter_sets (le : bool) (parseSPS : list byte -> SPS.config)
  (isComplete : MediaInfo.t -> bool) (arrayBuffer : list byte) (v : DataView)
  (dataOffset : Z) (stsdDetail : StsdDetail) :
  quiet (parameter_sets le parseSPS isComplete arrayBuffer v dataOffset stsdDetail).
Proof.
  unfold parameter_sets.
  apply quiet_bind; [apply quiet_lift | intros b]. cbv zeta.
  destruct (_ =? 0).
  { repeat quiet_step. }
  apply quiet_bind; [repeat quiet_step | intros _].
  apply quiet_bind; [apply quiet_sps_loop | intros offset].
  apply quiet_bind; [apply quiet_lift | intros ppsNum].
  destruct (ppsNum =? 0).
  { repeat quiet_step. }
  apply quiet_bind; [repeat quiet_step | intros _].
  apply quiet_bind; [apply quiet_pps_loop | intros _].
  repeat quiet_step.
Qed.

Lemma mbind_lift_ok {A B : Type} (a : A) (k : A -> M B) (d : Demuxer) :
  mbind (lift (Ok a)) k d = k a d.
Proof. reflexivity. Qed.

Lemma mbind_lift_throw {A B : Type} (e : exn) (k : A -> M B) (d : Demuxer) :
  mbind (lift (Throw e)) k d = (Throw e, d).
Proof. reflexivity. Qed.

Lemma mbind_emit {B : Type} (e : Event) (k : unit -> M B) (d : Demuxer) :
  mbind (emit e) k d = k tt (set_trace (trace d ++ [e]) d).
Proof. reflexivity. Qed.

Lemma mbind_modify {B : Type} (f : Demuxer -> Demuxer) (k : unit -> M B)
  (d : Demuxer) :
  mbind (modify f) k d = k tt (f d).
Proof. reflexivity. Qed.

Lemma mbind_get {B : Type} (k : Demuxer -> M B) (d : Demuxer) :
  mbind get k d = k d d.
Proof. reflexivity. Qed.

Lemma new_events_app (d d' : Demuxer) (new : list Event) :
  trace d' = trace d ++ new -> new_events d d' = new.
Proof.
  intros H. unfold new_events. rewrite H. clear H.
  induction (trace d) as [| e t IH]; cbn; [reflexivity | exact IH].
Qed.

Lemma land_3_twice (b : Z) : Z.land (Z.land b 3) 3 = Z.land b 3.
Proof. now rewrite <- Z.land_assoc. Qed.

Lemma invalid_is_not_later : ~ later_event (onError FORMAT_ERROR invalid_avcC).
Proof. cbn. intros [H | H]; discriminate H. Qed.

Lemma strange_is_not_later (k : Z) :
  ~ later_event (onError FORMAT_ERROR (strange_nalu_length k)).
Proof.
  unfold strange_nalu_length. cbn. intros [H | H]; discriminate H.
Qed.

(** C7: once the four header bytes of the avcC record are read, the
    demuxer reports FORMAT_ERROR "MP4: Invalid
    AVCDecoderConfigurationRecord" exactly when configurationVersion is
    not 1 or AVCProfileIndication is 0, and then stops with nothing else
    done; otherwise it sets naluLengthSize to the low two bits of the
    next byte plus one, and reports FORMAT_ERROR "MP4: Strange
    NaluLengthSizeMinusOne: <n>" exactly when that value is neither 3 nor
    4, with n the value minus one, and then stops. *)
Theorem avcC_record_checks (le : bool) (parseSPS : list byte -> SPS.config)
  (isComplete : MediaInfo.t -> bool) (arrayBuffer : list byte) (v : DataView)
  (dataOffset : Z) (stsdDetail : StsdDetail) (d : Demuxer)
  (confVer avcProfile profileCompatibility avcLevel : Z) :
  getUint8 v 110 = Ok confVer ->
  getUint8 v 111 = Ok avcProfile ->
  getUint8 v 112 = Ok profileCompatibility ->
  getUint8 v 113 = Ok avcLevel ->
  let out := avcC_record le parseSPS isComplete arrayBuffer v dataOffset
               stsdDetail d in
  let new := new_events d (snd out) in
  trace (snd out) = trace d ++ new /\
  (In (onError FORMAT_ERROR invalid_avcC) new <->
   confVer <> 1 \/ avcProfile = 0) /\
  (confVer <> 1 \/ avcProfile = 0 ->
   out = (Ok None,
          set_trace (trace d ++ [onError FORMAT_ERROR invalid_avcC]) d)) /\
  (confVer = 1 -> avcProfile <> 0 ->
   forall b, getUint8 v 114 = Ok b ->
     let n := Z.land b 3 + 1 in
     _naluLengthSize (snd out) = n /\
     ((exists k, In (onError FORMAT_ERROR (strange_nalu_length k)) new) <->
      n <> 3 /\ n <> 4) /\
     (n <> 3 /\ n <> 4 ->
      out = (Ok None,
             set_trace
               (trace (set_naluLengthSize n d) ++
                [onError FORMAT_ERROR (strange_nalu_length (n - 1))])
               (set_naluLengthSize n d)))).
Proof.
  intros H110 H111 H112 H113. cbv zeta.
  unfold avcC_record.
  rewrite H110, mbind_lift_ok, H111, mbind_lift_ok, H112, mbind_lift_ok,
    H113, mbind_lift_ok.
  destruct (negb (confVer =? 1) || (avcProfile =? 0)) eqn:Hbad.
  - (* the record is invalid *)
    assert (Hc : confVer <> 1 \/ avcProfile = 0).
    { apply orb_true_iff in Hbad as [H | H].
      - left. apply negb_true_iff, Z.eqb_neq in H. exact H.
      - right. apply Z.eqb_eq in H. exact H. }
    rewrite mbind_emit. cbn [ret snd].
    rewrite (new_events_app d _ [onError FORMAT_ERROR invalid_avcC])
      by reflexivity.
    split; [reflexivity |]. split; [| split].
    + split; [intros _; exact Hc | intros _; now left].
    + intros _. reflexivity.
    + intros H1 H2. destruct Hc; contradiction.
  - (* the record is valid *)
    apply orb_false_iff in Hbad as [Hv Hp].
    apply negb_false_iff, Z.eqb_eq in Hv. apply Z.eqb_neq in Hp.
    assert (Hgood : ~ (confVer <> 1 \/ avcProfile = 0)) by tauto.
    destruct (getUint8 v 114) as [b |] eqn:H114.
    + rewrite mbind_lift_ok, mbind_modify, mbind_get.
      cbn [_naluLengthSize set_naluLengthSize].
      rewrite land_3_twice.
      set (n := Z.land b 3 + 1).
      set (d1 := set_naluLengthSize n d).
      destruct (negb (n =? 3) && negb (n =? 4)) eqn:Hstrange.
      * (* neither 3 nor 4 *)
        assert (Hn : n <> 3 /\ n <> 4).
        { apply andb_true_iff in Hstrange as [H3 H4].
          apply negb_true_iff, Z.eqb_neq in H3, H4. now split. }
        rewrite mbind_emit. cbn [ret snd].
        rewrite (new_events_app d _
                   [onError FORMAT_ERROR (strange_nalu_length (n - 1))])
          by reflexivity.
        split; [reflexivity |]. split; [| split].
        -- split; [| tauto].
           intros [H | []]. exfalso. revert H.
           unfold strange_nalu_length, invalid_avcC. cbn. discriminate.
        -- tauto.
        -- intros _ _ b' Hb'. injection Hb' as <-. fold n.
           split; [reflexivity |]. split; [| intros _; reflexivity].
           split; [intros _; exact Hn |].
           intros _. exists (n - 1). now left.
      * (* 3 or 4: the parameter sets follow *)
        assert (Hn : ~ (n <> 3 /\ n <> 4)).
        { intros [H3 H4]. apply Z.eqb_neq in H3, H4.
          now rewrite H3, H4 in Hstrange. }
        destruct (quiet_parameter_sets le parseSPS isComplete arrayBuffer v
                    dataOffset stsdDetail d1) as (new & Ht & Hf & Hl).
        change (trace d1) with (trace d) in Ht.
        rewrite (new_events_app d _ new Ht).
        split; [exact Ht |]. split; [| split].
        -- split; [| tauto]. intros Hin.
           rewrite Forall_forall in Hf.
           now apply Hf, invalid_is_not_later in Hin.
        -- tauto.
        -- intros _ _ b' Hb'. injection Hb' as <-. fold n.
           split; [exact Hl |]. split; [| tauto].
           split; [| tauto]. intros [k Hin].
           rewrite Forall_forall in Hf.
           now apply Hf, strange_is_not_later in Hin.
    + (* the length byte cannot be read *)
      rewrite mbind_lift_throw. cbn [snd].
      rewrite (new_events_app d d []) by now rewrite app_nil_r.
      split; [now rewrite app_nil_r |]. split; [| split].
      * split; [intros [] | tauto].
      * tauto.
      * intros _ _ b' Hb'. discriminate Hb'.
Qed.

Lemma avcC_record_checks_witness :
  let d := demuxer_with_timescales in
  let out := avcC_record true parseSPS_25fps isComplete_per_spec
               stsd_box_short_length (stsd_view stsd_box_short_length) 0
               stsd_detail d in
  let new := new_events d (snd out) in
  trace (snd out) = trace d ++ new /\
  (In (onError FORMAT_ERROR invalid_avcC) new <-> 1 <> 1 \/ 100 = 0) /\
  (1 <> 1 \/ 100 = 0 ->
   out = (Ok None,
          set_trace (trace d ++ [onError FORMAT_ERROR invalid_avcC]) d)) /\
  (1 = 1 -> 100 <> 0 ->
   forall b, getUint8 (stsd_view stsd_box_short_length) 114 = Ok b ->
     let n := Z.land b 3 + 1 in
     _naluLengthSize (snd out) = n /\
     ((exists k, In (onError FORMAT_ERROR (strange_nalu_length k)) new) <->
      n <> 3 /\ n <> 4) /\
     (n <> 3 /\ n <> 4 ->
      out = (Ok None,
             set_trace
               (trace (set_naluLengthSize n d) ++
                [onError FORMAT_ERROR (strange_nalu_length (n - 1))])
               (set_naluLengthSize n d)))).
Proof.
  apply (avcC_record_checks true parseSPS_25fps isComplete_per_spec
           stsd_box_short_length (stsd_view stsd_box_short_length) 0
           stsd_detail demuxer_with_timescales 1 100 0 31);
    vm_compute; reflexivity.
Defined.

(** The two checks seen through the whole of [_parseStsd], on three
    boxes that differ in the header of the record only. *)
Lemma parseStsd_header_examples :
  new_events fresh_demuxer (snd (after_mvhd_and_stsd (stsd_box_with 0 0x64 0xff))) =
    [Log_v "Copied AVCDecoderConfigurationRecord!";
     onError FORMAT_ERROR "MP4: Invalid AVCDecoderConfigurationRecord"] /\
  new_events fresh_demuxer (snd (after_mvhd_and_stsd (stsd_box_with 1 0 0xff))) =
    [Log_v "Copied AVCDecoderConfigurationRecord!";
     onError FORMAT_ERROR "MP4: Invalid AVCDecoderConfigurationRecord"] /\
  new_events fresh_demuxer (snd (after_mvhd_and_stsd stsd_box_short_length)) =
    [Log_v "Copied AVCDecoderConfigurationRecord!";
     onError FORMAT_ERROR "MP4: Strange NaluLengthSizeMinusOne: 1"] /\
  _naluLengthSize (snd (after_mvhd_and_stsd stsd_box_short_length)) = 2 /\
  _naluLengthSize (snd (after_mvhd_and_stsd stsd_box)) = 4.
Proof. repeat split; vm_compute; reflexivity. Qed.

(** ** refSampleDuration *)

Lemma mul_nan_l (x : float) : PrimFloat.mul PrimFloat.nan x = PrimFloat.nan.
Proof.
  apply Prim2SF_inj. rewrite FloatAxioms.mul_spec.
  change (Prim2SF PrimFloat.nan) with S754_nan.
  reflexivity.
Qed.

(** C6 at an input: mvhd timescale 1000 and an SPS whose frame rate is
    the fixed 25/1.  The claim's value is 1000 * (1 / 25) = 40; the code
    multiplies the [timescale_mvhd] property, which nothing assigns, and
    stores NaN. *)
Theorem parseStsd_refSampleDuration_is_NaN :
  exists detail d m,
    after_mvhd_and_stsd stsd_box = (Ok (Some detail), d) /\
    _videoMetadata d = Some m /\
    Meta.timescale m = Some 1000 /\
    Meta.timescale_mvhd m = None /\
    Meta.frameRate m = Some (SPS.frame_rate sps_config_25fps) /\
    Meta.refSampleDuration m = Some PrimFloat.nan /\
    PrimFloat.mul (num_of_Z 1000) (PrimFloat.div (num_of_Z 1) (num_of_Z 25)) =
      num_of_Z 40.
Proof.
  do 3 eexists. split; [vm_compute; reflexivity |].
  repeat split; vm_compute; reflexivity.
Qed.

(** The same for every input.  No parser gives the metadata object a
    [timescale_mvhd]; on such an object the first SPS stores NaN whatever
    the frame rate is. *)
Lemma first_sps_stores_NaN (isComplete : MediaInfo.t -> bool) (sps : list byte)
  (config : SPS.config) (d d' : Demuxer) (r : unit) :
  (forall m, _videoMetadata d = Some m -> Meta.timescale_mvhd m = None) ->
  first_sps isComplete sps config d = (Ok r, d') ->
  exists m, _videoMetadata d' = Some m /\
            Meta.refSampleDuration m = Some PrimFloat.nan.
Proof.
  intros Hinv H. unfold first_sps in H.
  remember (codec_string sps) as cs eqn:Hcs. clear Hcs.
  destruct (_videoMetadata d) as [m |] eqn:Hm.
  2:{ unfold mbind at 1, meta_update at 1 in H. rewrite Hm in H. cbn in H.
      discriminate H. }
  specialize (Hinv m eq_refl).
  unfold mbind, meta_update, mi_update, modify, get, lift, ret, emit in H.
  rewrite Hm in H. cbn in H.
  destruct (_ || _); cbn in H; rewrite Hinv in H; cbn in H;
    rewrite mul_nan_l in H;
    (destruct cs as [codecString |]; cbn in H; [| discriminate H]);
    destruct (MediaInfo.hasAudio (_mediaInfo d));
    try destruct (MediaInfo.audioCodec (_mediaInfo d));
    cbn in H;
    match type of H with
    | context [isComplete ?x] => destruct (isComplete x)
    end;
    cbn in H; apply (f_equal snd) in H; cbn [snd] in H; rewrite <- H;
    eexists; split; reflexivity.
Qed.

Lemma parseMvhd_no_timescale_mvhd (le : bool) (arrayBuffer : list byte)
  (dataOffset dataSize : Z) (d : Demuxer) :
  (forall m, _videoMetadata d = Some m -> Meta.timescale_mvhd m = None) ->
  forall m, _videoMetadata (snd (_parseMvhd le arrayBuffer dataOffset dataSize d))
            = Some m ->
            Meta.timescale_mvhd m = None.
Proof.
  intros Hinv m. unfold _parseMvhd.
  unfold mbind, meta_update, modify, get, lift, ret, emit.
  destruct (new_DataView arrayBuffer dataOffset dataSize) as [v |];
    cbn [fst snd]; [| apply Hinv].
  destruct (_videoMetadata d) as [m0 |] eqn:Hm.
  - destruct (Meta.avcc m0); cbn; rewrite ?Hm; intros H;
      injection H as <-; now apply Hinv.
  - destruct (negb (_hasVideo d) && negb (_hasVideoFlagOverrided d)); cbn;
      destruct (getUint32 v 20 (negb le)); cbn;
      try destruct (getUint32 v 24 (negb le)); cbn;
      intros H; injection H as <-; reflexivity.
Qed.

(** ** The NAL framer *)

Lemma byte_val_nonneg (b : byte) : 0 <= byte_val b.
Proof. unfold byte_val. apply N2Z.is_nonneg. Qed.

Lemma dv_byte_nonneg (v : DataView) (i : Z) : 0 <= dv_byte v i.
Proof. apply byte_val_nonneg. Qed.

Lemma getUint32_nonneg (v : DataView) (o : Z) (f : bool) (n : Z) :
  getUint32 v o f = Ok n -> 0 <= n.
Proof.
  unfold getUint32. destruct (dv_in_range v o 4); [| discriminate].
  intros H. injection H as <-.
  pose proof (dv_byte_nonneg v o). pose proof (dv_byte_nonneg v (o + 1)).
  pose proof (dv_byte_nonneg v (o + 2)). pose proof (dv_byte_nonneg v (o + 3)).
  destruct f; lia.
Qed.

Lemma declared_size_inv (le : bool) (v : DataView) (L o n : Z) :
  declared_size le v L o = Ok n ->
  exists n0, getUint32 v o (negb le) = Ok n0 /\
             n = (if L =? 3 then Z.shiftr n0 8 else n0) /\ 0 <= n.
Proof.
  unfold declared_size.
  destruct (getUint32 v o (negb le)) as [n0 |] eqn:H0; cbn [bind];
    [| discriminate].
  intros H. injection H as <-. exists n0. repeat split.
  apply getUint32_nonneg in H0.
  destruct (L =? 3); [apply Z.shiftr_nonneg |]; exact H0.
Qed.

Section Framer.

Variable le : bool.
Variable arrayBuffer : list byte.
Variable v : DataView.
Variables dataOffset dataSize lengthSize : Z.

Let loop := nal_loop le arrayBuffer v dataOffset dataSize lengthSize.

(** One accepted unit is one iteration. *)
Lemma nal_loop_accepts (fuel : nat) (o n b : Z) (data : list byte)
  (kf : bool) (us : list NalUnit.t) (len : Z) :
  o + 4 < dataSize ->
  declared_size le v lengthSize o = Ok n ->
  n <= dataSize - lengthSize ->
  getUint8 v (o + lengthSize) = Ok b ->
  new_Uint8Array arrayBuffer (dataOffset + o) (lengthSize + n) = Ok data ->
  loop (S fuel) o kf us len =
  loop fuel (o + lengthSize + n)
    (if Z.land b 0x1F =? 5 then true else kf)
    (us ++ [{| NalUnit.type := Z.land b 0x1F;
               NalUnit.data :=
                 {| Uint8Array.byteOffset := dataOffset + o;
                    Uint8Array.byteLength := lengthSize + n |} |}])
    (len + (lengthSize + n)).
Proof.
  intros H4 Hn Hle Hb Hd.
  apply declared_size_inv in Hn as (n0 & H0 & -> & _).
  unfold loop. cbn [nal_loop].
  replace (o <? dataSize) with true by (symmetry; apply Z.ltb_lt; lia).
  replace (o + 4 >=? dataSize) with false by (symmetry; rewrite Z.geb_leb; apply Z.leb_gt; lia).
  rewrite H0.
  replace (_ >? dataSize - lengthSize) with false
    by (symmetry; rewrite Z.gtb_ltb; apply Z.ltb_ge; exact Hle).
  rewrite Hb, Hd. reflexivity.
Qed.

(** A unit whose declared size exceeds [dataSize - lengthSize] ends the
    function at line 998. *)
Lemma nal_loop_rejects (fuel : nat) (o n : Z) (kf : bool)
  (us : list NalUnit.t) (len : Z) :
  o + 4 < dataSize ->
  declared_size le v lengthSize o = Ok n ->
  dataSize - lengthSize < n ->
  loop (S fuel) o kf us len = Some (Ok Nal_return).
Proof.
  intros H4 Hn Hgt.
  apply declared_size_inv in Hn as (n0 & H0 & -> & _).
  unfold loop. cbn [nal_loop].
  replace (o <? dataSize) with true by (symmetry; apply Z.ltb_lt; lia).
  replace (o + 4 >=? dataSize) with false by (symmetry; rewrite Z.geb_leb; apply Z.leb_gt; lia).
  rewrite H0.
  replace (_ >? dataSize - lengthSize) with true
    by (symmetry; rewrite Z.gtb_ltb; apply Z.ltb_lt; exact Hgt).
  reflexivity.
Qed.

(** The loop reaches every offset of [nal_reached] with fuel to spare. *)
Lemma nal_loop_reaches (o : Z) :
  1 <= lengthSize ->
  nal_reached le arrayBuffer v dataOffset dataSize lengthSize o ->
  0 <= o /\
  exists fuel kf us len,
    dataSize - o < Z.of_nat fuel /\
    loop (S (Z.to_nat dataSize)) 0 false [] 0 = loop fuel o kf us len.
Proof.
  intros HL. induction 1 as [| o n b data _ IH H4 Hn Hle Hb Hd].
  - split; [lia |]. exists (S (Z.to_nat dataSize)), false, [], 0.
    split; [lia | reflexivity].
  - destruct IH as (Ho & fuel & kf & us & len & Hfuel & Heq).
    pose proof (declared_size_inv _ _ _ _ _ Hn) as (_ & _ & _ & Hn0).
    split; [lia |].
    destruct fuel as [| fuel]; [lia |].
    rewrite (nal_loop_accepts fuel o n b data kf us len H4 Hn Hle Hb Hd) in Heq.
    do 4 eexists. split; [| exact Heq]. lia.
Qed.

(** With a length prefix of at least one byte the loop ends within
    [dataSize + 1] iterations. *)
Lemma nal_loop_total (fuel : nat) :
  1 <= lengthSize ->
  forall o kf us len,
    dataSize - o <= Z.of_nat fuel ->
    loop (S fuel) o kf us len <> None.
Proof.
  intros HL. unfold loop.
  induction fuel as [| fuel IH]; intros o kf us len Hfuel.
  - cbn [nal_loop].
    replace (o <? dataSize) with false by (symmetry; apply Z.ltb_ge; lia).
    discriminate.
  - remember (S fuel) as fuel' eqn:Hf. cbn [nal_loop].
    destruct (o <? dataSize) eqn:Ho; [| discriminate].
    destruct (o + 4 >=? dataSize); [discriminate |].
    destruct (getUint32 v o (negb le)) as [n0 |] eqn:H0; [| discriminate].
    destruct (_ >? dataSize - lengthSize); [discriminate |].
    destruct (getUint8 v (o + lengthSize)); [| discriminate].
    destruct (new_Uint8Array _ _ _); [| discriminate].
    subst fuel'. apply IH. apply getUint32_nonneg in H0.
    assert (0 <= (if lengthSize =? 3 then Z.shiftr n0 8 else n0))
      by (destruct (lengthSize =? 3); [apply Z.shiftr_nonneg |]; exact H0).
    lia.
Qed.

End Framer.

Lemma getUint8_u8_at (buf : list byte) (off len : Z) (v : DataView) (i b : Z) :
  new_DataView buf off len = Ok v ->
  getUint8 v i = Ok b ->
  u8_at buf (off + i) = Some b.
Proof.
  unfold new_DataView, getUint8, dv_in_range.
  destruct (_ && _ && _) eqn:Hv; [| discriminate].
  intros H. injection H as <-. cbn [dv_byteLength].
  destruct ((0 <=? i) && (i + 1 <=? len)) eqn:Hi; [| discriminate].
  intros H. injection H as <-.
  apply andb_true_iff in Hv as [Hv H3]. apply andb_true_iff in Hv as [H1 H2].
  apply andb_true_iff in Hi as [H4 H5].
  apply Z.leb_le in H1, H2, H3, H4, H5.
  unfold u8_at, dv_byte. cbn [dv_byteOffset dv_buffer].
  replace (off + i <? 0) with false by (symmetry; apply Z.ltb_ge; lia).
  rewrite (nth_error_nth' buf x00) by lia. reflexivity.
Qed.

Section FramerUnits.

Variable le : bool.
Variable arrayBuffer : list byte.
Variable v : DataView.
Variables dataOffset dataSize lengthSize : Z.

(** What the loop appends: each unit's type is the low five bits of the
    byte after its length prefix, and the keyframe flag is raised exactly
    by a unit of type 5. *)
Lemma nal_loop_units (fuel : nat) :
  forall o kf us len e us' kf',
    nal_loop le arrayBuffer v dataOffset dataSize lengthSize fuel o kf us len
      = Some (Ok e) ->
    exit_sample e = Some (us', kf') ->
    exists new,
      us' = us ++ new /\
      (kf' = true <-> kf = true \/ exists u, In u new /\ NalUnit.type u = 5) /\
      forall u, In u new ->
        exists b,
          getUint8 v (Uint8Array.byteOffset (NalUnit.data u) - dataOffset + lengthSize) = Ok b /\
          NalUnit.type u = Z.land b 0x1F.
Proof.
  induction fuel as [| fuel IH]; intros o kf us len e us' kf' H He;
    cbn [nal_loop] in H; [discriminate |].
  assert (Hnil : forall e0, e0 = Nal_break o us len kf \/ e0 = Nal_end us len kf ->
                 Some (Ok e0) = Some (Ok e) ->
                 exists new,
                   us' = us ++ new /\
                   (kf' = true <-> kf = true \/ exists u, In u new /\ NalUnit.type u = 5) /\
                   forall u, In u new ->
                     exists b,
                       getUint8 v (Uint8Array.byteOffset (NalUnit.data u) - dataOffset + lengthSize) = Ok b /\
                       NalUnit.type u = Z.land b 0x1F).
  { intros e0 He0 Heq. injection Heq as <-.
    destruct He0 as [-> | ->]; cbn in He; injection He as <- <-;
      exists []; rewrite app_nil_r;
      (split; [reflexivity |]); (split; [| intros u []]);
      (split; [now left | intros [Hk | (u & [] & _)]; exact Hk]). }
  destruct (o <? dataSize); [| eapply Hnil; [right; reflexivity | exact H]].
  destruct (o + 4 >=? dataSize); [eapply Hnil; [left; reflexivity | exact H] |].
  clear Hnil.
  destruct (getUint32 v o (negb le)) as [n0 |]; [| discriminate].
  cbv zeta in H.
  destruct (_ >? dataSize - lengthSize).
  { injection H as <-. discriminate He. }
  destruct (getUint8 v (o + lengthSize)) as [b |] eqn:Hb; [| discriminate].
  destruct (new_Uint8Array _ _ _); [| discriminate].
  cbn [Uint8Array.byteLength NalUnit.data] in H.
  destruct (IH _ _ _ _ _ _ _ H He) as (new & -> & Hk & Hu).
  eexists (_ :: new). split; [now rewrite <- app_assoc |]. split.
  - rewrite Hk. destruct (Z.land b 31 =? 5) eqn:Ht.
    + split; [intros _ | now left].
      right. eexists. split; [now left |]. cbn. now apply Z.eqb_eq.
    + split.
      * intros [Hkf | (u & Hin & Hu5)]; [now left |].
        right. exists u. split; [now right | exact Hu5].
      * intros [Hkf | (u & [<- | Hin] & Hu5)]; [now left | |].
        -- cbn in Hu5. apply Z.eqb_neq in Ht. contradiction.
        -- right. exists u. now split.
  - intros u [<- | Hin]; [| now apply Hu].
    exists b. cbn [Uint8Array.byteOffset NalUnit.data NalUnit.type].
    replace (dataOffset + o - dataOffset + lengthSize) with (o + lengthSize)
      by lia.
    now split.
Qed.

End FramerUnits.

Lemma append_sample_inv (us : list NalUnit.t) (len : Z) (kf : bool) (dts : jsval)
  (d0 d : Demuxer) (s : AvcSample.t) :
  _videoTrack d0 = _videoTrack d ->
  Track.samples (_videoTrack (append_sample us len kf dts d0)) =
    Track.samples (_videoTrack d) ++ [s] ->
  AvcSample.units s = us /\ AvcSample.isKeyframe s = kf.
Proof.
  intros Ht. unfold append_sample. destruct us as [| u us].
  - rewrite Ht. intros H. exfalso.
    apply (f_equal (@List.length AvcSample.t)) in H.
    rewrite length_app in H. cbn in H. lia.
  - cbn [_videoTrack set_videoTrack Track.samples]. rewrite Ht. intros H.
    apply app_inj_tail in H as [_ <-]. split; reflexivity.
Qed.

(** C9: a sample that the framer appends to the video track has
    isKeyframe = true exactly when one of its units has type 5, the type
    of a unit being the low five bits of the byte after its length
    prefix; so a sample of type-1 units only has isKeyframe = false. *)
Theorem parseAVCVideoData_keyframe (le : bool) (arrayBuffer : list byte)
  (dataOffset dataSize : Z) (dts : jsval) (d d' : Demuxer) (r : result unit)
  (s : AvcSample.t) :
  _parseAVCVideoData le arrayBuffer dataOffset dataSize dts d = Some (r, d') ->
  Track.samples (_videoTrack d') = Track.samples (_videoTrack d) ++ [s] ->
  (AvcSample.isKeyframe s = true <-> exists u, In u (AvcSample.units s) /\ NalUnit.type u = 5) /\
  (forall u, In u (AvcSample.units s) ->
     exists b,
       u8_at arrayBuffer (Uint8Array.byteOffset (NalUnit.data u) + _naluLengthSize d) = Some b /\
       NalUnit.type u = Z.land b 0x1F) /\
  ((forall u, In u (AvcSample.units s) -> NalUnit.type u = 1) -> AvcSample.isKeyframe s = false).
Proof.
  intros H Hs. unfold _parseAVCVideoData in H.
  assert (Hsame : forall d0, d0 = d' -> _videoTrack d0 = _videoTrack d -> False).
  { intros d0 -> Ht. rewrite Ht in Hs.
    apply (f_equal (@List.length AvcSample.t)) in Hs.
    rewrite length_app in Hs. cbn in Hs. lia. }
  destruct (new_DataView arrayBuffer dataOffset dataSize) as [v |] eqn:Hv.
  2:{ injection H as _ <-. exfalso. now apply (Hsame d). }
  destruct (nal_loop _ _ _ _ _ _ _ _ _ _ _) as [[e | x] |] eqn:Hloop;
    [| injection H as _ <-; exfalso; now apply (Hsame d) | discriminate].
  assert (Hexit : exists us kf,
             exit_sample e = Some (us, kf) /\ AvcSample.units s = us /\ AvcSample.isKeyframe s = kf).
  { destruct e as [| o us len kf | us len kf]; injection H as _ <-.
    - exfalso. now apply (Hsame (log_w (malformed_nalus dts) d)).
    - exists us, kf. split; [reflexivity |].
      apply (append_sample_inv us len kf dts
               (log_w (malformed_nalu dts o dataSize) d) d s);
        [reflexivity | exact Hs].
    - exists us, kf. split; [reflexivity |].
      apply (append_sample_inv us len kf dts d d s);
        [reflexivity | exact Hs]. }
  destruct Hexit as (us & kf & He & Hus & Hkf).
  destruct (nal_loop_units _ _ _ _ _ _ _ _ _ _ _ _ _ _ Hloop He)
    as (new & Hnew & Hk & Hu).
  cbn [app] in Hnew. subst new. rewrite Hus, Hkf.
  assert (Hiff : kf = true <-> exists u, In u us /\ NalUnit.type u = 5).
  { rewrite Hk. split; [intros [Hf | Hx]; [discriminate Hf | exact Hx] |].
    intros Hx. now right. }
  split; [exact Hiff |]. split.
  - intros u Hin. destruct (Hu u Hin) as (b & Hb & Ht).
    exists b. split; [| exact Ht].
    apply (getUint8_u8_at _ _ _ _ _ _ Hv) in Hb.
    replace (Uint8Array.byteOffset (NalUnit.data u) + _naluLengthSize d)
      with (dataOffset + (Uint8Array.byteOffset (NalUnit.data u) - dataOffset + _naluLengthSize d))
      by lia.
    exact Hb.
  - intros Hall. destruct kf; [| reflexivity].
    destruct (proj1 Hiff eq_refl) as (u & Hin & H5).
    rewrite (Hall u Hin) in H5. discriminate H5.
Qed.

Lemma parseAVCVideoData_keyframe_witness :
  exists r d' s,
    _parseAVCVideoData true idr_sample 0 6 Undefined fresh_demuxer =
      Some (r, d') /\
    Track.samples (_videoTrack d') =
      Track.samples (_videoTrack fresh_demuxer) ++ [s] /\
    AvcSample.isKeyframe s = true /\
    (AvcSample.isKeyframe s = true <-> exists u, In u (AvcSample.units s) /\ NalUnit.type u = 5) /\
    (forall u, In u (AvcSample.units s) ->
       exists b,
         u8_at idr_sample (Uint8Array.byteOffset (NalUnit.data u) + _naluLengthSize fresh_demuxer)
           = Some b /\
         NalUnit.type u = Z.land b 0x1F) /\
    ((forall u, In u (AvcSample.units s) -> NalUnit.type u = 1) -> AvcSample.isKeyframe s = false).
Proof.
  do 3 eexists.
  split; [vm_compute; reflexivity |].
  split; [vm_compute; reflexivity |].
  split; [reflexivity |].
  eapply (parseAVCVideoData_keyframe true idr_sample 0 6 Undefined
            fresh_demuxer);
    vm_compute; reflexivity.
Defined.

(** Boundary scenario 6 on two samples: the one whose payload begins
    with 0x65 is a keyframe, the one made of type-1 units is not. *)
Lemma parseAVCVideoData_scenario6 :
  option_map (fun p => map AvcSample.isKeyframe (Track.samples (_videoTrack (snd p))))
    (_parseAVCVideoData true idr_sample 0 6 Undefined fresh_demuxer) =
    Some [true] /\
  option_map (fun p => map AvcSample.isKeyframe (Track.samples (_videoTrack (snd p))))
    (_parseAVCVideoData true non_idr_sample 0 13 Undefined fresh_demuxer) =
    Some [false].
Proof. split; vm_compute; reflexivity. Qed.

(** The framer returns: its loop never runs out of iterations. *)
Lemma parseAVCVideoData_returns (le : bool) (arrayBuffer : list byte)
  (dataOffset dataSize : Z) (dts : jsval) (d : Demuxer) :
  1 <= _naluLengthSize d ->
  _parseAVCVideoData le arrayBuffer dataOffset dataSize dts d <> None.
Proof.
  intros HL. unfold _parseAVCVideoData.
  destruct (new_DataView arrayBuffer dataOffset dataSize) as [v |];
    [| discriminate].
  pose proof (nal_loop_total le arrayBuffer v dataOffset dataSize
                (_naluLengthSize d) (Z.to_nat dataSize) HL 0 false [] 0) as Ht.
  destruct (nal_loop _ _ _ _ _ _ _ _ _ _ _) as [[[| ? ? ? ? | ? ? ?] | ?] |];
    try discriminate.
  exfalso. apply Ht; [lia | reflexivity].
Qed.

(** C8 as stated fails: the second unit of this 20-byte sample declares
    16 bytes where 6 remain after its length prefix, yet the framer logs
    nothing and appends the sample, with both units. *)
Lemma parseAVCVideoData_keeps_overlong_unit :
  exists v d' s,
    new_DataView overlong_second_nal 0 20 = Ok v /\
    nal_reached true overlong_second_nal v 0 20 4 10 /\
    declared_size true v 4 10 = Ok 16 /\
    20 - (10 + 4) < 16 /\
    _parseAVCVideoData true overlong_second_nal 0 20 Undefined fresh_demuxer =
      Some (Ok tt, d') /\
    trace d' = [] /\
    Track.samples (_videoTrack d') = [s] /\
    List.length (AvcSample.units s) = 2%nat.
Proof.
  do 3 eexists.
  split; [vm_compute; reflexivity |].
  split.
  { apply (reached_next true overlong_second_nal _ 0 20 4 0 6 0x41
             (bytes_of [0; 0; 0; 6; 0x41; 1; 2; 3; 4; 5]));
      [apply reached_first | lia | vm_compute; reflexivity | lia
      | vm_compute; reflexivity | vm_compute; reflexivity]. }
  split; [vm_compute; reflexivity |].
  split; [lia |].
  split; [vm_compute; reflexivity |].
  split; [reflexivity |].
  split; reflexivity.
Qed.

(** C8, amended: if a unit whose length prefix the framer reads, that
    is, a unit that it reaches at an offset o with o + 4 < dataSize,
    every unit before it accepted, declares a size greater than
    dataSize - lengthSize (the bytes of the sample after one length
    prefix, which for the first unit are the bytes remaining), the
    framer logs the NaluSize > DataSize warning and returns, and the
    sample is not appended to the video track.  The sample is one whose
    window lies within the buffer, and the length size is at least 1. *)
Theorem parseAVCVideoData_drops_oversized (le : bool) (arrayBuffer : list byte)
  (dataOffset dataSize : Z) (dts : jsval) (d : Demuxer) (v : DataView)
  (o n : Z) :
  1 <= _naluLengthSize d ->
  new_DataView arrayBuffer dataOffset dataSize = Ok v ->
  nal_reached le arrayBuffer v dataOffset dataSize (_naluLengthSize d) o ->
  o + 4 < dataSize ->
  declared_size le v (_naluLengthSize d) o = Ok n ->
  dataSize - _naluLengthSize d < n ->
  exists d',
    _parseAVCVideoData le arrayBuffer dataOffset dataSize dts d =
      Some (Ok tt, d') /\
    trace d' = trace d ++ [Log_w (malformed_nalus dts)] /\
    _videoTrack d' = _videoTrack d.
Proof.
  intros HL Hv Hreach H4 Hn Hgt.
  exists (log_w (malformed_nalus dts) d).
  split; [| split; reflexivity].
  unfold _parseAVCVideoData. rewrite Hv.
  destruct (nal_loop_reaches le arrayBuffer v dataOffset dataSize
              (_naluLengthSize d) o HL Hreach)
    as (Ho & fuel & kf & us & len & Hfuel & ->).
  destruct fuel as [| fuel]; [lia |].
  rewrite (nal_loop_rejects le arrayBuffer v dataOffset dataSize
             (_naluLengthSize d) fuel o n kf us len H4 Hn Hgt).
  reflexivity.
Qed.

Lemma parseAVCVideoData_drops_oversized_witness :
  exists v d',
    new_DataView oversized_second_nal 0 20 = Ok v /\
    _parseAVCVideoData true oversized_second_nal 0 20 Undefined fresh_demuxer =
      Some (Ok tt, d') /\
    trace d' = trace fresh_demuxer ++ [Log_w (malformed_nalus Undefined)] /\
    _videoTrack d' = _videoTrack fresh_demuxer.
Proof.
  eexists. 
  assert (Hv : new_DataView oversized_second_nal 0 20 =
               Ok {| dv_buffer := oversized_second_nal;
                     dv_byteOffset := 0; dv_byteLength := 20 |})
    by (vm_compute; reflexivity).
  destruct (parseAVCVideoData_drops_oversized true oversized_second_nal 0 20
              Undefined fresh_demuxer _ (0 + 4 + 6) 17
              ltac:(vm_compute; discriminate) Hv) as (d' & H1 & H2 & H3).
  - apply (reached_next true oversized_second_nal _ 0 20 4 0 6 0x41
             (bytes_of [0; 0; 0; 6; 0x41; 1; 2; 3; 4; 5]));
      [apply reached_first | lia | vm_compute; reflexivity | lia
      | vm_compute; reflexivity | vm_compute; reflexivity].
  - lia.
  - vm_compute. reflexivity.
  - vm_compute. reflexivity.
  - exists d'. split; [exact Hv |]. split; [exact H1 |]. split; assumption.
Defined.

(** Why the unit must be one whose length prefix is read: a unit that
    starts in the last four bytes of the sample meets the test of line
    987 first.  The second unit of this 9-byte sample, at offset 5,
    declares 9 bytes, more than 9 - 4; the framer leaves the loop at
    line 989 with the other warning and appends the sample, with its
    first unit. *)
Lemma parseAVCVideoData_keeps_unit_in_last_four_bytes :
  exists v d' s,
    new_DataView unit_in_last_four_bytes 0 9 = Ok v /\
    nal_reached true unit_in_last_four_bytes v 0 9 4 5 /\
    declared_size true v 4 5 = Ok 9 /\
    9 - 4 < 9 /\
    ~ 5 + 4 < 9 /\
    _parseAVCVideoData true unit_in_last_four_bytes 0 9 Undefined
      fresh_demuxer = Some (Ok tt, d') /\
    trace d' = [Log_w (malformed_nalu Undefined 5 9)] /\
    Track.samples (_videoTrack d') = [s] /\
    List.length (AvcSample.units s) = 1%nat.
Proof.
  do 3 eexists.
  split; [vm_compute; reflexivity |].
  split.
  { apply (reached_next true unit_in_last_four_bytes _ 0 9 4 0 1 0x41
             (bytes_of [0; 0; 0; 1; 0x41]));
      [apply reached_first | lia | vm_compute; reflexivity | lia
      | vm_compute; reflexivity | vm_compute; reflexivity]. }
  split; [vm_compute; reflexivity |].
  split; [lia |].
  split; [lia |].
  split; [vm_compute; reflexivity |].
  split; [reflexivity |].
  split; reflexivity.
Qed.

(** * Further properties of the code *)

(** ** The two 32-bit readers *)

Lemma to_int32_congr (x y : Z) :
  x mod 2 ^ 32 = y mod 2 ^ 32 -> to_int32 x = to_int32 y.
Proof. unfold to_int32. now intros ->. Qed.

Lemma to_int32_mod (x : Z) : to_int32 x mod 2 ^ 32 = x mod 2 ^ 32.
Proof.
  unfold to_int32. destruct (x mod 2 ^ 32 <? 2 ^ 31).
  - apply Z.mod_mod. discriminate.
  - replace (x mod 2 ^ 32 - 2 ^ 32) with (x mod 2 ^ 32 + (-1) * 2 ^ 32) by lia.
    rewrite Z.mod_add by discriminate. apply Z.mod_mod. discriminate.
Qed.

Lemma lor_mod (a b : Z) :
  Z.lor a b mod 2 ^ 32 = Z.lor (a mod 2 ^ 32) (b mod 2 ^ 32).
Proof.
  rewrite <- !Z.land_ones by lia. apply Z.land_lor_distr_l.
Qed.

(** [ReadBig32] wraps the big-endian integer into the signed range. *)
Lemma ReadBig32_wraps (data : list byte) (off n : Z) :
  u32be_at data off = Some n ->
  0 <= n < 2 ^ 32 /\ ReadBig32 data off = to_int32 n.
Proof.
  unfold u32be_at, ReadBig32, elt_int32.
  destruct (u8_at data off) as [b0 |] eqn:H0; [| discriminate].
  destruct (u8_at data (off + 1)) as [b1 |] eqn:H1; [| discriminate].
  destruct (u8_at data (off + 2)) as [b2 |] eqn:H2; [| discriminate].
  destruct (u8_at data (off + 3)) as [b3 |] eqn:H3; [| discriminate].
  apply u8_at_bounds in H0, H1, H2, H3.
  intros H. injection H as Hn. split; [lia |].
  unfold js_shl, js_or. apply to_int32_congr.
  repeat (rewrite lor_mod || rewrite to_int32_mod).
  rewrite !Z.shiftl_mul_pow2 by lia.
  rewrite (Z.mod_small (b0 * 2 ^ 24)), (Z.mod_small (b1 * 2 ^ 16)),
    (Z.mod_small (b2 * 2 ^ 8)), (Z.mod_small b3), (Z.mod_small n) by lia.
  rewrite (lor_shifted b0 24 (b1 * 2 ^ 16)) by lia.
  replace (b0 * 2 ^ 24 + b1 * 2 ^ 16) with ((b0 * 2 ^ 8 + b1) * 2 ^ 16) by lia.
  rewrite (lor_shifted _ 16 (b2 * 2 ^ 8)) by lia.
  replace ((b0 * 2 ^ 8 + b1) * 2 ^ 16 + b2 * 2 ^ 8)
    with ((b0 * 2 ^ 16 + b1 * 2 ^ 8 + b2) * 2 ^ 8) by lia.
  rewrite (lor_shifted _ 8 b3) by lia.
  lia.
Qed.

Lemma u8_at_dv_byte (buf : list byte) (off len : Z) (v : DataView) (i : Z) :
  new_DataView buf off len = Ok v ->
  0 <= i -> i + 1 <= len ->
  u8_at buf (off + i) = Some (dv_byte v i).
Proof.
  unfold new_DataView.
  destruct (_ && _ && _) eqn:Hv; [| discriminate].
  intros H. injection H as <-. intros H4 H5.
  apply andb_true_iff in Hv as [Hv H3]. apply andb_true_iff in Hv as [H1 H2].
  apply Z.leb_le in H1, H2, H3.
  unfold u8_at, dv_byte. cbn [dv_byteOffset dv_buffer].
  replace (off + i <? 0) with false by (symmetry; apply Z.ltb_ge; lia).
  rewrite (nth_error_nth' buf x00) by lia. reflexivity.
Qed.

(** A big-endian [getUint32] on a view reads what [u32be_at] names. *)
Lemma getUint32_u32be_at (buf : list byte) (off len : Z) (v : DataView)
  (o n : Z) :
  new_DataView buf off len = Ok v ->
  getUint32 v o false = Ok n ->
  u32be_at buf (off + o) = Some n.
Proof.
  intros Hv H.
  pose proof (getUint32_in_range _ _ _ _ H) as [Ho Hlen].
  rewrite (new_DataView_length _ _ _ _ Hv) in Hlen.
  unfold getUint32 in H. destruct (dv_in_range v o 4); [| discriminate].
  injection H as <-. unfold u32be_at.
  replace (off + o + 1) with (off + (o + 1)) by lia.
  replace (off + o + 2) with (off + (o + 2)) by lia.
  replace (off + o + 3) with (off + (o + 3)) by lia.
  rewrite (u8_at_dv_byte _ _ _ _ o Hv), (u8_at_dv_byte _ _ _ _ (o + 1) Hv),
    (u8_at_dv_byte _ _ _ _ (o + 2) Hv), (u8_at_dv_byte _ _ _ _ (o + 3) Hv)
    by lia.
  reflexivity.
Qed.

(** X1: [ReadBig32] and a big-endian [DataView.getUint32] read the same
    four bytes, but [ReadBig32] returns them as a signed 32-bit integer:
    the two agree below 2^31, and from 2^31 on [ReadBig32] is smaller by
    2^32, hence negative. *)
Theorem ReadBig32_is_signed_getUint32 (buffer : list byte)
  (dataOffset dataSize : Z) (v : DataView) (o n : Z) :
  new_DataView buffer dataOffset dataSize = Ok v ->
  getUint32 v o false = Ok n ->
  ReadBig32 buffer (dataOffset + o) = (if n <? 2 ^ 31 then n else n - 2 ^ 32) /\
  - 2 ^ 31 <= ReadBig32 buffer (dataOffset + o) < 2 ^ 31.
Proof.
  intros Hv H.
  destruct (ReadBig32_wraps _ _ _ (getUint32_u32be_at _ _ _ _ _ _ Hv H))
    as [Hn ->].
  unfold to_int32. rewrite Z.mod_small by exact Hn.
  split; [reflexivity |].
  destruct (n <? 2 ^ 31) eqn:E; [apply Z.ltb_lt in E | apply Z.ltb_ge in E]; lia.
Qed.

Lemma ReadBig32_is_signed_getUint32_witness :
  let buffer := bytes_of [0x80; 0; 0; 0x10] in
  ReadBig32 buffer (0 + 0) =
    (if 2147483664 <? 2 ^ 31 then 2147483664 else 2147483664 - 2 ^ 32) /\
  - 2 ^ 31 <= ReadBig32 buffer (0 + 0) < 2 ^ 31.
Proof.
  apply (ReadBig32_is_signed_getUint32 (bytes_of [0x80; 0; 0; 0x10]) 0 4
           {| dv_buffer := bytes_of [0x80; 0; 0; 0x10];
              dv_byteOffset := 0; dv_byteLength := 4 |} 0 2147483664);
    vm_compute; reflexivity.
Defined.

Lemma u8_at_outside (data : list byte) (i : Z) :
  i < 0 \/ Z.of_nat (List.length data) <= i -> u8_at data i = None.
Proof.
  intros H. unfold u8_at. destruct (i <? 0) eqn:E; [reflexivity |].
  apply Z.ltb_ge in E.
  replace (nth_error data (Z.to_nat i)) with (@None byte); [reflexivity |].
  symmetry. apply nth_error_None. lia.
Qed.

(** X2: [ReadBig32] never fails.  An index at or past the end of the
    array, or more than three below its start, reads four [undefined]
    elements, and the result is 0. *)
Theorem ReadBig32_outside_is_zero (data : list byte) (index : Z) :
  index < -3 \/ Z.of_nat (List.length data) <= index ->
  ReadBig32 data index = 0.
Proof.
  intros H. unfold ReadBig32, elt_int32.
  rewrite (u8_at_outside data index), (u8_at_outside data (index + 1)),
    (u8_at_outside data (index + 2)), (u8_at_outside data (index + 3)) by lia.
  reflexivity.
Qed.

Lemma ReadBig32_outside_is_zero_witness :
  ReadBig32 ftyp_moov_buffer 24 = 0.
Proof.
  apply (ReadBig32_outside_is_zero ftyp_moov_buffer 24).
  right. vm_compute. discriminate.
Defined.

(** ** The probe *)

Lemma u8_differs_false (data : list byte) (i c : Z) :
  u8_differs data i c = false <-> u8_at data i = Some c.
Proof.
  unfold u8_differs. destruct (u8_at data i) as [b |].
  - rewrite negb_false_iff, Z.eqb_eq. split; [now intros -> | now intros [= ->]].
  - split; discriminate.
Qed.

(** X3: the probe accepts a buffer exactly when its bytes 4..7 are
    'ftyp'; nothing else is examined, and a buffer of fewer than eight
    bytes never matches. *)
Theorem probe_matches_iff_ftyp (buffer : list byte) :
  (is_match (probe buffer) = true <->
   u8_at buffer 4 = Some 0x66 /\ u8_at buffer 5 = Some 0x74 /\
   u8_at buffer 6 = Some 0x79 /\ u8_at buffer 7 = Some 0x70) /\
  ((List.length buffer < 8)%nat -> probe buffer = Mismatch).
Proof.
  assert (Hiff : is_match (probe buffer) = true <->
                 u8_at buffer 4 = Some 0x66 /\ u8_at buffer 5 = Some 0x74 /\
                 u8_at buffer 6 = Some 0x79 /\ u8_at buffer 7 = Some 0x70).
  { unfold probe.
    destruct (u8_differs buffer 4 102 || u8_differs buffer 5 116 ||
              u8_differs buffer 6 121 || u8_differs buffer 7 112) eqn:E;
      cbn [is_match].
    - split; [discriminate |]. intros (H4 & H5 & H6 & H7).
      apply u8_differs_false in H4, H5, H6, H7.
      rewrite H4, H5, H6, H7 in E. discriminate E.
    - split; [intros _ | reflexivity].
      apply orb_false_iff in E as [E H7]. apply orb_false_iff in E as [E H6].
      apply orb_false_iff in E as [H4 H5].
      now rewrite <- !u8_differs_false. }
  split; [exact Hiff |].
  intros Hlen. destruct (probe buffer) as [| p] eqn:Hp; [reflexivity |].
  exfalso. destruct (proj1 Hiff eq_refl) as (_ & _ & _ & H7).
  rewrite u8_at_outside in H7 by lia. discriminate H7.
Qed.

Lemma probe_matches_iff_ftyp_witness :
  probe (bytes_of [0; 0; 0; 16; 0x66; 0x74; 0x79]) = Mismatch.
Proof.
  apply (proj2 (probe_matches_iff_ftyp (bytes_of [0; 0; 0; 16; 0x66; 0x74; 0x79]))).
  vm_compute. lia.
Defined.

(** ** The leaf-box parsers *)

Lemma byte_val_lt (b : byte) : byte_val b < 256.
Proof. unfold byte_val. pose proof (Byte.to_N_bounded b). lia. Qed.

Lemma dv_byte_lt (v : DataView) (i : Z) : dv_byte v i < 256.
Proof. apply byte_val_lt. Qed.

Lemma getUint32_bounds (v : DataView) (o : Z) (f : bool) (n : Z) :
  getUint32 v o f = Ok n -> 0 <= n < 2 ^ 32.
Proof.
  intros H. split; [exact (getUint32_nonneg _ _ _ _ H) |].
  unfold getUint32 in H. destruct (dv_in_range v o 4); [| discriminate].
  injection H as <-.
  pose proof (dv_byte_nonneg v o). pose proof (dv_byte_nonneg v (o + 1)).
  pose proof (dv_byte_nonneg v (o + 2)). pose proof (dv_byte_nonneg v (o + 3)).
  pose proof (dv_byte_lt v o). pose proof (dv_byte_lt v (o + 1)).
  pose proof (dv_byte_lt v (o + 2)). pose proof (dv_byte_lt v (o + 3)).
  destruct f; lia.
Qed.

Lemma dv_in_range_true (v : DataView) (o n : Z) :
  0 <= o -> o + n <= dv_byteLength v -> dv_in_range v o n = true.
Proof.
  intros H1 H2. unfold dv_in_range. apply andb_true_iff.
  split; apply Z.leb_le; assumption.
Qed.

Lemma getUint32_total (v : DataView) (o : Z) (f : bool) :
  0 <= o -> o + 4 <= dv_byteLength v -> exists n, getUint32 v o f = Ok n.
Proof.
  intros H1 H2. unfold getUint32. rewrite dv_in_range_true by assumption.
  eexists. reflexivity.
Qed.

Lemma getUint16_total (v : DataView) (o : Z) (f : bool) :
  0 <= o -> o + 2 <= dv_byteLength v -> exists n, getUint16 v o f = Ok n.
Proof.
  intros H1 H2. unfold getUint16. rewrite dv_in_range_true by assumption.
  eexists. reflexivity.
Qed.

Lemma getUint8_total (v : DataView) (o : Z) :
  0 <= o -> o + 1 <= dv_byteLength v -> exists n, getUint8 v o = Ok n.
Proof.
  intros H1 H2. unfold getUint8. rewrite dv_in_range_true by assumption.
  eexists. reflexivity.
Qed.

Lemma read_version_flag_total (le : bool) (v : DataView) :
  12 <= dv_byteLength v -> exists version, read_version_flag le v = Ok version.
Proof.
  intros H. unfold read_version_flag.
  destruct (getUint8_total v 8) as [ver ->]; [lia | lia |].
  destruct (getUint32_total v 8 (negb le)) as [fl ->]; [lia | lia |].
  eexists. reflexivity.
Qed.

Lemma read_version_flag_inv (le : bool) (v : DataView) (version : Z) :
  read_version_flag le v = Ok version ->
  getUint8 v 8 = Ok version /\ 12 <= dv_byteLength v.
Proof.
  unfold read_version_flag.
  destruct (getUint8 v 8) as [ver |]; cbn [bind]; [| discriminate].
  destruct (getUint32 v 8 (negb le)) as [fl |] eqn:Hf; cbn [bind];
    [| discriminate].
  intros H. injection H as <-. apply getUint32_in_range in Hf.
  split; [reflexivity | lia].
Qed.

Lemma stsc_loop_ok (le : bool) (v : DataView) (n : nat) :
  forall off acc r,
    stsc_loop le v n off acc = Ok r ->
    exists es,
      r = acc ++ es /\ List.length es = n /\
      forall i e, nth_error es i = Some e ->
        getUint32 v (off + 12 * Z.of_nat i) (negb le) = Ok (Stsc.firstChk e) /\
        getUint32 v (off + 12 * Z.of_nat i + 4) (negb le) = Ok (Stsc.samPerChk e) /\
        getUint32 v (off + 12 * Z.of_nat i + 8) (negb le) = Ok (Stsc.samDesIndex e).
Proof.
  induction n as [| n IH]; intros off acc r H; cbn [stsc_loop] in H.
  - injection H as <-. exists []. rewrite app_nil_r.
    split; [reflexivity |]. split; [reflexivity |].
    intros [| i] e Hi; discriminate Hi.
  - destruct (getUint32 v off (negb le)) as [a |] eqn:Ha; cbn [bind] in H;
      [| discriminate].
    destruct (getUint32 v (off + 4) (negb le)) as [b |] eqn:Hb; cbn [bind] in H;
      [| discriminate].
    destruct (getUint32 v (off + 8) (negb le)) as [c |] eqn:Hc; cbn [bind] in H;
      [| discriminate].
    apply IH in H as (es & -> & Hlen & Hread).
    eexists (_ :: es). rewrite <- app_assoc. cbn [app List.length].
    split; [reflexivity |]. split; [now rewrite Hlen |].
    intros [| i] e Hi; cbn [nth_error] in Hi.
    + injection Hi as <-. cbn [Stsc.firstChk Stsc.samPerChk Stsc.samDesIndex].
      rewrite Z.mul_0_r, Z.add_0_r. now repeat split.
    + destruct (Hread i e Hi) as (H1 & H2 & H3).
      replace (off + 12 * Z.of_nat (S i)) with (off + 12 + 12 * Z.of_nat i) by lia.
      now repeat split.
Qed.

Lemma parseStsc_inv (le : bool) (arrayBuffer : list byte)
  (dataOffset dataSize : Z) (r : Stsc.t) :
  _parseStsc le arrayBuffer dataOffset dataSize = Ok r ->
  exists v,
    new_DataView arrayBuffer dataOffset dataSize = Ok v /\
    getUint32 v 12 (negb le) = Ok (Stsc.entryCount r) /\
    Stsc.entryCount r = Z.of_nat (List.length (Stsc.entries r)) /\
    (forall i e, nth_error (Stsc.entries r) i = Some e ->
       getUint32 v (16 + 12 * Z.of_nat i) (negb le) = Ok (Stsc.firstChk e) /\
       getUint32 v (16 + 12 * Z.of_nat i + 4) (negb le) = Ok (Stsc.samPerChk e) /\
       getUint32 v (16 + 12 * Z.of_nat i + 8) (negb le) = Ok (Stsc.samDesIndex e)) /\
    16 + 12 * Stsc.entryCount r <= dataSize.
Proof.
  intros H. unfold _parseStsc in H.
  destruct (new_DataView arrayBuffer dataOffset dataSize) as [v |] eqn:Hv;
    cbn [bind] in H; [| discriminate].
  destruct (read_version_flag le v) as [ver |]; cbn [bind] in H; [| discriminate].
  destruct (getUint32 v 12 (negb le)) as [n |] eqn:Hn; cbn [bind] in H;
    [| discriminate].
  destruct (stsc_loop le v (Z.to_nat n) 16 []) as [es |] eqn:Hloop;
    cbn [bind] in H; [| discriminate].
  injection H as <-. cbn [Stsc.entryCount Stsc.entries].
  apply stsc_loop_ok in Hloop as (es' & -> & Hlen & Hread). cbn [app].
  pose proof (getUint32_bounds _ _ _ _ Hn) as Hn0.
  exists v. split; [reflexivity |]. split; [exact Hn |].
  split; [lia |]. split; [exact Hread |].
  rewrite <- (new_DataView_length _ _ _ _ Hv).
  destruct es' as [| e0 es'] using rev_ind.
  - cbn in Hlen. apply getUint32_in_range in Hn. lia.
  - rewrite length_app, Nat.add_1_r in Hlen.
    destruct (Hread (List.length es') e0) as (_ & _ & H3).
    { rewrite nth_error_app2, Nat.sub_diag by lia. reflexivity. }
    apply getUint32_in_range in H3. lia.
Qed.

(** X4: when [_parseStsc] accepts a box, the count it returns is the
    32-bit field at offset 12 and is the number of entries returned,
    entry i holds the three 32-bit fields at offsets 16 + 12 i, and the
    box is at least 16 + 12 * entryCount bytes long. *)
Theorem parseStsc_entries (le : bool) (arrayBuffer : list byte)
  (dataOffset dataSize : Z) (r : Stsc.t) :
  _parseStsc le arrayBuffer dataOffset dataSize = Ok r ->
  exists v,
    new_DataView arrayBuffer dataOffset dataSize = Ok v /\
    getUint32 v 12 (negb le) = Ok (Stsc.entryCount r) /\
    Stsc.entryCount r = Z.of_nat (List.length (Stsc.entries r)) /\
    (forall i e, nth_error (Stsc.entries r) i = Some e ->
       getUint32 v (16 + 12 * Z.of_nat i) (negb le) = Ok (Stsc.firstChk e) /\
       getUint32 v (16 + 12 * Z.of_nat i + 4) (negb le) = Ok (Stsc.samPerChk e) /\
       getUint32 v (16 + 12 * Z.of_nat i + 8) (negb le) = Ok (Stsc.samDesIndex e)) /\
    16 + 12 * Stsc.entryCount r <= dataSize.
Proof.
  intros H. destruct (parseStsc_inv _ _ _ _ _ H) as (v & Hv & Hn & Hc & Hr & Hb).
  exists v. split; [exact Hv |]. split; [exact Hn |]. split; [exact Hc |].
  split; [exact Hr | exact Hb].
Qed.

Lemma parseStsc_entries_witness :
  exists r v,
    _parseStsc true stsc_box 0 40 = Ok r /\
    new_DataView stsc_box 0 40 = Ok v /\
    getUint32 v 12 (negb true) = Ok (Stsc.entryCount r) /\
    Stsc.entryCount r = Z.of_nat (List.length (Stsc.entries r)) /\
    (forall i e, nth_error (Stsc.entries r) i = Some e ->
       getUint32 v (16 + 12 * Z.of_nat i) (negb true) = Ok (Stsc.firstChk e) /\
       getUint32 v (16 + 12 * Z.of_nat i + 4) (negb true) = Ok (Stsc.samPerChk e) /\
       getUint32 v (16 + 12 * Z.of_nat i + 8) (negb true) = Ok (Stsc.samDesIndex e)) /\
    16 + 12 * Stsc.entryCount r <= 40.
Proof.
  destruct (parseStsc_entries true stsc_box 0 40 stsc_scenario4)
    as (v & H); [vm_compute; reflexivity |].
  exists stsc_scenario4, v. split; [vm_compute; reflexivity | exact H].
Defined.

Lemma stco_loop_ok (le : bool) (v : DataView) (n : nat) :
  forall off acc r,
    stco_loop le v n off acc = Ok r ->
    exists es,
      r = acc ++ es /\ List.length es = n /\
      forall i x, nth_error es i = Some x ->
        getUint32 v (off + 4 * Z.of_nat i) (negb le) = Ok x.
Proof.
  induction n as [| n IH]; intros off acc r H; cbn [stco_loop] in H.
  - injection H as <-. exists []. rewrite app_nil_r.
    split; [reflexivity |]. split; [reflexivity |].
    intros [| i] e Hi; discriminate Hi.
  - destruct (getUint32 v off (negb le)) as [a |] eqn:Ha; cbn [bind] in H;
      [| discriminate].
    apply IH in H as (es & -> & Hlen & Hread).
    exists (a :: es). rewrite <- app_assoc. cbn [app List.length].
    split; [reflexivity |]. split; [now rewrite Hlen |].
    intros [| i] e Hi; cbn [nth_error] in Hi.
    + injection Hi as <-. now rewrite Z.mul_0_r, Z.add_0_r.
    + rewrite <- (Hread i e Hi). f_equal. lia.
Qed.

Lemma stco_loop_total (le : bool) (v : DataView) (n : nat) :
  forall off acc,
    0 <= off -> off + 4 * Z.of_nat n <= dv_byteLength v ->
    exists es, stco_loop le v n off acc = Ok es.
Proof.
  induction n as [| n IH]; intros off acc H0 Hlen; cbn [stco_loop].
  - eexists. reflexivity.
  - destruct (getUint32_total v off (negb le)) as [a ->]; [lia | lia |].
    cbn [bind]. apply IH; lia.
Qed.

Lemma parseStco_inv (le : bool) (arrayBuffer : list byte)
  (dataOffset dataSize : Z) (r : Stco.t) :
  _parseStco le arrayBuffer dataOffset dataSize = Ok r ->
  exists v,
    new_DataView arrayBuffer dataOffset dataSize = Ok v /\
    getUint32 v 12 (negb le) = Ok (Stco.entryCount r) /\
    16 + 4 * Stco.entryCount r <= dataSize /\
    Stco.entryCount r = Z.of_nat (List.length (Stco.entries r)) /\
    (forall i x, nth_error (Stco.entries r) i = Some x ->
       getUint32 v (16 + 4 * Z.of_nat i) (negb le) = Ok x).
Proof.
  intros H. unfold _parseStco in H.
  destruct (new_DataView arrayBuffer dataOffset dataSize) as [v |] eqn:Hv;
    cbn [bind] in H; [| discriminate].
  destruct (read_version_flag le v) as [ver |]; cbn [bind] in H; [| discriminate].
  destruct (getUint32 v 12 (negb le)) as [n |] eqn:Hn; cbn [bind] in H;
    [| discriminate].
  destruct (stco_loop le v (Z.to_nat n) 16 []) as [es |] eqn:Hloop;
    cbn [bind] in H; [| discriminate].
  injection H as <-. cbn [Stco.entryCount Stco.entries].
  apply stco_loop_ok in Hloop as (es' & -> & Hlen & Hread). cbn [app].
  pose proof (getUint32_bounds _ _ _ _ Hn) as Hn0.
  exists v. split; [reflexivity |]. split; [exact Hn |].
  split; [| split; [lia | exact Hread]].
  rewrite <- (new_DataView_length _ _ _ _ Hv).
  destruct es' as [| e0 es'] using rev_ind.
  - cbn in Hlen. apply getUint32_in_range in Hn. lia.
  - rewrite length_app, Nat.add_1_r in Hlen.
    pose proof (Hread (List.length es') e0) as H3.
    rewrite nth_error_app2, Nat.sub_diag in H3 by lia.
    specialize (H3 eq_refl). apply getUint32_in_range in H3. lia.
Qed.

(** X5: [_parseStco] accepts a box exactly when the box lies within the
    buffer and is long enough for the entryCount words that its count
    field announces; it then returns that count and those words, in
    order. *)
Theorem parseStco_accepts_iff (le : bool) (arrayBuffer : list byte)
  (dataOffset dataSize : Z) :
  ((exists r, _parseStco le arrayBuffer dataOffset dataSize = Ok r) <->
   (exists v n,
      new_DataView arrayBuffer dataOffset dataSize = Ok v /\
      getUint32 v 12 (negb le) = Ok n /\ 16 + 4 * n <= dataSize)) /\
  (forall r,
     _parseStco le arrayBuffer dataOffset dataSize = Ok r ->
     exists v,
       new_DataView arrayBuffer dataOffset dataSize = Ok v /\
       getUint32 v 12 (negb le) = Ok (Stco.entryCount r) /\
       Stco.entryCount r = Z.of_nat (List.length (Stco.entries r)) /\
       (forall i x, nth_error (Stco.entries r) i = Some x ->
          getUint32 v (16 + 4 * Z.of_nat i) (negb le) = Ok x)).
Proof.
  split.
  - split.
    + intros [r H]. apply parseStco_inv in H as (v & Hv & Hn & Hb & _).
      exists v, (Stco.entryCount r). now repeat split.
    + intros (v & n & Hv & Hn & Hb). unfold _parseStco. rewrite Hv. cbn [bind].
      pose proof (new_DataView_length _ _ _ _ Hv) as Hlen.
      pose proof (getUint32_in_range _ _ _ _ Hn) as Hr.
      pose proof (getUint32_bounds _ _ _ _ Hn) as Hn0.
      destruct (read_version_flag_total le v) as [ver ->]; [lia |].
      cbn [bind]. rewrite Hn. cbn [bind].
      destruct (stco_loop_total le v (Z.to_nat n) 16 []) as [es ->];
        [lia | lia |].
      cbn [bind]. eexists. reflexivity.
  - intros r H. apply parseStco_inv in H as (v & Hv & Hn & _ & Hc & Hread).
    exists v. now repeat split.
Qed.

Lemma parseStco_accepts_iff_witness :
  (exists r, _parseStco true stco_box 0 28 = Ok r) /\
  (forall n, n <> 3 -> ~ exists r, _parseStco true stco_box 0 (16 + 4 * n) = Ok r).
Proof.
  pose proof (fun size => proj1 (parseStco_accepts_iff true stco_box 0 size)) as H.
  split.
  - apply (proj2 (H 28)).
    exists {| dv_buffer := stco_box; dv_byteOffset := 0; dv_byteLength := 28 |}, 3.
    repeat split; vm_compute; try reflexivity. discriminate.
  - intros n Hn Hex. apply (proj1 (H (16 + 4 * n))) in Hex.
    destruct Hex as (v & m & Hv & Hm & Hb).
    assert (Hlen : Z.of_nat (List.length stco_box) = 28) by reflexivity.
    unfold new_DataView in Hv. rewrite Hlen in Hv.
    destruct (_ && _ && _) eqn:E; [| discriminate Hv].
    injection Hv as <-.
    apply andb_true_iff in E as [E H3]. apply Z.leb_le in H3.
    assert (m = 3).
    { unfold getUint32 in Hm. destruct (dv_in_range _ _ _); [| discriminate Hm].
      cbn in Hm. injection Hm as <-. reflexivity. }
    lia.
Defined.

(** *** Parsed tables and the resolver *)

Lemma parseStsz_count (le : bool) (arrayBuffer : list byte)
  (dataOffset dataSize : Z) (r : Stsz.t) :
  _parseStsz le arrayBuffer dataOffset dataSize = Ok r ->
  Stsz.sampleCount r = Z.of_nat (List.length (Stsz.samples r)).
Proof.
  intros H. unfold _parseStsz in H.
  destruct (new_DataView arrayBuffer dataOffset dataSize) as [v |];
    cbn [bind] in H; [| discriminate].
  destruct (read_version_flag le v) as [ver |]; cbn [bind] in H; [| discriminate].
  destruct (getUint32 v 12 (negb le)) as [ss |]; cbn [bind] in H; [| discriminate].
  destruct (getUint32 v 16 (negb le)) as [sc |] eqn:Hsc; cbn [bind] in H;
    [| discriminate].
  destruct (stsz_loop le v (Z.to_nat sc) 20 0 []) as [p |] eqn:Hloop;
    cbn [bind] in H; [| discriminate].
  injection H as <-. cbn [Stsz.sampleCount Stsz.samples].
  apply stsz_loop_ok in Hloop as (sizes & -> & Hlen & _). cbn [app].
  apply getUint32_nonneg in Hsc. lia.
Qed.

Lemma spec_expand_length (count : Z) (entries : list Stsc.entry) :
  forall p,
    stsc_ascending p entries count ->
    List.length (spec_expand_stsc entries count) =
    Z.to_nat (count + 1 - next_first entries count).
Proof.
  induction entries as [| e rest IH]; intros p H.
  - cbn. lia.
  - destruct H as (Hp & Hc & Hrest).
    rewrite spec_expand_cons, length_app, repeat_length, (IH _ Hrest).
    pose proof (ascending_next _ _ _ Hc Hrest) as Hnext.
    cbn [next_first].
    assert (next_first rest count <= count + 1).
    { destruct rest as [| e' rest']; cbn [next_first]; [lia |].
      destruct Hrest as (_ & H' & _). lia. }
    lia.
Qed.

Lemma chunk_records_numeric (stsz : Stsz.t) (n : nat) :
  forall k l o g,
    (g + n <= List.length (Stsz.samples stsz))%nat ->
    Forall numeric (chunk_records stsz n k l (Int o) g).
Proof.
  induction n as [| n IH]; intros k l o g Hg; cbn [chunk_records].
  - constructor.
  - unfold array_get.
    destruct (nth_error (Stsz.samples stsz) g) as [z |] eqn:Hz.
    + constructor.
      * exists o, z. split; reflexivity.
      * cbn [js_add]. apply IH. lia.
    + apply nth_error_None in Hz. lia.
Qed.

Lemma table_of_numeric (stsz : Stsz.t) (stco : Stco.t) (chks : list ChkEntry) :
  forall k g,
    (k + List.length chks <= List.length (Stco.entries stco))%nat ->
    (g + list_sum (map samples_in chks) <= List.length (Stsz.samples stsz))%nat ->
    Forall numeric (table_of stsz stco chks k g).
Proof.
  induction chks as [| ce rest IH]; intros k g Hk Hg; cbn [table_of].
  - constructor.
  - cbn [List.length map] in Hk, Hg. rewrite list_sum_cons in Hg.
    apply Forall_app. split.
    + unfold array_get.
      destruct (nth_error (Stco.entries stco) k) as [o |] eqn:Ho.
      * apply chunk_records_numeric. lia.
      * apply nth_error_None in Ho. lia.
    + apply IH; lia.
Qed.

(** X6: the three table parsers and the resolver compose.  Tables
    returned by [_parseStsc], [_parseStsz] and [_parseStco] carry counts
    that are the lengths of their arrays; if moreover the stsc entries
    cover the chunks of stco and imply sampleCount samples, [_samDetails]
    returns one record per sample, logs nothing, and every record holds a
    numeric offset and a numeric size: no NaN and no undefined. *)
Theorem parsed_tables_resolve (le : bool) (b1 b2 b3 : list byte)
  (o1 s1 o2 s2 o3 s3 : Z) (stsc : Stsc.t) (stsz : Stsz.t) (stco : Stco.t) :
  _parseStsc le b1 o1 s1 = Ok stsc ->
  _parseStsz le b2 o2 s2 = Ok stsz ->
  _parseStco le b3 o3 s3 = Ok stco ->
  stsc_covers (Stsc.entries stsc) (Stco.entryCount stco) ->
  spec_implied_samples (Stsc.entries stsc) (Stco.entryCount stco) =
    Stsz.sampleCount stsz ->
  exists table,
    _samDetails stsc stsz stco = Ok (Some table, []) /\
    Z.of_nat (List.length table) = Stsz.sampleCount stsz /\
    Forall numeric table.
Proof.
  intros Hc Hz Ho Hcov Himp.
  destruct (parseStsc_inv _ _ _ _ _ Hc) as (vc & _ & _ & Hcn & Hcr & _).
  pose proof (parseStsz_count _ _ _ _ _ Hz) as Hzn.
  destruct (parseStco_inv _ _ _ _ _ Ho) as (vo & _ & Hon & _ & Hol & _).
  assert (Hu : Forall (fun e => 0 <= Stsc.samPerChk e) (Stsc.entries stsc)).
  { apply Forall_forall. intros e Hin.
    apply In_nth_error in Hin as [i Hi].
    destruct (Hcr i e Hi) as (_ & H2 & _).
    exact (getUint32_nonneg _ _ _ _ H2). }
  assert (Hv : valid_tables stsc stsz stco).
  { constructor; try assumption.
    exact (getUint32_bounds _ _ _ _ Hon). }
  pose proof (chunk_table_valid _ _ _ Hv) as Hchk.
  set (chks := spec_expand_stsc (Stsc.entries stsc) (Stco.entryCount stco)) in *.
  assert (Hsum : Z.of_nat (list_sum (map samples_in chks)) = Stsz.sampleCount stsz).
  { rewrite samples_in_sum by (apply spec_expand_unsigned; exact Hu).
    exact Himp. }
  assert (Hlen : List.length chks = Z.to_nat (Stco.entryCount stco)).
  { unfold chks. destruct (Stsc.entries stsc) as [| e rest] eqn:He.
    - cbn in Hcov. rewrite Hcov. reflexivity.
    - destruct Hcov as (H1 & Hcnt & Hasc).
      rewrite (spec_expand_length _ (e :: rest) 0).
      + cbn [next_first]. rewrite H1. f_equal. lia.
      + cbn. rewrite H1. split; [lia |]. split; [lia | exact Hasc]. }
  exists (table_of stsz stco chks 0 0). split; [| split].
  - now apply samDetails_dense.
  - now rewrite table_of_length.
  - apply table_of_numeric; lia.
Qed.

Lemma parsed_tables_resolve_witness :
  exists stsc stsz stco table,
    _parseStsc true stsc_box 0 40 = Ok stsc /\
    _parseStsz true stsz_box 0 40 = Ok stsz /\
    _parseStco true stco_box 0 28 = Ok stco /\
    _samDetails stsc stsz stco = Ok (Some table, []) /\
    Z.of_nat (List.length table) = Stsz.sampleCount stsz /\
    Forall numeric table.
Proof.
  destruct (parsed_tables_resolve true stsc_box stsz_box stco_box
              0 40 0 40 0 28 stsc_scenario4 stsz_scenario4 stco_three_chunks)
    as (table & H).
  - vm_compute. reflexivity.
  - vm_compute. reflexivity.
  - vm_compute. reflexivity.
  - cbn. repeat split; lia.
  - vm_compute. reflexivity.
  - exists stsc_scenario4, stsz_scenario4, stco_three_chunks, table.
    split; [vm_compute; reflexivity |].
    split; [vm_compute; reflexivity |].
    split; [vm_compute; reflexivity |].
    exact H.
Defined.

(** *** stts and elst *)




Lemma elst_loop_ok (le : bool) (v : DataView) (version : Z) (n : nat) :
  forall off acc r,
    elst_loop le v version n off acc = Ok r ->
    exists es,
      r = acc ++ es /\ List.length es = n /\
      (version = 0 ->
       forall i e, nth_error es i = Some e ->
         exists segDuration mediaTime,
           Elst.segDuration e = Some segDuration /\
           Elst.mediaTime e = Some mediaTime /\
           getUint32 v (off + 12 * Z.of_nat i) (negb le) = Ok segDuration /\
           getUint32 v (off + 12 * Z.of_nat i + 4) (negb le) = Ok mediaTime /\
           getUint16 v (off + 12 * Z.of_nat i + 8) (negb le) =
             Ok (Elst.mediaRateInt e) /\
           getUint16 v (off + 12 * Z.of_nat i + 10) (negb le) =
             Ok (Elst.mediaRateFrac e)) /\
      (version <> 0 ->
       forall i e, nth_error es i = Some e ->
         Elst.segDuration e = None /\ Elst.mediaTime e = None /\
         getUint16 v (off + 4 * Z.of_nat i) (negb le) = Ok (Elst.mediaRateInt e) /\
         getUint16 v (off + 4 * Z.of_nat i + 2) (negb le) =
           Ok (Elst.mediaRateFrac e)).
Proof.
  induction n as [| n IH]; intros off acc r H; cbn [elst_loop] in H.
  - injection H as <-. exists []. rewrite app_nil_r.
    split; [reflexivity |]. split; [reflexivity |].
    split; intros _ [| i] e Hi; discriminate Hi.
  - destruct (version =? 0) eqn:Hver.
    + apply Z.eqb_eq in Hver.
      destruct (getUint32 v off (negb le)) as [a |] eqn:Ha; cbn [bind] in H;
        [| discriminate].
      destruct (getUint32 v (off + 4) (negb le)) as [b |] eqn:Hb; cbn [bind] in H;
        [| discriminate].
      destruct (getUint16 v (off + 8) (negb le)) as [c |] eqn:Hc; cbn [bind] in H;
        [| discriminate].
      destruct (getUint16 v (off + 8 + 2) (negb le)) as [d |] eqn:Hd;
        cbn [bind] in H; [| discriminate].
      apply IH in H as (es & -> & Hlen & H0 & _).
      eexists (_ :: es). rewrite <- app_assoc. cbn [app List.length].
      split; [reflexivity |]. split; [now rewrite Hlen |].
      split; [| intros Hne; contradiction].
      intros _ [| i] e Hi; cbn [nth_error] in Hi.
      * injection Hi as <-. exists a, b.
        cbn [Elst.segDuration Elst.mediaTime Elst.mediaRateInt Elst.mediaRateFrac].
        rewrite Z.mul_0_r, Z.add_0_r.
        replace (off + 10) with (off + 8 + 2) by lia. now repeat split.
      * destruct (H0 Hver i e Hi) as (sd & mt & H1 & H2 & H3 & H4 & H5 & H6).
        exists sd, mt.
        replace (off + 12 * Z.of_nat (S i)) with (off + 12 + 12 * Z.of_nat i)
          by lia.
        now repeat split.
    + apply Z.eqb_neq in Hver.
      destruct (getUint16 v off (negb le)) as [c |] eqn:Hc; cbn [bind] in H;
        [| discriminate].
      destruct (getUint16 v (off + 2) (negb le)) as [d |] eqn:Hd;
        cbn [bind] in H; [| discriminate].
      apply IH in H as (es & -> & Hlen & _ & H1).
      eexists (_ :: es). rewrite <- app_assoc. cbn [app List.length].
      split; [reflexivity |]. split; [now rewrite Hlen |].
      split; [intros He; contradiction |].
      intros _ [| i] e Hi; cbn [nth_error] in Hi.
      * injection Hi as <-.
        cbn [Elst.segDuration Elst.mediaTime Elst.mediaRateInt Elst.mediaRateFrac].
        rewrite Z.mul_0_r, Z.add_0_r. now repeat split.
      * destruct (H1 Hver i e Hi) as (H2 & H3 & H4 & H5).
        replace (off + 4 * Z.of_nat (S i)) with (off + 4 + 4 * Z.of_nat i) by lia.
        now repeat split.
Qed.

Lemma parseElst_inv (le : bool) (arrayBuffer : list byte)
  (dataOffset dataSize : Z) (el : Elst.t) :
  _parseElst le arrayBuffer dataOffset dataSize = Ok el ->
  exists v version n,
    new_DataView arrayBuffer dataOffset dataSize = Ok v /\
    getUint8 v 8 = Ok version /\
    getUint32 v 12 (negb le) = Ok n /\
    List.length (Elst.entries el) = Z.to_nat n /\
    elst_loop le v version (Z.to_nat n) 16 [] = Ok (Elst.entries el).
Proof.
  intros H. unfold _parseElst in H.
  destruct (new_DataView arrayBuffer dataOffset dataSize) as [v |] eqn:Hv;
    cbn [bind] in H; [| discriminate].
  destruct (read_version_flag le v) as [ver |] eqn:Hver; cbn [bind] in H;
    [| discriminate].
  destruct (getUint32 v 12 (negb le)) as [n |] eqn:Hn; cbn [bind] in H;
    [| discriminate].
  destruct (elst_loop le v ver (Z.to_nat n) 16 []) as [es |] eqn:Hloop;
    cbn [bind] in H; [| discriminate].
  injection H as <-. cbn [Elst.entries].
  exists v, ver, n. split; [reflexivity |].
  split; [exact (proj1 (read_version_flag_inv _ _ _ Hver)) |].
  split; [exact Hn |]. split; [| exact Hloop].
  apply elst_loop_ok in Hloop as (es' & -> & Hlen & _). exact Hlen.
Qed.

(** X8: [_parseElst] reads a version-0 edit list as 12-byte entries
    (segment duration, media time, and the two halves of the rate); for
    every other version it reads 4-byte entries that hold the rate only,
    so that no entry has a segDuration or a mediaTime. *)
Theorem parseElst_versions (le : bool) (arrayBuffer : list byte)
  (dataOffset dataSize : Z) (el : Elst.t) :
  _parseElst le arrayBuffer dataOffset dataSize = Ok el ->
  exists v version n,
    new_DataView arrayBuffer dataOffset dataSize = Ok v /\
    getUint8 v 8 = Ok version /\
    getUint32 v 12 (negb le) = Ok n /\
    List.length (Elst.entries el) = Z.to_nat n /\
    (version = 0 ->
     forall i e, nth_error (Elst.entries el) i = Some e ->
       exists segDuration mediaTime,
         Elst.segDuration e = Some segDuration /\
         Elst.mediaTime e = Some mediaTime /\
         getUint32 v (16 + 12 * Z.of_nat i) (negb le) = Ok segDuration /\
         getUint32 v (16 + 12 * Z.of_nat i + 4) (negb le) = Ok mediaTime /\
         getUint16 v (16 + 12 * Z.of_nat i + 8) (negb le) =
           Ok (Elst.mediaRateInt e) /\
         getUint16 v (16 + 12 * Z.of_nat i + 10) (negb le) =
           Ok (Elst.mediaRateFrac e)) /\
    (version <> 0 ->
     forall i e, nth_error (Elst.entries el) i = Some e ->
       Elst.segDuration e = None /\ Elst.mediaTime e = None /\
       getUint16 v (16 + 4 * Z.of_nat i) (negb le) = Ok (Elst.mediaRateInt e) /\
       getUint16 v (16 + 4 * Z.of_nat i + 2) (negb le) =
         Ok (Elst.mediaRateFrac e)).
Proof.
  intros H.
  destruct (parseElst_inv _ _ _ _ _ H) as (v & ver & n & Hv & Hver & Hn & Hlen & Hloop).
  exists v, ver, n. split; [exact Hv |]. split; [exact Hver |].
  split; [exact Hn |]. split; [exact Hlen |].
  apply elst_loop_ok in Hloop as (es' & Hes & _ & H0 & H1).
  cbn [app] in Hes. subst es'. split; assumption.
Qed.

Lemma parseElst_versions_witness :
  exists el,
    _parseElst true (elst_box 1) 0 28 = Ok el /\
    exists v version n,
      new_DataView (elst_box 1) 0 28 = Ok v /\
      getUint8 v 8 = Ok version /\
      getUint32 v 12 (negb true) = Ok n /\
      List.length (Elst.entries el) = Z.to_nat n /\
      (version = 0 ->
       forall i e, nth_error (Elst.entries el) i = Some e ->
         exists segDuration mediaTime,
           Elst.segDuration e = Some segDuration /\
           Elst.mediaTime e = Some mediaTime /\
           getUint32 v (16 + 12 * Z.of_nat i) (negb true) = Ok segDuration /\
           getUint32 v (16 + 12 * Z.of_nat i + 4) (negb true) = Ok mediaTime /\
           getUint16 v (16 + 12 * Z.of_nat i + 8) (negb true) =
             Ok (Elst.mediaRateInt e) /\
           getUint16 v (16 + 12 * Z.of_nat i + 10) (negb true) =
             Ok (Elst.mediaRateFrac e)) /\
      (version <> 0 ->
       forall i e, nth_error (Elst.entries el) i = Some e ->
         Elst.segDuration e = None /\ Elst.mediaTime e = None /\
         getUint16 v (16 + 4 * Z.of_nat i) (negb true) = Ok (Elst.mediaRateInt e) /\
         getUint16 v (16 + 4 * Z.of_nat i + 2) (negb true) =
           Ok (Elst.mediaRateFrac e)).
Proof.
  eexists. split; [vm_compute; reflexivity |].
  apply (parseElst_versions true (elst_box 1) 0 28). vm_compute. reflexivity.
Defined.

(** ** The resolver's failures *)

(** X9: [_samDetails] never takes its 'Wrong sample count' branch and
    never returns undefined: whenever it returns, it returns a table and
    has logged nothing, and the table has one record for every sample
    that the per-chunk table announces. *)
Theorem samDetails_never_warns (stsc : Stsc.t) (stsz : Stsz.t) (stco : Stco.t)
  (r : option (list SamEntry)) (logs : list string) :
  _samDetails stsc stsz stco = Ok (r, logs) ->
  logs = [] /\
  exists chks table,
    chunk_table stsc stco = Ok (map Some chks) /\
    r = Some table /\
    List.length table = list_sum (map samples_in chks).
Proof.
  intros H. apply samDetails_inv in H as (chks & Hc & -> & ->).
  split; [reflexivity |].
  exists chks, (table_of stsz stco chks 0 0).
  split; [exact Hc |]. split; [reflexivity | apply table_of_length].
Qed.

Lemma samDetails_never_warns_witness :
  exists r logs,
    _samDetails stsc_scenario4 stsz_scenario4 stco_scenario4 = Ok (r, logs) /\
    logs = [] /\
    exists chks table,
      chunk_table stsc_scenario4 stco_scenario4 = Ok (map Some chks) /\
      r = Some table /\
      List.length table = list_sum (map samples_in chks).
Proof.
  do 2 eexists. split; [vm_compute; reflexivity |].
  apply (samDetails_never_warns stsc_scenario4 stsz_scenario4 stco_scenario4).
  vm_compute. reflexivity.
Defined.

Lemma fill_range_keeps_hole (e : Stsc.entry) (cnt : nat) :
  forall j rest,
    1 <= j ->
    exists rest', fill_range e j cnt (None :: rest) = None :: rest'.
Proof.
  induction cnt as [| cnt IH]; intros j rest Hj; cbn [fill_range].
  - eexists. reflexivity.
  - unfold array_set.
    replace (j <? 0) with false by (symmetry; apply Z.ltb_ge; lia).
    destruct (Z.to_nat j) as [| k] eqn:Hk; [lia |].
    cbn [set_nth]. apply IH. lia.
Qed.

Lemma fill_loop_keeps_hole (stsc : Stsc.t) (n : nat) :
  (forall e, In e (Stsc.entries stsc) -> 2 <= Stsc.firstChk e) ->
  forall rest lastChkCount,
    fill_loop stsc n (None :: rest) lastChkCount = Throw TypeError \/
    exists rest', fill_loop stsc n (None :: rest) lastChkCount = Ok (None :: rest').
Proof.
  intros Hfirst. induction n as [| n IH]; intros rest lastChkCount;
    cbn [fill_loop].
  - right. eexists. reflexivity.
  - destruct (nth_error (Stsc.entries stsc) n) as [e |] eqn:He; [| now left].
    apply nth_error_In in He. apply Hfirst in He.
    destruct (fill_range_keeps_hole e
                (Z.to_nat (lastChkCount - Stsc.firstChk e))
                (Stsc.firstChk e - 1) rest) as [rest' ->]; [lia |].
    apply IH.
Qed.

(** X10: if every stsc entry starts at chunk 2 or later, that is, has
    firstChk >= 2 (in particular, if stsc has no entry at all), while
    stco announces at least one chunk (and fewer than 2^32), the slot of
    the first chunk is never filled and [_samDetails] throws a TypeError
    when it reaches it.  An entry with firstChk <= 1 is another matter:
    line 411 starts at index firstChk - 1, so that an entry with
    firstChk = 0 can fill the first slot as well. *)
Theorem samDetails_first_chunk_uncovered (stsc : Stsc.t) (stsz : Stsz.t)
  (stco : Stco.t) :
  (forall e, In e (Stsc.entries stsc) -> 2 <= Stsc.firstChk e) ->
  1 <= Stco.entryCount stco < 2 ^ 32 ->
  _samDetails stsc stsz stco = Throw TypeError.
Proof.
  intros Hfirst Hcount. unfold _samDetails, chunk_table, new_Array.
  replace ((0 <=? Stco.entryCount stco) && (Stco.entryCount stco <? 2 ^ 32))
    with true
    by (symmetry; apply andb_true_iff; split;
        [apply Z.leb_le | apply Z.ltb_lt]; lia).
  cbn [bind].
  destruct (Z.to_nat (Stco.entryCount stco)) as [| k] eqn:Hk; [lia |].
  cbn [repeat].
  destruct (fill_loop_keeps_hole stsc (Z.to_nat (Stsc.entryCount stsc)) Hfirst
              (repeat None k) (Stco.entryCount stco + 1)) as [-> | [rest' ->]];
    reflexivity.
Qed.

Lemma samDetails_first_chunk_uncovered_witness :
  _samDetails stsc_from_chunk_2 stsz_scenario4 stco_scenario4 = Throw TypeError.
Proof.
  apply (samDetails_first_chunk_uncovered stsc_from_chunk_2 stsz_scenario4
           stco_scenario4).
  - intros e [<- | []]. cbn. lia.
  - cbn. lia.
Defined.

(** ** The timing resolver, further *)

(** X11: [_timeDetials] by its own parameters.  For the runs that the loop
    of line 450 visits, sample j of run i keeps its chunk index, offset
    and size and gets dts = T_i + samDelta_i * j - startTime / mvhdts *
    mdhdts, pts = dts and cts = 0, where T_i accumulates samDelta * samCount
    over the earlier runs. *)
Theorem timeDetials_assigns (sam sam' : list SamEntry) (mvhdts mdhdts : jsval)
  (stts_ : Stts.t) (elst_ : option Elst.t) :
  Forall (fun e => 0 <= Stts.samCount e) (Stts.entries stts_) ->
  _timeDetials (Some sam) mvhdts mdhdts stts_ elst_ = Ok (Some sam') ->
  forall i e j,
    (i < loop_bound (Stts.entryCount stts_))%nat ->
    nth_error (Stts.entries stts_) i = Some e ->
    (j < run_length e)%nat ->
    exists e0 d,
      nth_error sam (run_first (Stts.entries stts_) i + j) = Some e0 /\
      nth_error sam' (run_first (Stts.entries stts_) i + j) =
        Some {| chkIndex := chkIndex e0; indexInChk := indexInChk e0;
                offset := offset e0; size := size e0;
                dts := Some d; cts := Some (num_of_Z 0); pts := Some d |} /\
      d = PrimFloat.sub
            (PrimFloat.add (run_start (Stts.entries stts_) i (num_of_Z 0))
               (PrimFloat.mul (num_of_Z (Stts.samDelta e)) (num_of_Z (Z.of_nat j))))
            (edit_shift elst_ mvhdts mdhdts).
Proof.
  intros Hpos H i e j Hi He Hj.
  destruct (timeDetials_formula sam sam' mvhdts mdhdts stts_ elst_ Hpos H
              i e j Hi He Hj) as (e0 & H0 & H1).
  exists e0. eexists. split; [exact H0 |]. split; [exact H1 | reflexivity].
Qed.

Lemma timeDetials_assigns_witness :
  exists sam',
    _timeDetials (Some three_records) (Int 1000) (Int 90000) stts_two_runs
      (Some elst_scenario5) = Ok (Some sam') /\
    map dts sam' = [Some (num_of_Z (-810000)); Some (num_of_Z (-807000));
                    Some (num_of_Z (-804000))] /\
    forall i e j,
      (i < loop_bound (Stts.entryCount stts_two_runs))%nat ->
      nth_error (Stts.entries stts_two_runs) i = Some e ->
      (j < run_length e)%nat ->
      exists e0 d,
        nth_error three_records (run_first (Stts.entries stts_two_runs) i + j) =
          Some e0 /\
        nth_error sam' (run_first (Stts.entries stts_two_runs) i + j) =
          Some {| chkIndex := chkIndex e0; indexInChk := indexInChk e0;
                  offset := offset e0; size := size e0;
                  dts := Some d; cts := Some (num_of_Z 0); pts := Some d |} /\
        d = PrimFloat.sub
              (PrimFloat.add
                 (run_start (Stts.entries stts_two_runs) i (num_of_Z 0))
                 (PrimFloat.mul (num_of_Z (Stts.samDelta e))
                                (num_of_Z (Z.of_nat j))))
              (edit_shift (Some elst_scenario5) (Int 1000) (Int 90000)).
Proof.
  eexists. split; [vm_compute; reflexivity |].
  split; [vm_compute; reflexivity |].
  apply (timeDetials_assigns three_records _ (Int 1000) (Int 90000)
           stts_two_runs (Some elst_scenario5)).
  - repeat constructor; cbn; lia.
  - vm_compute. reflexivity.
Defined.

Lemma same_layout_refl (e : SamEntry) : same_layout e e.
Proof. repeat split. Qed.

Lemma same_layout_all_refl (l : list SamEntry) : Forall2 same_layout l l.
Proof. induction l; constructor; [apply same_layout_refl | assumption]. Qed.

Lemma same_layout_all_trans (l1 l2 l3 : list SamEntry) :
  Forall2 same_layout l1 l2 -> Forall2 same_layout l2 l3 ->
  Forall2 same_layout l1 l3.
Proof.
  intros H. revert l3. induction H as [| a b l1 l2 (A1 & A2 & A3 & A4) _ IH];
    intros l3 H3; inversion H3 as [| b' c l2' l3' (B1 & B2 & B3 & B4) H3']; subst.
  - constructor.
  - constructor; [| now apply IH].
    repeat split; congruence.
Qed.

Lemma same_layout_list_set (l : list SamEntry) :
  forall i e0 d,
    nth_error l i = Some e0 ->
    Forall2 same_layout l (list_set l i (with_time e0 d)).
Proof.
  induction l as [| h t IH]; intros [| i] e0 d H; cbn in H; try discriminate.
  - injection H as ->. cbn [list_set]. constructor.
    + repeat split.
    + apply same_layout_all_refl.
  - cbn [list_set]. constructor; [apply same_layout_refl | now apply IH].
Qed.

Lemma same_layout_maps (l l' : list SamEntry) :
  Forall2 same_layout l l' ->
  List.length l' = List.length l /\
  map chkIndex l' = map chkIndex l /\ map indexInChk l' = map indexInChk l /\
  map offset l' = map offset l /\ map size l' = map size l.
Proof.
  induction 1 as [| a b l l' (A1 & A2 & A3 & A4) _ (I0 & I1 & I2 & I3 & I4)];
    cbn [List.length map].
  - repeat split.
  - rewrite I0, I1, I2, I3, I4, A1, A2, A3, A4. repeat split.
Qed.

Lemma time_samples_layout (e : Stts.entry) (shift : float) (n : nat) :
  forall j dtsSum si l r,
    time_samples e shift n j dtsSum si (Some l) = Ok r ->
    exists l', snd r = Some l' /\ Forall2 same_layout l l'.
Proof.
  induction n as [| n IH]; intros j dtsSum si l r H; cbn [time_samples] in H.
  - injection H as <-. exists l. split; [reflexivity | apply same_layout_all_refl].
  - unfold assign_time in H.
    destruct (nth_error l si) as [e0 |] eqn:He0; cbn [bind] in H;
      [| discriminate].
    apply IH in H as (l' & Hr & Hl).
    exists l'. split; [exact Hr |].
    eapply same_layout_all_trans; [| exact Hl].
    now apply same_layout_list_set.
Qed.

Lemma time_entries_layout (stts_ : Stts.t) (shift : float) (n : nat) :
  forall i dtsSum si l r,
    time_entries stts_ shift n i dtsSum si (Some l) = Ok r ->
    exists l', r = Some l' /\ Forall2 same_layout l l'.
Proof.
  induction n as [| n IH]; intros i dtsSum si l r H; cbn [time_entries] in H.
  - injection H as <-. exists l. split; [reflexivity | apply same_layout_all_refl].
  - destruct (nth_error (Stts.entries stts_) i) as [e |]; [| discriminate].
    destruct (time_samples e shift (Z.to_nat (Stts.samCount e)) 0 dtsSum si
                (Some l)) as [[[dt si'] sam1] |] eqn:H1; cbn [bind] in H;
      [| discriminate].
    apply time_samples_layout in H1 as (l1 & Hs & Hl1).
    cbn [fst snd] in H, Hs. subst sam1.
    apply IH in H as (l' & -> & Hl').
    exists l'. split; [reflexivity |].
    eapply same_layout_all_trans; eassumption.
Qed.

(** X12: [_timeDetials] only adds times.  When it returns, the table has
    the same length and every record has kept its chunk index, its index
    in the chunk, its offset and its size. *)
Theorem timeDetials_keeps_layout (sam : list SamEntry) (mvhdts mdhdts : jsval)
  (stts_ : Stts.t) (elst_ : option Elst.t) (r : option (list SamEntry)) :
  _timeDetials (Some sam) mvhdts mdhdts stts_ elst_ = Ok r ->
  exists sam',
    r = Some sam' /\
    List.length sam' = List.length sam /\
    map chkIndex sam' = map chkIndex sam /\
    map indexInChk sam' = map indexInChk sam /\
    map offset sam' = map offset sam /\
    map size sam' = map size sam.
Proof.
  intros H. unfold _timeDetials in H.
  assert (Hrun : exists shift,
             time_entries stts_ shift (loop_bound (Stts.entryCount stts_)) 0
               (num_of_Z 0) 0 (Some sam) = Ok r).
  { destruct elst_ as [el |].
    - destruct (nth_error (Elst.entries el) 0) as [e0 |]; cbn [bind] in H;
        [| discriminate].
      eexists. exact H.
    - cbn [bind] in H. eexists. exact H. }
  destruct Hrun as (shift & Hrun).
  apply time_entries_layout in Hrun as (sam' & -> & Hl).
  exists sam'. split; [reflexivity |]. now apply same_layout_maps.
Qed.

Lemma timeDetials_keeps_layout_witness :
  exists r,
    _timeDetials (Some three_records) (Int 1000) (Int 90000) stts_two_runs
      (Some elst_scenario5) = Ok r /\
    exists sam',
      r = Some sam' /\
      List.length sam' = List.length three_records /\
      map chkIndex sam' = map chkIndex three_records /\
      map indexInChk sam' = map indexInChk three_records /\
      map offset sam' = map offset three_records /\
      map size sam' = map size three_records.
Proof.
  eexists. split; [vm_compute; reflexivity |].
  apply (timeDetials_keeps_layout three_records (Int 1000) (Int 90000)
           stts_two_runs (Some elst_scenario5)).
  vm_compute. reflexivity.
Defined.

Lemma time_samples_fits (e : Stts.entry) (shift : float) (n : nat) :
  forall j dtsSum si l,
    (si + n <= List.length l)%nat ->
    exists dt l',
      time_samples e shift n j dtsSum si (Some l) = Ok (dt, (si + n)%nat, Some l') /\
      List.length l' = List.length l.
Proof.
  induction n as [| n IH]; intros j dtsSum si l Hfit; cbn [time_samples].
  - exists dtsSum, l. now rewrite Nat.add_0_r.
  - unfold assign_time.
    destruct (nth_error l si) as [e0 |] eqn:He0.
    2:{ apply nth_error_None in He0. lia. }
    cbn [bind].
    match goal with
    | |- context [time_samples e shift n ?j' ?ds' (S si) (Some ?l1)] =>
        destruct (IH j' ds' (S si) l1) as (dt & l' & -> & Hlen);
          [rewrite list_set_length; lia |];
          rewrite list_set_length in Hlen
    end.
    exists dt, l'. split; [do 3 f_equal; lia | exact Hlen].
Qed.

Lemma time_samples_overflow (e : Stts.entry) (shift : float) (n : nat) :
  forall j dtsSum si l,
    (si <= List.length l)%nat ->
    (List.length l < si + n)%nat ->
    time_samples e shift n j dtsSum si (Some l) = Throw TypeError.
Proof.
  induction n as [| n IH]; intros j dtsSum si l Hsi Hover; cbn [time_samples].
  - lia.
  - unfold assign_time.
    destruct (nth_error l si) as [e0 |] eqn:He0; [| reflexivity].
    assert (si < List.length l)%nat by (apply nth_error_Some; congruence).
    cbn [bind]. apply IH; rewrite list_set_length; lia.
Qed.

(** The samples of the [n] runs from index [i] on. *)
Lemma skipn_cons_length {A : Type} (l : list A) (i : nat) (e : A) (rest : list A) :
  skipn i l = e :: rest -> skipn (S i) l = rest.
Proof. intros H. exact (proj2 (skipn_head _ _ _ _ H)). Qed.

Lemma time_entries_fits (stts_ : Stts.t) (shift : float) (n : nat) :
  forall i dtsSum si l,
    (n <= List.length (skipn i (Stts.entries stts_)))%nat ->
    (si + list_sum (map run_length (firstn n (skipn i (Stts.entries stts_))))
     <= List.length l)%nat ->
    exists l', time_entries stts_ shift n i dtsSum si (Some l) = Ok (Some l').
Proof.
  induction n as [| n IH]; intros i dtsSum si l Hn Hfit; cbn [time_entries].
  - eexists. reflexivity.
  - destruct (skipn i (Stts.entries stts_)) as [| e rest] eqn:Hskip;
      [cbn in Hn; lia |].
    destruct (skipn_head _ _ _ _ Hskip) as [He Hrest]. rewrite He.
    cbn [firstn map] in Hfit. rewrite list_sum_cons in Hfit.
    destruct (time_samples_fits e shift (Z.to_nat (Stts.samCount e)) 0 dtsSum
                si l) as (dt & l1 & -> & Hlen);
      [unfold run_length in Hfit; lia |].
    cbn [bind fst snd].
    apply IH.
    + rewrite Hrest. cbn in Hn. lia.
    + rewrite Hrest, Hlen. unfold run_length in Hfit |- *. lia.
Qed.

Lemma time_entries_fails (stts_ : Stts.t) (shift : float) (n : nat) :
  forall i dtsSum si l,
    (si <= List.length l)%nat ->
    (List.length (skipn i (Stts.entries stts_)) < n)%nat \/
    (List.length l <
     si + list_sum (map run_length (firstn n (skipn i (Stts.entries stts_)))))%nat ->
    time_entries stts_ shift n i dtsSum si (Some l) = Throw TypeError.
Proof.
  induction n as [| n IH]; intros i dtsSum si l Hsi Hbad; cbn [time_entries].
  - cbn in Hbad. lia.
  - destruct (skipn i (Stts.entries stts_)) as [| e rest] eqn:Hskip.
    + now rewrite (skipn_nil_nth _ _ Hskip).
    + destruct (skipn_head _ _ _ _ Hskip) as [He Hrest]. rewrite He.
      cbn [firstn map List.length] in Hbad. rewrite list_sum_cons in Hbad.
      destruct (Nat.le_gt_cases (si + Z.to_nat (Stts.samCount e))
                  (List.length l)) as [Hfit | Hover].
      * destruct (time_samples_fits e shift (Z.to_nat (Stts.samCount e)) 0
                    dtsSum si l Hfit) as (dt & l1 & -> & Hlen).
        cbn [bind fst snd]. apply IH; [lia |].
        rewrite Hrest, Hlen. unfold run_length in Hbad |- *. lia.
      * now rewrite (time_samples_overflow e shift _ 0 dtsSum si l Hsi Hover).
Qed.

(** X13: [_timeDetials] on a table succeeds exactly when the edit list,
    if there is one, has a first entry, stts has the entries that its
    entryCount announces, and the table has a record for every sample of
    those runs; in every other case it throws a TypeError. *)
Theorem timeDetials_succeeds_iff (sam : list SamEntry) (mvhdts mdhdts : jsval)
  (stts_ : Stts.t) (elst_ : option Elst.t) :
  let visited := loop_bound (Stts.entryCount stts_) in
  let fits :=
    (forall el, elst_ = Some el -> Elst.entries el <> []) /\
    (visited <= List.length (Stts.entries stts_))%nat /\
    (run_first (Stts.entries stts_) visited <= List.length sam)%nat in
  (fits ->
   exists sam', _timeDetials (Some sam) mvhdts mdhdts stts_ elst_ = Ok (Some sam')) /\
  (~ fits ->
   _timeDetials (Some sam) mvhdts mdhdts stts_ elst_ = Throw TypeError).
Proof.
  cbv zeta. unfold _timeDetials, run_first. split.
  - intros (Hel & Hn & Hfit).
    destruct elst_ as [el |].
    + destruct (Elst.entries el) as [| e0 es] eqn:Hes;
        [exfalso; now apply (Hel el) |].
      cbn [nth_error bind]. apply time_entries_fits; cbn [skipn]; assumption.
    + cbn [bind]. apply time_entries_fits; cbn [skipn]; assumption.
  - intros Hnot.
    destruct elst_ as [el |].
    + destruct (Elst.entries el) as [| e0 es] eqn:Hes; [reflexivity |].
      cbn [nth_error bind]. apply time_entries_fails; [lia |]. cbn [skipn].
      destruct (Nat.le_gt_cases (loop_bound (Stts.entryCount stts_))
                  (List.length (Stts.entries stts_))) as [Hn | Hn]; [| now left].
      right. apply Nat.nle_gt. intros Hfit. apply Hnot.
      split; [| split; [exact Hn | lia]].
      intros el' [= <-]. rewrite Hes. discriminate.
    + cbn [bind]. apply time_entries_fails; [lia |]. cbn [skipn].
      destruct (Nat.le_gt_cases (loop_bound (Stts.entryCount stts_))
                  (List.length (Stts.entries stts_))) as [Hn | Hn]; [| now left].
      right. apply Nat.nle_gt. intros Hfit. apply Hnot.
      split; [| split; [exact Hn | lia]].
      intros el' Hx. discriminate Hx.
Qed.

Lemma timeDetials_succeeds_iff_witness :
  (exists sam',
     _timeDetials (Some three_records) (Int 1000) (Int 90000) stts_two_runs None
     = Ok (Some sam')) /\
  _timeDetials (Some (firstn 2 three_records)) (Int 1000) (Int 90000)
    stts_two_runs None = Throw TypeError.
Proof.
  split.
  - apply (proj1 (timeDetials_succeeds_iff three_records (Int 1000) (Int 90000)
                    stts_two_runs None)).
    split; [intros el H; discriminate H |]. split; vm_compute; lia.
  - apply (proj2 (timeDetials_succeeds_iff (firstn 2 three_records) (Int 1000)
                    (Int 90000) stts_two_runs None)).
    intros (_ & _ & H). vm_compute in H. lia.
Defined.

(** *** NaN timestamps *)

Lemma mul_nan_r (x : float) : PrimFloat.mul x PrimFloat.nan = PrimFloat.nan.
Proof.
  apply Prim2SF_inj. rewrite FloatAxioms.mul_spec.
  change (Prim2SF PrimFloat.nan) with S754_nan.
  destruct (Prim2SF x); reflexivity.
Qed.

Lemma div_nan_l (x : float) : PrimFloat.div PrimFloat.nan x = PrimFloat.nan.
Proof.
  apply Prim2SF_inj. rewrite FloatAxioms.div_spec.
  change (Prim2SF PrimFloat.nan) with S754_nan.
  reflexivity.
Qed.

Lemma div_nan_r (x : float) : PrimFloat.div x PrimFloat.nan = PrimFloat.nan.
Proof.
  apply Prim2SF_inj. rewrite FloatAxioms.div_spec.
  change (Prim2SF PrimFloat.nan) with S754_nan.
  destruct (Prim2SF x); reflexivity.
Qed.

Lemma sub_nan_r (x : float) : PrimFloat.sub x PrimFloat.nan = PrimFloat.nan.
Proof.
  apply Prim2SF_inj. rewrite FloatAxioms.sub_spec.
  change (Prim2SF PrimFloat.nan) with S754_nan.
  destruct (Prim2SF x); reflexivity.
Qed.

Lemma edit_shift_nan (elst_ : option Elst.t) (mvhdts mdhdts : jsval) :
  mvhdts = Undefined \/ mdhdts = Undefined \/
  (exists el e0, elst_ = Some el /\ nth_error (Elst.entries el) 0 = Some e0 /\
                 Elst.mediaTime e0 = None) ->
  edit_shift elst_ mvhdts mdhdts = PrimFloat.nan.
Proof.
  unfold edit_shift. intros [-> | [-> | (el & e0 & -> & He0 & Hm)]].
  - cbn [to_number]. now rewrite div_nan_r, mul_nan_l.
  - cbn [to_number]. apply mul_nan_r.
  - rewrite He0, Hm. cbn [prop to_number]. now rewrite div_nan_l, mul_nan_l.
Qed.

(** X14: if the value passed for either timescale is undefined, or the
    first edit-list entry has no mediaTime (which is how [_parseElst]
    leaves the entries of an edit list whose version is not 0), then
    every dts and pts that [_timeDetials] assigns is NaN. *)
Theorem timeDetials_NaN (sam sam' : list SamEntry) (mvhdts mdhdts : jsval)
  (stts_ : Stts.t) (elst_ : option Elst.t) :
  mvhdts = Undefined \/ mdhdts = Undefined \/
  (exists el e0, elst_ = Some el /\ nth_error (Elst.entries el) 0 = Some e0 /\
                 Elst.mediaTime e0 = None) ->
  Forall (fun e => 0 <= Stts.samCount e) (Stts.entries stts_) ->
  _timeDetials (Some sam) mvhdts mdhdts stts_ elst_ = Ok (Some sam') ->
  forall i e j,
    (i < loop_bound (Stts.entryCount stts_))%nat ->
    nth_error (Stts.entries stts_) i = Some e ->
    (j < run_length e)%nat ->
    exists e',
      nth_error sam' (run_first (Stts.entries stts_) i + j) = Some e' /\
      dts e' = Some PrimFloat.nan /\ pts e' = Some PrimFloat.nan.
Proof.
  intros Hnan Hpos H i e j Hi He Hj.
  destruct (timeDetials_formula sam sam' mvhdts mdhdts stts_ elst_ Hpos H
              i e j Hi He Hj) as (e0 & _ & H1).
  eexists. split; [exact H1 |].
  unfold expected_dts. rewrite (edit_shift_nan _ _ _ Hnan), sub_nan_r.
  split; reflexivity.
Qed.

Lemma timeDetials_NaN_witness :
  exists sam',
    _parseElst true (elst_box 1) 0 28 = Ok elst_rate_only /\
    _timeDetials (Some three_records) (Int 1000) (Int 90000) stts_two_runs
      (Some elst_rate_only) = Ok (Some sam') /\
    map dts sam' = [Some PrimFloat.nan; Some PrimFloat.nan; Some PrimFloat.nan] /\
    forall i e j,
      (i < loop_bound (Stts.entryCount stts_two_runs))%nat ->
      nth_error (Stts.entries stts_two_runs) i = Some e ->
      (j < run_length e)%nat ->
      exists e',
        nth_error sam' (run_first (Stts.entries stts_two_runs) i + j) = Some e' /\
        dts e' = Some PrimFloat.nan /\ pts e' = Some PrimFloat.nan.
Proof.
  eexists. split; [vm_compute; reflexivity |].
  split; [vm_compute; reflexivity |].
  split; [vm_compute; reflexivity |].
  apply (timeDetials_NaN three_records _ (Int 1000) (Int 90000) stts_two_runs
           (Some elst_rate_only)).
  - right. right. do 2 eexists. split; [reflexivity |].
    split; [reflexivity | reflexivity].
  - repeat constructor; cbn; lia.
  - vm_compute. reflexivity.
Defined.

(** ** What the box parsers leave alone *)

Section Keeps.

Variable R : Demuxer -> Demuxer -> Prop.
Hypothesis R_refl : forall d, R d d.
Hypothesis R_trans : forall a b c, R a b -> R b c -> R a c.

Lemma keeps_ret {A : Type} (a : A) : keeps R (ret a).
Proof. intros d. apply R_refl. Qed.

Lemma keeps_lift {A : Type} (r : result A) : keeps R (lift r).
Proof. intros d. apply R_refl. Qed.

Lemma keeps_get : keeps R get.
Proof. intros d. apply R_refl. Qed.

(** The first step is taken at [d]; what follows keeps [R] wherever it
    starts. *)
Lemma keeps_bind_at {A B : Type} (m : M A) (k : A -> M B) (d : Demuxer) :
  R d (snd (m d)) -> (forall a, keeps R (k a)) -> R d (snd (mbind m k d)).
Proof.
  intros Hm Hk. unfold mbind.
  destruct (m d) as [[a | e] d1]; cbn [snd] in *.
  - exact (R_trans _ _ _ Hm (Hk a d1)).
  - exact Hm.
Qed.

Lemma keeps_bind {A B : Type} (m : M A) (k : A -> M B) :
  keeps R m -> (forall a, keeps R (k a)) -> keeps R (mbind m k).
Proof. intros Hm Hk d. apply keeps_bind_at; [apply Hm | exact Hk]. Qed.

Lemma keeps_get_bind {B : Type} (k : Demuxer -> M B) :
  (forall d, R d (snd (k d d))) -> keeps R (mbind get k).
Proof. intros H d. exact (H d). Qed.

Lemma keeps_modify (f : Demuxer -> Demuxer) :
  (forall d, R d (f d)) -> keeps R (modify f).
Proof. intros H d. exact (H d). Qed.

Lemma keeps_emit (e : Event) :
  (forall d, R d (set_trace (trace d ++ [e]) d)) -> keeps R (emit e).
Proof. intros H d. exact (H d). Qed.

Lemma keeps_meta_update (f : Meta.t -> Meta.t) :
  (forall d x, R d (set_videoMetadata x d)) -> keeps R (meta_update f).
Proof.
  intros H d. unfold meta_update.
  destruct (_videoMetadata d); cbn [snd]; [apply H | apply R_refl].
Qed.

Lemma keeps_mi_update (f : MediaInfo.t -> MediaInfo.t) :
  (forall d x, R d (set_mediaInfo x d)) -> keeps R (mi_update f).
Proof. intros H d. exact (H d (f (_mediaInfo d))). Qed.

End Keeps.

Lemma parser_frame_refl (d : Demuxer) : parser_frame d d.
Proof.
  unfold parser_frame. repeat (split; [first [reflexivity | tauto] |]).
  exists []. now rewrite app_nil_r.
Qed.

Lemma parser_frame_trans (a b c : Demuxer) :
  parser_frame a b -> parser_frame b c -> parser_frame a c.
Proof.
  unfold parser_frame.
  intros (A1 & A2 & A3 & A4 & A5 & A6 & A7 & A8 & A9 & A10 & A11 & A12 & A13
          & n1 & At & An)
         (B1 & B2 & B3 & B4 & B5 & B6 & B7 & B8 & B9 & B10 & B11 & B12 & B13
          & n2 & Bt & Bn).
  repeat (split; [first [congruence | tauto] |]).
  exists (n1 ++ n2). split; [now rewrite Bt, At, app_assoc |].
  intros He. rewrite forallb_app, (An He). cbn [andb]. apply Bn.
  unfold tracks_empty in *. now rewrite A1, A2.
Qed.

(** A state change that touches none of the framed fields. *)
Lemma parser_frame_same (d d' : Demuxer) :
  _videoTrack d' = _videoTrack d ->
  _audioTrack d' = _audioTrack d ->
  _hasAudio d' = _hasAudio d ->
  _audioInitialMetadataDispatched d' = _audioInitialMetadataDispatched d ->
  _hasVideoFlagOverrided d' = _hasVideoFlagOverrided d ->
  _referenceFrameRate d' = _referenceFrameRate d ->
  elst d' = elst d -> stsc d' = stsc d -> stsz d' = stsz d ->
  stco d' = stco d -> stts d' = stts d ->
  (_hasVideo d = true -> _hasVideo d' = true) ->
  (_videoInitialMetadataDispatched d = true ->
   _videoInitialMetadataDispatched d' = true) ->
  (exists new, trace d' = trace d ++ new /\
               forallb (fun e => negb (is_data e)) new = true) ->
  parser_frame d d'.
Proof.
  intros H1 H2 H3 H4 H5 H6 H7 H8 H9 H10 H11 H12 H13 (new & Ht & Hn).
  unfold parser_frame. repeat (split; [assumption |]).
  exists new. split; [exact Ht | intros _; exact Hn].
Qed.

Ltac frame_same :=
  apply parser_frame_same;
  [reflexivity .. | tauto | tauto
  | first [ exists []; cbn [trace set_trace set_videoMetadata set_mediaInfo
                            set_hasVideo set_dispatch set_naluLengthSize
                            set_videoInitialMetadataDispatched];
            split; [symmetry; apply app_nil_r | reflexivity]
          | eexists; split; [reflexivity | reflexivity] ] ].

Lemma frame_set_videoMetadata (d : Demuxer) (x : option Meta.t) :
  parser_frame d (set_videoMetadata x d).
Proof. frame_same. Qed.

Lemma frame_set_mediaInfo (d : Demuxer) (x : MediaInfo.t) :
  parser_frame d (set_mediaInfo x d).
Proof. frame_same. Qed.

Lemma frame_set_naluLengthSize (d : Demuxer) (x : Z) :
  parser_frame d (set_naluLengthSize x d).
Proof. frame_same. Qed.

Lemma frame_set_dispatch (d : Demuxer) (x : bool) :
  parser_frame d (set_dispatch x d).
Proof. frame_same. Qed.

Lemma frame_set_videoInitialMetadataDispatched (d : Demuxer) :
  parser_frame d (set_videoInitialMetadataDispatched true d).
Proof. frame_same. Qed.

Lemma frame_set_hasVideo (d : Demuxer) (x : MediaInfo.t) :
  parser_frame d (set_mediaInfo x (set_hasVideo true d)).
Proof. frame_same. Qed.

Lemma frame_emit (d : Demuxer) (e : Event) :
  is_data e = false -> parser_frame d (set_trace (trace d ++ [e]) d).
Proof.
  intros He. apply parser_frame_same; try reflexivity; try tauto.
  exists [e]. split; [reflexivity |]. cbn. now rewrite He.
Qed.

(** The flush of line 767 happens only when a track is not empty. *)
Lemma frame_emit_data (d : Demuxer) (e : Event) :
  tracks_empty d = false -> parser_frame d (set_trace (trace d ++ [e]) d).
Proof.
  intros He. unfold parser_frame.
  cbn [_videoTrack _audioTrack _hasAudio _audioInitialMetadataDispatched
       _hasVideoFlagOverrided _referenceFrameRate elst stsc stsz stco stts
       _hasVideo _videoInitialMetadataDispatched trace set_trace].
  repeat (split; [first [reflexivity | tauto] |]).
  exists [e]. split; [reflexivity |]. intros H. congruence.
Qed.

Lemma tracks_empty_false (d : Demuxer) (b : bool) :
  b && (is_truthy (Track.length (_audioTrack d)) ||
        is_truthy (Track.length (_videoTrack d))) = true ->
  tracks_empty d = false.
Proof.
  unfold tracks_empty. intros H. apply andb_true_iff in H as [_ ->].
  reflexivity.
Qed.

(** Whatever relation the elementary state changes respect, the box
    parsers respect. *)
Section ParsersKeep.

Variable R : Demuxer -> Demuxer -> Prop.
Hypothesis R_refl : forall d, R d d.
Hypothesis R_trans : forall a b c, R a b -> R b c -> R a c.
Hypothesis R_meta : forall d x, R d (set_videoMetadata x d).
Hypothesis R_mi : forall d x, R d (set_mediaInfo x d).
Hypothesis R_hasVideo : forall d x, R d (set_mediaInfo x (set_hasVideo true d)).
Hypothesis R_dispatch : forall d x, R d (set_dispatch x d).
Hypothesis R_initial : forall d, R d (set_videoInitialMetadataDispatched true d).
Hypothesis R_nalu :
  forall d b, R d (set_naluLengthSize (Z.land (Z.land b 3) 3 + 1) d).
Hypothesis R_log :
  forall d e, is_data e = false -> R d (set_trace (trace d ++ [e]) d).
Hypothesis R_flush :
  forall d e, tracks_empty d = false -> R d (set_trace (trace d ++ [e]) d).

Ltac keeps_step :=
  first
    [ apply (keeps_ret R R_refl)
    | apply (keeps_get R R_refl)
    | apply (keeps_lift R R_refl)
    | apply (keeps_meta_update R R_refl); intros; apply R_meta
    | apply (keeps_mi_update R); intros; apply R_mi
    | apply (keeps_emit R); intros; apply R_log; reflexivity
    | apply (keeps_modify R); intros;
      first [ apply R_meta | apply R_nalu | apply R_dispatch
            | apply R_initial | apply R_hasVideo ]
    | apply (keeps_bind R R_trans); [| intros ?]
    | match goal with
      | |- keeps _ (if ?c then _ else _) => destruct c
      | |- keeps _ (match ?x with _ => _ end) => destruct x
      end ].

Lemma keeps_first_sps (isComplete : MediaInfo.t -> bool) (sps : list byte)
  (config : SPS.config) : keeps R (first_sps isComplete sps config).
Proof. unfold first_sps. repeat keeps_step. Qed.

Lemma keeps_sps_loop (le : bool) (parseSPS : list byte -> SPS.config)
  (isComplete : MediaInfo.t -> bool) (arrayBuffer : list byte) (v : DataView)
  (dataOffset : Z) (n : nat) :
  forall i offset,
    keeps R (sps_loop le parseSPS isComplete arrayBuffer v dataOffset n i offset).
Proof.
  induction n as [| n IH]; intros i offset; cbn [sps_loop].
  - keeps_step.
  - keeps_step; [keeps_step |].
    destruct (a =? 0); [apply IH |].
    keeps_step; [keeps_step |].
    destruct (negb (i =? 0)); [apply IH |].
    keeps_step; [apply keeps_first_sps | apply IH].
Qed.

Lemma keeps_pps_loop (le : bool) (v : DataView) (n : nat) :
  forall offset, keeps R (pps_loop le v n offset).
Proof.
  induction n as [| n IH]; intros offset; cbn [pps_loop].
  - keeps_step.
  - keeps_step; [keeps_step |]. destruct (a =? 0); apply IH.
Qed.

Lemma keeps_parameter_sets (le : bool) (parseSPS : list byte -> SPS.config)
  (isComplete : MediaInfo.t -> bool) (arrayBuffer : list byte) (v : DataView)
  (dataOffset : Z) (stsdDetail : StsdDetail) :
  keeps R
    (parameter_sets le parseSPS isComplete arrayBuffer v dataOffset stsdDetail).
Proof.
  unfold parameter_sets.
  keeps_step; [keeps_step |]. cbv zeta.
  destruct (_ =? 0).
  { repeat keeps_step. }
  keeps_step; [repeat keeps_step |].
  keeps_step; [apply keeps_sps_loop |].
  keeps_step; [keeps_step |].
  destruct (_ =? 0).
  { repeat keeps_step. }
  keeps_step; [repeat keeps_step |].
  keeps_step; [apply keeps_pps_loop |].
  apply keeps_get_bind. intros d.
  apply (keeps_bind_at R R_trans).
  - destruct (_isInitialMetadataDispatched d).
    + destruct (_dispatch d && _) eqn:Hc.
      * apply R_flush. exact (tracks_empty_false _ _ Hc).
      * apply R_refl.
    + apply R_initial.
  - intros _. repeat keeps_step.
Qed.

Lemma keeps_avcC_record (le : bool) (parseSPS : list byte -> SPS.config)
  (isComplete : MediaInfo.t -> bool) (arrayBuffer : list byte) (v : DataView)
  (dataOffset : Z) (stsdDetail : StsdDetail) :
  keeps R
    (avcC_record le parseSPS isComplete arrayBuffer v dataOffset stsdDetail).
Proof.
  unfold avcC_record.
  do 4 (keeps_step; [keeps_step |]).
  destruct (_ || _).
  { repeat keeps_step. }
  keeps_step; [keeps_step |].
  keeps_step; [keeps_step |].
  keeps_step; [keeps_step |].
  destruct (_ && _).
  - repeat keeps_step.
  - apply keeps_parameter_sets.
Qed.

Lemma keeps_parseStsd (le : bool) (parseSPS : list byte -> SPS.config)
  (isComplete : MediaInfo.t -> bool) (arrayBuffer : list byte)
  (dataOffset dataSize : Z) :
  keeps R (_parseStsd le parseSPS isComplete arrayBuffer dataOffset dataSize).
Proof.
  unfold _parseStsd.
  do 5 (keeps_step; [keeps_step |]).
  destruct (negb _).
  { repeat keeps_step. }
  do 10 (keeps_step; [keeps_step |]).
  keeps_step; [keeps_step |].
  keeps_step; [keeps_step |].
  apply keeps_avcC_record.
Qed.

Lemma keeps_parseMvhd (le : bool) (arrayBuffer : list byte)
  (dataOffset dataSize : Z) :
  keeps R (_parseMvhd le arrayBuffer dataOffset dataSize).
Proof.
  unfold _parseMvhd.
  keeps_step; [keeps_step |].
  apply keeps_get_bind. intros d.
  destruct (_videoMetadata d) as [meta |].
  - destruct (Meta.avcc meta).
    + apply R_log. reflexivity.
    + apply R_refl.
  - apply (keeps_bind_at R R_trans).
    + destruct (_ && _); [apply R_hasVideo | apply R_refl].
    + intros _. repeat keeps_step.
Qed.

Lemma keeps_parseMdhd (le : bool) (arrayBuffer : list byte)
  (dataOffset dataSize : Z) :
  keeps R (_parseMdhd le arrayBuffer dataOffset dataSize).
Proof. unfold _parseMdhd. repeat keeps_step. Qed.

Lemma keeps_parseTkhd (le : bool) (arrayBuffer : list byte)
  (dataOffset dataSize : Z) :
  keeps R (_parseTkhd le arrayBuffer dataOffset dataSize).
Proof.
  unfold _parseTkhd. apply keeps_get_bind. intros d.
  apply (keeps_bind_at R R_trans); [apply R_refl | intros v].
  repeat keeps_step.
Qed.

End ParsersKeep.

(** X15: the box parsers [_parseMvhd], [_parseMdhd], [_parseTkhd] and
    [_parseStsd], whether they return or throw, leave the two tracks, the
    audio flags, the video override flag, the reference frame rate and
    the five parsed tables as they were; they never clear the video
    flags; they only append to what has been logged and called back; and
    with both tracks empty they never call onDataAvailable. *)
Theorem parsers_keep_frame (le : bool) (parseSPS : list byte -> SPS.config)
  (isComplete : MediaInfo.t -> bool) (arrayBuffer : list byte)
  (dataOffset dataSize : Z) (d : Demuxer) :
  parser_frame d (snd (_parseMvhd le arrayBuffer dataOffset dataSize d)) /\
  parser_frame d (snd (_parseMdhd le arrayBuffer dataOffset dataSize d)) /\
  parser_frame d (snd (_parseTkhd le arrayBuffer dataOffset dataSize d)) /\
  parser_frame d
    (snd (_parseStsd le parseSPS isComplete arrayBuffer dataOffset dataSize d)).
Proof.
  pose proof parser_frame_refl as Hr. pose proof parser_frame_trans as Ht.
  pose proof frame_set_videoMetadata as H1. pose proof frame_set_mediaInfo as H2.
  pose proof frame_set_hasVideo as H3. pose proof frame_set_dispatch as H4.
  pose proof frame_set_videoInitialMetadataDispatched as H5.
  pose proof (fun d b => frame_set_naluLengthSize d (Z.land (Z.land b 3) 3 + 1))
    as H6.
  pose proof frame_emit as H7. pose proof frame_emit_data as H8.
  split; [apply keeps_parseMvhd; assumption |].
  split; [apply keeps_parseMdhd; assumption |].
  split; [apply keeps_parseTkhd; assumption |].
  apply keeps_parseStsd; assumption.
Qed.

(** ** mvhd, mdhd and tkhd *)

(** The metadata object as line 497 creates it and line 501 names it. *)
Lemma parseMvhd_creates (le : bool) (arrayBuffer : list byte)
  (dataOffset dataSize : Z) (d : Demuxer) (v : DataView) :
  _videoMetadata d = None ->
  new_DataView arrayBuffer dataOffset dataSize = Ok v ->
  let d0 :=
    if negb (_hasVideo d) && negb (_hasVideoFlagOverrided d)
    then set_mediaInfo (mi_set_hasVideo true (_mediaInfo d)) (set_hasVideo true d)
    else d in
  let m0 :=
    {| Meta.id := Some (Track.id (_videoTrack d));
       Meta.timescale := None; Meta.duration := None;
       Meta.timescale_mdhd := None; Meta.duration_mdhd := None;
       Meta.timescale_mvhd := None; Meta.avcc := None;
       Meta.of_config := None; Meta.frameRate := None;
       Meta.refSampleDuration := None; Meta.codec := None |} in
  _parseMvhd le arrayBuffer dataOffset dataSize d =
  match getUint32 v 20 (negb le) with
  | Throw e => (Throw e, set_videoMetadata (Some m0) d0)
  | Ok timescale =>
      match getUint32 v 24 (negb le) with
      | Throw e =>
          (Throw e,
           set_videoMetadata (Some (meta_set_timescale timescale m0)) d0)
      | Ok duration =>
          (Ok tt,
           set_videoMetadata
             (Some (meta_set_duration duration (meta_set_timescale timescale m0)))
             d0)
      end
  end.
Proof.
  intros Hm Hv. cbv zeta. unfold _parseMvhd.
  rewrite Hv, mbind_lift_ok, mbind_get, Hm.
  destruct (negb (_hasVideo d) && negb (_hasVideoFlagOverrided d));
    destruct (getUint32 v 20 (negb le)) as [timescale |];
    try destruct (getUint32 v 24 (negb le)) as [duration |];
    reflexivity.
Qed.

(** With a metadata object in place, an mvhd box changes nothing but the
    log. *)
Lemma parseMvhd_again (le : bool) (arrayBuffer : list byte)
  (dataOffset dataSize : Z) (d : Demuxer) (meta : Meta.t) :
  _videoMetadata d = Some meta ->
  _parseMvhd le arrayBuffer dataOffset dataSize d =
  match new_DataView arrayBuffer dataOffset dataSize with
  | Throw e => (Throw e, d)
  | Ok _ =>
      match Meta.avcc meta with
      | Some _ =>
          (Ok tt,
           set_trace
             (trace d ++ [Log_w "Found another AVCDecoderConfigurationRecord!"])
             d)
      | None => (Ok tt, d)
      end
  end.
Proof.
  intros Hm. unfold _parseMvhd.
  destruct (new_DataView arrayBuffer dataOffset dataSize) as [v |];
    [| reflexivity].
  rewrite mbind_lift_ok, mbind_get, Hm.
  destruct (Meta.avcc meta); reflexivity.
Qed.

(** X16: the first mvhd box wins.  When [_parseMvhd] returns, there is a
    metadata object; if the call created it, its id is the id of the
    video track and its timescale and duration are the 32-bit fields at
    offsets 20 and 24 of the box; and no later [_parseMvhd], on whatever
    box, changes the metadata, the video flag or the media info. *)
Theorem parseMvhd_first_wins (le : bool) (b1 : list byte) (o1 s1 : Z)
  (d d1 : Demuxer) :
  _parseMvhd le b1 o1 s1 d = (Ok tt, d1) ->
  exists meta,
    _videoMetadata d1 = Some meta /\
    (_videoMetadata d = None ->
     exists v timescale duration,
       new_DataView b1 o1 s1 = Ok v /\
       getUint32 v 20 (negb le) = Ok timescale /\
       getUint32 v 24 (negb le) = Ok duration /\
       Meta.id meta = Some (Track.id (_videoTrack d)) /\
       Meta.timescale meta = Some timescale /\
       Meta.duration meta = Some duration) /\
    forall b2 o2 s2,
      let out := _parseMvhd le b2 o2 s2 d1 in
      _videoMetadata (snd out) = Some meta /\
      _hasVideo (snd out) = _hasVideo d1 /\
      _mediaInfo (snd out) = _mediaInfo d1.
Proof.
  intros H.
  assert (Hlater : forall meta, _videoMetadata d1 = Some meta ->
            forall b2 o2 s2,
              let out := _parseMvhd le b2 o2 s2 d1 in
              _videoMetadata (snd out) = Some meta /\
              _hasVideo (snd out) = _hasVideo d1 /\
              _mediaInfo (snd out) = _mediaInfo d1).
  { intros meta Hm b2 o2 s2. cbv zeta. rewrite (parseMvhd_again _ _ _ _ _ _ Hm).
    destruct (new_DataView b2 o2 s2); [destruct (Meta.avcc meta) |];
      cbn [snd]; repeat split; exact Hm. }
  destruct (_videoMetadata d) as [meta |] eqn:Hm.
  - rewrite (parseMvhd_again _ _ _ _ _ _ Hm) in H.
    assert (Hm1 : _videoMetadata d1 = Some meta).
    { destruct (new_DataView b1 o1 s1); [| discriminate H].
      destruct (Meta.avcc meta); apply (f_equal snd) in H; cbn [snd] in H;
        rewrite <- H; exact Hm. }
    exists meta. split; [exact Hm1 |]. split; [discriminate |].
    exact (Hlater meta Hm1).
  - destruct (new_DataView b1 o1 s1) as [v |] eqn:Hv.
    2:{ unfold _parseMvhd in H. rewrite Hv, mbind_lift_throw in H.
        discriminate H. }
    rewrite (parseMvhd_creates _ _ _ _ _ _ Hm Hv) in H. cbv zeta in H.
    destruct (getUint32 v 20 (negb le)) as [timescale |] eqn:Ht;
      [| discriminate H].
    destruct (getUint32 v 24 (negb le)) as [duration |] eqn:Hd;
      [| discriminate H].
    apply (f_equal snd) in H. cbn [snd] in H.
    eexists. split; [rewrite <- H; reflexivity |]. split.
    + intros _. exists v, timescale, duration. repeat split; assumption.
    + apply Hlater. rewrite <- H. reflexivity.
Qed.

Lemma parseMvhd_first_wins_witness :
  exists d1 meta,
    _parseMvhd true mvhd_box 0 28 fresh_demuxer = (Ok tt, d1) /\
    _videoMetadata d1 = Some meta /\
    (_videoMetadata fresh_demuxer = None ->
     exists v timescale duration,
       new_DataView mvhd_box 0 28 = Ok v /\
       getUint32 v 20 (negb true) = Ok timescale /\
       getUint32 v 24 (negb true) = Ok duration /\
       Meta.id meta = Some (Track.id (_videoTrack fresh_demuxer)) /\
       Meta.timescale meta = Some timescale /\
       Meta.duration meta = Some duration) /\
    forall b2 o2 s2,
      let out := _parseMvhd true b2 o2 s2 d1 in
      _videoMetadata (snd out) = Some meta /\
      _hasVideo (snd out) = _hasVideo d1 /\
      _mediaInfo (snd out) = _mediaInfo d1.
Proof.
  eexists.
  assert (H : _parseMvhd true mvhd_box 0 28 fresh_demuxer =
              (Ok tt, snd (_parseMvhd true mvhd_box 0 28 fresh_demuxer)))
    by (vm_compute; reflexivity).
  destruct (parseMvhd_first_wins true mvhd_box 0 28 fresh_demuxer _ H)
    as (meta & H1 & H2 & H3).
  exists meta. split; [exact H |]. split; [exact H1 |].
  split; [exact H2 | exact H3].
Defined.

Lemma new_DataView_same_length (b b' : list byte) (off len : Z) (v : DataView) :
  List.length b = List.length b' ->
  new_DataView b off len = Ok v ->
  new_DataView b' off len =
  Ok {| dv_buffer := b'; dv_byteOffset := off; dv_byteLength := len |}.
Proof.
  unfold new_DataView. intros <-. destruct (_ && _ && _); [| discriminate].
  reflexivity.
Qed.

Lemma new_DataView_throw_same_length (b b' : list byte) (off len : Z) (e : exn) :
  List.length b = List.length b' ->
  new_DataView b off len = Throw e -> new_DataView b' off len = Throw e.
Proof.
  unfold new_DataView. intros <-. destruct (_ && _ && _); [discriminate |].
  trivial.
Qed.

Lemma getUint32_agree (b b' : list byte) (off len : Z) (v v' : DataView)
  (o : Z) (f : bool) :
  new_DataView b off len = Ok v ->
  new_DataView b' off len = Ok v' ->
  (forall i, o <= i < o + 4 -> u8_at b (off + i) = u8_at b' (off + i)) ->
  getUint32 v o f = getUint32 v' o f.
Proof.
  intros Hv Hv' Hsame.
  pose proof (new_DataView_length _ _ _ _ Hv) as Hl.
  pose proof (new_DataView_length _ _ _ _ Hv') as Hl'.
  unfold getUint32, dv_in_range. rewrite Hl, Hl'.
  destruct ((0 <=? o) && (o + 4 <=? len)) eqn:E; [| reflexivity].
  apply andb_true_iff in E as [E1 E2]. apply Z.leb_le in E1, E2.
  assert (Hb : forall i, o <= i < o + 4 -> dv_byte v i = dv_byte v' i).
  { intros i Hi. specialize (Hsame i Hi).
    rewrite (u8_at_dv_byte _ _ _ _ i Hv), (u8_at_dv_byte _ _ _ _ i Hv') in Hsame
      by lia.
    now injection Hsame. }
  rewrite (Hb o), (Hb (o + 1)), (Hb (o + 2)), (Hb (o + 3)) by lia.
  reflexivity.
Qed.

(** X17: [_parseMvhd] never looks at the version of the box.  What it
    returns and does depends on the buffer only through its length and
    the eight bytes at offsets 20..27 of the box: two buffers that agree
    there give the same result, whatever their version bytes are. *)
Theorem parseMvhd_reads_only_20_to_27 (le : bool) (b b' : list byte)
  (dataOffset dataSize : Z) (d : Demuxer) :
  List.length b = List.length b' ->
  (forall i, 20 <= i < 28 ->
             u8_at b (dataOffset + i) = u8_at b' (dataOffset + i)) ->
  _parseMvhd le b dataOffset dataSize d = _parseMvhd le b' dataOffset dataSize d.
Proof.
  intros Hlen Hsame.
  destruct (new_DataView b dataOffset dataSize) as [v |] eqn:Hv.
  - pose proof (new_DataView_same_length _ _ _ _ _ Hlen Hv) as Hv'.
    destruct (_videoMetadata d) as [meta |] eqn:Hm.
    + now rewrite !(parseMvhd_again _ _ _ _ _ _ Hm), Hv, Hv'.
    + rewrite (parseMvhd_creates _ _ _ _ _ _ Hm Hv),
        (parseMvhd_creates _ _ _ _ _ _ Hm Hv').
      cbv zeta.
      rewrite (getUint32_agree _ _ _ _ _ _ 20 (negb le) Hv Hv'),
        (getUint32_agree _ _ _ _ _ _ 24 (negb le) Hv Hv');
        [reflexivity | |]; intros i Hi; apply Hsame; lia.
  - pose proof (new_DataView_throw_same_length _ _ _ _ _ Hlen Hv) as Hv'.
    unfold _parseMvhd. now rewrite Hv, Hv'.
Qed.

Lemma parseMvhd_reads_only_20_to_27_witness :
  _parseMvhd true mvhd_box 0 28 fresh_demuxer =
  _parseMvhd true mvhd_box_version_1 0 28 fresh_demuxer.
Proof.
  apply (parseMvhd_reads_only_20_to_27 true mvhd_box mvhd_box_version_1 0 28
           fresh_demuxer).
  - reflexivity.
  - intros i Hi.
    assert (Hc : i = 20 \/ i = 21 \/ i = 22 \/ i = 23 \/
                 i = 24 \/ i = 25 \/ i = 26 \/ i = 27) by lia.
    destruct Hc as [-> | [-> | [-> | [-> | [-> | [-> | [-> | ->]]]]]]];
      reflexivity.
Defined.

Lemma mbind_meta_update {B : Type} (f : Meta.t -> Meta.t) (k : unit -> M B)
  (d : Demuxer) (m : Meta.t) :
  _videoMetadata d = Some m ->
  mbind (meta_update f) k d = k tt (set_videoMetadata (Some (f m)) d).
Proof. intros H. unfold mbind, meta_update. now rewrite H. Qed.

Lemma mbind_meta_update_null {B : Type} (f : Meta.t -> Meta.t) (k : unit -> M B)
  (d : Demuxer) :
  _videoMetadata d = None ->
  mbind (meta_update f) k d = (Throw TypeError, d).
Proof. intros H. unfold mbind, meta_update. now rewrite H. Qed.

Lemma read_version_flag_ok (le : bool) (v : DataView) (version : Z) :
  getUint8 v 8 = Ok version -> 12 <= dv_byteLength v ->
  read_version_flag le v = Ok version.
Proof.
  intros H8 Hlen. unfold read_version_flag. rewrite H8. cbn [bind].
  destruct (getUint32_total v 8 (negb le)) as [fl ->]; [lia | lia |].
  reflexivity.
Qed.

(** X18: [_parseMdhd] handles version 0 only.  For a box of any other
    version it returns with the demuxer unchanged, so the metadata gets
    no timescale_mdhd; for version 0 it stores the 32-bit fields at
    offsets 20 and 24 as timescale_mdhd and duration_mdhd and changes
    nothing else; and without a metadata object (no mvhd parsed so far)
    a version-0 box makes it throw, the demuxer unchanged. *)
Theorem parseMdhd_versions (le : bool) (arrayBuffer : list byte)
  (dataOffset dataSize : Z) (d : Demuxer) (v : DataView) (version : Z) :
  new_DataView arrayBuffer dataOffset dataSize = Ok v ->
  getUint8 v 8 = Ok version ->
  12 <= dataSize ->
  (version <> 0 -> _parseMdhd le arrayBuffer dataOffset dataSize d = (Ok tt, d)) /\
  (version = 0 -> _videoMetadata d = None ->
   exists e, _parseMdhd le arrayBuffer dataOffset dataSize d = (Throw e, d)) /\
  (version = 0 ->
   forall meta timescale duration,
     _videoMetadata d = Some meta ->
     getUint32 v 20 (negb le) = Ok timescale ->
     getUint32 v 24 (negb le) = Ok duration ->
     _parseMdhd le arrayBuffer dataOffset dataSize d =
     (Ok tt,
      set_videoMetadata
        (Some (meta_set_duration_mdhd duration
                 (meta_set_timescale_mdhd timescale meta))) d)).
Proof.
  intros Hv H8 Hsize.
  assert (Hver : read_version_flag le v = Ok version).
  { apply read_version_flag_ok; [exact H8 |].
    now rewrite (new_DataView_length _ _ _ _ Hv). }
  unfold _parseMdhd. rewrite Hv, mbind_lift_ok, Hver, mbind_lift_ok.
  split; [| split].
  - intros Hne. apply Z.eqb_neq in Hne. now rewrite Hne.
  - intros -> Hm. cbn [Z.eqb].
    destruct (getUint32 v 20 (negb le)) as [ts |].
    + rewrite mbind_lift_ok, (mbind_meta_update_null _ _ _ Hm).
      eexists. reflexivity.
    + rewrite mbind_lift_throw. eexists. reflexivity.
  - intros -> meta ts du Hm Hts Hdu. cbn [Z.eqb].
    rewrite Hts, mbind_lift_ok, (mbind_meta_update _ _ _ _ Hm), Hdu,
      mbind_lift_ok.
    unfold meta_update. cbn [_videoMetadata set_videoMetadata]. reflexivity.
Qed.

Lemma parseMdhd_versions_witness :
  let d := snd (_parseMvhd true mvhd_box 0 28 fresh_demuxer) in
  let v := {| dv_buffer := mdhd_box_version_1;
              dv_byteOffset := 0; dv_byteLength := 32 |} in
  (1 <> 0 -> _parseMdhd true mdhd_box_version_1 0 32 d = (Ok tt, d)) /\
  (1 = 0 -> _videoMetadata d = None ->
   exists e, _parseMdhd true mdhd_box_version_1 0 32 d = (Throw e, d)) /\
  (1 = 0 ->
   forall meta timescale duration,
     _videoMetadata d = Some meta ->
     getUint32 v 20 (negb true) = Ok timescale ->
     getUint32 v 24 (negb true) = Ok duration ->
     _parseMdhd true mdhd_box_version_1 0 32 d =
     (Ok tt,
      set_videoMetadata
        (Some (meta_set_duration_mdhd duration
                 (meta_set_timescale_mdhd timescale meta))) d)).
Proof.
  cbv zeta.
  apply (parseMdhd_versions true mdhd_box_version_1 0 32); [| | lia];
    vm_compute; reflexivity.
Defined.

Lemma parseTkhd_inv (le : bool) (arrayBuffer : list byte)
  (dataOffset dataSize : Z) (d d' : Demuxer) (b : bool) :
  _parseTkhd le arrayBuffer dataOffset dataSize d = (Ok b, d') ->
  d' = d /\
  exists v version meta trackId,
    new_DataView arrayBuffer dataOffset dataSize = Ok v /\
    getUint8 v 8 = Ok version /\
    _videoMetadata d = Some meta /\
    (version = 0 -> getUint32 v 20 (negb le) = Ok trackId) /\
    (version = 1 -> getUint32 v 28 (negb le) = Ok trackId) /\
    (version <> 0 -> version <> 1 -> trackId = 0) /\
    (b = true <-> Meta.id meta = Some trackId).
Proof.
  unfold _parseTkhd. rewrite mbind_get.
  destruct (new_DataView arrayBuffer dataOffset dataSize) as [v |] eqn:Hv;
    [| rewrite mbind_lift_throw; discriminate].
  rewrite mbind_lift_ok.
  destruct (read_version_flag le v) as [version |] eqn:Hver;
    [| rewrite mbind_lift_throw; discriminate].
  rewrite mbind_lift_ok.
  apply read_version_flag_inv in Hver as [H8 _].
  assert (Hfin : forall trackId,
            match _videoMetadata d with
            | Some m =>
                ret match Meta.id m with
                    | Some id => trackId =? id
                    | None => false
                    end
            | None => lift (Throw TypeError)
            end d = (Ok b, d') ->
            d' = d /\ exists meta, _videoMetadata d = Some meta /\
                                   (b = true <-> Meta.id meta = Some trackId)).
  { intros trackId H. destruct (_videoMetadata d) as [m |]; [| discriminate H].
    unfold ret in H. injection H as <- <-. split; [reflexivity |].
    exists m. split; [reflexivity |].
    destruct (Meta.id m) as [id |].
    - rewrite Z.eqb_eq. split; [now intros -> | now intros [= ->]].
    - split; discriminate. }
  assert (Hend : forall trackId,
            (version = 0 -> getUint32 v 20 (negb le) = Ok trackId) ->
            (version = 1 -> getUint32 v 28 (negb le) = Ok trackId) ->
            (version <> 0 -> version <> 1 -> trackId = 0) ->
            match _videoMetadata d with
            | Some m =>
                ret match Meta.id m with
                    | Some id => trackId =? id
                    | None => false
                    end
            | None => lift (Throw TypeError)
            end d = (Ok b, d') ->
            d' = d /\
            exists v0 version0 meta trackId0,
              Ok v = Ok v0 /\
              getUint8 v0 8 = Ok version0 /\
              _videoMetadata d = Some meta /\
              (version0 = 0 -> getUint32 v0 20 (negb le) = Ok trackId0) /\
              (version0 = 1 -> getUint32 v0 28 (negb le) = Ok trackId0) /\
              (version0 <> 0 -> version0 <> 1 -> trackId0 = 0) /\
              (b = true <-> Meta.id meta = Some trackId0)).
  { intros trackId A0 A1 Ax H.
    destruct (Hfin trackId H) as (-> & meta & Hm & Hb). split; [reflexivity |].
    exists v, version, meta, trackId.
    split; [reflexivity |]. split; [exact H8 |]. split; [exact Hm |].
    split; [exact A0 |]. split; [exact A1 |]. split; [exact Ax | exact Hb]. }
  destruct (version =? 0) eqn:E0; [| destruct (version =? 1) eqn:E1].
  - apply Z.eqb_eq in E0.
    destruct (getUint32 v 20 (negb le)) as [t |] eqn:Ht;
      [| rewrite mbind_lift_throw; discriminate].
    rewrite mbind_lift_ok. apply Hend; [intros _; reflexivity | lia | lia].
  - apply Z.eqb_eq in E1. apply Z.eqb_neq in E0.
    destruct (getUint32 v 28 (negb le)) as [t |] eqn:Ht;
      [| rewrite mbind_lift_throw; discriminate].
    rewrite mbind_lift_ok. apply Hend; [lia | intros _; reflexivity | lia].
  - apply Z.eqb_neq in E0, E1.
    apply Hend; [lia | lia | reflexivity].
Qed.

(** X19: after the first mvhd box of a new demuxer, [_parseTkhd] says
    'video track' exactly for the track whose id is 1, the id the
    constructor gives the video track: the id is read at offset 20 of a
    version-0 box and at offset 28 of a version-1 box, and a box of any
    other version is never the video track.  The demuxer is unchanged.
    Before any mvhd box there is no metadata to compare with and
    [_parseTkhd] never returns. *)
Theorem parseTkhd_after_mvhd (le : bool) (arrayBuffer : list byte)
  (dataOffset dataSize : Z) :
  (forall probeData bm om sm d1 b d2,
     _parseMvhd le bm om sm (new_MP4Demuxer probeData) = (Ok tt, d1) ->
     _parseTkhd le arrayBuffer dataOffset dataSize d1 = (Ok b, d2) ->
     d2 = d1 /\
     exists v version,
       new_DataView arrayBuffer dataOffset dataSize = Ok v /\
       getUint8 v 8 = Ok version /\
       (b = true <->
        (version = 0 /\ getUint32 v 20 (negb le) = Ok 1) \/
        (version = 1 /\ getUint32 v 28 (negb le) = Ok 1))) /\
  (forall d, _videoMetadata d = None ->
     exists e, fst (_parseTkhd le arrayBuffer dataOffset dataSize d) = Throw e).
Proof.
  split.
  - intros probeData bm om sm d1 b d2 Hm Ht.
    destruct (parseMvhd_first_wins _ _ _ _ _ _ Hm) as (meta & Hm1 & Hnew & _).
    destruct (Hnew eq_refl) as (_ & _ & _ & _ & _ & _ & Hid & _).
    cbn in Hid.
    destruct (parseTkhd_inv _ _ _ _ _ _ _ Ht)
      as (-> & v & version & meta' & trackId & Hv & H8 & Hm' & H0 & H1 & Hx & Hb).
    rewrite Hm1 in Hm'. injection Hm' as <-. rewrite Hid in Hb.
    split; [reflexivity |]. exists v, version.
    split; [exact Hv |]. split; [exact H8 |].
    rewrite Hb. split.
    + intros [= Hone]. subst trackId.
      destruct (Z.eq_dec version 0) as [E0 | E0]; [left; now split; auto |].
      destruct (Z.eq_dec version 1) as [E1 | E1]; [right; now split; auto |].
      specialize (Hx E0 E1). discriminate Hx.
    + intros [[E0 Hr] | [E1 Hr]].
      * rewrite (H0 E0) in Hr. now injection Hr as ->.
      * rewrite (H1 E1) in Hr. now injection Hr as ->.
  - intros d Hm.
    destruct (_parseTkhd le arrayBuffer dataOffset dataSize d) as [[b | e] d']
      eqn:H; cbn [fst]; [| now exists e].
    apply parseTkhd_inv in H as (_ & _ & _ & meta & _ & _ & _ & Hm' & _).
    rewrite Hm in Hm'. discriminate Hm'.
Qed.

Lemma parseTkhd_after_mvhd_witness :
  exists d1,
    _parseMvhd true mvhd_box 0 28 fresh_demuxer = (Ok tt, d1) /\
    _parseTkhd true (tkhd_box 1) 0 24 d1 = (Ok true, d1) /\
    _parseTkhd true (tkhd_box 2) 0 24 d1 = (Ok false, d1) /\
    exists v version,
      new_DataView (tkhd_box 2) 0 24 = Ok v /\
      getUint8 v 8 = Ok version /\
      (false = true <->
       (version = 0 /\ getUint32 v 20 (negb true) = Ok 1) \/
       (version = 1 /\ getUint32 v 28 (negb true) = Ok 1)).
Proof.
  eexists. split; [vm_compute; reflexivity |].
  split; [vm_compute; reflexivity |].
  split; [vm_compute; reflexivity |].
  eapply (proj1 (parseTkhd_after_mvhd true (tkhd_box 2) 0 24)
            {| consumed := 24; dataOffset := 24; rawDataSize := 0;
               infoOffset := 24;
               hasAudioTrack := false; hasVideoTrack := true |}
            mvhd_box 0 28).
  - vm_compute. reflexivity.
  - vm_compute. reflexivity.
Defined.

(** ** stsd, further *)

Lemma mbind_ret {A B : Type} (a : A) (k : A -> M B) (d : Demuxer) :
  mbind (ret a) k d = k a d.
Proof. reflexivity. Qed.

Lemma mbind_if_emit {B : Type} (c : bool) (e : Event) (k : unit -> M B)
  (d : Demuxer) :
  mbind (if c then emit e else ret tt) k d =
  k tt (if c then set_trace (trace d ++ [e]) d else d).
Proof. destruct c; reflexivity. Qed.

Lemma new_DataView_inv (buf : list byte) (off len : Z) (v : DataView) :
  new_DataView buf off len = Ok v ->
  v = {| dv_buffer := buf; dv_byteOffset := off; dv_byteLength := len |} /\
  0 <= off /\ 0 <= len /\ off + len <= Z.of_nat (List.length buf).
Proof.
  unfold new_DataView. destruct (_ && _ && _) eqn:E; [| discriminate].
  intros H. injection H as <-.
  apply andb_true_iff in E as [E H3]. apply andb_true_iff in E as [H1 H2].
  apply Z.leb_le in H1, H2, H3. repeat split; assumption.
Qed.

Lemma new_Uint8Array_total (buf : list byte) (off len : Z) :
  0 <= off -> 0 <= len -> off + len <= Z.of_nat (List.length buf) ->
  exists bytes, new_Uint8Array buf off len = Ok bytes.
Proof.
  intros H1 H2 H3. unfold new_Uint8Array.
  replace ((0 <=? off) && (0 <=? len) && (off + len <=? Z.of_nat (List.length buf)))
    with true; [eexists; reflexivity |].
  symmetry. rewrite !andb_true_iff, !Z.leb_le. repeat split; assumption.
Qed.

Lemma ReadBoxName_total (buf : list byte) (off len : Z) (v : DataView) (o : Z) :
  new_DataView buf off len = Ok v ->
  0 <= o -> o + 4 <= len ->
  exists name, ReadBoxName v (off + o) = Ok name.
Proof.
  intros Hv H1 H2. apply new_DataView_inv in Hv as (-> & Ho & Hl & Hfit).
  unfold ReadBoxName, buffer_ascii. cbn [dv_buffer].
  destruct (new_Uint8Array_total buf (off + o) 4) as [bytes ->]; [lia .. |].
  eexists. reflexivity.
Qed.

(** X20: a sample description whose first entry is not 'avc1' is not
    parsed.  [_parseStsd] logs 'Input file is not codec with h264!',
    returns undefined, and changes nothing else: no metadata, no NAL
    length size, no callback. *)
Theorem parseStsd_not_avc1 (le : bool) (parseSPS : list byte -> SPS.config)
  (isComplete : MediaInfo.t -> bool) (arrayBuffer : list byte)
  (dataOffset dataSize : Z) (d : Demuxer) (v : DataView) (box_n : string) :
  new_DataView arrayBuffer dataOffset dataSize = Ok v ->
  16 <= dataSize ->
  ReadBoxName v (dataOffset + 16 + 4) = Ok box_n ->
  box_n <> "avc1"%string ->
  _parseStsd le parseSPS isComplete arrayBuffer dataOffset dataSize d =
  (Ok None,
   set_trace (trace d ++ [Log_w "Input file is not codec with h264!"]) d).
Proof.
  intros Hv Hsize Hname Hne.
  pose proof (new_DataView_length _ _ _ _ Hv) as Hlen.
  unfold _parseStsd. rewrite Hv, mbind_lift_ok.
  destruct (ReadBoxName_total _ _ _ _ 4 Hv) as [n0 ->]; [lia | lia |].
  rewrite mbind_lift_ok.
  destruct (read_version_flag_total le v) as [ver ->]; [lia |].
  rewrite mbind_lift_ok.
  destruct (getUint32_total v 12 (negb le)) as [cnt ->]; [lia | lia |].
  rewrite mbind_lift_ok, Hname, mbind_lift_ok.
  apply String.eqb_neq in Hne. rewrite Hne. reflexivity.
Qed.

Lemma parseStsd_not_avc1_witness :
  _parseStsd true parseSPS_25fps isComplete_per_spec stsd_box_hev1 0 24
    fresh_demuxer =
  (Ok None,
   set_trace (trace fresh_demuxer ++
              [Log_w "Input file is not codec with h264!"]) fresh_demuxer).
Proof.
  apply (parseStsd_not_avc1 true parseSPS_25fps isComplete_per_spec
           stsd_box_hev1 0 24 fresh_demuxer
           {| dv_buffer := stsd_box_hev1; dv_byteOffset := 0;
              dv_byteLength := 24 |} "hev1").
  - vm_compute. reflexivity.
  - lia.
  - vm_compute. reflexivity.
  - discriminate.
Defined.

Lemma parameter_sets_success (le : bool) (parseSPS : list byte -> SPS.config)
  (isComplete : MediaInfo.t -> bool) (arrayBuffer : list byte) (v : DataView)
  (dataOffset : Z) (stsdDetail s' : StsdDetail) (d d' : Demuxer) :
  parameter_sets le parseSPS isComplete arrayBuffer v dataOffset stsdDetail d
    = (Ok (Some s'), d') ->
  s' = stsdDetail /\ _dispatch d' = false /\
  exists meta pre,
    _videoMetadata d' = Some meta /\
    trace d' = pre ++ [onTrackMetadata "video" meta].
Proof.
  unfold parameter_sets.
  destruct (getUint8 v 115) as [b |];
    [rewrite mbind_lift_ok | rewrite mbind_lift_throw; discriminate].
  cbv zeta.
  destruct (_ =? 0); [rewrite mbind_emit; discriminate |].
  rewrite mbind_if_emit.
  unfold mbind at 1.
  destruct (sps_loop _ _ _ _ _ _ _ _ _ _) as [[offset | e] dB];
    [| discriminate].
  destruct (getUint8 v offset) as [ppsNum |];
    [rewrite mbind_lift_ok | rewrite mbind_lift_throw; discriminate].
  destruct (ppsNum =? 0); [rewrite mbind_emit; discriminate |].
  rewrite mbind_if_emit.
  unfold mbind at 1.
  destruct (pps_loop _ _ _ _ _) as [[offset' | e] dC]; [| discriminate].
  rewrite mbind_get.
  assert (Hstep : exists dD,
            _videoMetadata dD = _videoMetadata dC /\
            forall k : unit -> M (option StsdDetail),
              mbind (if _isInitialMetadataDispatched dC
                     then
                       if _dispatch dC &&
                          (is_truthy (Track.length (_audioTrack dC)) ||
                           is_truthy (Track.length (_videoTrack dC)))
                       then emit (onDataAvailable (Track.length (_audioTrack dC))
                                                  (Track.length (_videoTrack dC)))
                       else ret tt
                     else modify (set_videoInitialMetadataDispatched true))
                    k dC = k tt dD).
  { destruct (_isInitialMetadataDispatched dC); [destruct (_ && _) |];
      eexists; (split; [| intros k; reflexivity]); reflexivity. }
  destruct Hstep as (dD & HmD & ->).
  rewrite mbind_modify, mbind_get.
  cbn [_videoMetadata set_dispatch]. rewrite HmD.
  destruct (_videoMetadata dC) as [meta |]; [| discriminate].
  rewrite mbind_emit. unfold ret. intros H.
  pose proof (f_equal fst H) as Hr. pose proof (f_equal snd H) as Hd.
  cbn [fst snd] in Hr, Hd. injection Hr as <-. subst d'.
  split; [reflexivity |]. split; [reflexivity |].
  exists meta. eexists. split; [| reflexivity].
  cbn [_videoMetadata set_trace set_dispatch]. exact HmD.
Qed.

Lemma avcC_record_success (le : bool) (parseSPS : list byte -> SPS.config)
  (isComplete : MediaInfo.t -> bool) (arrayBuffer : list byte) (v : DataView)
  (dataOffset : Z) (stsdDetail s' : StsdDetail) (d d' : Demuxer) :
  avcC_record le parseSPS isComplete arrayBuffer v dataOffset stsdDetail d
    = (Ok (Some s'), d') ->
  s' = stsdDetail /\
  (_naluLengthSize d' = 3 \/ _naluLengthSize d' = 4) /\
  _dispatch d' = false /\
  exists meta pre,
    _videoMetadata d' = Some meta /\
    trace d' = pre ++ [onTrackMetadata "video" meta].
Proof.
  unfold avcC_record.
  do 4 (match goal with
        | |- context [lift (getUint8 v ?o)] =>
            destruct (getUint8 v o);
            [rewrite mbind_lift_ok | rewrite mbind_lift_throw; discriminate]
        end).
  destruct (_ || _); [rewrite mbind_emit; discriminate |].
  destruct (getUint8 v 114) as [b |];
    [rewrite mbind_lift_ok | rewrite mbind_lift_throw; discriminate].
  rewrite mbind_modify, mbind_get. cbn [_naluLengthSize set_naluLengthSize].
  set (n := Z.land (Z.land b 3) 3 + 1).
  destruct (negb (n =? 3) && negb (n =? 4)) eqn:Hn;
    [rewrite mbind_emit; discriminate |].
  intros H.
  pose proof (quiet_parameter_sets le parseSPS isComplete arrayBuffer v
                dataOffset stsdDetail (set_naluLengthSize n d))
    as (new & _ & _ & Hl).
  rewrite H in Hl. cbn [snd _naluLengthSize set_naluLengthSize] in Hl.
  apply parameter_sets_success in H as (Hs & Hd & Hm).
  split; [exact Hs |]. split; [| split; [exact Hd | exact Hm]].
  rewrite Hl. apply andb_false_iff in Hn as [Hn | Hn];
    apply negb_false_iff, Z.eqb_eq in Hn; [left | right]; exact Hn.
Qed.

(** X21: when [_parseStsd] returns its detail object, the NAL length size
    it has set is 3 or 4, [_dispatch] is cleared, the last thing it did
    was to hand the metadata object, in its final state, to
    onTrackMetadata as 'video', and the width and height of the detail
    are the 16-bit fields at offsets 48 and 50 of the box, whose first
    entry is of type 'avc1'. *)
Theorem parseStsd_success (le : bool) (parseSPS : list byte -> SPS.config)
  (isComplete : MediaInfo.t -> bool) (arrayBuffer : list byte)
  (dataOffset dataSize : Z) (d d' : Demuxer) (detail : StsdDetail) :
  _parseStsd le parseSPS isComplete arrayBuffer dataOffset dataSize d =
    (Ok (Some detail), d') ->
  (_naluLengthSize d' = 3 \/ _naluLengthSize d' = 4) /\
  _dispatch d' = false /\
  (exists meta pre,
     _videoMetadata d' = Some meta /\
     trace d' = pre ++ [onTrackMetadata "video" meta]) /\
  exists v,
    new_DataView arrayBuffer dataOffset dataSize = Ok v /\
    ReadBoxName v (dataOffset + 16 + 4) = Ok "avc1"%string /\
    getUint16 v 48 (negb le) = Ok (Avc1.width (avc1 detail)) /\
    getUint16 v 50 (negb le) = Ok (Avc1.height (avc1 detail)).
Proof.
  unfold _parseStsd.
  destruct (new_DataView arrayBuffer dataOffset dataSize) as [v |] eqn:Hv;
    [rewrite mbind_lift_ok | rewrite mbind_lift_throw; discriminate].
  destruct (ReadBoxName v (dataOffset + 4));
    [rewrite mbind_lift_ok | rewrite mbind_lift_throw; discriminate].
  destruct (read_version_flag le v);
    [rewrite mbind_lift_ok | rewrite mbind_lift_throw; discriminate].
  destruct (getUint32 v 12 (negb le));
    [rewrite mbind_lift_ok | rewrite mbind_lift_throw; discriminate].
  destruct (ReadBoxName v (dataOffset + 16 + 4)) as [box_n |] eqn:Hname;
    [rewrite mbind_lift_ok | rewrite mbind_lift_throw; discriminate].
  destruct (negb (box_n =? "avc1")%string) eqn:Havc;
    [rewrite mbind_emit; discriminate |].
  apply negb_false_iff, String.eqb_eq in Havc. subst box_n.
  destruct (getUint32 v 16 (negb le)) as [size |];
    [rewrite mbind_lift_ok | rewrite mbind_lift_throw; discriminate].
  destruct (getUint16 v 30 (negb le)) as [dataRefIndex |];
    [rewrite mbind_lift_ok | rewrite mbind_lift_throw; discriminate].
  destruct (getUint16 v 48 (negb le)) as [width |] eqn:Hw;
    [rewrite mbind_lift_ok | rewrite mbind_lift_throw; discriminate].
  destruct (getUint16 v 50 (negb le)) as [height |] eqn:Hh;
    [rewrite mbind_lift_ok | rewrite mbind_lift_throw; discriminate].
  destruct (getUint16 v 64 (negb le)) as [frameCount |];
    [rewrite mbind_lift_ok | rewrite mbind_lift_throw; discriminate].
  destruct (getUint8 v 66) as [strlen |];
    [rewrite mbind_lift_ok | rewrite mbind_lift_throw; discriminate].
  destruct (buffer_ascii (dv_buffer v) (dataOffset + 66 + 1) strlen)
    as [compreName |];
    [rewrite mbind_lift_ok | rewrite mbind_lift_throw; discriminate].
  destruct (getUint16 v 98 (negb le)) as [depth |];
    [rewrite mbind_lift_ok | rewrite mbind_lift_throw; discriminate].
  destruct (getUint32 v 102 (negb le)) as [avcC_size |];
    [rewrite mbind_lift_ok | rewrite mbind_lift_throw; discriminate].
  destruct (new_Uint8Array arrayBuffer (dataOffset + 102) avcC_size)
    as [avcCData |];
    [rewrite mbind_lift_ok | rewrite mbind_lift_throw; discriminate].
  rewrite mbind_emit.
  unfold mbind at 1.
  destruct (meta_update (meta_set_avcc avcCData) _) as [[[] | e] d1];
    [| discriminate].
  intros H. apply avcC_record_success in H as (-> & Hn & Hd & Hm).
  split; [exact Hn |]. split; [exact Hd |]. split; [exact Hm |].
  exists v. repeat split; assumption.
Qed.

Lemma parseStsd_success_witness :
  exists detail d',
    after_mvhd_and_stsd stsd_box = (Ok (Some detail), d') /\
    Avc1.width (avc1 detail) = 1280 /\ Avc1.height (avc1 detail) = 720 /\
    (_naluLengthSize d' = 3 \/ _naluLengthSize d' = 4) /\
    _dispatch d' = false /\
    (exists meta pre,
       _videoMetadata d' = Some meta /\
       trace d' = pre ++ [onTrackMetadata "video" meta]) /\
    exists v,
      new_DataView stsd_box 0 127 = Ok v /\
      ReadBoxName v (0 + 16 + 4) = Ok "avc1"%string /\
      getUint16 v 48 (negb true) = Ok (Avc1.width (avc1 detail)) /\
      getUint16 v 50 (negb true) = Ok (Avc1.height (avc1 detail)).
Proof.
  do 2 eexists. split; [vm_compute; reflexivity |].
  split; [reflexivity |]. split; [reflexivity |].
  eapply (parseStsd_success true parseSPS_25fps isComplete_per_spec stsd_box
            0 127 (snd (_parseMvhd true mvhd_box 0 28 fresh_demuxer))).
  vm_compute. reflexivity.
Defined.

(** ** The codec string *)

Lemma hex_digit_length (n : Z) : String.length (hex_digit n) = 1%nat.
Proof. reflexivity. Qed.

Lemma hex2_length (b : Z) : String.length (hex2 b) = 2%nat.
Proof. reflexivity. Qed.

Lemma string_length_app (s t : string) :
  String.length (s ++ t) = (String.length s + String.length t)%nat.
Proof. induction s as [| c s IH]; cbn; [reflexivity | now rewrite IH]. Qed.

(** X22: the codec string of lines 710-718.  For an SPS of at least four
    bytes it is 'avc1.' followed by two hexadecimal digits for each of
    the bytes 1, 2 and 3 of the SPS, eleven characters in all; for a
    shorter SPS a byte is missing and the loop throws a TypeError. *)
Theorem codec_string_cases (sps : list byte) :
  (forall b0 b1 b2 b3 rest,
     sps = b0 :: b1 :: b2 :: b3 :: rest ->
     codec_string sps =
       Ok ("avc1." ++ hex2 (byte_val b1) ++ hex2 (byte_val b2) ++
           hex2 (byte_val b3))%string /\
     String.length
       ("avc1." ++ hex2 (byte_val b1) ++ hex2 (byte_val b2) ++
        hex2 (byte_val b3))%string = 11%nat) /\
  ((List.length sps < 4)%nat -> codec_string sps = Throw TypeError).
Proof.
  split.
  - intros b0 b1 b2 b3 rest ->. split.
    + unfold codec_string. cbn [skipn firstn codec_hex nth_error].
      f_equal.
    + rewrite !string_length_app, !hex2_length. reflexivity.
  - intros Hlen. unfold codec_string.
    destruct sps as [| b0 [| b1 [| b2 [| b3 rest]]]]; cbn in Hlen;
      try lia; reflexivity.
Qed.

Lemma codec_string_cases_witness :
  codec_string (bytes_of [0x67; 0x64; 0x00; 0x1f]) = Ok "avc1.64001f"%string /\
  codec_string (bytes_of [0x67; 0x64; 0x00]) = Throw TypeError.
Proof.
  split.
  - exact (proj1 (proj1 (codec_string_cases (bytes_of [0x67; 0x64; 0x00; 0x1f]))
                    _ _ _ _ _ eq_refl)).
  - apply (proj2 (codec_string_cases (bytes_of [0x67; 0x64; 0x00]))).
    cbn. lia.
Defined.

(** ** The framer, further *)

Lemma land_3_range (b : Z) : 0 <= Z.land (Z.land b 3) 3 <= 3.
Proof.
  rewrite land_3_twice. change 3 with (Z.ones 2) at 1 2.
  rewrite Z.land_ones by lia.
  pose proof (Z.mod_pos_bound b (2 ^ 2) ltac:(lia)). lia.
Qed.

Lemma parseAVCVideoData_naluLengthSize (le : bool) (arrayBuffer : list byte)
  (dataOffset dataSize : Z) (dts : jsval) (d d' : Demuxer) (r : result unit) :
  _parseAVCVideoData le arrayBuffer dataOffset dataSize dts d = Some (r, d') ->
  _naluLengthSize d' = _naluLengthSize d.
Proof.
  unfold _parseAVCVideoData.
  destruct (new_DataView arrayBuffer dataOffset dataSize) as [v |].
  2:{ intros H. injection H as _ <-. reflexivity. }
  destruct (nal_loop _ _ _ _ _ _ _ _ _ _ _) as [[[| o us len kf | us len kf] | e] |];
    intros H; try discriminate H;
    apply (f_equal (option_map snd)) in H; cbn [option_map snd] in H;
    injection H as <-; try reflexivity;
    unfold append_sample; destruct us; reflexivity.
Qed.

(** X23: the NAL length size is always between 1 and 4.  The constructor
    sets it to 4; [_parseStsd], whether it succeeds, reports an error or
    throws, leaves it in that range, and so do the other box parsers and
    the framer; and with a length size in that range the framer's loop
    always ends, so that [_parseAVCVideoData] returns or throws. *)
Theorem naluLengthSize_in_range :
  (forall probeData, nalu_ok (new_MP4Demuxer probeData)) /\
  (forall le parseSPS isComplete arrayBuffer dataOffset dataSize d,
     nalu_ok d ->
     nalu_ok (snd (_parseStsd le parseSPS isComplete arrayBuffer dataOffset
                     dataSize d)) /\
     nalu_ok (snd (_parseMvhd le arrayBuffer dataOffset dataSize d)) /\
     nalu_ok (snd (_parseMdhd le arrayBuffer dataOffset dataSize d)) /\
     nalu_ok (snd (_parseTkhd le arrayBuffer dataOffset dataSize d))) /\
  (forall le arrayBuffer dataOffset dataSize dts d,
     nalu_ok d ->
     exists r d',
       _parseAVCVideoData le arrayBuffer dataOffset dataSize dts d = Some (r, d') /\
       nalu_ok d').
Proof.
  split; [| split].
  - intros probeData. unfold nalu_ok. cbn. lia.
  - intros le parseSPS isComplete arrayBuffer dataOffset dataSize d Hd.
    assert (Hr : forall d, keeps_nalu d d) by (intros x H; exact H).
    assert (Ht : forall a b c, keeps_nalu a b -> keeps_nalu b c -> keeps_nalu a c)
      by (intros a b c H1 H2 H; exact (H2 (H1 H))).
    assert (H1 : forall d x, keeps_nalu d (set_videoMetadata x d))
      by (intros x y H; exact H).
    assert (H2 : forall d x, keeps_nalu d (set_mediaInfo x d))
      by (intros x y H; exact H).
    assert (H3 : forall d x, keeps_nalu d (set_mediaInfo x (set_hasVideo true d)))
      by (intros x y H; exact H).
    assert (H4 : forall d x, keeps_nalu d (set_dispatch x d))
      by (intros x y H; exact H).
    assert (H5 : forall d, keeps_nalu d (set_videoInitialMetadataDispatched true d))
      by (intros x H; exact H).
    assert (H6 : forall d b,
              keeps_nalu d (set_naluLengthSize (Z.land (Z.land b 3) 3 + 1) d)).
    { intros x b _. unfold nalu_ok. cbn [_naluLengthSize set_naluLengthSize].
      pose proof (land_3_range b). lia. }
    assert (H7 : forall d e, is_data e = false ->
                             keeps_nalu d (set_trace (trace d ++ [e]) d))
      by (intros x y _ H; exact H).
    assert (H8 : forall d e, tracks_empty d = false ->
                             keeps_nalu d (set_trace (trace d ++ [e]) d))
      by (intros x y _ H; exact H).
    split; [apply (keeps_parseStsd keeps_nalu); assumption |].
    split; [apply (keeps_parseMvhd keeps_nalu); assumption |].
    split; [apply (keeps_parseMdhd keeps_nalu); assumption |].
    apply (keeps_parseTkhd keeps_nalu); assumption.
  - intros le arrayBuffer dataOffset dataSize dts d Hd.
    destruct (_parseAVCVideoData le arrayBuffer dataOffset dataSize dts d)
      as [[r d'] |] eqn:H.
    + exists r, d'. split; [reflexivity |].
      unfold nalu_ok.
      now rewrite (parseAVCVideoData_naluLengthSize _ _ _ _ _ _ _ _ H).
    + exfalso. revert H. apply parseAVCVideoData_returns. apply Hd.
Qed.

Lemma naluLengthSize_in_range_witness :
  nalu_ok fresh_demuxer /\
  nalu_ok (snd (after_mvhd_and_stsd stsd_box_short_length)) /\
  exists r d',
    _parseAVCVideoData true idr_sample 0 6 Undefined
      (snd (after_mvhd_and_stsd stsd_box_short_length)) = Some (r, d') /\
    nalu_ok d'.
Proof.
  destruct naluLengthSize_in_range as (Hnew & Hparse & Hframe).
  assert (Hf : nalu_ok fresh_demuxer) by apply Hnew.
  destruct (Hparse true parseSPS_25fps isComplete_per_spec mvhd_box 0 28
              fresh_demuxer Hf) as (_ & H0 & _).
  destruct (Hparse true parseSPS_25fps isComplete_per_spec
              stsd_box_short_length 0 127 _ H0) as (H1 & _).
  change (snd (_parseStsd true parseSPS_25fps isComplete_per_spec
                 stsd_box_short_length 0 127
                 (snd (_parseMvhd true mvhd_box 0 28 fresh_demuxer))))
    with (snd (after_mvhd_and_stsd stsd_box_short_length)) in H1.
  split; [exact Hf |]. split; [exact H1 |].
  apply Hframe, H1.
Defined.



Section FramerTiles.

Variable le : bool.
Variable arrayBuffer : list byte.
Variable v : DataView.
Variables dataOffset dataSize lengthSize : Z.


End FramerTiles.




(** X25: a sample of at most four bytes yields no unit.  When its window
    fits the buffer, [_parseAVCVideoData] returns without touching the
    track; for a sample of one to four bytes it logs the 'Malformed Nalu'
    warning at offset 0, and for an empty sample it does nothing at
    all. *)
Theorem parseAVCVideoData_short_sample (le : bool) (arrayBuffer : list byte)
  (dataOffset dataSize : Z) (dts : jsval) (d : Demuxer) (v : DataView) :
  new_DataView arrayBuffer dataOffset dataSize = Ok v ->
  dataSize <= 4 ->
  _parseAVCVideoData le arrayBuffer dataOffset dataSize dts d =
  Some (Ok tt,
        if 0 <? dataSize
        then set_trace (trace d ++ [Log_w (malformed_nalu dts 0 dataSize)]) d
        else d).
Proof.
  intros Hv Hsize. unfold _parseAVCVideoData. rewrite Hv. cbn [nal_loop].
  destruct (0 <? dataSize) eqn:Hpos; [| reflexivity].
  change (0 + 4) with 4.
  replace (4 >=? dataSize) with true
    by (symmetry; rewrite Z.geb_leb; apply Z.leb_le; exact Hsize).
  reflexivity.
Qed.

Lemma parseAVCVideoData_short_sample_witness :
  _parseAVCVideoData true idr_sample 0 4 (Int 0) fresh_demuxer =
  Some (Ok tt,
        if 0 <? 4
        then set_trace (trace fresh_demuxer ++
                        [Log_w (malformed_nalu (Int 0) 0 4)]) fresh_demuxer
        else fresh_demuxer).
Proof.
  apply (parseAVCVideoData_short_sample true idr_sample 0 4 (Int 0)
           fresh_demuxer
           {| dv_buffer := idr_sample; dv_byteOffset := 0; dv_byteLength := 4 |});
    [vm_compute; reflexivity | lia].
Defined.

(** ** ftyp *)

Lemma ftyp_loop_spec (buf : list byte) (off size : Z) (v : DataView)
  (fuel : nat) :
  new_DataView buf off size = Ok v ->
  forall o acc,
    0 <= o ->
    (Z.to_nat ((size - o - 1) / 4) < fuel)%nat ->
    exists names,
      ftyp_loop v off size fuel o acc = Some (Ok (acc ++ names)) /\
      List.length names = Z.to_nat ((size - o - 1) / 4) /\
      forall i name, nth_error names i = Some name ->
        ReadBoxName v (off + (o + 4 * Z.of_nat i)) = Ok name.
Proof.
  intros Hv. induction fuel as [| fuel IH]; intros o acc Ho Hfuel; [lia |].
  cbn [ftyp_loop]. destruct (o + 4 <? size) eqn:Hlt.
  - apply Z.ltb_lt in Hlt.
    destruct (ReadBoxName_total _ _ _ _ o Hv) as [name Hname]; [lia | lia |].
    rewrite Hname.
    assert (Hdiv : (size - o - 1) / 4 = (size - (o + 4) - 1) / 4 + 1).
    { replace (size - o - 1) with (size - (o + 4) - 1 + 1 * 4) by lia.
      now rewrite Z.div_add by lia. }
    assert (Hnn : 0 <= (size - (o + 4) - 1) / 4) by (apply Z.div_pos; lia).
    destruct (IH (o + 4) (acc ++ [name])) as (names & -> & Hlen & Hread);
      [lia | lia |].
    exists (name :: names). rewrite <- app_assoc. cbn [app List.length].
    split; [reflexivity |]. split; [lia |].
    intros [| i] nm Hi; cbn [nth_error] in Hi.
    + injection Hi as <-. now rewrite Z.mul_0_r, Z.add_0_r.
    + rewrite <- (Hread i nm Hi). f_equal. lia.
  - apply Z.ltb_ge in Hlt. exists []. rewrite app_nil_r.
    split; [reflexivity |]. split.
    + assert ((size - o - 1) / 4 < 1); [| cbn; lia].
      apply Z.div_lt_upper_bound; lia.
    + intros [| i] nm Hi; discriminate Hi.
Qed.

Lemma parseFtyp_fuel (dataSize : Z) :
  (Z.to_nat ((dataSize - 16 - 1) / 4) < S (Z.to_nat dataSize))%nat.
Proof.
  destruct (Z.le_gt_cases dataSize 16) as [Hs | Hs].
  - assert ((dataSize - 16 - 1) / 4 < 1)
      by (apply Z.div_lt_upper_bound; lia).
    lia.
  - assert ((dataSize - 16 - 1) / 4 <= dataSize)
      by (apply Z.div_le_upper_bound; lia).
    lia.
Qed.

(** The loop of [_parseFtyp] ends within the fuel it is given. *)
Lemma parseFtyp_returns (le : bool) (arrayBuffer : list byte)
  (dataOffset dataSize : Z) :
  _parseFtyp le arrayBuffer dataOffset dataSize <> None.
Proof.
  unfold _parseFtyp.
  destruct (new_DataView arrayBuffer dataOffset dataSize) as [v |] eqn:Hv;
    [| discriminate].
  destruct (ReadBoxName v (dataOffset + 8)); [| discriminate].
  destruct (getUint32 v 12 (negb le)); [| discriminate].
  destruct (ftyp_loop_spec _ _ _ _ _ Hv 16 [] ltac:(lia)
              (parseFtyp_fuel dataSize))
    as (names & -> & _).
  discriminate.
Qed.

(** X26: [_parseFtyp] always returns or throws: its loop ends.  On a box
    of at least 16 bytes that lies within the buffer it returns the name
    at offset 8 as major brand, the 32-bit field at offset 12 as minor
    version, and the names at offsets 16, 20, ... as compatible brands,
    but only those that start before dataSize - 4: of a box that holds k
    brands (dataSize = 16 + 4 k, k >= 1) the last one is not read. *)
Theorem parseFtyp_brands (le : bool) (arrayBuffer : list byte)
  (dataOffset dataSize : Z) :
  _parseFtyp le arrayBuffer dataOffset dataSize <> None /\
  (forall v,
     new_DataView arrayBuffer dataOffset dataSize = Ok v ->
     16 <= dataSize ->
     exists r,
       _parseFtyp le arrayBuffer dataOffset dataSize = Some (Ok r) /\
       ReadBoxName v (dataOffset + 8) = Ok (Ftyp.majorBrand r) /\
       getUint32 v 12 (negb le) = Ok (Ftyp.minorVersion r) /\
       List.length (Ftyp.compatBrands r) = Z.to_nat ((dataSize - 17) / 4) /\
       (forall i name, nth_error (Ftyp.compatBrands r) i = Some name ->
          ReadBoxName v (dataOffset + (16 + 4 * Z.of_nat i)) = Ok name) /\
       (forall k, 1 <= k -> dataSize = 16 + 4 * k ->
          Z.of_nat (List.length (Ftyp.compatBrands r)) = k - 1)).
Proof.
  pose proof (parseFtyp_fuel dataSize) as Hfuel.
  split; [apply parseFtyp_returns |].
  intros v Hv Hsize. unfold _parseFtyp. rewrite Hv.
    destruct (ReadBoxName_total _ _ _ _ 8 Hv) as [major ->]; [lia | lia |].
    pose proof (new_DataView_length _ _ _ _ Hv) as Hlen.
    destruct (getUint32_total v 12 (negb le)) as [minor ->]; [lia | lia |].
    destruct (ftyp_loop_spec _ _ _ _ _ Hv 16 [] ltac:(lia) Hfuel)
      as (names & -> & Hn & Hread).
    cbn [app]. eexists. split; [reflexivity |].
    cbn [Ftyp.majorBrand Ftyp.minorVersion Ftyp.compatBrands].
    replace (dataSize - 17) with (dataSize - 16 - 1) by lia.
    split; [reflexivity |]. split; [reflexivity |]. split; [exact Hn |].
    split; [exact Hread |].
    intros k Hk ->. rewrite Hn.
    replace (16 + 4 * k - 16 - 1) with (3 + (k - 1) * 4) by lia.
    rewrite Z.div_add by lia. change (3 / 4) with 0. lia.
Qed.

Lemma parseFtyp_brands_witness :
  exists r,
    _parseFtyp true ftyp_two_brands 0 24 = Some (Ok r) /\
    Ftyp.majorBrand r = "isom"%string /\
    Ftyp.compatBrands r = ["isom"%string] /\
    Z.of_nat (List.length (Ftyp.compatBrands r)) = 2 - 1.
Proof.
  destruct (proj2 (parseFtyp_brands true ftyp_two_brands 0 24)
              {| dv_buffer := ftyp_two_brands; dv_byteOffset := 0;
                 dv_byteLength := 24 |})
    as (r & Hr & _ & _ & _ & _ & Hk).
  - vm_compute. reflexivity.
  - lia.
  - exists r. split; [exact Hr |].
    assert (Hc : _parseFtyp true ftyp_two_brands 0 24 =
                 Some (Ok {| Ftyp.majorBrand := "isom";
                             Ftyp.minorVersion := 512;
                             Ftyp.compatBrands := ["isom"%string] |}))
      by (vm_compute; reflexivity).
    rewrite Hc in Hr. injection Hr as <-.
    split; [reflexivity |]. split; [reflexivity |].
    apply Hk; lia.
Defined.

(** ** parseChunks *)

Lemma pbind_inv {A B : Type} (m : P A) (k : A -> P B) (s : Session)
  (r : result B) (s' : Session) :
  pbind m k s = Some (r, s') ->
  (exists a s1, m s = Some (Ok a, s1) /\ k a s1 = Some (r, s')) \/
  (exists e, m s = Some (Throw e, s') /\ r = Throw e).
Proof.
  unfold pbind. destruct (m s) as [[[a | e] s1] |]; intros H.
  - left. exists a, s1. split; [reflexivity | exact H].
  - right. exists e. injection H as <- <-. split; reflexivity.
  - discriminate H.
Qed.

Lemma pbind_ok_inv {A B : Type} (m : P A) (k : A -> P B) (s : Session)
  (b : B) (s' : Session) :
  pbind m k s = Some (Ok b, s') ->
  exists a s1, m s = Some (Ok a, s1) /\ k a s1 = Some (Ok b, s').
Proof.
  intros H. apply pbind_inv in H as [H | (e & _ & H)];
    [exact H | discriminate H].
Qed.

Section PKeeps.

Variable R : Demuxer -> Demuxer -> Prop.
Hypothesis R_refl : forall d, R d d.
Hypothesis R_trans : forall a b c, R a b -> R b c -> R a c.

Lemma pkeeps_ret {A : Type} (a : A) : pkeeps R (pret a).
Proof. intros s r s' H. unfold pret in H. injection H as _ <-. apply R_refl. Qed.

Lemma pkeeps_pres {A : Type} (x : result A) : pkeeps R (pres x).
Proof. intros s r s' H. unfold pres in H. injection H as _ <-. apply R_refl. Qed.

Lemma pkeeps_popt {A : Type} (x : option (result A)) : pkeeps R (popt x).
Proof.
  intros s r s' H. unfold popt in H. destruct x; [| discriminate H].
  cbn [option_map] in H. injection H as _ <-. apply R_refl.
Qed.

Lemma pkeeps_pget : pkeeps R pget.
Proof. intros s r s' H. unfold pget in H. injection H as _ <-. apply R_refl. Qed.

Lemma pkeeps_fuel {A : Type} : pkeeps R (@out_of_fuel A).
Proof. intros s r s' H. discriminate H. Qed.

Lemma pkeeps_pmodify (f : Session -> Session) :
  (forall s, demuxer (f s) = demuxer s) -> pkeeps R (pmodify f).
Proof.
  intros Hf s r s' H. unfold pmodify in H. injection H as _ <-.
  rewrite Hf. apply R_refl.
Qed.

Lemma pkeeps_rest_update (f : MediaInfoRest.t -> MediaInfoRest.t) :
  pkeeps R (rest_update f).
Proof. apply pkeeps_pmodify. reflexivity. Qed.

Lemma pkeeps_on_update (f : OnMetaData.t -> OnMetaData.t) :
  pkeeps R (on_update f).
Proof.
  intros s r s' H. unfold on_update in H.
  destruct (_metadata s); injection H as _ <-; apply R_refl.
Qed.

Lemma pkeeps_plift {A : Type} (m : M A) : keeps R m -> pkeeps R (plift m).
Proof.
  intros Hm s r s' H. unfold plift in H. injection H as _ <-.
  cbn [demuxer set_demuxer]. apply Hm.
Qed.

Lemma pkeeps_pstep (f : Demuxer -> option (result unit * Demuxer)) :
  (forall d r d', f d = Some (r, d') -> R d d') -> pkeeps R (pstep f).
Proof.
  intros Hf s r s' H. unfold pstep in H.
  destruct (f (demuxer s)) as [[r0 d'] |] eqn:E; [| discriminate H].
  cbn [option_map fst snd] in H. injection H as _ <-.
  cbn [demuxer set_demuxer]. exact (Hf _ _ _ E).
Qed.

Lemma pkeeps_bind {A B : Type} (m : P A) (k : A -> P B) :
  pkeeps R m -> (forall a, pkeeps R (k a)) -> pkeeps R (pbind m k).
Proof.
  intros Hm Hk s r s' H.
  apply pbind_inv in H as [(a & s1 & H1 & H2) | (e & H1 & _)].
  - exact (R_trans _ _ _ (Hm _ _ _ H1) (Hk _ _ _ _ H2)).
  - exact (Hm _ _ _ H1).
Qed.

End PKeeps.

Section EndsIn.

Variable Post : Demuxer -> Prop.

Lemma ends_in_bind {A B : Type} (m : P A) (k : A -> P B) :
  (forall a, ends_in Post (k a)) -> ends_in Post (pbind m k).
Proof.
  intros Hk s b s' H. apply pbind_ok_inv in H as (a & s1 & _ & H).
  exact (Hk _ _ _ _ H).
Qed.

Lemma ends_in_throw {A : Type} (e : exn) : ends_in Post (@pres A (Throw e)).
Proof. intros s a s' H. discriminate H. Qed.

(** After an assignment that establishes [Post], a continuation that
    keeps it. *)
Lemma ends_in_after {B : Type} (f : Demuxer -> Demuxer) (k : unit -> P B) :
  (forall d, Post (f d)) ->
  (forall a, pkeeps (fun d d' => Post d -> Post d') (k a)) ->
  ends_in Post (pbind (plift (modify f)) k).
Proof.
  intros Hf Hk s b s' H. apply pbind_ok_inv in H as (a & s1 & H1 & H).
  unfold plift in H1. injection H1 as _ <-.
  apply (Hk _ _ _ _ H). cbn [demuxer set_demuxer modify snd]. apply Hf.
Qed.

End EndsIn.

(** *** The generic frame of a call *)

Section ChunksKeep.

Variable R : Demuxer -> Demuxer -> Prop.
Hypothesis R_refl : forall d, R d d.
Hypothesis R_trans : forall a b c, R a b -> R b c -> R a c.
Hypothesis R_meta : forall d x, R d (set_videoMetadata x d).
Hypothesis R_mi : forall d x, R d (set_mediaInfo x d).
Hypothesis R_hasVideo : forall d x, R d (set_mediaInfo x (set_hasVideo true d)).
Hypothesis R_dispatch : forall d x, R d (set_dispatch x d).
Hypothesis R_initial : forall d, R d (set_videoInitialMetadataDispatched true d).
Hypothesis R_nalu :
  forall d b, R d (set_naluLengthSize (Z.land (Z.land b 3) 3 + 1) d).
Hypothesis R_log :
  forall d e, is_data e = false -> R d (set_trace (trace d ++ [e]) d).
Hypothesis R_flush :
  forall d e, tracks_empty d = false -> R d (set_trace (trace d ++ [e]) d).
Hypothesis R_elst : forall d x, R d (set_elst x d).
Hypothesis R_stsc : forall d x, R d (set_stsc x d).
Hypothesis R_stsz : forall d x, R d (set_stsz x d).
Hypothesis R_stco : forall d x, R d (set_stco x d).
Hypothesis R_stts : forall d x, R d (set_stts x d).

Ltac pk_step :=
  first
    [ apply pkeeps_ret; exact R_refl
    | apply pkeeps_pres; exact R_refl
    | apply pkeeps_popt; exact R_refl
    | apply pkeeps_pget; exact R_refl
    | apply pkeeps_fuel
    | apply pkeeps_rest_update; exact R_refl
    | apply pkeeps_on_update; exact R_refl
    | apply pkeeps_pmodify; [exact R_refl | reflexivity]
    | apply pkeeps_plift; apply keeps_emit; intros; apply R_log; reflexivity
    | apply pkeeps_plift; apply keeps_modify; intros;
      first [ apply R_dispatch | apply R_elst | apply R_stsc | apply R_stsz
            | apply R_stco | apply R_stts ]
    | apply pkeeps_plift;
      first [ apply keeps_parseTkhd | apply keeps_parseMdhd
            | apply keeps_parseMvhd | apply keeps_parseStsd ];
      assumption
    | apply pkeeps_bind; [exact R_trans | | intros ?]
    | match goal with
      | |- pkeeps _ (if ?c then _ else _) => destruct c
      | |- pkeeps _ (match ?x with _ => _ end) => destruct x
      end ].

Lemma pkeeps_readTrak (le : bool) (parseSPS : list byte -> SPS.config)
  (isComplete : MediaInfo.t -> MediaInfoRest.t -> bool)
  (chunk : list byte) (v : DataView) (fuel : nat) :
  forall offset,
    pkeeps R (readTrak le parseSPS isComplete chunk v fuel offset).
Proof.
  induction fuel as [| fuel IH]; intros offset; cbn [readTrak].
  - pk_step.
  - destruct (offset <? _); [| pk_step].
    repeat first [apply IH | pk_step].
Qed.

Lemma pkeeps_read_boxes (le : bool) (parseSPS : list byte -> SPS.config)
  (isComplete : MediaInfo.t -> MediaInfoRest.t -> bool)
  (chunk : list byte) (v : DataView) (fuel : nat) :
  forall offset,
    pkeeps R (read_boxes le parseSPS isComplete chunk v fuel offset).
Proof.
  induction fuel as [| fuel IH]; intros offset; cbn [read_boxes].
  - pk_step.
  - destruct (offset <? _); [| pk_step].
    repeat first [apply IH | apply pkeeps_readTrak | pk_step].
Qed.

Lemma pkeeps_open_boxes (le : bool) (parseSPS : list byte -> SPS.config)
  (isComplete : MediaInfo.t -> MediaInfoRest.t -> bool) (fuel : nat)
  (chunk : list byte) (byteStart : Z) (offset : jsval) :
  pkeeps R (open_boxes le parseSPS isComplete fuel chunk byteStart offset).
Proof.
  unfold open_boxes. lazy zeta.
  repeat first [apply pkeeps_read_boxes | pk_step].
Qed.

Lemma R_log_w (msgs : list string) :
  forall d, R d (set_trace (trace d ++ map Log_w msgs) d).
Proof.
  induction msgs as [| msg msgs IH]; intros d; cbn [map].
  - rewrite app_nil_r. destruct d. apply R_refl.
  - apply (R_trans _ (set_trace (trace d ++ [Log_w msg]) d)).
    + apply R_log. reflexivity.
    + specialize (IH (set_trace (trace d ++ [Log_w msg]) d)).
      cbn [trace set_trace] in IH. rewrite <- app_assoc in IH. exact IH.
Qed.

Lemma keeps_resolve_tables : keeps R resolve_tables.
Proof.
  unfold resolve_tables. apply keeps_get_bind. intros d.
  apply (keeps_bind_at R R_trans); [apply R_refl | intros r].
  apply (keeps_bind R R_trans).
  - apply keeps_modify. intros d0. apply R_log_w.
  - intros _. destruct (_videoMetadata d); [| apply (keeps_lift R R_refl)].
    destruct (stts d); apply (keeps_lift R R_refl).
Qed.

Lemma pkeeps_parseScriptData
  (isComplete : MediaInfo.t -> MediaInfoRest.t -> bool) :
  pkeeps R (_parseScriptData isComplete).
Proof. unfold _parseScriptData. repeat pk_step. Qed.

(** [_parseScriptData], when it returns, has assigned [_dispatch]. *)
Lemma parseScriptData_ends_in (Post : Demuxer -> Prop)
  (isComplete : MediaInfo.t -> MediaInfoRest.t -> bool) :
  (forall d, Post (set_dispatch false d)) ->
  (forall d d', R d d' -> Post d -> Post d') ->
  ends_in Post (_parseScriptData isComplete).
Proof.
  intros Hset Hkeep. unfold _parseScriptData.
  apply ends_in_bind. intros s.
  do 2 (apply ends_in_bind; intros _).
  destruct (stsd s); try apply ends_in_throw.
  do 4 (apply ends_in_bind; intros _).
  destruct (_videoMetadata (demuxer s)); [| apply ends_in_throw].
  do 2 (apply ends_in_bind; intros _).
  destruct (stsz (demuxer s)); [| apply ends_in_throw].
  do 3 (apply ends_in_bind; intros _).
  apply ends_in_after; [exact Hset | intros _].
  intros s0 r s' H. apply Hkeep. revert s0 r s' H.
  change (pkeeps R
            (s <~~ pget ;;
             _ <~~ rest_update (rest_set_metadata (_metadata s)) ;;
             _ <~~ plift (emit (Log_v "Parsed onMetaData")) ;;
             s <~~ pget ;;
             if isComplete (_mediaInfo (demuxer s)) (mediaInfo_rest s)
             then plift (emit (onMediaInfo (_mediaInfo (demuxer s))))
             else pret tt)).
  repeat pk_step.
Qed.

End ChunksKeep.

(** *** The relations of a call *)

Lemma no_data_since_refl (d : Demuxer) : no_data_since d d.
Proof. exists []. split; [now rewrite app_nil_r | reflexivity]. Qed.

Lemma no_data_since_trans (a b c : Demuxer) :
  no_data_since a b -> no_data_since b c -> no_data_since a c.
Proof.
  intros (n1 & H1 & N1) (n2 & H2 & N2). exists (n1 ++ n2). split.
  - rewrite H2, H1, app_assoc. reflexivity.
  - rewrite forallb_app, N1, N2. reflexivity.
Qed.

Lemma no_data_since_same (d d' : Demuxer) :
  trace d' = trace d -> no_data_since d d'.
Proof. intros H. exists []. split; [now rewrite app_nil_r | reflexivity]. Qed.

Lemma no_data_since_emit (d : Demuxer) (e : Event) :
  is_data e = false -> no_data_since d (set_trace (trace d ++ [e]) d).
Proof.
  intros He. exists [e]. split; [reflexivity |]. cbn [forallb].
  now rewrite He.
Qed.

Lemma no_data_since_dispatch (d : Demuxer) (x : bool) :
  no_data_since d (set_dispatch x d).
Proof. apply no_data_since_same. reflexivity. Qed.

Lemma walk_frame_refl (d : Demuxer) : walk_frame d d.
Proof.
  split; [reflexivity |]. split; [reflexivity |].
  exists []. split; [now rewrite app_nil_r | reflexivity].
Qed.

Lemma walk_frame_trans (a b c : Demuxer) :
  walk_frame a b -> walk_frame b c -> walk_frame a c.
Proof.
  intros (A1 & A2 & n1 & At & An) (B1 & B2 & n2 & Bt & Bn).
  split; [congruence |]. split; [congruence |].
  exists (n1 ++ n2). split.
  - rewrite Bt, At, app_assoc. reflexivity.
  - intros He. rewrite forallb_app, An by exact He. apply Bn.
    unfold tracks_empty in *. rewrite A1, A2. exact He.
Qed.

Lemma walk_frame_of_parser_frame (d d' : Demuxer) :
  parser_frame d d' -> walk_frame d d'.
Proof.
  intros (A1 & A2 & _ & _ & _ & _ & _ & _ & _ & _ & _ & _ & _ & new & Ht & Hn).
  split; [exact A1 |]. split; [exact A2 |]. exists new. split; assumption.
Qed.

Lemma walk_frame_same (d d' : Demuxer) :
  _videoTrack d' = _videoTrack d -> _audioTrack d' = _audioTrack d ->
  trace d' = trace d -> walk_frame d d'.
Proof.
  intros H1 H2 H3. split; [exact H1 |]. split; [exact H2 |].
  exists []. split; [now rewrite app_nil_r | reflexivity].
Qed.

Lemma walk_frame_no_data (d d' : Demuxer) :
  walk_frame d d' -> tracks_empty d = true -> no_data_since d d'.
Proof.
  intros (_ & _ & new & Ht & Hn) He. exists new. split; [exact Ht | exact (Hn He)].
Qed.

Ltac walk_frame_hyp :=
  first
    [ exact walk_frame_refl
    | exact walk_frame_trans
    | intros; apply walk_frame_same; reflexivity
    | intros; apply walk_frame_of_parser_frame;
      first [ apply frame_set_videoMetadata | apply frame_set_mediaInfo
            | apply frame_set_hasVideo | apply frame_set_dispatch
            | apply frame_set_videoInitialMetadataDispatched
            | apply frame_set_naluLengthSize
            | apply frame_emit; assumption
            | apply frame_emit_data; assumption ] ].

Lemma walk_open_boxes (le : bool) (parseSPS : list byte -> SPS.config)
  (isComplete : MediaInfo.t -> MediaInfoRest.t -> bool) (fuel : nat)
  (chunk : list byte) (byteStart : Z) (offset : jsval) :
  pkeeps walk_frame
    (open_boxes le parseSPS isComplete fuel chunk byteStart offset).
Proof. apply pkeeps_open_boxes; walk_frame_hyp. Qed.

Lemma sample_frame_refl (d : Demuxer) : sample_frame d d.
Proof. split; [reflexivity | apply no_data_since_refl]. Qed.

Lemma sample_frame_trans (a b c : Demuxer) :
  sample_frame a b -> sample_frame b c -> sample_frame a c.
Proof.
  intros [A1 A2] [B1 B2]. split; [congruence |].
  exact (no_data_since_trans _ _ _ A2 B2).
Qed.

Lemma sample_frame_log_w (msg : string) (d : Demuxer) :
  sample_frame d (log_w msg d).
Proof. split; [reflexivity | apply no_data_since_emit; reflexivity]. Qed.

Lemma sample_frame_append (units : list NalUnit.t) (length : Z)
  (keyframe : bool) (dts : jsval) (d : Demuxer) :
  sample_frame d (append_sample units length keyframe dts d).
Proof.
  destruct units; cbn [append_sample]; [apply sample_frame_refl |].
  split; [reflexivity | apply no_data_since_same; reflexivity].
Qed.

(** Framing a sample appends to the video track and may warn; it does
    nothing else to the object. *)
Lemma parseAVCVideoData_js_frame (le : bool) (arrayBuffer : list byte)
  (dataOffset dataSize dts : jsval) (d : Demuxer) (r : result unit)
  (d' : Demuxer) :
  _parseAVCVideoData_js le arrayBuffer dataOffset dataSize dts d = Some (r, d') ->
  sample_frame d d'.
Proof.
  unfold _parseAVCVideoData_js, _parseAVCVideoData. intros H.
  repeat match type of H with
         | match ?x with _ => _ end = _ => destruct x
         end;
    try discriminate H; injection H as _ <-;
    first [ apply sample_frame_refl
          | apply sample_frame_log_w
          | apply sample_frame_append
          | eapply sample_frame_trans;
            [apply sample_frame_log_w | apply sample_frame_append] ].
Qed.

Lemma pkeeps_parse_samples (le : bool) (chunk : list byte)
  (sam2chk : list SamEntry) :
  pkeeps sample_frame (parse_samples le chunk sam2chk).
Proof.
  induction sam2chk as [| e rest IH]; cbn [parse_samples].
  - apply pkeeps_ret. exact sample_frame_refl.
  - apply pkeeps_bind; [exact sample_frame_trans | | intros _; exact IH].
    apply pkeeps_pstep. intros d r d'. apply parseAVCVideoData_js_frame.
Qed.

(** With [_dispatch] cleared, lines 393-397 do nothing. *)
Lemma flush_tracks_off (d : Demuxer) :
  _dispatch d = false -> flush_tracks d = (Ok tt, d).
Proof.
  intros H. unfold flush_tracks, mbind, get.
  destruct (_isInitialMetadataDispatched d); [| reflexivity].
  rewrite H. reflexivity.
Qed.

Lemma parseScriptData_clears_dispatch
  (isComplete : MediaInfo.t -> MediaInfoRest.t -> bool) :
  ends_in (fun d => _dispatch d = false) (_parseScriptData isComplete).
Proof.
  apply (parseScriptData_ends_in (fun d d' => _dispatch d' = _dispatch d)).
  all: first [ reflexivity | congruence | intros; reflexivity
             | intros; congruence ].
Qed.

(** Lines 383-399 call no [onDataAvailable], and return only with
    [_dispatch] cleared. *)
Lemma deliver_spec (le : bool)
  (isComplete : MediaInfo.t -> MediaInfoRest.t -> bool)
  (chunk : list byte) (offset : jsval) (s : Session) (r : result jsval)
  (s' : Session) :
  deliver le isComplete chunk offset s = Some (r, s') ->
  no_data_since (demuxer s) (demuxer s') /\
  (forall a, r = Ok a -> _dispatch (demuxer s') = false).
Proof.
  assert (Htab : pkeeps no_data_since (plift resolve_tables)).
  { apply pkeeps_plift. apply keeps_resolve_tables;
      first [ exact no_data_since_refl | exact no_data_since_trans
            | exact no_data_since_emit ]. }
  assert (Hscript : pkeeps no_data_since (_parseScriptData isComplete)).
  { apply pkeeps_parseScriptData;
      first [ exact no_data_since_refl | exact no_data_since_trans
            | exact no_data_since_emit | exact no_data_since_dispatch ]. }
  unfold deliver. intros H.
  apply pbind_inv in H as [(sam & s1 & H1 & H) | (e & H1 & ->)].
  2: { split; [exact (Htab _ _ _ H1) | intros a Ha; discriminate Ha]. }
  pose proof (Htab _ _ _ H1) as Q1.
  apply pbind_inv in H as [([] & s2 & H2 & H) | (e & H2 & ->)].
  2: { split; [| intros a Ha; discriminate Ha].
       exact (no_data_since_trans _ _ _ Q1 (Hscript _ _ _ H2)). }
  pose proof (Hscript _ _ _ H2) as Q2.
  pose proof (parseScriptData_clears_dispatch isComplete _ _ _ H2) as D2.
  cbn beta in D2.
  pose proof (no_data_since_trans _ _ _ Q1 Q2) as Q02.
  destruct sam as [table |].
  2: { unfold pres in H. injection H as <- <-.
       split; [exact Q02 | intros a Ha; discriminate Ha]. }
  apply pbind_inv in H as [([] & s3 & H3 & H) | (e & H3 & ->)].
  2: { split; [| intros a Ha; discriminate Ha].
       destruct (pkeeps_parse_samples _ _ _ _ _ _ H3) as [_ Q3].
       exact (no_data_since_trans _ _ _ Q02 Q3). }
  destruct (pkeeps_parse_samples _ _ _ _ _ _ H3) as [D3 Q3].
  rewrite D2 in D3.
  unfold pbind, plift, pret in H. rewrite (flush_tracks_off _ D3) in H.
  cbn [fst snd] in H. injection H as <- <-. cbn [demuxer set_demuxer].
  split; [| intros a _; exact D3].
  exact (no_data_since_trans _ _ _ Q02 Q3).
Qed.

(** The steps of lines 272-292 do not touch the demuxer. *)
Ltac pk_same :=
  repeat first
    [ apply pkeeps_ret; intros; reflexivity
    | apply pkeeps_pres; intros; reflexivity
    | apply pkeeps_popt; intros; reflexivity
    | apply pkeeps_pmodify; [intros; reflexivity | reflexivity]
    | apply pkeeps_bind; [intros; congruence | | intros ?]
    | match goal with
      | |- pkeeps _ (if ?c then _ else _) => destruct c
      end ].

Ltac same_demuxer H K :=
  match type of H with
  | ?m _ = _ =>
      assert (K : pkeeps (fun d d' : Demuxer => d' = d) m) by pk_same;
      specialize (K _ _ _ H); cbn beta in K
  end.

(** X27: whenever parseChunks returns, other than by the early return
    for a first chunk of at most 36 bytes, [_dispatch] is false:
    [_parseScriptData] has cleared it, and the sample loop does not set
    it.  The hand-over of lines 393-397 tests [_dispatch] after that and
    is never made: the call has gone through lines 383-399, and they
    have called no [onDataAvailable]. *)
Theorem parseChunks_leaves_dispatch_off (le : bool)
  (parseSPS : list byte -> SPS.config)
  (isComplete : MediaInfo.t -> MediaInfoRest.t -> bool) (fuel : nat)
  (chunk : list byte) (byteStart : Z) (s : Session) (r : jsval)
  (s' : Session) :
  byteStart <> 0 \/ 36 < Z.of_nat (List.length chunk) ->
  parseChunks le parseSPS isComplete fuel chunk byteStart s = Some (Ok r, s') ->
  _dispatch (demuxer s') = false /\
  exists s0,
    deliver le isComplete chunk r s0 = Some (Ok r, s') /\
    no_data_since (demuxer s0) (demuxer s').
Proof.
  intros Hc H. unfold parseChunks in H. lazy zeta in H.
  apply pbind_ok_inv in H as (name & s1 & _ & H).
  apply pbind_ok_inv in H as (off & s2 & _ & H).
  apply pbind_ok_inv in H as (o & s3 & Ho & H).
  destruct o as [o |].
  - apply pbind_ok_inv in H as (o' & s4 & _ & H).
    pose proof (deliver_spec _ _ _ _ _ _ _ H) as [Hq Hd].
    assert (Hr : r = o').
    { clear - H. unfold deliver in H.
      apply pbind_ok_inv in H as (sam & t1 & _ & H).
      apply pbind_ok_inv in H as (u & t2 & _ & H).
      destruct sam as [table |]; [| discriminate H].
      apply pbind_ok_inv in H as (u1 & t3 & _ & H).
      apply pbind_ok_inv in H as (u2 & t4 & _ & H).
      unfold pret in H. injection H as <- _. reflexivity. }
    subst o'. split; [exact (Hd _ eq_refl) |].
    exists s4. split; [exact H | exact Hq].
  - exfalso. destruct (byteStart =? 0) eqn:E0.
    + destruct (Z.of_nat (List.length chunk) >? 36) eqn:E36;
        [discriminate Ho |].
      apply Z.eqb_eq in E0. rewrite Z.gtb_ltb in E36.
      apply Z.ltb_ge in E36. destruct Hc; lia.
    + discriminate Ho.
Qed.

Lemma parseChunks_leaves_dispatch_off_witness :
  exists r s',
    (24 <> 0 \/ 36 < Z.of_nat (List.length moov_chunk)) /\
    parseChunks true parseSPS_25fps (fun mi _ => isComplete_per_spec mi) 400
      moov_chunk 24 (new_Session probe_at_24) = Some (Ok r, s') /\
    r = Int 364 /\
    Track.length (_videoTrack (demuxer s')) = 9 /\
    _dispatch (demuxer s') = false /\
    exists s0,
      deliver true (fun mi _ => isComplete_per_spec mi) moov_chunk r s0 =
        Some (Ok r, s') /\
      no_data_since (demuxer s0) (demuxer s').
Proof.
  eexists. eexists. split; [left; lia |].
  split; [vm_compute; reflexivity |].
  split; [reflexivity |]. split; [reflexivity |].
  apply (parseChunks_leaves_dispatch_off true parseSPS_25fps
           (fun mi _ => isComplete_per_spec mi) 400 moov_chunk 24
           (new_Session probe_at_24) (Int 364)).
  - left. lia.
  - vm_compute. reflexivity.
Defined.

(** X28: a call of parseChunks that starts with both tracks empty calls
    no [onDataAvailable], whether it returns or throws: the box parsers
    hand over only a track that holds data, and after the samples of
    this call have been framed nothing is handed over. *)
Theorem parseChunks_empty_tracks_no_data (le : bool)
  (parseSPS : list byte -> SPS.config)
  (isComplete : MediaInfo.t -> MediaInfoRest.t -> bool) (fuel : nat)
  (chunk : list byte) (byteStart : Z) (s : Session) (r : result jsval)
  (s' : Session) :
  tracks_empty (demuxer s) = true ->
  parseChunks le parseSPS isComplete fuel chunk byteStart s = Some (r, s') ->
  no_data_since (demuxer s) (demuxer s').
Proof.
  intros He H. unfold parseChunks in H. lazy zeta in H.
  apply pbind_inv in H as [(name & s1 & H1 & H) | (e & H1 & _)];
    same_demuxer H1 K1.
  2: { rewrite K1. apply no_data_since_refl. }
  apply pbind_inv in H as [(off & s2 & H2 & H) | (e & H2 & _)];
    same_demuxer H2 K2.
  2: { rewrite K2, K1. apply no_data_since_refl. }
  apply pbind_inv in H as [(o & s3 & H3 & H) | (e & H3 & _)];
    same_demuxer H3 K3.
  2: { rewrite K3, K2, K1. apply no_data_since_refl. }
  assert (K : demuxer s3 = demuxer s) by congruence.
  rewrite <- K in *. clear K K1 K2 K3 H1 H2 H3.
  destruct o as [o |].
  - apply pbind_inv in H as [(o' & s4 & H4 & H) | (e & H4 & _)].
    + apply walk_open_boxes in H4. apply deliver_spec in H as [H _].
      exact (no_data_since_trans _ _ _ (walk_frame_no_data _ _ H4 He) H).
    + apply walk_open_boxes in H4. exact (walk_frame_no_data _ _ H4 He).
  - unfold pret in H. injection H as _ <-. apply no_data_since_refl.
Qed.

Lemma parseChunks_empty_tracks_no_data_witness :
  exists r s',
    tracks_empty (demuxer (new_Session probe_at_24)) = true /\
    parseChunks true parseSPS_25fps (fun mi _ => isComplete_per_spec mi) 400
      moov_chunk 24 (new_Session probe_at_24) = Some (r, s') /\
    tracks_empty (demuxer s') = false /\
    no_data_since (demuxer (new_Session probe_at_24)) (demuxer s').
Proof.
  eexists. eexists. split; [reflexivity |].
  split; [vm_compute; reflexivity |].
  split; [reflexivity |].
  eapply (parseChunks_empty_tracks_no_data true parseSPS_25fps
            (fun mi _ => isComplete_per_spec mi) 400 moov_chunk 24
            (new_Session probe_at_24)).
  - reflexivity.
  - vm_compute. reflexivity.
Defined.

(** *** A box of size 0 *)

Lemma pbind_pres_ok {A B : Type} (a : A) (k : A -> P B) (s : Session) :
  pbind (pres (Ok a)) k s = k a s.
Proof. reflexivity. Qed.

Lemma pbind_ok {A B : Type} (m : P A) (k : A -> P B) (s : Session) (a : A)
  (s1 : Session) :
  m s = Some (Ok a, s1) -> pbind m k s = k a s1.
Proof. intros H. unfold pbind. rewrite H. reflexivity. Qed.

Lemma pbind_none {A B : Type} (m : P A) (k : A -> P B) (s : Session) :
  m s = None -> pbind m k s = None.
Proof. intros H. unfold pbind. rewrite H. reflexivity. Qed.

(** The outer loop does not move past a box of size 0 that it does not
    know: no number of iterations ends it. *)
Lemma read_boxes_stuck (le : bool) (parseSPS : list byte -> SPS.config)
  (isComplete : MediaInfo.t -> MediaInfoRest.t -> bool)
  (chunk : list byte) (v : DataView) (offset : Z) (name : string) :
  offset < Z.of_nat (List.length chunk) ->
  getUint32 v offset (negb le) = Ok 0 ->
  ReadBoxName v (offset + 4) = Ok name ->
  name <> "mvhd"%string -> name <> "trak"%string ->
  forall fuel s,
    read_boxes le parseSPS isComplete chunk v fuel offset s = None.
Proof.
  intros Hlt Hsize Hname Hmvhd Htrak.
  apply Z.ltb_lt in Hlt. apply String.eqb_neq in Hmvhd, Htrak.
  induction fuel as [| fuel IH]; intros s; cbn [read_boxes]; [reflexivity |].
  rewrite Hlt.
  rewrite (pbind_ok _ _ _ tt (set_demuxer (set_dispatch true (demuxer s)) s))
    by reflexivity.
  rewrite Hsize, pbind_pres_ok, Hname, pbind_pres_ok.
  unfold is_box. rewrite Hmvhd, Htrak, Z.add_0_r. apply IH.
Qed.

(** X29: a chunk other than the first that starts with a box of size 0
    whose type is none of ftyp, moov, mvhd and trak is never consumed:
    parseChunks adds 0 to the offset for ever, and no number of
    iterations makes it return or throw. *)
Theorem parseChunks_zero_size_box_never_returns (le : bool)
  (parseSPS : list byte -> SPS.config)
  (isComplete : MediaInfo.t -> MediaInfoRest.t -> bool)
  (chunk : list byte) (byteStart : Z) (name : string) :
  byteStart <> 0 ->
  getUint32 (view_of chunk) 0 (negb le) = Ok 0 ->
  ReadBoxName (view_of chunk) 4 = Ok name ->
  name <> "ftyp"%string -> name <> "moov"%string ->
  name <> "mvhd"%string -> name <> "trak"%string ->
  forall fuel s,
    parseChunks le parseSPS isComplete fuel chunk byteStart s = None.
Proof.
  intros Hstart Hsize Hname Hftyp Hmoov Hmvhd Htrak fuel s.
  pose proof (getUint32_in_range _ _ _ _ Hsize) as [_ Hlen].
  cbn [view_of dv_byteLength] in Hlen.
  apply Z.eqb_neq in Hstart. apply String.eqb_neq in Hftyp, Hmoov.
  unfold parseChunks. lazy zeta. change (0 + 4) with 4.
  rewrite Hname, pbind_pres_ok. unfold is_box at 1. rewrite Hftyp.
  rewrite (pbind_ok _ _ _ 0 s) by reflexivity.
  rewrite Hstart.
  rewrite (pbind_ok _ _ _ (Some (Int 0)) s) by reflexivity.
  apply pbind_none.
  unfold open_boxes. lazy zeta.
  rewrite (pbind_ok _ _ _ s s) by reflexivity.
  assert (Hfirst : exists s1,
    (if _firstParse s
     then _ <~~ pmodify (set_firstParse false) ;;
          if js_differs (js_add (Int byteStart) (Int 0)) (_infoOffset s)
          then plift (emit (Log_w "First time parsing but chunk byteStart invalid!"))
          else pret tt
     else pret tt) s = Some (Ok tt, s1)).
  { destruct (_firstParse s); [| eexists; reflexivity].
    destruct (js_differs _ _); eexists; reflexivity. }
  destruct Hfirst as [s1 Hfirst].
  rewrite (pbind_ok _ _ _ tt s1) by exact Hfirst.
  cbn [to_index js_add]. change (0 + 4) with 4.
  rewrite Hsize, pbind_pres_ok, Hname, pbind_pres_ok.
  unfold is_box at 1. rewrite Hmoov.
  apply pbind_none.
  apply (read_boxes_stuck le parseSPS isComplete chunk (view_of chunk) 0 name);
    [lia | exact Hsize | exact Hname | exact Hmvhd | exact Htrak].
Qed.

Lemma parseChunks_zero_size_box_never_returns_witness :
  24 <> 0 /\
  getUint32 (view_of free_box_size_0) 0 (negb true) = Ok 0 /\
  ReadBoxName (view_of free_box_size_0) 4 = Ok "free"%string /\
  parseChunks true parseSPS_25fps (fun mi _ => isComplete_per_spec mi) 1000
    free_box_size_0 24 (new_Session probe_at_24) = None.
Proof.
  split; [lia |]. split; [vm_compute; reflexivity |].
  split; [vm_compute; reflexivity |].
  apply (parseChunks_zero_size_box_never_returns true parseSPS_25fps
           (fun mi _ => isComplete_per_spec mi) free_box_size_0 24 "free");
    first [lia | vm_compute; reflexivity | discriminate].
Defined.

(** *** A short first chunk *)

Lemma ReadBoxName_inv (v : DataView) (o : Z) (name : string) :
  ReadBoxName v o = Ok name ->
  0 <= o /\ o + 4 <= Z.of_nat (List.length (dv_buffer v)).
Proof.
  unfold ReadBoxName, buffer_ascii, new_Uint8Array.
  destruct (0 <=? o) eqn:E1;
    destruct (o + 4 <=? Z.of_nat (List.length (dv_buffer v))) eqn:E2;
    cbn; try discriminate.
  intros _. apply Z.leb_le in E1, E2. split; assumption.
Qed.

Lemma ReadBoxName_throws (v : DataView) (o : Z) (e : exn) :
  ReadBoxName v o = Throw e -> e = RangeError.
Proof.
  unfold ReadBoxName, buffer_ascii, new_Uint8Array.
  destruct (_ && _ && _); cbn; congruence.
Qed.

Lemma getUint32_throws (v : DataView) (o : Z) (f : bool) (e : exn) :
  getUint32 v o f = Throw e -> e = RangeError.
Proof. unfold getUint32. destruct (dv_in_range v o 4); congruence. Qed.

Lemma new_DataView_throws (buf : list byte) (o n : Z) (e : exn) :
  new_DataView buf o n = Throw e -> e = RangeError.
Proof. unfold new_DataView. destruct (_ && _ && _); congruence. Qed.

Lemma ftyp_loop_throws (v : DataView) (dataOffset dataSize : Z) (e : exn)
  (fuel : nat) :
  forall offset acc,
    ftyp_loop v dataOffset dataSize fuel offset acc = Some (Throw e) ->
    e = RangeError.
Proof.
  induction fuel as [| fuel IH]; intros offset acc; cbn [ftyp_loop];
    [discriminate |].
  destruct (offset + 4 <? dataSize); [| discriminate].
  destruct (ReadBoxName v (dataOffset + offset)) as [brand | e0] eqn:E.
  - apply IH.
  - intros H. injection H as <-. exact (ReadBoxName_throws _ _ _ E).
Qed.

Lemma parseFtyp_throws (le : bool) (arrayBuffer : list byte)
  (dataOffset dataSize : Z) (e : exn) :
  _parseFtyp le arrayBuffer dataOffset dataSize = Some (Throw e) ->
  e = RangeError.
Proof.
  unfold _parseFtyp.
  destruct (new_DataView arrayBuffer dataOffset dataSize) as [v | e0] eqn:E0.
  2: { intros H. injection H as <-. exact (new_DataView_throws _ _ _ _ E0). }
  destruct (ReadBoxName v (dataOffset + 8)) as [major | e1] eqn:E1.
  2: { intros H. injection H as <-. exact (ReadBoxName_throws _ _ _ E1). }
  destruct (getUint32 v 12 (negb le)) as [minor | e2] eqn:E2.
  2: { intros H. injection H as <-. exact (getUint32_throws _ _ _ _ E2). }
  destruct (ftyp_loop v dataOffset dataSize (S (Z.to_nat dataSize)) 16 [])
    as [[names | e3] |] eqn:E3; try discriminate.
  intros H. injection H as <-. exact (ftyp_loop_throws _ _ _ _ _ _ _ E3).
Qed.

(** X30: a first chunk (byteStart 0) of at most 36 bytes is not parsed
    beyond its ftyp box: whatever the fuel, parseChunks returns 0 or
    throws a RangeError, and the demuxer state, the log and the
    first-parse flag are as before.  A chunk of fewer than 8 bytes, at
    any position, is a RangeError that changes nothing. *)
Theorem parseChunks_short_first_chunk (le : bool)
  (parseSPS : list byte -> SPS.config)
  (isComplete : MediaInfo.t -> MediaInfoRest.t -> bool) (fuel : nat)
  (chunk : list byte) (s : Session) :
  Z.of_nat (List.length chunk) <= 36 ->
  (exists r s',
     parseChunks le parseSPS isComplete fuel chunk 0 s = Some (r, s') /\
     (r = Ok (Int 0) \/ r = Throw RangeError) /\
     demuxer s' = demuxer s /\ _firstParse s' = _firstParse s) /\
  (Z.of_nat (List.length chunk) < 8 ->
   forall byteStart,
     parseChunks le parseSPS isComplete fuel chunk byteStart s =
     Some (Throw RangeError, s)).
Proof.
  intros Hlen. split.
  - assert (E36 : (Z.of_nat (List.length chunk) >? 36) = false)
      by (rewrite Z.gtb_ltb; apply Z.ltb_ge; exact Hlen).
    unfold parseChunks. lazy zeta. change (0 =? 0) with true. cbv iota.
    rewrite E36.
    destruct (ReadBoxName (view_of chunk) (0 + 4)) as [name | e] eqn:Hn.
    2: { apply ReadBoxName_throws in Hn as ->.
         exists (Throw RangeError), s. repeat split. right. reflexivity. }
    rewrite pbind_pres_ok.
    destruct (is_box name "ftyp").
    2: { exists (Ok (Int 0)), s. repeat split. left. reflexivity. }
    destruct (getUint32 (view_of chunk) 0 (negb le)) as [n | e] eqn:Hs.
    2: { apply getUint32_throws in Hs as ->.
         exists (Throw RangeError), s. repeat split. right. reflexivity. }
    destruct (_parseFtyp le chunk 0 n) as [[detail | e] |] eqn:Hf.
    + exists (Ok (Int 0)), (set_ftyp (Some detail) s).
      unfold pbind, pres, popt, pmodify, pret. rewrite Hf.
      repeat split. left. reflexivity.
    + apply parseFtyp_throws in Hf as Hf'. subst e.
      exists (Throw RangeError), s.
      unfold pbind, pres, popt, pmodify, pret. rewrite Hf.
      repeat split. right. reflexivity.
    + exfalso. exact (parseFtyp_returns _ _ _ _ Hf).
  - intros H8 byteStart. unfold parseChunks. lazy zeta.
    destruct (ReadBoxName (view_of chunk) (0 + 4)) as [name | e] eqn:Hn.
    + apply ReadBoxName_inv in Hn as [_ Hn]. cbn [view_of dv_buffer] in Hn. lia.
    + apply ReadBoxName_throws in Hn as ->. reflexivity.
Qed.

Lemma parseChunks_short_first_chunk_witness :
  Z.of_nat (List.length ftyp_two_brands) <= 36 /\
  exists r s',
    parseChunks true parseSPS_25fps (fun mi _ => isComplete_per_spec mi) 0
      ftyp_two_brands 0 (new_Session probe_at_24) = Some (r, s') /\
    (r = Ok (Int 0) \/ r = Throw RangeError) /\
    demuxer s' = demuxer (new_Session probe_at_24) /\
    _firstParse s' = _firstParse (new_Session probe_at_24).
Proof.
  split; [simpl; lia |].
  apply (parseChunks_short_first_chunk true parseSPS_25fps
           (fun mi _ => isComplete_per_spec mi) 0 ftyp_two_brands
           (new_Session probe_at_24)).
  simpl. lia.
Defined.
